(* ===== verification/_CoqProject ===== *)
-Q . S2P
Prelude.v
FixedPoint.v
Sums.v
Codebooks.v
Math.v
Utils.v
Context.v
Heap.v
DecodeLSP.v
DecodeExcitation.v
Synthesis.v
LP2LSP.v
ComfortNoise.v
Decoder.v
EncContext.v
EncChannel.v
EncPitch.v
EncGain.v
EncLP.v
EncAdaptative.v
EncLSP.v
EncFixed.v
EncPhi.v
EncNearest.v
EncVad.v
EncDtx.v
Encoder.v
EncSync.v
EncStream.v
ModBcg729.v
PropsModule.v
PropsCodec.v
PropsMath.v
PropsEncoder.v
PropsNoise.v
PropsFrame.v
PropsSession.v
PropsCall.v
