(* ===== verification/Prelude.v ===== *)
(** * Verification of the SuperSBC G.729 codec

    SuperSBC is a session border controller: a FreeSWITCH media server with Go services
    around it.  The part of it written in C is a FreeSWITCH codec module,
    [deploy/freeswitch/src/mod_bcg729.c], and the fixed-point G.729 Annex A/B codec it drives,
    [deploy/freeswitch/src/bcg729/src].  This development models that part: the whole module,
    the whole decoder and the whole encoder, with its voice activity detection and
    discontinuous transmission.

    ** The program

    FreeSWITCH calls the module through five handlers: load (read the configuration, register
    twelve packetisations), init, destroy, encode and decode.  A codec instance owns at most
    one encoder channel and one decoder channel.  [decode] cuts a packet into frames of ten
    bytes (speech) and two bytes (SID, comfort noise) and calls [bcg729Decoder] on each, or
    conceals a lost packet; [encode] calls [bcg729Encoder] on each 10 ms of input.
    [bcg729Decoder] unpacks the fifteen parameters of a frame, decodes the line spectral
    frequencies, and for each subframe of 40 samples the pitch delay, the adaptative and fixed
    codebook vectors and the gains; it then synthesises, post filters and high-pass filters
    the speech.  SID and missing frames go through the comfort noise generator.  [bcg729Encoder] filters
    the input, analyses it (autocorrelation, LP coefficients, line spectral frequencies), decides
    whether the frame is speech, and then either describes the noise (SID or nothing sent) or
    quantizes the spectrum, computes the weighted speech and the open loop pitch, and for each
    subframe searches the adaptative codebook, the fixed codebook and the gains.  The encoder
    keeps the same predictors as the decoder (quantized spectrum, gains, excitation), and the two
    must stay equal without any message but the frames.

    ** The model

    A C function is a function into [res], a result or a [fault]: an access outside an array,
    a division that C does not define, a shift by a count outside the width, a null
    dereference, a bad free, or a loop that does not return.  Arrays are lists with checked
    load and store ([ld], [st]); a pointer into an array is the array with an offset.  Machine
    integers are [Z] with the wrap of each cast written out ([i16], [i32], [u8], ...): signed
    32-bit operations wrap, as on the compilers the code is built with.  Loops are bounded
    iterations ([for_up], [for_down], [for_step]) or [while] with a fuel; running out of fuel is
    the fault [NoReturn], so each theorem that excludes faults also proves that the loops end.
    The fuels are 64 for the leading zero counters ([countLeadingZeros_ends] shows that more fuel
    never changes the result: the loop of the C code ends within 32 turns or never), 40 for the
    normalisations of a 64-bit sum, the number of codebook entries plus two for the gain
    preselection, and the packet length plus one for the packet loop.  Contexts are records
    with one setter per field; the heap is a counter and a list of live blocks, so that leaks
    and bad frees are visible.  Safety proofs use the weakest precondition [wp F m Q]: the
    result of [m] satisfies [Q], or its fault is in [F]; [safe] is [wp] without faults.

    ** The files

    - [Prelude]: the monad, casts, arrays, loops, the [wp] rules and tactics, exhaustive
      evaluation.
    - [FixedPoint]: [fixedPointMacros.h] and the constants.  [Sums]: finite sums and the loops
      that accumulate them.  [Codebooks]: [codebooks.c].  [Math]: [g729FixedPointMath.h] and
      the leading zero counters of [utils.h].  [Utils]: [utils.c].
    - [Context], [EncContext]: the channel contexts of [typedef.h] with their well-formedness
      (array sizes and element ranges).  [Heap]: allocation.
    - [DecodeLSP] ([decodeLSP.c], [interpolateqLSP.c], [qLSP2LP.c]), [DecodeExcitation]
      ([decodeAdaptativeCodeVector.c], [decodeFixedCodeVector.c], [decodeGains.c]),
      [Synthesis] ([LPSynthesisFilter.c], [postFilter.c], [postProcessing.c]), [LP2LSP]
      ([LP2LSPConversion.c]), [ComfortNoise] ([cng.c]), [Decoder] ([decoder.c]).
    - [EncChannel] (creation and destruction of encoder channels, [preProcessing.c]), [EncPitch]
      ([findOpenLoopPitchDelay.c], [computeAdaptativeCodebookGain.c]), [EncGain]
      ([gainQuantization.c]), [EncLP] ([computeLP.c], [computeWeightedSpeech.c]), [EncAdaptative]
      ([adaptativeCodebookSearch.c]), [EncLSP] ([LSPQuantization.c]), [EncFixed]
      ([fixedCodebookSearch.c]; [EncPhi]: its correlation matrix and the pulses it finds),
      [EncNearest] (the spectral quantizer against exact arithmetic),
      [EncVad] ([vad.c]), [EncDtx] ([dtx.c]), [Encoder] ([encoder.c]).
    - [EncSync]: what a frame of the encoder and a frame of the decoder do to the memories both
      sides keep.  [EncStream]: the relation between the two channels, kept by any sequence of
      speech frames, noise descriptors and frames that are not sent.
    - [ModBcg729]: the module.  Its handlers are written against the classes [FrameDecoder]
      and [FrameEncoder], which state what one frame call promises; [channelDecoder] and
      [channelEncoder] prove that the modelled codec is an instance of both.
    - [PropsModule], [PropsCodec], [PropsMath], [PropsEncoder] (searches of the encoder),
      [PropsNoise] (voice activity and comfort noise), [PropsFrame] (whole frames and
      streams of frames, with losses), [PropsSession] (the module with the codec), [PropsCall] (two
      codecs in a call): the theorems, each with an evaluation on concrete inputs where
      it has hypotheses.

    ** What the theorems show

    Module: packet decoding and encoding refine frame list specifications (which packets are cut
    into their frames, what happens when the output is too small), loss concealment fills the
    output, both handlers stay inside their buffers for every packet and every frame codec
    that meets the interface, creation and destruction balance on the heap, registration and
    configuration are consistent.
    Decoder: on every well-formed context and every input the decoder keeps its context well
    formed and reaches no fault except, possibly, a division by zero in the tilt compensation
    of the post filter or in the LSP conversion of an RFC 3389 payload; every reachable context
    is well formed.  The frame layout is a bijection in both directions; parity, sorting,
    stabilisation, pitch delay, codebook energy, gain decay and the two synthesis filters have
    their functional theorems; comfort noise is total for all seeds.
    Arithmetic: accuracy or monotonicity of the elementary functions over their whole
    domains, exactness of the split products.
    Encoder: on every well-formed context and every input the encoder keeps its context well
    formed, stays inside its buffers and reaches only the faults [encode_fault] lists; every
    reachable context is well formed. From creation on, over any mixed sequence of speech frames,
    noise descriptors and frames that are not sent, the predictors of the encoder and of the
    decoder of its stream are equal, and so are the seed and the gains of the noise generator.
    After losses, two speech frames received in a row restore the gain predictor and four restore
    the whole relation, whatever the concealment did ([stream_recovers]). The excitations are not
    kept equal: the encoder sharpens the code vector with a larger pitch gain, and rounds
    the gains differently ([excitation_diverges] and the bound of [gainQuantization_in_step]). The
    open loop pitch is total with its delay in [20, 143]; the closed loop search leaves in the
    encoder's excitation the adaptative codebook vector that the decoder rebuilds, or finds every sum
    at the most negative number and uses an unset delay ([adaptativeCodebookSearch_unset]); the adaptative
    gain is the exact clamped quotient; the gain quantizer picks the pair of minimal exact error
    among the preselected ones, and the preselected window is the one around the best gains; the
    spectrum quantizer picks the entry of each stage that is nearest in exact arithmetic, as long
    as the sums fit their 32 bits ([nearest_wraps] shows what happens otherwise); the
    fixed codebook search computes the exact scaled correlation matrix, sets one pulse on each
    track, and the decoder reads these four pulses back from the codeword; the LP analysis
    computes the exact autocorrelation at one scale.
    Silence: the voice decision ends within eleven frames of silence, SID frames are at least
    three frames apart, the fields of a SID are those the decoder reads.
    Call: two codecs, one that encodes packets and one that decodes or conceals them, deliver as many
    samples as were encoded and stay in step, through the handlers of the module ([call_in_step]); a
    descriptor whose L2 index the packing alters counts as a loss.
    Session: from creation, through any sequence of encode and decode calls, both handlers stay
    inside their buffers and never follow a NULL pointer.
    A few theorems state behaviour that a caller would not expect: levels, samples and
    distances that wrap.

    ** What is not modelled

    Nothing of the module and of the codec is left out but the codec's test drivers and the
    compiler-specific alternatives of [utils.h].
    Signed overflow, which C leaves undefined, is modelled as a wrap; a read of an array element
    that the code has not written is modelled by the value the array starts with in the model,
    except for the indices of the spectral quantizer searches and the integer pitch delay, whose
    unset value is the fault [Uninit]. FreeSWITCH itself (the module loader, its memory pool, its
    configuration parser) is a parameter. The Go services, the Lua scripts and the web console are
    outside the development.

    ** Open questions

    Not proved: which divisions of the LP analysis cannot fault (the fault is allowed by the safety
    theorems); a bound on the distance between the excitations of the two sides. Packets that mix
    speech, descriptors and frames that are not sent are not synchronised by the module, so the
    theorem on calls is about one frame per packet when voice activity detection is on. *)

From stdpp Require Export base numbers list option tactics sorting.
From Stdlib Require Export ZArith Lia Permutation Sorted.

#[global] Open Scope Z_scope.

(** ** Faults and the result monad *)

Inductive fault : Set :=
| OutOfBounds
| DivError
| BadShift
| NullDeref
| BadFree
| NoReturn
| Uninit.

#[export] Instance fault_eq_dec : EqDecision fault.
Proof. solve_decision. Defined.

Inductive res (A : Type) : Type :=
| Ok (a : A)
| Err (f : fault).
Arguments Ok {A} a.
Arguments Err {A} f.

Definition bind {A B} (m : res A) (k : A → res B) : res B :=
  match m with
  | Ok a => k a
  | Err f => Err f
  end.

Declare Scope c_scope.
Delimit Scope c_scope with c.

Notation "'let*' x ':=' m 'in' k" := (bind m (fun x => k))
  (at level 10, x pattern, m at level 100, k at level 200,
   format "'[v' 'let*'  x  ':='  m  'in' '/' k ']'") : c_scope.
#[global] Open Scope c_scope.

(** ** Machine integers *)

Definition i16 (z : Z) : Z :=
  if (-32768 <=? z) && (z <=? 32767) then z else (z + 32768) mod 65536 - 32768.
Definition i32 (z : Z) : Z :=
  if (-2147483648 <=? z) && (z <=? 2147483647) then z
  else (z + 2147483648) mod 4294967296 - 2147483648.
Definition i64 (z : Z) : Z :=
  if (-9223372036854775808 <=? z) && (z <=? 9223372036854775807) then z
  else (z + 9223372036854775808) mod 18446744073709551616 - 9223372036854775808.
Definition i8 (z : Z) : Z :=
  if (-128 <=? z) && (z <=? 127) then z else (z + 128) mod 256 - 128.
Definition u8 (z : Z) : Z := z mod 256.
Definition u16 (z : Z) : Z := z mod 65536.
Definition u32 (z : Z) : Z := z mod 4294967296.

Definition rng (lo hi v : Z) : Prop := lo ≤ v ≤ hi.
Abbreviation i8r := (rng (-128) 127).
Abbreviation i16r := (rng (-32768) 32767).
Abbreviation i32r := (rng (-2147483648) 2147483647).
Abbreviation i64r := (rng (-9223372036854775808) 9223372036854775807).
Abbreviation u8r := (rng 0 255).
Abbreviation u16r := (rng 0 65535).
Abbreviation u32r := (rng 0 4294967295).

#[export] Instance rng_dec lo hi v : Decision (rng lo hi v).
Proof. unfold rng; apply _. Defined.

Create HintDb rng.

Lemma i8_rng z : i8r (i8 z).
Proof. unfold i8, rng. destruct (_ && _) eqn:E; [lia|]. pose proof (Z.mod_pos_bound (z + 128) 256); lia. Qed.
Lemma i16_rng z : i16r (i16 z).
Proof. unfold i16, rng. destruct (_ && _) eqn:E; [lia|]. pose proof (Z.mod_pos_bound (z + 32768) 65536); lia. Qed.
Lemma i32_rng z : i32r (i32 z).
Proof. unfold i32, rng. destruct (_ && _) eqn:E; [lia|]. pose proof (Z.mod_pos_bound (z + 2147483648) 4294967296); lia. Qed.
Lemma i64_rng z : i64r (i64 z).
Proof.
  unfold i64, rng. destruct (_ && _) eqn:E; [lia|].
  pose proof (Z.mod_pos_bound (z + 9223372036854775808) 18446744073709551616); lia.
Qed.
Lemma u8_rng z : u8r (u8 z).
Proof. unfold u8, rng. pose proof (Z.mod_pos_bound z 256); lia. Qed.
Lemma u16_rng z : u16r (u16 z).
Proof. unfold u16, rng. pose proof (Z.mod_pos_bound z 65536); lia. Qed.
Lemma u32_rng z : u32r (u32 z).
Proof. unfold u32, rng. pose proof (Z.mod_pos_bound z 4294967296); lia. Qed.

Lemma i16_id z : i16r z → i16 z = z.
Proof. unfold i16, rng. intros. destruct (_ && _) eqn:E; [done|lia]. Qed.
Lemma i32_id z : i32r z → i32 z = z.
Proof. unfold i32, rng. intros. destruct (_ && _) eqn:E; [done|lia]. Qed.
Lemma i64_id z : i64r z → i64 z = z.
Proof. unfold i64, rng. intros. destruct (_ && _) eqn:E; [done|lia]. Qed.
Lemma u8_id z : u8r z → u8 z = z.
Proof. unfold u8, rng. intros. apply Z.mod_small. lia. Qed.
Lemma u16_id z : u16r z → u16 z = z.
Proof. unfold u16, rng. intros. apply Z.mod_small. lia. Qed.
Lemma u32_id z : u32r z → u32 z = z.
Proof. unfold u32, rng. intros. apply Z.mod_small. lia. Qed.

#[export] Hint Resolve i8_rng i16_rng i32_rng i64_rng u8_rng u16_rng u32_rng : rng.

Lemma rng_weaken lo hi lo' hi' v : rng lo hi v → lo' ≤ lo → hi ≤ hi' → rng lo' hi' v.
Proof. unfold rng; lia. Qed.

(** The bounds of every range hypothesis and of every wrapped term, for [lia]. *)
Ltac rngs :=
  unfold rng in *.

(** ** Arrays *)

Definition zlen {A} (a : list A) : Z := Z.of_nat (length a).

Definition ld {A} (a : list A) (i : Z) : res A :=
  if 0 <=? i then
    match a !! Z.to_nat i with
    | Some v => Ok v
    | None => Err OutOfBounds
    end
  else Err OutOfBounds.

Definition st {A} (a : list A) (i : Z) (v : A) : res (list A) :=
  if (0 <=? i) && (i <? zlen a) then Ok (<[Z.to_nat i := v]> a) else Err OutOfBounds.

(** [a[i][j]] and [a[i][j] = v] on an array of rows. *)
Definition ld2 {A} (a : list (list A)) (i j : Z) : res A :=
  let* r := ld a i in ld r j.
Definition st2 {A} (a : list (list A)) (i j : Z) (v : A) : res (list (list A)) :=
  let* r := ld a i in
  let* r' := st r j v in
  st a i r'.

Definition zeros (n : Z) : list Z := replicate (Z.to_nat n) 0.

(** A local read before it is known to be written: [None] is its indeterminate value. *)
Definition initialised {A} (o : option A) : res A :=
  match o with
  | Some v => Ok v
  | None => Err Uninit
  end.

(** ** Loops *)

Fixpoint forN {S} (n : nat) (i step : Z) (s : S) (f : Z → S → res S) : res S :=
  match n with
  | O => Ok s
  | Datatypes.S n' => let* s' := f i s in forN n' (i + step) step s' f
  end.

(** [for (i = lo; i < hi; i++)] *)
Definition for_up {S} (lo hi : Z) (s : S) (f : Z → S → res S) : res S :=
  forN (Z.to_nat (hi - lo)) lo 1 s f.
(** [for (i = hi; i >= lo; i--)] *)
Definition for_down {S} (hi lo : Z) (s : S) (f : Z → S → res S) : res S :=
  forN (Z.to_nat (hi - lo + 1)) hi (-1) s f.

(** [for (i = lo; i < hi; i += step)], for a positive step *)
Definition for_step {S} (lo hi step : Z) (s : S) (f : Z → S → res S) : res S :=
  forN (Z.to_nat ((hi - lo + step - 1) / step)) lo step s f.

(** [while (c) b], cut after [fuel] iterations: running out of fuel is the fault
    [NoReturn], so a theorem that excludes the fault proves that the loop ends. *)
Fixpoint while {S} (fuel : nat) (c : S → res bool) (b : S → res S) (s : S) : res S :=
  match fuel with
  | O => Err NoReturn
  | Datatypes.S n =>
    let* t := c s in
    if t then (let* s' := b s in while n c b s') else Ok s
  end.

(** [memcpy]/[memmove] of [n] elements: the source block is read first. *)
Definition read_block {A} (a : list A) (off n : Z) : res (list A) :=
  if (0 <=? off) && (0 <=? n) && (off + n <=? zlen a)
  then Ok (take (Z.to_nat n) (drop (Z.to_nat off) a)) else Err OutOfBounds.
Definition write_block {A} (a : list A) (off : Z) (b : list A) : res (list A) :=
  if (0 <=? off) && (off + zlen b <=? zlen a)
  then Ok (list_inserts (Z.to_nat off) b a) else Err OutOfBounds.
Definition copy_block {A} (dst : list A) (doff : Z) (src : list A) (soff n : Z) : res (list A) :=
  let* b := read_block src soff n in write_block dst doff b.

(** ** Weakest preconditions *)

Definition wp {A} (F : fault → Prop) (m : res A) (Q : A → Prop) : Prop :=
  match m with
  | Ok a => Q a
  | Err f => F f
  end.

Definition no_fault : fault → Prop := λ _, False.
Abbreviation safe m Q := (wp no_fault m Q).

Lemma wp_bind {A B} F (m : res A) (k : A → res B) Q :
  wp F m (λ a, wp F (k a) Q) → wp F (bind m k) Q.
Proof. by destruct m. Qed.

Lemma wp_mono {A} F (m : res A) (P Q : A → Prop) :
  wp F m P → (∀ a, P a → Q a) → wp F m Q.
Proof. destruct m; simpl; auto. Qed.

Lemma wp_faults {A} (F G : fault → Prop) (m : res A) (P Q : A → Prop) :
  wp F m P → (∀ f, F f → G f) → (∀ a, P a → Q a) → wp G m Q.
Proof. destruct m; simpl; auto. Qed.

Lemma wp_of_safe {A} F (m : res A) (P Q : A → Prop) :
  safe m P → (∀ a, P a → Q a) → wp F m Q.
Proof. destruct m; simpl; [auto|intros []]. Qed.

Lemma safe_ok {A} (m : res A) Q : safe m Q ↔ ∃ a, m = Ok a ∧ Q a.
Proof.
  destruct m as [a|f]; simpl; split; [eauto| |intros []|].
  - intros (b & ? & ?). by simplify_eq.
  - intros (b & ? & ?). done.
Qed.

Lemma wp_ok {A} F (m : res A) a (Q : A → Prop) : wp F m Q → m = Ok a → Q a.
Proof. by intros H ->. Qed.

(** ** Arrays of known size and element invariant *)

Definition arr {A} (P : A → Prop) (n : Z) (a : list A) : Prop := zlen a = n ∧ Forall P a.

Lemma zlen_insert {A} (a : list A) i v : zlen (<[i:=v]> a) = zlen a.
Proof. unfold zlen. by rewrite length_insert. Qed.

Lemma zlen_nonneg {A} (a : list A) : 0 ≤ zlen a.
Proof. unfold zlen. lia. Qed.

Lemma ld_lookup {A} (a : list A) i v :
  ld a i = Ok v ↔ 0 ≤ i ∧ a !! Z.to_nat i = Some v.
Proof.
  unfold ld. destruct (Z.leb_spec 0 i) as [Hi|Hi].
  - destruct (a !! Z.to_nat i) eqn:E; split; intros E'; destruct_and?; simplify_eq; auto.
  - split; [done|]. lia.
Qed.

Lemma wp_ld {A} F (a : list A) i (Q : A → Prop) :
  0 ≤ i < zlen a → (∀ v, a !! Z.to_nat i = Some v → Q v) → wp F (ld a i) Q.
Proof.
  unfold ld, zlen. intros [? ?] HQ. destruct (Z.leb_spec 0 i); [|lia].
  destruct (lookup_lt_is_Some_2 a (Z.to_nat i)) as [v Hv]; [lia|].
  rewrite Hv. simpl. auto.
Qed.

Lemma wp_st {A} F (a : list A) i v (Q : list A → Prop) :
  0 ≤ i < zlen a → Q (<[Z.to_nat i := v]> a) → wp F (st a i v) Q.
Proof. unfold st. intros [? ?] HQ. by destruct (_ && _) eqn:E; [|lia]. Qed.

Lemma wp_ld_arr {A} F P n (a : list A) i (Q : A → Prop) :
  arr P n a → 0 ≤ i < n → (∀ v, P v → Q v) → wp F (ld a i) Q.
Proof.
  intros [<- HP] Hi HQ. apply wp_ld; [done|]. intros v Hv. apply HQ.
  by eapply Forall_lookup_1.
Qed.

Lemma wp_st_arr {A} F P n (a : list A) i v (Q : list A → Prop) :
  arr P n a → 0 ≤ i < n → P v → (∀ a', arr P n a' → Q a') → wp F (st a i v) Q.
Proof.
  intros [<- HP] Hi Hv HQ. apply wp_st; [done|]. apply HQ. split.
  - apply zlen_insert.
  - by apply Forall_insert.
Qed.

Lemma wp_ld2_arr {A} F P n m (a : list (list A)) i j (Q : A → Prop) :
  arr (arr P m) n a → 0 ≤ i < n → 0 ≤ j < m → (∀ v, P v → Q v) → wp F (ld2 a i j) Q.
Proof.
  intros Ha Hi Hj HQ. unfold ld2. apply wp_bind.
  eapply wp_ld_arr; [done..|]. intros r Hr. by eapply wp_ld_arr.
Qed.

Lemma wp_st2_arr {A} F P n m (a : list (list A)) i j v (Q : list (list A) → Prop) :
  arr (arr P m) n a → 0 ≤ i < n → 0 ≤ j < m → P v →
  (∀ a', arr (arr P m) n a' → Q a') → wp F (st2 a i j v) Q.
Proof.
  intros Ha Hi Hj Hv HQ. unfold st2. apply wp_bind.
  eapply wp_ld_arr; [done..|]. intros r Hr. apply wp_bind.
  eapply wp_st_arr; [done..|]. intros r' Hr'. by eapply wp_st_arr.
Qed.

Lemma arr_mono {A} (P R : A → Prop) n a : arr P n a → (∀ v, P v → R v) → arr R n a.
Proof. intros [Hn HP] HR. split; [done|]. eapply Forall_impl; eauto. Qed.

Lemma arr_zeros (P : Z → Prop) n : 0 ≤ n → P 0 → arr P n (zeros n).
Proof.
  intros ? HP. unfold zeros. split.
  - unfold zlen. rewrite length_replicate. lia.
  - by apply Forall_replicate.
Qed.

(** A concrete table satisfies an array predicate by evaluation. *)
Definition arrb {A} (p : A → bool) (n : Z) (a : list A) : bool :=
  (zlen a =? n) && forallb p a.

Lemma arrb_sound {A} (p : A → bool) (P : A → Prop) n a :
  arrb p n a = true → (∀ v, p v = true → P v) → arr P n a.
Proof.
  unfold arrb. intros [H1 H2]%andb_true_iff HP. split; [lia|].
  apply List.Forall_forall. intros v Hv. apply HP. by apply (proj1 (forallb_forall _ _) H2).
Qed.

Definition rngb (lo hi v : Z) : bool := (lo <=? v) && (v <=? hi).
Lemma rngb_sound lo hi v : rngb lo hi v = true → rng lo hi v.
Proof. unfold rngb, rng. lia. Qed.

Lemma arr_rng_by lo hi n a : arrb (rngb lo hi) n a = true → arr (rng lo hi) n a.
Proof. intros H. eapply arrb_sound; [done|]. apply rngb_sound. Qed.
Lemma arr_rng2_by lo hi m n a :
  arrb (arrb (rngb lo hi) m) n a = true → arr (arr (rng lo hi) m) n a.
Proof. intros H. eapply arrb_sound; [done|]. intros. by apply arr_rng_by. Qed.

Lemma wp_read_block {A} F P n (a : list A) off k (Q : list A → Prop) :
  arr P n a → 0 ≤ off → 0 ≤ k → off + k ≤ n → (∀ b, arr P k b → Q b) →
  wp F (read_block a off k) Q.
Proof.
  unfold read_block. intros [<- HP] ? ? ? HQ. destruct (_ && _) eqn:E; [|lia].
  apply HQ. split.
  - unfold zlen in *. rewrite length_take, length_drop. lia.
  - by apply Forall_take, Forall_drop.
Qed.

Lemma Forall_list_inserts {A} (P : A → Prop) (b a : list A) i :
  Forall P b → Forall P a → Forall P (list_inserts i b a).
Proof.
  revert i. induction b as [|x b IH]; intros i Hb Ha; simpl; [done|].
  inversion Hb; subst. apply Forall_insert; auto.
Qed.

Lemma wp_write_block {A} F P n k (a : list A) off (b : list A) (Q : list A → Prop) :
  arr P n a → arr P k b → 0 ≤ off → off + k ≤ n → (∀ a', arr P n a' → Q a') →
  wp F (write_block a off b) Q.
Proof.
  unfold write_block. intros [<- HP] [<- Hb] ? ? HQ. destruct (_ && _) eqn:E; [|lia].
  apply HQ. split.
  - unfold zlen. by rewrite length_inserts.
  - by apply Forall_list_inserts.
Qed.

Lemma wp_copy_block {A} F P n m (dst src : list A) doff soff k (Q : list A → Prop) :
  arr P n dst → arr P m src → 0 ≤ doff → doff + k ≤ n → 0 ≤ soff → 0 ≤ k → soff + k ≤ m →
  (∀ a', arr P n a' → Q a') → wp F (copy_block dst doff src soff k) Q.
Proof.
  intros. unfold copy_block. apply wp_bind. eapply wp_read_block; [done..|].
  intros b Hb. by eapply wp_write_block.
Qed.

(** ** Loop rules *)

Lemma wp_forN {S} F (I : Z → S → Prop) n i step s f :
  I i s →
  (∀ j s, (∃ k, (k < n)%nat ∧ j = i + Z.of_nat k * step) → I j s → wp F (f j s) (I (j + step))) →
  wp F (forN n i step s f) (I (i + Z.of_nat n * step)).
Proof.
  revert i s. induction n as [|n IH]; intros i s Hi Hf.
  - simpl. by rewrite Z.mul_0_l, Z.add_0_r.
  - cbn [forN]. apply wp_bind. eapply wp_mono.
    { apply Hf; [|done]. exists 0%nat. split; [lia|]. lia. }
    intros s' Hs'. cbv beta in Hs'.
    replace (i + Z.of_nat (Datatypes.S n) * step) with (i + step + Z.of_nat n * step) by lia.
    apply IH; [done|]. intros j t (k & Hk & ->) Hj. apply Hf; [|done].
    exists (Datatypes.S k). split; [lia|]. lia.
Qed.

Lemma wp_for_up {S} F (I : Z → S → Prop) lo hi s f (Q : S → Prop) :
  lo ≤ hi → I lo s →
  (∀ i s, lo ≤ i < hi → I i s → wp F (f i s) (I (i + 1))) →
  (∀ s, I hi s → Q s) → wp F (for_up lo hi s f) Q.
Proof.
  intros Hle H0 Hstep HQ. unfold for_up. eapply wp_mono.
  - apply (wp_forN F I); [done|]. intros j t (k & Hk & ->) Hj. apply Hstep; [lia|done].
  - intros t Ht. apply HQ. by replace (lo + Z.of_nat (Z.to_nat (hi - lo)) * 1) with hi in Ht by lia.
Qed.

(** The same rule for an invariant that does not mention the index; no order on the bounds. *)
Lemma wp_for_inv {S} F (I : S → Prop) lo hi s f (Q : S → Prop) :
  I s → (∀ i s, lo ≤ i < hi → I s → wp F (f i s) I) → (∀ s, I s → Q s) →
  wp F (for_up lo hi s f) Q.
Proof.
  intros H0 Hstep HQ. unfold for_up. eapply wp_mono.
  - apply (wp_forN F (λ _, I)); [done|]. intros j t (k & Hk & ->) Hj. apply Hstep; [lia|done].
  - done.
Qed.

Lemma wp_for_down {S} F (I : S → Prop) hi lo s f (Q : S → Prop) :
  I s → (∀ i s, lo ≤ i ≤ hi → I s → wp F (f i s) I) → (∀ s, I s → Q s) →
  wp F (for_down hi lo s f) Q.
Proof.
  intros H0 Hstep HQ. unfold for_down. eapply wp_mono.
  - apply (wp_forN F (λ _, I)); [done|]. intros j t (k & Hk & ->) Hj. apply Hstep; [lia|done].
  - done.
Qed.

Lemma wp_while {S} F (I : S → Prop) (μ : S → Z) fuel c b s (Q : S → Prop) :
  I s → μ s < Z.of_nat fuel → (∀ s, I s → 0 ≤ μ s) →
  (∀ s, I s → wp F (c s) (λ t, if t : bool then wp F (b s) (λ s', I s' ∧ μ s' < μ s) else Q s)) →
  wp F (while fuel c b s) Q.
Proof.
  revert s. induction fuel as [|n IH]; intros s HI Hm Hpos Hstep; simpl.
  - specialize (Hpos s HI). lia.
  - apply wp_bind. eapply wp_mono; [by apply Hstep|]. intros [] Ht; simpl in *; [|done].
    apply wp_bind. eapply wp_mono; [done|]. intros s' [? ?]. apply IH; auto. lia.
Qed.

(** Where [NoReturn] is an accepted fault the loop needs no measure. *)
Lemma wp_while_any {S} (F : fault → Prop) (I : S → Prop) fuel c b s (Q : S → Prop) :
  F NoReturn → I s →
  (∀ s, I s → wp F (c s) (λ t, if t : bool then wp F (b s) I else Q s)) →
  wp F (while fuel c b s) Q.
Proof.
  intros HF. revert s. induction fuel as [|n IH]; intros s HI Hstep; simpl; [done|].
  apply wp_bind. eapply wp_mono; [by apply Hstep|]. intros [] Ht; simpl in *; [|done].
  apply wp_bind. eapply wp_mono; [done|]. intros s' ?. by apply IH.
Qed.

(** ** Proof automation *)

(** Facts on array sizes and element ranges, and the safety lemma of each
    component, are collected in this database; [wp_go] uses it. *)
Create HintDb csafe.

#[export] Hint Extern 1 (rng _ _ (if _ then _ else _)) => case_match : rng.

Ltac solve_rng :=
  solve [ eauto 3 with rng | unfold rng in *; lia ].

Ltac wp_side := first [ eassumption | lia | solve_rng | solve [eauto 2 with csafe] ].

(** A C local bound by [let]: keep it as a variable, with the range of its type
    when the bound term is a cast. *)
Ltac abstract_local v t :=
  first
    [ assert (i16r v) by (unfold v; solve [eauto 2 with rng]); clearbody v
    | assert (u16r v) by (unfold v; solve [eauto 2 with rng]); clearbody v
    | assert (u8r v) by (unfold v; solve [eauto 2 with rng]); clearbody v
    | assert (i32r v) by (unfold v; solve [eauto 2 with rng]); clearbody v
    | assert (u32r v) by (unfold v; solve [eauto 2 with rng]); clearbody v
    | assert (i64r v) by (unfold v; solve [eauto 2 with rng]); clearbody v
    | let H := fresh "E" v in assert (v = t) as H by reflexivity; clearbody v ].

Ltac wp_let :=
  lazymatch goal with
  | |- wp ?F (let x := ?t in @?k x) ?Q =>
      let v := fresh x in
      pose (v := t); change (wp F (k v) Q); cbv beta; abstract_local v t
  end.

Ltac wp_step :=
  lazymatch goal with
  | |- wp _ (bind _ _) _ => apply wp_bind
  | |- wp _ (Ok _) _ => unfold wp at 1
  | |- wp _ (ld _ _) _ => eapply wp_ld_arr; [wp_side | wp_side | intros ?v ?Hv]
  | |- wp _ (st _ _ _) _ => eapply wp_st_arr; [wp_side | wp_side | wp_side | intros ?a ?Ha]
  | |- wp _ (ld2 _ _ _) _ => eapply wp_ld2_arr; [wp_side | wp_side | wp_side | intros ?v ?Hv]
  | |- wp _ (st2 _ _ _ _) _ =>
      eapply wp_st2_arr; [wp_side | wp_side | wp_side | wp_side | intros ?a ?Ha]
  | |- wp _ (let _ := _ in _) _ => wp_let
  | |- wp _ (if ?b then _ else _) _ => destruct b eqn:?
  | |- wp _ (match ?x with _ => _ end) _ => destruct x eqn:?
  end.

Ltac wp_go := repeat (cbv beta; wp_step).

(** ** Exhaustive checks by evaluation *)

(** [allb k lo p] evaluates [p] on the [2^k] integers from [lo]. *)
Fixpoint allb (k : nat) (lo : Z) (p : Z → bool) : bool :=
  match k with
  | O => p lo
  | S k' => allb k' lo p && allb k' (lo + 2 ^ Z.of_nat k') p
  end.

Lemma allb_sound k lo p :
  allb k lo p = true → ∀ x, lo ≤ x < lo + 2 ^ Z.of_nat k → p x = true.
Proof.
  revert lo. induction k as [|k IH]; intros lo Hp x Hx.
  - simpl in *. by replace x with lo by lia.
  - cbn [allb] in Hp. apply andb_true_iff in Hp as [H1 H2].
    replace (2 ^ Z.of_nat (S k)) with (2 * 2 ^ Z.of_nat k) in Hx
      by (rewrite Nat2Z.inj_succ, Z.pow_succ_r; lia).
    destruct (Z.lt_ge_cases x (lo + 2 ^ Z.of_nat k)).
    + apply (IH lo); [done|lia].
    + apply (IH (lo + 2 ^ Z.of_nat k)); [done|lia].
Qed.

Lemma allb_between k lo hi p x :
  allb k lo p = true → (hi <=? lo + 2 ^ Z.of_nat k) = true → lo ≤ x < hi → p x = true.
Proof. intros Hp Hh Hx. apply (allb_sound k lo p); [done|lia]. Qed.

(** [exhaust k lo hi p x as H]: evaluate [p] on the [2^k] integers from [lo], a range
    that covers [lo, hi[, and conclude [H : p x = true]. *)
Tactic Notation "exhaust" constr(k) constr(lo) constr(hi) uconstr(p) constr(x) "as" ident(H) :=
  let p' := constr:(p : Z → bool) in
  assert (p' x = true) as H
    by (refine (allb_between k lo hi p' x _ _ _);
        [ vm_cast_no_check (eq_refl true) | reflexivity | unfold rng in *; lia ]);
  cbv beta in H.

(** Close an invariant: a conjunction of array sizes and ranges. *)
Ltac solve_inv :=
  cbv beta iota;
  repeat match goal with |- _ ∧ _ => split end;
  first [ eassumption | solve [eauto 3 with rng csafe] | solve_rng | done ].

(** Two loops whose bodies agree on the indices they visit are equal. *)
Lemma forN_ext {S} n i step (s : S) f g :
  (∀ k s, (k < n)%nat → f (i + Z.of_nat k * step) s = g (i + Z.of_nat k * step) s) →
  forN n i step s f = forN n i step s g.
Proof.
  revert i s. induction n as [|n IH]; intros i s H; [done|]. cbn [forN].
  pose proof (H 0%nat s ltac:(lia)) as E. rewrite Z.mul_0_l, Z.add_0_r in E. rewrite E.
  destruct (g i s) as [s'|]; [|done]. cbn [bind]. apply IH. intros k t Hk.
  specialize (H (Datatypes.S k) t ltac:(lia)).
  by replace (i + step + Z.of_nat k * step) with (i + Z.of_nat (Datatypes.S k) * step) by lia.
Qed.

Lemma for_up_ext {S} lo hi (s : S) f g :
  (∀ i s, lo ≤ i < hi → f i s = g i s) → for_up lo hi s f = for_up lo hi s g.
Proof. intros H. apply forN_ext. intros k t Hk. apply H. lia. Qed.

(** A loop whose state after [i] steps is a known function of [i]. *)
Lemma for_up_state {S} (g : Z → S) lo hi f : lo ≤ hi →
  (∀ i, lo ≤ i < hi → f i (g i) = Ok (g (i + 1))) → for_up lo hi (g lo) f = Ok (g hi).
Proof.
  intros Hle Hf.
  assert (safe (for_up lo hi (g lo) f) (λ s, s = g hi)) as H.
  { apply wp_for_up with (I := λ i s, s = g i); [done..| |done].
    intros i s Hi ->. by rewrite Hf. }
  by destruct (proj1 (safe_ok _ _) H) as (s & -> & ->).
Qed.

(** The value of a cell known to be in range. *)
Definition at_ (a : list Z) (i : Z) : Z := nth (Z.to_nat i) a 0.

Lemma ld_at (a : list Z) i : 0 ≤ i < zlen a → ld a i = Ok (at_ a i).
Proof.
  unfold ld, zlen, at_. intros [? ?]. destruct (Z.leb_spec 0 i); [|lia].
  destruct (lookup_lt_is_Some_2 a (Z.to_nat i)) as [v Hv]; [lia|]. rewrite Hv.
  by rewrite (nth_lookup_Some a _ 0 v Hv).
Qed.

Lemma st_ok {A} (a : list A) i v : 0 ≤ i < zlen a → st a i v = Ok (<[Z.to_nat i := v]> a).
Proof. unfold st. intros [? ?]. by destruct (_ && _) eqn:E; [|lia]. Qed.

Lemma at_arr (P : Z → Prop) n a i : arr P n a → 0 ≤ i < n → P (at_ a i).
Proof.
  intros [<- HP] Hi. unfold at_, zlen in *.
  destruct (lookup_lt_is_Some_2 a (Z.to_nat i)) as [v Hv]; [lia|].
  rewrite (nth_lookup_Some a _ 0 v Hv). by eapply Forall_lookup_1.
Qed.

Lemma at_insert (a : list Z) i j v : 0 ≤ i < zlen a → 0 ≤ j →
  at_ (<[Z.to_nat i := v]> a) j = if i =? j then v else at_ a j.
Proof.
  unfold at_, zlen. intros Hi Hj. rewrite !nth_lookup. destruct (Z.eqb_spec i j) as [->|].
  - by rewrite list_lookup_insert_eq by lia.
  - by rewrite list_lookup_insert_ne by lia.
Qed.

Lemma at_ext (a b : list Z) : zlen a = zlen b → (∀ i, 0 ≤ i < zlen a → at_ a i = at_ b i) → a = b.
Proof.
  unfold zlen, at_. intros Hl H. apply (nth_ext a b 0 0); [lia|]. intros n Hn.
  specialize (H (Z.of_nat n) ltac:(lia)). by rewrite Nat2Z.id in H.
Qed.

(** *** Matrices: cells of a table, and square tables *)

Definition cell (t : list (list Z)) (i j : Z) : Z := at_ (nth (Z.to_nat i) t []) j.

Definition grid (n : Z) (m : list (list Z)) : Prop := arr (λ r, zlen r = n) n m.

Lemma grid_row n m i : grid n m → 0 ≤ i < n → m !! Z.to_nat i = Some (nth (Z.to_nat i) m []) ∧ zlen (nth (Z.to_nat i) m []) = n.
Proof.
  intros [Hl HF] Hi. unfold zlen in Hl. destruct (lookup_lt_is_Some_2 m (Z.to_nat i)) as [r Hr]; [lia|].
  rewrite (nth_lookup_Some m _ [] r Hr). split; [done|]. by apply (Forall_lookup_1 _ _ _ _ HF Hr).
Qed.

Lemma ld_row n m i : grid n m → 0 ≤ i < n → ld m i = Ok (nth (Z.to_nat i) m []).
Proof.
  intros Hm Hi. destruct (grid_row n m i Hm Hi) as [E _]. unfold ld. destruct (Z.leb_spec 0 i); [|lia]. by rewrite E.
Qed.

Lemma ld2_cell n m i j : grid n m → 0 ≤ i < n → 0 ≤ j < n → ld2 m i j = Ok (cell m i j).
Proof.
  intros Hm Hi Hj. unfold ld2, cell. rewrite (ld_row n) by done. cbn [bind]. apply ld_at.
  by rewrite (proj2 (grid_row n m i Hm Hi)).
Qed.

Lemma st2_cell n m i j v : grid n m → 0 ≤ i < n → 0 ≤ j < n →
  ∃ m', st2 m i j v = Ok m' ∧ grid n m' ∧
    ∀ a b, 0 ≤ a → 0 ≤ b → cell m' a b = if (i =? a) && (j =? b) then v else cell m a b.
Proof.
  intros Hm Hi Hj. destruct (grid_row n m i Hm Hi) as [_ Hr]. pose proof (proj1 Hm) as Hl.
  unfold st2. rewrite (ld_row n) by done. cbn [bind]. rewrite st_ok by lia. cbn [bind]. rewrite st_ok by lia.
  eexists. split; [done|]. split.
  - split; [by rewrite zlen_insert|]. apply Forall_insert; [apply Hm|]. by rewrite zlen_insert.
  - intros a b Ha Hb. unfold cell. rewrite nth_lookup. destruct (Z.eqb_spec i a) as [->|Hne].
    + rewrite list_lookup_insert_eq by (unfold zlen in Hl; lia). cbn [default from_option id andb]. by rewrite at_insert by lia.
    + rewrite list_lookup_insert_ne by lia. cbn [andb]. by rewrite <-nth_lookup.
Qed.

(** Copies of whole arrays. *)
Lemma read_block_prefix {A} (a : list A) n : 0 ≤ n ≤ zlen a → read_block a 0 n = Ok (take (Z.to_nat n) a).
Proof. intros Hn. unfold read_block. destruct (_ && _) eqn:E; [done|lia]. Qed.

Lemma list_inserts_all {A} (a b : list A) : length a = length b → list_inserts 0 b a = b.
Proof.
  intros Hl. apply list_eq. intros k. destruct (decide (k < length b)%nat).
  - rewrite list_lookup_inserts by lia. f_equal. lia.
  - rewrite list_lookup_inserts_ge by lia. rewrite !lookup_ge_None_2 by lia. done.
Qed.

Lemma write_block_all {A} (a b : list A) : zlen a = zlen b → write_block a 0 b = Ok b.
Proof.
  intros Hl. unfold write_block. destruct (_ && _) eqn:E; [|lia]. change (Z.to_nat 0) with 0%nat.
  rewrite list_inserts_all; [done|]. unfold zlen in Hl. lia.
Qed.

Lemma copy_block_all {A} (a b : list A) n : zlen a = n → 0 ≤ n ≤ zlen b → copy_block a 0 b 0 n = Ok (take (Z.to_nat n) b).
Proof.
  intros Ha Hn. unfold copy_block. rewrite read_block_prefix by done. cbn [bind]. apply write_block_all.
  unfold zlen in *. rewrite length_take. lia.
Qed.

(** The same loop run from two related states. *)
Lemma for_up_rel {S} (R : Z → S → S → Prop) lo hi s s' f : lo ≤ hi → R lo s s' →
  (∀ i s s', lo ≤ i < hi → R i s s' → ∃ t t', f i s = Ok t ∧ f i s' = Ok t' ∧ R (i + 1) t t') →
  ∃ t t', for_up lo hi s f = Ok t ∧ for_up lo hi s' f = Ok t' ∧ R hi t t'.
Proof.
  intros Hle HR Hf. unfold for_up. remember (Z.to_nat (hi - lo)) as n eqn:En.
  revert lo s s' Hle HR Hf En. induction n as [|n IH]; intros lo s s' Hle HR Hf En.
  - exists s, s'. split; [done|]. split; [done|]. by replace hi with lo by lia.
  - destruct (Hf lo s s' ltac:(lia) HR) as (t & t' & Et & Et' & HR'). cbn [forN]. rewrite Et, Et'.
    cbn [bind]. apply IH; [lia|done| |lia]. intros i u u' Hi. apply Hf. lia.
Qed.

(** A pointer into an array is the array from that offset. *)
Lemma ld_view {A} (a : list A) off n i : 0 ≤ off → 0 ≤ i < n →
  ld (take (Z.to_nat n) (drop (Z.to_nat off) a)) i = ld a (off + i).
Proof.
  intros Ho Hi. unfold ld. destruct (Z.leb_spec 0 i); [|lia]. destruct (Z.leb_spec 0 (off + i)); [|lia].
  rewrite lookup_take_lt by lia. rewrite lookup_drop. by replace (Z.to_nat off + Z.to_nat i)%nat with (Z.to_nat (off + i)) by lia.
Qed.
