(* ===== verification/FixedPoint.v ===== *)
(** The fixed-point macro layer of bcg729 ([fixedPointMacros.h]) and the numeric
    constants of [typedef.h] and [codecParameters.h].

    Every macro is a function on the mathematical integers; a C cast is the wrap
    of that type ([i16], [i32], [u32], ...), and a 32-bit signed operation wraps.
    Shifts by a variable amount, and divisions, return a result: a shift count
    outside [0, 31] is the fault [BadShift], a division by zero (or one whose
    quotient is not representable) the fault [DivError]. *)

From S2P Require Import Prelude.

(** ** Constants *)

Definition MAXINT16 : Z := 32767.
Definition MAXUINT16 : Z := 65535.
Definition MAXINT17 : Z := 65535.
Definition MAXINT28 : Z := 134217727.
Definition MAXINT29 : Z := 268435455.
Definition MAXINT32 : Z := 2147483647.
Definition MAXINT64 : Z := 9223372036854775807.
Definition MININT32 : Z := -2147483648.
Definition ONE_IN_Q31 : Z := 2147483647.
Definition ONE_IN_Q30 : Z := 1073741824.
Definition ONE_IN_Q27 : Z := 134217728.
Definition ONE_IN_Q15 : Z := 32768.
Definition ONE_IN_Q13 : Z := 8192.
Definition ONE_IN_Q12 : Z := 4096.
Definition ONE_IN_Q11 : Z := 2048.
Definition HALF_PI_Q13 : Z := 12868.
Definition HALF_PI_Q15 : Z := 51472.
Definition OO4PIPLUS1_IN_Q13 : Z := 9221.
Definition O92PIMINUS1_IN_Q13 : Z := 15485.
Definition ONE_POINT_2_IN_Q14 : Z := 19661.
Definition O7_IN_Q12 : Z := 2867.
Definition O2_IN_Q14 : Z := 3277.
Definition O2_IN_Q15 : Z := 6554.

Definition L_FRAME : Z := 80.
Definition L_SUBFRAME : Z := 40.
Definition L_LP_ANALYSIS_WINDOW : Z := 240.
Definition L0_RANGE : Z := 2.
Definition L1_RANGE : Z := 128.
Definition L2_RANGE : Z := 32.
Definition NOISE_L1_RANGE : Z := 32.
Definition NOISE_L2_RANGE : Z := 16.
Definition MA_MAX_K : Z := 4.
Definition NB_LSP_COEFF : Z := 10.
Definition MAXIMUM_INT_PITCH_DELAY : Z := 143.
Definition L_PAST_EXCITATION : Z := 154.
Definition GAP1 : Z := 10.
Definition GAP2 : Z := 5.
Definition qLSF_MIN : Z := 40.
Definition qLSF_MAX : Z := 25681.
Definition MIN_qLSF_DISTANCE : Z := 321.
Definition BOUNDED_PITCH_GAIN_MIN : Z := 3277.
Definition BOUNDED_PITCH_GAIN_MAX : Z := 13107.
Definition GAMMA_T : Z := 26214.
Definition GAMMA_E1 : Z := 24756.
Definition GAMMA_E2 : Z := 18432.
Definition GAMMA_E3 : Z := 13824.
Definition GAMMA_E4 : Z := 10368.
Definition GAMMA_E5 : Z := 7776.
Definition GAMMA_E6 : Z := 5832.
Definition GAMMA_E7 : Z := 4374.
Definition GAMMA_E8 : Z := 3280.
Definition GAMMA_E9 : Z := 2460.
Definition GAMMA_E10 : Z := 1845.
Definition NB_PARAMETERS : Z := 15.
Definition NB_COMPUTED_VALUES_CHEBYSHEV_POLYNOMIAL : Z := 51.
Definition GAUSSIAN_EXCITATION_COEFF_FACTOR : Z := 25905.
Definition COEFF_K : Z := 24576.
Definition LOG2_240_Q16 : Z := 518186.
Definition INV_LOG2_10_Q15 : Z := 9864.
Definition THRESHOLD3_IN_Q20 : Z := 1176553.
Definition THRESHOLD1_IN_Q20 : Z := 1260661.
Definition CNG_DTX_RANDOM_SEED_INIT : Z := 11111.

(** ** Shifts *)

Definition SHR (a n : Z) : Z := Z.shiftr a n.
Definition SHL (a n : Z) : Z := i32 (Z.shiftl (i32 a) n).
Definition SSHL (a n : Z) : Z :=
  if a <? 0 then i32 (- i32 (Z.shiftl (i32 (- a)) n)) else i32 (Z.shiftl (i32 a) n).
Definition USHL (a n : Z) : Z := u32 (Z.shiftl (u32 a) n).
Definition PSHR (a n : Z) : Z := SHR (i32 (a + Z.shiftr (Z.shiftl 1 n) 1)) n.

(** Shift by a computed count, on a signed and on an unsigned 32-bit operand. *)
Definition shr_chk (a n : Z) : res Z :=
  if (0 <=? n) && (n <? 32) then Ok (Z.shiftr a n) else Err BadShift.
Definition shl_chk (a n : Z) : res Z :=
  if (0 <=? n) && (n <? 32) then Ok (i32 (Z.shiftl a n)) else Err BadShift.
Definition ushl_chk (a n : Z) : res Z :=
  if (0 <=? n) && (n <? 32) then Ok (u32 (Z.shiftl a n)) else Err BadShift.
Definition sshl_chk (a n : Z) : res Z :=
  if (0 <=? n) && (n <? 32) then Ok (SSHL a n) else Err BadShift.

Definition VSHR32 (a n : Z) : res Z := if 0 <? n then shr_chk a n else shl_chk a (- n).
Definition UVSHR32 (a n : Z) : res Z := if 0 <? n then shr_chk a n else ushl_chk a (- n).
Definition SVSHR32 (a n : Z) : res Z := if 0 <? n then shr_chk (i32 a) n else sshl_chk (i32 a) (- n).

(** The same on 64-bit operands. *)
Definition shr64_chk (a n : Z) : res Z :=
  if (0 <=? n) && (n <? 64) then Ok (Z.shiftr a n) else Err BadShift.
Definition shl64_chk (a n : Z) : res Z :=
  if (0 <=? n) && (n <? 64) then Ok (i64 (Z.shiftl a n)) else Err BadShift.

Definition SSHL64 (a n : Z) : Z :=
  if a <? 0 then i64 (- i64 (Z.shiftl (i64 (- a)) n)) else i64 (Z.shiftl (i64 a) n).

(** ** Saturation and absolute value *)

Definition SATURATE (x a : Z) : Z :=
  if a <? x then a else if x <? - (a + 1) then - (a + 1) else x.
Definition USATURATE (x a : Z) : Z := if a <? x then a else x.
Definition ABS (a : Z) : Z := if 0 <? a then a else i32 (- a).

(** ** Additions *)

Definition ADD16 (a b : Z) : Z := i16 (i16 a + i16 b).
Definition SUB16 (a b : Z) : Z := i16 a - i16 b.
Definition ADD32 (a b : Z) : Z := i32 (i32 a + i32 b).
Definition UADD32 (a b : Z) : Z := u32 (u32 a + u32 b).
Definition SUB32 (a b : Z) : Z := i32 (i32 a - i32 b).

(** ** Products *)

Definition MULT16_16 (a b : Z) : Z := i32 (i32 a * i32 b).
Definition MULT16_32 (a b : Z) : Z := i32 (i16 a * i32 b).
Definition UMULT16_16 (a b : Z) : Z := u32 (u32 (i32 a) * u32 (i32 b)).
Definition MAC16_16 (c a b : Z) : Z := ADD32 c (MULT16_16 a b).
Definition UMAC16_16 (c a b : Z) : Z := UADD32 c (UMULT16_16 a b).
Definition MSU16_16 (c a b : Z) : Z := SUB32 c (MULT16_16 a b).

(** [MULT16_16_Qn]: product shifted back by [n] bits; [_Pn] rounds. *)
Definition MULT16_16_Q (n a b : Z) : Z := SHR (MULT16_16 a b) n.
Definition MULT16_16_P (n a b : Z) : Z := SHR (ADD32 (Z.shiftl 1 (n - 1)) (MULT16_16 a b)) n.

(** [MULT16_32_Qn]: 16 by 32 bits product shifted back by [n], computed in two
    32-bit products of the high and low parts of [b]. *)
Definition MULT16_32_Q (n a b : Z) : Z :=
  ADD32 (MULT16_16 a (SHR b n)) (SHR (MULT16_16 a (Z.land b (Z.ones n))) n).
Definition MULT16_32_P (n a b : Z) : Z :=
  ADD32 (MULT16_16 a (SHR b n)) (PSHR (MULT16_16 a (Z.land b (Z.ones n))) n).

Definition MULT16_16_Q3 := MULT16_16_Q 3.
Definition MULT16_32_Q3 := MULT16_32_Q 3.
Definition MAC16_16_Q3 c a b := ADD32 c (MULT16_16_Q3 a b).
Definition MULT16_16_Q4 := MULT16_16_Q 4.
Definition UMULT16_16_Q4 a b := SHR (UMULT16_16 a b) 4.
Definition UMAC16_16_Q4 c a b := ADD32 c (UMULT16_16_Q4 a b).
Definition MAC16_16_Q4 c a b := ADD32 c (MULT16_16_Q4 a b).
Definition MULT16_16_Q11 := MULT16_16_Q 11.
Definition MULT16_16_P11 := MULT16_16_P 11.
Definition MULT16_32_Q12 := MULT16_32_Q 12.
Definition MAC16_32_Q12 c a b := ADD32 c (MULT16_32_Q12 a b).
Definition MULT16_16_Q12 := MULT16_16_Q 12.
Definition MAC16_16_Q12 c a b := ADD32 c (MULT16_16_Q12 a b).
Definition MSU16_16_Q12 c a b := SUB32 c (MULT16_16_Q12 a b).
Definition MULT16_16_Q13 := MULT16_16_Q 13.
Definition MULT16_16_P13 := MULT16_16_P 13.
Definition MULT16_32_Q13 := MULT16_32_Q 13.
Definition MAC16_16_Q13 c a b := ADD32 c (MULT16_16_Q13 a b).
Definition MAC16_32_Q13 c a b := ADD32 c (MULT16_32_Q13 a b).
Definition MULT16_32_P14 := MULT16_32_P 14.
Definition MULT16_32_Q14 := MULT16_32_Q 14.
Definition MULT16_16_P14 := MULT16_16_P 14.
Definition MULT16_16_Q14 := MULT16_16_Q 14.
Definition MAC16_16_Q14 c a b := ADD32 c (MULT16_16_Q14 a b).
Definition MSU16_16_Q14 c a b := SUB32 c (MULT16_16_Q14 a b).
Definition MAC16_32_Q14 c a b := ADD32 c (MULT16_32_Q14 a b).
Definition MULT16_16_Q15 := MULT16_16_Q 15.
Definition MULT16_16_P15 := MULT16_16_P 15.
Definition MULT16_32_P15 := MULT16_32_P 15.
Definition MULT16_32_Q15 := MULT16_32_Q 15.
Definition MAC16_32_P15 c a b := ADD32 c (MULT16_32_P15 a b).

(** ** Divisions and 64-bit operations *)

Definition DIV32 (a b : Z) : res Z :=
  let a' := i32 a in
  let b' := i32 b in
  if (b' =? 0) || ((a' =? -2147483648) && (b' =? -1)) then Err DivError
  else Ok (Z.quot a' b').
Definition UDIV32 (a b : Z) : res Z :=
  if u32 b =? 0 then Err DivError else Ok (u32 a / u32 b).

Definition ADD64 (a b : Z) : Z := i64 (i64 a + i64 b).
Definition SUB64 (a b : Z) : Z := i64 (i64 a - i32 b).
Definition ADD64_32 (a b : Z) : Z := i64 (i64 a + i32 b).
Definition MULT32_32 (a b : Z) : Z := i64 (i64 a * i64 b).
Definition MAC64 (c a b : Z) : Z := i64 (i64 c + i64 (i64 a * i64 b)).
Definition DIV64 (a b : Z) : res Z :=
  let a' := i64 a in
  let b' := i64 b in
  if (b' =? 0) || ((a' =? -9223372036854775808) && (b' =? -1)) then Err DivError
  else Ok (Z.quot a' b').

Definition DIV32_32_Q24 (a b : Z) : res Z := DIV64 (i64 (Z.shiftl (i64 a) 24)) (i32 b).
Definition DIV32_32_Q27 (a b : Z) : res Z := DIV64 (SSHL64 (i64 a) 27) (i32 b).
Definition DIV32_32_Q31 (a b : Z) : res Z := DIV64 (SSHL64 (i64 a) 31) (i32 b).
Definition MULT32_32_Q23 (a b : Z) : Z := i32 (Z.shiftr (i64 (i64 a * i64 b)) 23).
Definition MULT32_32_Q31 (a b : Z) : Z := i32 (Z.shiftr (i64 (i64 a * i64 b)) 31).
Definition MAC32_32_Q31 (c a b : Z) : Z := ADD32 c (MULT32_32_Q31 a b).

(** ** Ranges *)

Lemma shiftr_rng lo hi a n : 0 ≤ n → lo ≤ 0 → 0 ≤ hi → rng lo hi a → rng lo hi (Z.shiftr a n).
Proof.
  unfold rng. intros Hn Hlo Hhi [? ?]. rewrite Z.shiftr_div_pow2 by done.
  pose proof (Z.pow_pos_nonneg 2 n ltac:(lia) Hn). split.
  - apply Z.div_le_lower_bound; nia.
  - apply Z.div_le_upper_bound; nia.
Qed.

Lemma ADD16_rng a b : i16r (ADD16 a b). Proof. apply i16_rng. Qed.
Lemma ADD32_rng a b : i32r (ADD32 a b). Proof. apply i32_rng. Qed.
Lemma SUB32_rng a b : i32r (SUB32 a b). Proof. apply i32_rng. Qed.
Lemma MULT16_16_rng a b : i32r (MULT16_16 a b). Proof. apply i32_rng. Qed.
Lemma MULT16_32_rng a b : i32r (MULT16_32 a b). Proof. apply i32_rng. Qed.
Lemma MAC16_16_rng c a b : i32r (MAC16_16 c a b). Proof. apply i32_rng. Qed.
Lemma MSU16_16_rng c a b : i32r (MSU16_16 c a b). Proof. apply i32_rng. Qed.
Lemma SHL_rng a n : i32r (SHL a n). Proof. apply i32_rng. Qed.
Lemma SSHL_rng a n : i32r (SSHL a n). Proof. unfold SSHL. destruct (a <? 0); apply i32_rng. Qed.
Lemma PSHR_rng a n : 0 ≤ n → i32r (PSHR a n).
Proof. intros. apply shiftr_rng; [done..|]. apply i32_rng. Qed.
Lemma SATURATE_rng x a : 0 ≤ a → rng (- (a + 1)) a (SATURATE x a).
Proof. unfold SATURATE, rng. intros. repeat case_match; lia. Qed.
Lemma SATURATE16_rng x : i16r (SATURATE x MAXINT16).
Proof. pose proof (SATURATE_rng x MAXINT16). unfold MAXINT16 in *. apply H. lia. Qed.
Lemma MULT16_16_Q_rng n a b : 0 ≤ n → i32r (MULT16_16_Q n a b).
Proof. intros. apply shiftr_rng; [done..|]. apply i32_rng. Qed.
Lemma MULT16_32_Q_rng n a b : i32r (MULT16_32_Q n a b). Proof. apply i32_rng. Qed.
Lemma MULT16_32_P_rng n a b : i32r (MULT16_32_P n a b). Proof. apply i32_rng. Qed.
Lemma MULT16_32_Q12_rng a b : i32r (MULT16_32_Q12 a b). Proof. apply i32_rng. Qed.
Lemma MULT16_32_Q15_rng a b : i32r (MULT16_32_Q15 a b). Proof. apply i32_rng. Qed.
Lemma MAC16_32_Q13_rng c a b : i32r (MAC16_32_Q13 c a b). Proof. apply i32_rng. Qed.
Lemma SATURATE_id x a : - (a + 1) ≤ x ≤ a → SATURATE x a = x.
Proof. unfold SATURATE. intros. repeat case_match; lia. Qed.

#[export] Hint Resolve ADD16_rng ADD32_rng SUB32_rng MULT16_16_rng MULT16_32_rng MAC16_16_rng
  MSU16_16_rng SHL_rng SSHL_rng SATURATE16_rng MULT16_32_Q_rng MULT16_32_P_rng
  MULT16_32_Q12_rng MULT16_32_Q15_rng MAC16_32_Q13_rng : rng.
#[export] Hint Extern 2 (i32r (PSHR _ _)) => apply PSHR_rng; lia : rng.
#[export] Hint Extern 2 (i32r (MULT16_16_Q _ _ _)) => apply MULT16_16_Q_rng; lia : rng.

(** ** Safety rules *)

Lemma wp_shr_chk F a n (Q : Z → Prop) :
  0 ≤ n < 32 → Q (Z.shiftr a n) → wp F (shr_chk a n) Q.
Proof. unfold shr_chk. intros. by destruct (_ && _) eqn:E; [|lia]. Qed.
Lemma wp_shl_chk F a n (Q : Z → Prop) :
  0 ≤ n < 32 → Q (i32 (Z.shiftl a n)) → wp F (shl_chk a n) Q.
Proof. unfold shl_chk. intros. by destruct (_ && _) eqn:E; [|lia]. Qed.

Lemma wp_shr64_chk F a n (Q : Z → Prop) :
  0 ≤ n < 64 → Q (Z.shiftr a n) → wp F (shr64_chk a n) Q.
Proof. unfold shr64_chk. intros. by destruct (_ && _) eqn:E; [|lia]. Qed.
Lemma wp_shl64_chk F a n (Q : Z → Prop) :
  0 ≤ n < 64 → Q (i64 (Z.shiftl a n)) → wp F (shl64_chk a n) Q.
Proof. unfold shl64_chk. intros. by destruct (_ && _) eqn:E; [|lia]. Qed.
Lemma wp_sshl_chk F a n (Q : Z → Prop) :
  0 ≤ n < 32 → Q (SSHL a n) → wp F (sshl_chk a n) Q.
Proof. unfold sshl_chk. intros. by destruct (_ && _) eqn:E; [|lia]. Qed.

Lemma wp_VSHR32 F a n (Q : Z → Prop) :
  i32r a → -32 < n < 32 → (∀ v, i32r v → Q v) → wp F (VSHR32 a n) Q.
Proof.
  unfold VSHR32. intros Ha Hn HQ. destruct (0 <? n) eqn:E.
  - apply wp_shr_chk; [lia|]. apply HQ, shiftr_rng; [lia..|done].
  - apply wp_shl_chk; [lia|]. apply HQ. auto with rng.
Qed.

Lemma wp_UVSHR32 F a n (Q : Z → Prop) :
  u32r a → -32 < n < 32 → (∀ v, u32r v → Q v) → wp F (UVSHR32 a n) Q.
Proof.
  unfold UVSHR32, ushl_chk. intros Ha Hn HQ. destruct (0 <? n) eqn:E.
  - apply wp_shr_chk; [lia|]. apply HQ, shiftr_rng; [lia..|done].
  - destruct (_ && _) eqn:E2; [|lia]. apply HQ. auto with rng.
Qed.

Lemma wp_SVSHR32 F a n (Q : Z → Prop) :
  -32 < n < 32 → (∀ v, i32r v → Q v) → wp F (SVSHR32 a n) Q.
Proof.
  unfold SVSHR32, sshl_chk. intros Hn HQ. destruct (0 <? n) eqn:E.
  - apply wp_shr_chk; [lia|]. apply HQ, shiftr_rng; [lia..|]. auto with rng.
  - destruct (_ && _) eqn:E2; [|lia]. apply HQ. auto with rng.
Qed.

Lemma quot_rng a b : i32r a → b ≠ 0 → ¬ (a = -2147483648 ∧ b = -1) → i32r (Z.quot a b).
Proof.
  unfold rng. intros Ha Hb Hab.
  pose proof (Z.quot_rem' a b). pose proof (Z.rem_bound_abs a b Hb).
  destruct (Z.eq_dec b 1); [subst; rewrite Z.quot_1_r; lia|].
  destruct (Z.eq_dec b (-1)) as [->|]; [rewrite <-(Z.opp_involutive (-1)), Z.quot_opp_r, Z.quot_1_r by lia; lia|].
  assert (Z.abs (Z.quot a b) * 2 ≤ Z.abs a); [|lia].
  rewrite <-Z.quot_abs by done. 
  pose proof (Z.mul_quot_le (Z.abs a) (Z.abs b) ltac:(lia) ltac:(lia)).
  pose proof (Z.quot_pos (Z.abs a) (Z.abs b) ltac:(lia) ltac:(lia)). nia.
Qed.

(** A signed division is safe when the divisor is positive. *)
Lemma wp_DIV32 F a b (Q : Z → Prop) :
  i32r a → i32r b → 0 < b → (∀ v, i32r v → v = Z.quot a b → Q v) → wp F (DIV32 a b) Q.
Proof.
  unfold DIV32. intros Ha Hb Hpos HQ. rewrite !i32_id by done.
  destruct (_ || _) eqn:E; [lia|]. apply HQ; [|done]. apply quot_rng; [done|lia|lia].
Qed.

Lemma wp_UDIV32 F a b (Q : Z → Prop) :
  u32r b → b ≠ 0 → (∀ v, u32r v → Q v) → wp F (UDIV32 a b) Q.
Proof.
  unfold UDIV32. intros Hb Hnz HQ. rewrite (u32_id b) by done.
  destruct (b =? 0) eqn:E; [lia|]. apply HQ. pose proof (u32_rng a) as Ha. unfold rng in *.
  split; [apply Z.div_pos; lia|]. apply Z.div_le_upper_bound; nia.
Qed.

(** Where [DivError] is an accepted fault the divisor is unconstrained. *)
Lemma wp_DIV32_any (F : fault → Prop) a b (Q : Z → Prop) :
  F DivError → (∀ v, Q v) → wp F (DIV32 a b) Q.
Proof. intros HF HQ. unfold DIV32. cbv zeta. case_match; simpl; auto. Qed.

(** The 16 by 32 bits product, computed in two halves, is the floor of the scaled product. *)
Lemma MULT16_32_Q_floor n a b :
  1 ≤ n ≤ 15 → i16r a → i32r b → Z.abs (a * (b / 2 ^ n)) ≤ 1073741824 →
  MULT16_32_Q n a b = a * b / 2 ^ n.
Proof.
  intros Hn Ha Hb Hbig. unfold rng in *. assert (0 < 2 ^ n) as Hp by (apply Z.pow_pos_nonneg; lia).
  assert (2 ^ n ≤ 2 ^ 15) as Hp15 by (apply Z.pow_le_mono_r; lia). change (2 ^ 15) with 32768 in Hp15.
  unfold MULT16_32_Q, ADD32, MULT16_16, SHR. rewrite Z.land_ones, !Z.shiftr_div_pow2 by lia.
  pose proof (Z.mod_pos_bound b (2 ^ n) Hp) as Hm.
  set (h := b / 2 ^ n) in *. set (l := b mod 2 ^ n) in *.
  assert (b = 2 ^ n * h + l) as Eb by (apply Z.div_mod; lia).
  assert (-2147483648 ≤ h ≤ 2147483647) by (unfold h; split; [apply Z.div_le_lower_bound|apply Z.div_le_upper_bound]; nia).
  assert (Z.abs (a * l) ≤ 1073741824) by nia.
  assert (-32768 ≤ a * l / 2 ^ n ≤ 32768).
  { split; [apply Z.div_le_lower_bound|apply Z.div_le_upper_bound]; nia. }
  rewrite (i32_id a), (i32_id h), (i32_id l) by (unfold rng; lia).
  rewrite !(i32_id (a * h)), !(i32_id (a * l)) by (unfold rng; lia).
  rewrite (i32_id (a * l / 2 ^ n)), i32_id by (unfold rng; lia).
  rewrite Eb at 1. replace (a * (2 ^ n * h + l)) with (a * h * 2 ^ n + a * l) by ring.
  rewrite Z.div_add_l by lia. done.
Qed.
