(* ===== verification/Sums.v ===== *)
(** Finite sums of integers and the accumulation loops that compute them: a 32-bit or
    64-bit accumulator holds the wrapped sum, and the sum itself when every partial sum
    is in range. Used by the analysis stages of the encoder, whose correlations are
    bounded by the energy of the signal. *)

From S2P Require Import Prelude FixedPoint.

(** [zsum n f] is the sum of [f 0 .. f (n-1)]. *)
Fixpoint zsum (n : nat) (f : Z → Z) : Z :=
  match n with
  | O => 0
  | S n' => zsum n' f + f (Z.of_nat n')
  end.

Lemma zsum_ext n f g : (∀ i, 0 ≤ i < Z.of_nat n → f i = g i) → zsum n f = zsum n g.
Proof. induction n as [|n IH]; intros H; [done|]. cbn [zsum]. rewrite IH, H; [done|lia|intros; apply H; lia]. Qed.

Lemma zsum_le n f g : (∀ i, 0 ≤ i < Z.of_nat n → f i ≤ g i) → zsum n f ≤ zsum n g.
Proof.
  induction n as [|n IH]; intros H; [done|]. cbn [zsum].
  pose proof (H (Z.of_nat n) ltac:(lia)). assert (zsum n f ≤ zsum n g); [|lia].
  apply IH. intros i Hi. apply H. lia.
Qed.

Lemma zsum_add n f g : zsum n (λ i, f i + g i) = zsum n f + zsum n g.
Proof. induction n as [|n IH]; [done|]. cbn [zsum]. lia. Qed.

Lemma zsum_scal n c f : zsum n (λ i, c * f i) = c * zsum n f.
Proof. induction n as [|n IH]; [cbn; lia|]. cbn [zsum]. lia. Qed.

Lemma zsum_const n c : zsum n (λ _, c) = c * Z.of_nat n.
Proof. induction n as [|n IH]; [cbn; lia|]. cbn [zsum]. lia. Qed.

Lemma zsum_split n m f : zsum (n + m) f = zsum n f + zsum m (λ i, f (Z.of_nat n + i)).
Proof.
  induction m as [|m IH]; [rewrite Nat.add_0_r; cbn; lia|].
  replace (n + S m)%nat with (S (n + m)) by lia. cbn [zsum]. rewrite IH.
  replace (Z.of_nat (n + m)) with (Z.of_nat n + Z.of_nat m) by lia. lia.
Qed.

Lemma zsum_affine_le n a b c f g : (∀ i, 0 ≤ i < Z.of_nat n → a * f i ≤ b * g i + c) →
  a * zsum n f ≤ b * zsum n g + c * Z.of_nat n.
Proof.
  intros H. rewrite <-zsum_scal, <-zsum_scal, <-zsum_const, <-zsum_add. by apply zsum_le.
Qed.

Lemma zsum_nonneg n f : (∀ i, 0 ≤ i < Z.of_nat n → 0 ≤ f i) → 0 ≤ zsum n f.
Proof.
  intros H. pose proof (zsum_le n (λ _, 0) f H) as H1. rewrite zsum_const in H1. lia.
Qed.

Lemma zsum_1 f : zsum 1 f = f 0. Proof. cbn [zsum]. by rewrite Z.add_0_l. Qed.
Lemma zsum_2 f : zsum 2 f = f 0 + f 1. Proof. cbn [zsum]. by rewrite Z.add_0_l. Qed.
Lemma zsum_3 f : zsum 3 f = f 0 + f 1 + f 2. Proof. cbn [zsum]. by rewrite Z.add_0_l. Qed.
Lemma zsum_4 f : zsum 4 f = f 0 + f 1 + f 2 + f 3. Proof. cbn [zsum]. by rewrite Z.add_0_l. Qed.
Lemma zsum_5 f : zsum 5 f = f 0 + f 1 + f 2 + f 3 + f 4. Proof. cbn [zsum]. by rewrite Z.add_0_l. Qed.

(** A window of a sum of non-negative terms. *)
Lemma zsum_window n k m f : (∀ i, 0 ≤ i < Z.of_nat n → 0 ≤ f i) → (k + m ≤ n)%nat →
  zsum m (λ i, f (Z.of_nat k + i)) ≤ zsum n f.
Proof.
  intros Hf Hn. replace n with (k + (m + (n - k - m)))%nat by lia.
  rewrite (zsum_split k), (zsum_split m).
  assert (0 ≤ zsum k f) by (apply zsum_nonneg; intros; apply Hf; lia).
  assert (0 ≤ zsum (n - k - m) (λ i, f (Z.of_nat k + (Z.of_nat m + i)))).
  { apply zsum_nonneg. intros. apply Hf. lia. }
  lia.
Qed.

(** Every second term of a sum of non-negative terms. *)
Lemma zsum_even n f : (∀ i, 0 ≤ i < 2 * Z.of_nat n → 0 ≤ f i) →
  zsum n (λ i, f (2 * i)) ≤ zsum (2 * n) f.
Proof.
  induction n as [|n IH]; intros Hf; [done|].
  replace (2 * S n)%nat with (S (S (2 * n))) by lia. cbn [zsum].
  pose proof (IH ltac:(intros; apply Hf; lia)).
  pose proof (Hf (Z.of_nat (S (2 * n))) ltac:(lia)).
  replace (2 * Z.of_nat n) with (Z.of_nat (2 * n)) by lia. lia.
Qed.

(** ** Wrapped accumulators *)

Lemma i32_mod z : i32 z mod 4294967296 = z mod 4294967296.
Proof.
  unfold i32. destruct (_ && _); [done|].
  rewrite Zminus_mod_idemp_l. f_equal. lia.
Qed.

Lemma i32_congr a b : a mod 4294967296 = b mod 4294967296 → i32 a = i32 b.
Proof.
  intros H. pose proof (i32_rng a) as Ha. pose proof (i32_rng b) as Hb. unfold rng in *.
  assert (i32 a mod 4294967296 = i32 b mod 4294967296) as E by (by rewrite !i32_mod).
  Z.div_mod_to_equations. lia.
Qed.

Lemma i32_add a b : i32 (i32 a + i32 b) = i32 (a + b).
Proof.
  apply i32_congr. rewrite Z.add_mod, !i32_mod by lia. by rewrite <-Z.add_mod by lia.
Qed.

Lemma i32_idem a : i32 (i32 a) = i32 a.
Proof. apply i32_id, i32_rng. Qed.

Lemma MULT16_16_exact a b : i16r a → i16r b → MULT16_16 a b = a * b.
Proof. intros. unfold MULT16_16. rewrite (i32_id a), (i32_id b), i32_id by (unfold rng in *; nia). done. Qed.

Lemma MAC16_16_wrapped s a b : i16r a → i16r b → MAC16_16 (i32 s) a b = i32 (s + a * b).
Proof.
  intros. unfold MAC16_16, ADD32. rewrite MULT16_16_exact by done. by rewrite i32_idem, i32_add.
Qed.

Lemma MAC64_exact s a b : i64r s → i16r a → i16r b → i64r (s + a * b) → MAC64 s a b = s + a * b.
Proof.
  intros Hs Ha Hb Hab. unfold MAC64.
  by rewrite (i64_id s), (i64_id a), (i64_id b), (i64_id (a * b)), i64_id by (unfold rng in *; nia).
Qed.

(** A loop that folds [k] terms into an accumulator kept as [w (zsum ...)]. *)
Lemma forN_zsum (w : Z → Z) n lo step f (body : Z → Z → res Z) :
  (∀ k s, (k < n)%nat → s = zsum k f →
     body (lo + Z.of_nat k * step) (w s) = Ok (w (s + f (Z.of_nat k)))) →
  forN n lo step (w 0) body = Ok (w (zsum n f)).
Proof.
  intros H. cut (∀ m k, (k + m = n)%nat →
    forN m (lo + Z.of_nat k * step) step (w (zsum k f)) body = Ok (w (zsum n f))).
  { intros G. specialize (G n 0%nat ltac:(lia)). cbn [zsum] in G. by rewrite Z.mul_0_l, Z.add_0_r in G. }
  induction m as [|m IH]; intros k Hk.
  - cbn [forN]. by replace n with k by lia.
  - cbn [forN]. rewrite H by (done || lia). cbn [bind].
    specialize (IH (S k) ltac:(lia)). cbn [zsum] in IH.
    by replace (lo + Z.of_nat k * step + step) with (lo + Z.of_nat (S k) * step) by lia.
Qed.

(** The accumulation [for (i = lo; i < hi; i++)]. *)
Lemma for_up_zsum (w : Z → Z) n lo hi f (body : Z → Z → res Z) :
  hi = lo + Z.of_nat n →
  (∀ i s, 0 ≤ i < Z.of_nat n → s = zsum (Z.to_nat i) f →
     body (lo + i) (w s) = Ok (w (s + f i))) →
  for_up lo hi (w 0) body = Ok (w (zsum n f)).
Proof.
  intros -> H. unfold for_up. replace (Z.to_nat (lo + Z.of_nat n - lo)) with n by lia.
  apply forN_zsum. intros k s Hk Hs. rewrite Z.mul_1_r. apply H; [lia|]. by rewrite Nat2Z.id.
Qed.

(** ** Energy bounds *)

(** A product is bounded by the half sum of the squares. *)
Lemma mul_le_squares a b : 2 * Z.abs (a * b) ≤ a * a + b * b.
Proof.
  pose proof (Z.square_nonneg (a - b)). pose proof (Z.square_nonneg (a + b)).
  destruct (Z.abs_spec (a * b)) as [[? ->]|[? ->]]; lia.
Qed.

Lemma zsum_abs n f : Z.abs (zsum n f) ≤ zsum n (λ i, Z.abs (f i)).
Proof. induction n as [|n IH]; [done|]. cbn [zsum]. lia. Qed.

Lemma zsum_mul_le n f g :
  2 * Z.abs (zsum n (λ i, f i * g i)) ≤ zsum n (λ i, f i * f i) + zsum n (λ i, g i * g i).
Proof.
  pose proof (zsum_abs n (λ i, f i * g i)) as H1.
  pose proof (zsum_le n (λ i, 2 * Z.abs (f i * g i)) (λ i, f i * f i + g i * g i)
    ltac:(intros; apply mul_le_squares)) as H2.
  pose proof (zsum_scal n 2 (λ i, Z.abs (f i * g i))) as H3.
  pose proof (zsum_add n (λ i, f i * f i) (λ i, g i * g i)) as H4. cbv beta in *. lia.
Qed.

(** The same with weights: [D |xy| <= P x^2 + Q y^2] when [D^2 <= 4 P Q]. *)
Lemma zsum_mul_weighted n D P Q f g : 0 < D → 0 < P → D * D ≤ 4 * P * Q →
  D * Z.abs (zsum n (λ i, f i * g i)) ≤
    P * zsum n (λ i, f i * f i) + Q * zsum n (λ i, g i * g i).
Proof.
  intros HD HP HPQ. pose proof (zsum_abs n (λ i, f i * g i)) as H1.
  assert (D * zsum n (λ i, Z.abs (f i * g i)) ≤
    P * zsum n (λ i, f i * f i) + Q * zsum n (λ i, g i * g i)) as H2.
  { rewrite <-!zsum_scal, <-zsum_add. apply zsum_le. intros i _.
    set (x := f i). set (y := g i). clearbody x y.
    assert (0 ≤ (2 * P * x - D * y) * (2 * P * x - D * y)) by apply Z.square_nonneg.
    assert (0 ≤ (2 * P * x + D * y) * (2 * P * x + D * y)) by apply Z.square_nonneg.
    pose proof (Z.square_nonneg y). destruct (Z.abs_spec (x * y)) as [[? ->]|[? ->]]; nia. }
  etransitivity; [apply Z.mul_le_mono_nonneg_l; [lia|exact H1]|exact H2].
Qed.
