(* ===== verification/Math.v ===== *)
(** Elementary functions in fixed point: [g729FixedPointMath.h] and the
    leading-zero counters of [utils.h]. *)

From S2P Require Import Prelude FixedPoint.

(** ** Leading zeros *)

(** [x <<= 1] loses the sign on a negative [x] and can reach 0, where the C loop
    spins for ever; after 32 shifts a 32-bit value is 0, so 64 iterations separate
    the inputs on which the loop ends from those on which it does not. *)
Definition countLeadingZeros (x : Z) : res Z :=
  if x =? 0 then Ok 31
  else
    let* (_, leadingZeros) :=
      while 64 (λ '(x, _), Ok (x <? 1073741824))
        (λ '(x, leadingZeros), Ok (i32 (Z.shiftl x 1), u16 (leadingZeros + 1))) (x, 0) in
    Ok leadingZeros.

Definition unsignedCountLeadingZeros (x : Z) : res Z :=
  if x =? 0 then Ok 32
  else
    let* (_, leadingZeros) :=
      while 64 (λ '(x, _), Ok (negb (Z.land x 2147483648 =? 2147483648)))
        (λ '(x, leadingZeros), Ok (u32 (Z.shiftl x 1), u16 (leadingZeros + 1))) (x, 0) in
    Ok leadingZeros.

(** ** Logarithm and exponential in base 2 *)

Definition KL0 : Z := -135003.
Definition KL1 : Z := 378194.
Definition KL2 : Z := -252129.
Definition KL3 : Z := 74705.

Definition g729Log2_Q0Q16 (x : Z) : res Z :=
  let* leadingZeros := countLeadingZeros x in
  let retValue := i32 (Z.shiftl (SUB16 30 leadingZeros) 16) in
  let* shifted := VSHR32 x (16 - leadingZeros) in
  let acc := i16 shifted in
  let acc32 :=
    ADD32 KL0 (MULT16_32_Q15 acc (ADD32 KL1 (MULT16_32_Q15 acc
      (ADD32 KL2 (MULT16_32_Q15 acc KL3))))) in
  Ok (ADD32 retValue acc32).

Definition E0 : Z := 16384.
Definition E1 : Z := 11356.
Definition E2 : Z := 3726.
Definition E3 : Z := 1301.

Definition g729Exp2_Q11Q16 (x : Z) : res Z :=
  let integer := SHR x 11 in
  if 14 <? integer then Ok 2147483647
  else if integer <? -15 then Ok 0
  else
    let frac := i16 (Z.shiftl (x - Z.shiftl integer 11) 3) in
    let frac' :=
      ADD16 E0 (MULT16_16_Q14 frac (ADD16 E1 (MULT16_16_Q14 frac
        (ADD16 E2 (MULT16_16_Q14 E3 frac))))) in
    VSHR32 frac' (- integer - 2).

(** ** Square root *)

Definition C0 : Z := 3634.
Definition C1 : Z := 21173.
Definition C2 : Z := -12627.
Definition C3 : Z := 4204.

(** The cubic approximation of the square root on [0.25, 1[ in Q14. *)
Definition sqrtPolynomial (x : Z) : Z :=
  ADD16 C0 (MULT16_16_Q14 x (ADD16 C1 (MULT16_16_Q14 x (ADD16 C2 (MULT16_16_Q14 x C3))))).

Definition g729Sqrt_Q0Q7 (x : Z) : res Z :=
  if x =? 0 then Ok 0
  else
    let* lz := unsignedCountLeadingZeros x in
    let k := Z.shiftr (19 - lz) 1 in
    let* x' := UVSHR32 x (k * 2) in
    let rt := sqrtPolynomial x' in
    VSHR32 rt (- k).

Definition g729InvSqrt_Q0Q31 (x : Z) : res Z :=
  if x =? 1 then Ok MAXINT32
  else
    let* s := g729Sqrt_Q0Q7 (u32 x) in
    let* q := DIV32_32_Q24 s x in
    Ok (i32 q).

(** ** Cosine *)

Definition Kcos1 : Z := 32768.
Definition Kcos2 : Z := -16384.
Definition Kcos3 : Z := 1365.
Definition Kcos4 : Z := -46.
Definition Ksin1 : Z := 32768.
Definition Ksin2 : Z := -5461.
Definition Ksin3 : Z := 273.
Definition Ksin4 : Z := -7.

Definition g729Cos_Q13Q15 (x : Z) : Z :=
  let cosTail x2 :=
    MULT16_16_P15 x2 (ADD32 Kcos2 (MULT16_16_P15 x2 (ADD32 Kcos3 (MULT16_16_P15 Kcos4 x2)))) in
  let sinSum x2 :=
    ADD32 Ksin1 (MULT16_16_P15 x2 (ADD32 Ksin2 (MULT16_16_P15 x2
      (ADD32 Ksin3 (MULT16_16_P15 Ksin4 x2))))) in
  if x <? 12868 then
    if x <? 6434 then
      let x2 := i16 (MULT16_16_P11 x x) in
      i16 (SATURATE (ADD32 Kcos1 (cosTail x2)) MAXINT16)
    else
      let x := i16 (SUB16 12868 x) in
      let x2 := i16 (MULT16_16_P11 x x) in
      i16 (MULT16_16_P13 x (sinSum x2))
  else
    let xScaled := i16 (SUB16 25736 x) in
    if x <? 19302 then
      let xScaled := i16 (SUB16 12868 xScaled) in
      let x2 := i16 (MULT16_16_P11 xScaled xScaled) in
      i16 (MULT16_16_P13 (- xScaled) (sinSum x2))
    else
      let x2 := i16 (MULT16_16_P11 xScaled xScaled) in
      i16 (SUB32 (- Kcos1) (cosTail x2)).

(** ** Inverse trigonometric functions *)

Definition KPI6 : Z := 17157.
Definition KtanPI6 : Z := 18919.
Definition KtanPI12 : Z := 8780.
Definition atanB : Z := 8453.
Definition atanC : Z := 19373.

Definition g729Atan_Q15Q13 (x : Z) : res Z :=
  let sign := x <? 0 in
  let x := if sign then i32 (- x) else x in
  let complement := ONE_IN_Q15 <? x in
  let* x := (if complement then DIV32 ONE_IN_Q30 x else Ok x) in
  let highSegment := KtanPI12 <? x in
  let* x :=
    (if highSegment
     then DIV32 (SSHL (SUB32 x KtanPI6) 15) (ADD32 (MULT16_16_Q15 KtanPI6 x) ONE_IN_Q15)
     else Ok x) in
  let x2 := i16 (MULT16_16_Q15 x x) in
  let* angle :=
    DIV32 (MULT16_16 x (ADD32 ONE_IN_Q15 (MULT16_16_Q15 atanB x2)))
          (ADD32 ONE_IN_Q15 (MULT16_16_Q15 atanC x2)) in
  let angle := if highSegment then i32 (angle + KPI6) else angle in
  let angle := if complement then SUB32 HALF_PI_Q15 angle else angle in
  let angle := PSHR angle 2 in
  Ok (if sign then i16 (- angle) else i16 angle).

Definition g729Asin_Q15Q13 (x : Z) : res Z :=
  let* s := g729Sqrt_Q0Q7 (u32 (SUB32 ONE_IN_Q30 (MULT16_16 x x))) in
  let* q := DIV32 (SSHL x 15) (PSHR s 7) in
  g729Atan_Q15Q13 q.

Definition g729Acos_Q15Q13 (x : Z) : res Z :=
  let* a := g729Asin_Q15Q13 x in
  Ok (i16 (HALF_PI_Q13 - a)).

(** ** Leading zeros: the loops end and count what they should *)

Lemma log2_bounds x e : 0 < x → Z.log2 x = e → 2 ^ e ≤ x < 2 ^ (e + 1).
Proof. intros Hx <-. by apply Z.log2_spec. Qed.

Lemma clz_loop (k : nat) x lz fuel :
  0 < x → Z.log2 x = 30 - Z.of_nat k → 0 ≤ lz → lz + Z.of_nat k < 65536 → (k < fuel)%nat →
  while fuel (λ '(x, _), Ok (x <? 1073741824))
    (λ '(x, leadingZeros), Ok (i32 (Z.shiftl x 1), u16 (leadingZeros + 1))) (x, lz)
  = Ok (x * 2 ^ Z.of_nat k, lz + Z.of_nat k).
Proof.
  revert x lz fuel. induction k as [|k IH]; intros x lz [|fuel] Hx Hlog Hlz Hb Hf; try lia.
  - apply log2_bounds in Hlog; [|done]. change (2 ^ (30 - Z.of_nat 0)) with 1073741824 in Hlog.
    simpl. destruct (Z.ltb_spec x 1073741824); [lia|]. by rewrite Z.mul_1_r, Z.add_0_r.
  - assert (x < 1073741824).
    { apply (Z.log2_lt_cancel x). change (Z.log2 1073741824) with 30. lia. }
    cbn [while]. destruct (Z.ltb_spec x 1073741824); [|lia]. simpl bind.
    rewrite Z.shiftl_mul_pow2 by lia. change (2 ^ 1) with 2.
    rewrite i32_id, u16_id by (unfold rng; lia).
    assert (Z.log2 (x * 2) = 1 + Z.log2 x) by (rewrite Z.mul_comm, Z.log2_double; lia).
    rewrite IH by lia.
    rewrite Nat2Z.inj_succ, Z.pow_succ_r by lia. f_equal; f_equal; lia.
Qed.

Lemma countLeadingZeros_pos x :
  0 < x < 2147483648 → countLeadingZeros x = Ok (30 - Z.log2 x).
Proof.
  intros Hx. unfold countLeadingZeros. destruct (Z.eqb_spec x 0); [lia|].
  assert (0 ≤ Z.log2 x ≤ 30).
  { split; [apply Z.log2_nonneg|]. cut (Z.log2 x < 31); [lia|]. apply Z.log2_lt_pow2; lia. }
  rewrite (clz_loop (Z.to_nat (30 - Z.log2 x))); [|lia..].
  simpl. f_equal. lia.
Qed.

(** The leading zeros of a normalised term bound it. *)
Lemma clz_bound x : 0 ≤ x < 2147483648 →
  ∃ n, countLeadingZeros x = Ok n ∧ 0 ≤ n ≤ 31 ∧ x < 2 ^ (31 - n).
Proof.
  intros Hx. destruct (Z.eq_dec x 0) as [->|].
  - exists 31. split; [done|]. split; [lia|]. done.
  - rewrite countLeadingZeros_pos by lia. eexists. split; [done|].
    pose proof (Z.log2_spec x ltac:(lia)) as [_ H]. pose proof (Z.log2_nonneg x).
    assert (Z.log2 x < 31) by (apply Z.log2_lt_pow2; lia).
    split; [lia|]. by replace (31 - (30 - Z.log2 x)) with (Z.succ (Z.log2 x)) by lia.
Qed.


(** On a negative argument the loop may never end; when it ends, the argument has lost
    fewer than 31 bits. *)
Lemma wp_countLeadingZeros_any (F : fault → Prop) x (Q : Z → Prop) :
  F NoReturn → i32r x → (∀ n, 0 ≤ n ≤ 31 → Q n) → wp F (countLeadingZeros x) Q.
Proof.
  intros HF Hx HQ. unfold countLeadingZeros. destruct (x =? 0); [apply HQ; lia|]. apply wp_bind.
  apply wp_while_any with (I := λ '(y, n), i32r y ∧ (y = 0 ∨ 0 ≤ n ≤ 31 ∧ ∃ q, y = q * 2 ^ n)); [done| |].
  { split; [done|]. right. split; [lia|]. exists x. lia. }
  intros [y n] [Hy Hn]. cbn [wp]. destruct (Z.ltb_spec y 1073741824) as [Hlt|Hge].
  - cbn [wp]. split; [apply i32_rng|]. destruct Hn as [-> | (Hn & q & Hq)]; [by left|].
    rewrite Z.shiftl_mul_pow2 by lia. unfold rng in Hy.
    assert (∃ m, i32 (y * 2 ^ 1) = y * 2 + m * 2 ^ 32) as [m Em].
    { unfold i32. destruct (_ && _); [by exists 0; lia|]. exists (- ((y * 2 ^ 1 + 2147483648) / 4294967296)).
      change (2 ^ 1) with 2. change (2 ^ 32) with 4294967296. Z.div_mod_to_equations. lia. }
    rewrite Em. destruct (Z.eq_dec n 31) as [->|].
    + left. pose proof (i32_rng (y * 2 ^ 1)) as Hr. rewrite Em in Hr. unfold rng in Hr.
      change (2 ^ 31) with 2147483648 in Hq. change (2 ^ 32) with 4294967296 in *. lia.
    + right. rewrite u16_id by (unfold rng; lia). split; [lia|]. exists (q + m * 2 ^ (31 - n)).
      rewrite Hq, Z.pow_add_r, Z.mul_add_distr_r by lia. change (2 ^ 1) with 2.
      replace (2 ^ 32) with (2 ^ (31 - n) * (2 ^ n * 2)); [lia|].
      change 2 with (2 ^ 1) at 3. rewrite <-!Z.pow_add_r by lia. f_equal. lia.
  - destruct Hn as [-> | (Hn & _)]; [lia|]. by apply HQ.
Qed.

Lemma land_bit31 x : 0 ≤ x < 4294967296 →
  (Z.land x 2147483648 =? 2147483648) = (2147483648 <=? x).
Proof.
  intros Hx. change 2147483648 with (2 ^ 31) at 1 2.
  assert (Z.land x (2 ^ 31) = if Z.testbit x 31 then 2 ^ 31 else 0) as ->.
  { apply Z.bits_inj'. intros n Hn. rewrite Z.land_spec, Z.pow2_bits_eqb by lia.
    destruct (Z.eqb_spec 31 n) as [<-|].
    - destruct (Z.testbit x 31); [by rewrite Z.pow2_bits_true|by rewrite Z.testbit_0_l].
    - rewrite andb_false_r. destruct (Z.testbit x 31); [by rewrite Z.pow2_bits_false|by rewrite Z.testbit_0_l]. }
  rewrite Z.testbit_eqb by lia. change (2 ^ 31) with 2147483648.
  destruct (Z.leb_spec 2147483648 x).
  - replace (x / 2147483648) with 1 by (apply (Z.div_unique x 2147483648 1 (x - 2147483648)); lia). done.
  - by rewrite Z.div_small by lia.
Qed.

Lemma uclz_loop (k : nat) x lz fuel :
  0 < x → Z.log2 x = 31 - Z.of_nat k → 0 ≤ lz → lz + Z.of_nat k < 65536 → (k < fuel)%nat →
  while fuel (λ '(x, _), Ok (negb (Z.land x 2147483648 =? 2147483648)))
    (λ '(x, leadingZeros), Ok (u32 (Z.shiftl x 1), u16 (leadingZeros + 1))) (x, lz)
  = Ok (x * 2 ^ Z.of_nat k, lz + Z.of_nat k).
Proof.
  revert x lz fuel. induction k as [|k IH]; intros x lz [|fuel] Hx Hlog Hlz Hb Hf; try lia.
  - apply log2_bounds in Hlog; [|done]. change (2 ^ (31 - Z.of_nat 0)) with 2147483648 in Hlog.
    change (2 ^ (31 - Z.of_nat 0 + 1)) with 4294967296 in Hlog.
    cbn [while bind]. rewrite land_bit31 by lia.
    destruct (Z.leb_spec 2147483648 x); [|lia]. simpl. by rewrite Z.mul_1_r, Z.add_0_r.
  - assert (x < 2147483648).
    { apply (Z.log2_lt_cancel x). change (Z.log2 2147483648) with 31. lia. }
    cbn [while bind]. rewrite land_bit31 by lia.
    destruct (Z.leb_spec 2147483648 x); [lia|]. cbn [negb bind].
    rewrite Z.shiftl_mul_pow2 by lia. change (2 ^ 1) with 2.
    rewrite u32_id, u16_id by (unfold rng; lia).
    assert (Z.log2 (x * 2) = 1 + Z.log2 x) by (rewrite Z.mul_comm, Z.log2_double; lia).
    rewrite IH by lia.
    rewrite Nat2Z.inj_succ, Z.pow_succ_r by lia. f_equal; f_equal; lia.
Qed.

Lemma unsignedCountLeadingZeros_pos x :
  0 < x < 4294967296 → unsignedCountLeadingZeros x = Ok (31 - Z.log2 x).
Proof.
  intros Hx. unfold unsignedCountLeadingZeros. destruct (Z.eqb_spec x 0); [lia|].
  assert (0 ≤ Z.log2 x ≤ 31).
  { split; [apply Z.log2_nonneg|]. cut (Z.log2 x < 32); [lia|]. apply Z.log2_lt_pow2; lia. }
  rewrite (uclz_loop (Z.to_nat (31 - Z.log2 x))); [|lia..].
  simpl. f_equal. lia.
Qed.

(** ** Logarithm *)

(** The fractional part: the cubic evaluated on the mantissa in [2^14, 2^15[. *)
Definition log2Polynomial (acc : Z) : Z :=
  ADD32 KL0 (MULT16_32_Q15 acc (ADD32 KL1 (MULT16_32_Q15 acc
    (ADD32 KL2 (MULT16_32_Q15 acc KL3))))).

Lemma log2Polynomial_bounds a :
  16384 ≤ a < 32768 → 399 ≤ log2Polynomial a ≤ 65762.
Proof.
  intros Ha. exhaust 14%nat 16384 32768 (λ a, rngb 399 65762 (log2Polynomial a)) a as Hb.
  by apply rngb_sound in Hb.
Qed.

Lemma log2Polynomial_mono a b :
  16384 ≤ a ≤ b → b < 32768 → log2Polynomial a ≤ log2Polynomial b.
Proof.
  intros [Ha Hab]. pattern b. apply Z.right_induction with (z := a); [solve_proper|lia| |done].
  intros n Hn IH Hlt. specialize (IH ltac:(lia)).
  exhaust 14%nat 16384 32768 (λ a, (a =? 32767) || (log2Polynomial a <=? log2Polynomial (a + 1))) n as Hb.
  rewrite <-Z.add_1_r. lia.
Qed.

(** The mantissa of [x]: [x] shifted so that its leading one is bit 14. *)
Definition mantissa (x : Z) : Z := x * 2 ^ 14 / 2 ^ (Z.log2 x).

Lemma mantissa_bounds x : 0 < x → 16384 ≤ mantissa x < 32768.
Proof.
  intros Hx. unfold mantissa. pose proof (Z.log2_spec x Hx) as [H1 H2].
  rewrite Z.pow_succ_r in H2 by apply Z.log2_nonneg.
  assert (0 < 2 ^ Z.log2 x) by (apply Z.pow_pos_nonneg; [lia|apply Z.log2_nonneg]).
  change (2 ^ 14) with 16384. split.
  - apply Z.div_le_lower_bound; lia.
  - apply Z.div_lt_upper_bound; lia.
Qed.

Lemma log2_le_30 x : 0 < x < 2147483648 → 0 ≤ Z.log2 x ≤ 30.
Proof.
  intros Hx. split; [apply Z.log2_nonneg|].
  cut (Z.log2 x < 31); [lia|]. apply Z.log2_lt_pow2; lia.
Qed.

Lemma g729Log2_value x : 0 < x < 2147483648 →
  g729Log2_Q0Q16 x = Ok (65536 * Z.log2 x + log2Polynomial (mantissa x)).
Proof.
  intros Hx. unfold g729Log2_Q0Q16. rewrite countLeadingZeros_pos by done. cbn [bind].
  pose proof (log2_le_30 x Hx) as HL. set (L := Z.log2 x) in *.
  pose proof (mantissa_bounds x ltac:(lia)) as Hm.
  pose proof (log2Polynomial_bounds _ Hm) as Hp.
  assert (VSHR32 x (16 - (30 - L)) = Ok (mantissa x)) as ->.
  { unfold VSHR32, shr_chk, shl_chk, mantissa in *. fold L. fold L in Hm.
    destruct (Z.ltb_spec 0 (16 - (30 - L))).
    - destruct (_ && _) eqn:E; [|lia]. f_equal. rewrite Z.shiftr_div_pow2 by lia.
      replace (2 ^ L) with (2 ^ (L - 14) * 2 ^ 14) by (rewrite <-Z.pow_add_r; [f_equal|..]; lia).
      rewrite Z.div_mul_cancel_r; [f_equal; f_equal; lia| |done].
      apply Z.pow_nonzero; lia.
    - destruct (_ && _) eqn:E; [|lia]. f_equal. rewrite Z.shiftl_mul_pow2 by lia.
      assert (x * 2 ^ (- (16 - (30 - L))) = x * 2 ^ 14 / 2 ^ L) as ->.
      { replace (2 ^ 14) with (2 ^ (- (16 - (30 - L))) * 2 ^ L) by (rewrite <-Z.pow_add_r; [f_equal|..]; lia).
        rewrite Z.mul_assoc, Z.div_mul; [done|]. apply Z.pow_nonzero; lia. }
      apply i32_id. unfold rng. lia. }
  cbn [bind]. rewrite (i16_id (mantissa x)) by (unfold rng; lia).
  fold (log2Polynomial (mantissa x)). f_equal.
  unfold SUB16, ADD32. rewrite (i16_id 30), (i16_id (30 - L)) by (unfold rng; lia).
  rewrite Z.shiftl_mul_pow2 by lia. change (2 ^ 16) with 65536.
  replace (30 - (30 - L)) with L by lia.
  rewrite !(i32_id (L * 65536)) by (unfold rng; lia).
  rewrite (i32_id (log2Polynomial _)) by (unfold rng; lia).
  rewrite i32_id by (unfold rng; lia). lia.
Qed.

Lemma wp_g729Log2 F x (Q : Z → Prop) :
  0 ≤ x < 2147483648 → (∀ v, i32r v → Q v) → wp F (g729Log2_Q0Q16 x) Q.
Proof.
  intros Hx HQ. destruct (Z.eq_dec x 0) as [->|].
  - apply HQ. unfold rng. vm_compute. by split.
  - rewrite g729Log2_value by lia. apply HQ.
    pose proof (log2_le_30 x ltac:(lia)).
    pose proof (log2Polynomial_bounds _ (mantissa_bounds x ltac:(lia))). unfold rng. lia.
Qed.

Lemma wp_g729Log2_any (F : fault → Prop) x (Q : Z → Prop) :
  F NoReturn → i32r x → (∀ v, i32r v → Q v) → wp F (g729Log2_Q0Q16 x) Q.
Proof.
  intros HF Hx HQ. unfold g729Log2_Q0Q16. wp_step. apply wp_countLeadingZeros_any; [done..|].
  intros n Hn. cbv zeta. wp_step. apply wp_VSHR32; [done|lia|]. intros v Hv. apply HQ. apply ADD32_rng.
Qed.

(** ** Exponential *)

Lemma g729Exp2_ok x : i16r x → ∃ v, g729Exp2_Q11Q16 x = Ok v ∧ 0 ≤ v ≤ 2147483647.
Proof.
  intros Hx. exhaust 16%nat (-32768) 32768
    (λ x, match g729Exp2_Q11Q16 x with Ok v => rngb 0 2147483647 v | _ => false end) x as Hv.
  destruct (g729Exp2_Q11Q16 x) as [v|]; [|done]. exists v. split; [done|].
  by apply rngb_sound in Hv.
Qed.

Lemma wp_g729Exp2 F x (Q : Z → Prop) :
  i16r x → (∀ v, rng 0 2147483647 v → Q v) → wp F (g729Exp2_Q11Q16 x) Q.
Proof. intros Hx HQ. destruct (g729Exp2_ok x Hx) as (v & -> & ?). by apply HQ. Qed.

(** ** Square root *)

Lemma sqrtPolynomial_bounds y :
  4096 ≤ y < 16384 →
  8203 ≤ sqrtPolynomial y ≤ 16382 ∧
  255 * ((y + 1) * 16384) ≤ 256 * (sqrtPolynomial y * sqrtPolynomial y) ∧
  256 * (sqrtPolynomial y * sqrtPolynomial y) ≤ 257 * (y * 16384).
Proof.
  intros Hy. exhaust 14%nat 4096 16384 (λ y, (16384 <=? y) || (rngb 8203 16382 (sqrtPolynomial y)
     && (255 * ((y + 1) * 16384) <=? 256 * (sqrtPolynomial y * sqrtPolynomial y))
     && (256 * (sqrtPolynomial y * sqrtPolynomial y) <=? 257 * (y * 16384)))) y as Hb.
  unfold rngb in Hb. lia.
Qed.

(** [g729Sqrt_Q0Q7] normalises its argument to [y] in [2^12, 2^14[ by an even shift
    of [2k] bits, evaluates the cubic and shifts the root back by [k] bits. *)
Lemma g729Sqrt_value x : 0 < x < 4294967296 →
  ∃ k y, -6 ≤ k ≤ 9 ∧ 4096 ≤ y < 16384 ∧
    (if 0 <? k then y = x / 2 ^ (2 * k) else y = x * 2 ^ (- (2 * k))) ∧
    g729Sqrt_Q0Q7 x =
      Ok (if k <? 0 then sqrtPolynomial y / 2 ^ (- k) else sqrtPolynomial y * 2 ^ k).
Proof.
  intros Hx. unfold g729Sqrt_Q0Q7. destruct (Z.eqb_spec x 0); [lia|].
  rewrite unsignedCountLeadingZeros_pos by done. cbn [bind].
  assert (0 ≤ Z.log2 x ≤ 31) as HL.
  { split; [apply Z.log2_nonneg|]. cut (Z.log2 x < 32); [lia|]. apply Z.log2_lt_pow2; lia. }
  pose proof (Z.log2_spec x ltac:(lia)) as Hlog. set (L := Z.log2 x) in *.
  assert (Z.shiftr (19 - (31 - L)) 1 = (L - 12) / 2) as ->.
  { rewrite Z.shiftr_div_pow2 by lia. f_equal; lia. }
  set (k := (L - 12) / 2).
  assert (2 * k ≤ L - 12 ≤ 2 * k + 1) as Hk by (unfold k; pose proof (Z.div_mod (L - 12) 2); pose proof (Z.mod_pos_bound (L - 12) 2); lia).
  clearbody k. exists k, (if 0 <? k then x / 2 ^ (2 * k) else x * 2 ^ (- (2 * k))).
  replace (k * 2) with (2 * k) by lia.
  assert (4096 ≤ (if 0 <? k then x / 2 ^ (2 * k) else x * 2 ^ (- (2 * k))) < 16384) as Hy.
  { destruct (Z.ltb_spec 0 k).
    - assert (0 < 2 ^ (2 * k)) by (apply Z.pow_pos_nonneg; lia).
      assert (4096 * 2 ^ (2 * k) ≤ 2 ^ L) as H1.
      { change 4096 with (2 ^ 12). rewrite <-Z.pow_add_r by lia. apply Z.pow_le_mono_r; lia. }
      assert (2 ^ Z.succ L ≤ 16384 * 2 ^ (2 * k)) as H2.
      { change 16384 with (2 ^ 14). rewrite <-Z.pow_add_r by lia. apply Z.pow_le_mono_r; lia. }
      split; [apply Z.div_le_lower_bound|apply Z.div_lt_upper_bound]; lia.
    - assert (0 < 2 ^ (- (2 * k))) by (apply Z.pow_pos_nonneg; lia).
      assert (4096 ≤ 2 ^ L * 2 ^ (- (2 * k))) as H1.
      { change 4096 with (2 ^ 12). rewrite <-Z.pow_add_r by lia. apply Z.pow_le_mono_r; lia. }
      assert (2 ^ Z.succ L * 2 ^ (- (2 * k)) ≤ 16384) as H2.
      { change 16384 with (2 ^ 14). rewrite <-Z.pow_add_r by lia. apply Z.pow_le_mono_r; lia. }
      nia. }
  pose proof (sqrtPolynomial_bounds _ Hy) as [Hp _].
  split; [lia|]. split; [done|]. split; [by destruct (0 <? k)|].
  assert (UVSHR32 x (2 * k) = Ok (if 0 <? k then x / 2 ^ (2 * k) else x * 2 ^ (- (2 * k)))) as ->.
  { unfold UVSHR32, shr_chk, ushl_chk. destruct (Z.ltb_spec 0 (2 * k)), (Z.ltb_spec 0 k); try lia.
    - destruct (_ && _) eqn:E; [|lia]. by rewrite Z.shiftr_div_pow2 by lia.
    - destruct (_ && _) eqn:E; [|lia]. rewrite Z.shiftl_mul_pow2 by lia.
      rewrite u32_id; [done|unfold rng; lia]. }
  cbn [bind]. set (y := if 0 <? k then _ else _) in *. clearbody y.
  unfold VSHR32, shr_chk, shl_chk. destruct (Z.ltb_spec 0 (- k)), (Z.ltb_spec k 0); try lia.
  - destruct (_ && _) eqn:E; [|lia]. by rewrite Z.shiftr_div_pow2 by lia.
  - destruct (_ && _) eqn:E; [|lia]. rewrite Z.shiftl_mul_pow2, Z.opp_involutive by lia.
    rewrite i32_id; [done|]. assert (0 < 2 ^ k ≤ 2 ^ 9) as Hpow.
    { split; [apply Z.pow_pos_nonneg; lia|apply Z.pow_le_mono_r; lia]. }
    unfold rng. nia.
Qed.

Lemma wp_g729Sqrt F x (Q : Z → Prop) :
  u32r x → (∀ v, rng 0 8387584 v → (x ≠ 0 → 128 ≤ v) → Q v) → wp F (g729Sqrt_Q0Q7 x) Q.
Proof.
  intros Hx HQ. destruct (Z.eq_dec x 0) as [->|].
  - apply HQ; [by unfold rng|done].
  - destruct (g729Sqrt_value x) as (k & y & Hk & Hy & _ & ->); [unfold rng in Hx; lia|].
    pose proof (sqrtPolynomial_bounds _ Hy) as [Hp _]. apply HQ.
    all: destruct (Z.ltb_spec k 0).
    + assert (0 < 2 ^ (- k)) by (apply Z.pow_pos_nonneg; lia). unfold rng.
      split; [apply Z.div_pos; lia|]. apply Z.div_le_upper_bound; nia.
    + assert (0 < 2 ^ k ≤ 2 ^ 9) as Hpow by (split; [apply Z.pow_pos_nonneg; lia|apply Z.pow_le_mono_r; lia]).
      unfold rng. nia.
    + intros _. assert (0 < 2 ^ (- k) ≤ 2 ^ 6) as Hpow by (split; [apply Z.pow_pos_nonneg; lia|apply Z.pow_le_mono_r; lia]).
      apply Z.div_le_lower_bound; nia.
    + intros _. assert (0 < 2 ^ k) by (apply Z.pow_pos_nonneg; lia). nia.
Qed.

Lemma wp_DIV64_pos F a b (Q : Z → Prop) :
  rng 1 9223372036854775807 b → (∀ v, i64r v → Q v) → wp F (DIV64 a b) Q.
Proof.
  unfold DIV64. intros Hb HQ. rewrite (i64_id b) by solve_rng.
  pose proof (i64_rng a) as Ha. unfold rng in *.
  destruct (_ || _) eqn:E; [lia|]. apply HQ.
  pose proof (Z.quot_le_mono (i64 a) 9223372036854775807 b ltac:(lia) ltac:(lia)).
  pose proof (Z.quot_le_mono (-9223372036854775808) (i64 a) b ltac:(lia) ltac:(lia)).
  assert (Z.quot 9223372036854775807 b ≤ 9223372036854775807) by (apply Z.quot_le_upper_bound; lia).
  assert (-9223372036854775808 ≤ Z.quot (-9223372036854775808) b); [|lia].
  rewrite Z.quot_opp_l with (a := 9223372036854775808) by lia.
  assert (Z.quot 9223372036854775808 b ≤ 9223372036854775808) by (apply Z.quot_le_upper_bound; lia). lia.
Qed.

Lemma wp_g729InvSqrt F x (Q : Z → Prop) :
  rng 1 2147483647 x → (∀ v, i32r v → Q v) → wp F (g729InvSqrt_Q0Q31 x) Q.
Proof.
  intros Hx HQ. unfold g729InvSqrt_Q0Q31. destruct (x =? 1) eqn:E.
  - apply HQ. unfold MAXINT32. solve_rng.
  - apply wp_bind, wp_g729Sqrt; [apply u32_rng|]. intros s Hs _. apply wp_bind.
    unfold DIV32_32_Q24. apply wp_DIV64_pos.
    + rewrite i32_id by solve_rng. solve_rng.
    + intros q Hq. apply HQ, i32_rng.
Qed.

(** ** Inverse trigonometric functions are total where they are documented *)

Lemma wp_g729Atan F x (Q : Z → Prop) :
  i32r x → (∀ v, i16r v → Q v) → wp F (g729Atan_Q15Q13 x) Q.
Proof.
  intros Hx HQ. unfold g729Atan_Q15Q13.
  set (x1 := if x <? 0 then i32 (- x) else x).
  assert (i32r x1) by (unfold x1; destruct (x <? 0); auto with rng). clearbody x1. cbv zeta.
  unfold ONE_IN_Q15, ONE_IN_Q30, KtanPI12, KtanPI6, atanB, atanC.
  apply wp_bind. apply wp_mono with (P := λ v, i32r v ∧ v ≤ 32768).
  { destruct (Z.ltb_spec 32768 x1) as [Hc|Hc]; [|by split].
    apply wp_DIV32; [solve_rng|done|lia|]. intros v Hv ->. split; [done|].
    apply Z.quot_le_upper_bound; lia. }
  intros x2 [Hx2 Hle]. apply wp_bind. apply wp_mono with (P := i32r).
  { destruct (Z.ltb_spec 8780 x2) as [Hh|Hh]; [|done].
    assert (MULT16_16_Q15 18919 x2 = 18919 * x2 / 32768) as Hq.
    { unfold MULT16_16_Q15, MULT16_16_Q, MULT16_16, SHR. unfold rng in *.
      rewrite (i32_id 18919), (i32_id x2), (i32_id (18919 * x2)) by (unfold rng; lia).
      by rewrite Z.shiftr_div_pow2. }
    assert (0 ≤ 18919 * x2 / 32768 ≤ 18919).
    { split; [apply Z.div_pos; lia|apply Z.div_le_upper_bound; lia]. }
    apply wp_DIV32; [auto with rng..| |done].
    unfold ADD32. rewrite Hq, (i32_id (18919 * x2 / 32768)), (i32_id 32768), i32_id; unfold rng; lia. }
  intros x3 Hx3. set (xx := i16 (MULT16_16_Q15 x3 x3)). assert (i16r xx) as Hxx by apply i16_rng.
  clearbody xx. apply wp_bind.
  apply wp_DIV32; [auto with rng..| |].
  - unfold MULT16_16_Q15, MULT16_16_Q, MULT16_16, SHR, ADD32. unfold rng in Hxx.
    rewrite (i32_id 19373), (i32_id xx), (i32_id (19373 * xx)) by (unfold rng; lia).
    rewrite Z.shiftr_div_pow2 by lia. change (2 ^ 15) with 32768.
    assert (-19373 ≤ 19373 * xx / 32768 ≤ 19373).
    { split; [apply Z.div_le_lower_bound|apply Z.div_le_upper_bound]; lia. }
    rewrite (i32_id (19373 * xx / 32768)), (i32_id 32768), i32_id; unfold rng; lia.
  - intros v Hv _. unfold wp. apply HQ. destruct (x <? 0); apply i16_rng.
Qed.

Lemma wp_g729Acos F x (Q : Z → Prop) :
  rng (-32767) 32767 x → (∀ v, i16r v → Q v) → wp F (g729Acos_Q15Q13 x) Q.
Proof.
  intros Hx HQ. unfold g729Acos_Q15Q13, g729Asin_Q15Q13. apply wp_bind, wp_bind.
  assert (u32 (SUB32 ONE_IN_Q30 (MULT16_16 x x)) = 1073741824 - x * x) as ->.
  { unfold SUB32, MULT16_16, ONE_IN_Q30. unfold rng in Hx.
    rewrite (i32_id x), (i32_id 1073741824), !(i32_id (x * x)), i32_id, u32_id; unfold rng; nia. }
  apply wp_g729Sqrt; [unfold rng in *; nia|]. intros s Hs Hpos. apply wp_bind.
  apply wp_DIV32; [auto with rng..| |].
  - unfold PSHR, SHR. unfold rng in *.
    assert (128 ≤ s) by (apply Hpos; nia). change (Z.shiftr (Z.shiftl 1 7) 1) with 64.
    rewrite i32_id by (unfold rng; lia). rewrite Z.shiftr_div_pow2 by lia. change (2 ^ 7) with 128.
    assert (1 ≤ (s + 64) / 128) by (apply Z.div_le_lower_bound; lia). lia.
  - intros q Hq _. apply wp_g729Atan; [done|]. intros a Ha. unfold wp. apply HQ, i16_rng.
Qed.
