(* ===== verification/Utils.v ===== *)
(** The shared routines of [utils.c]: sorting, parity, coefficient rearrangement,
    the synthesis filter, gain prediction, the 80-bit and 15-bit frame layouts and
    the pseudo-random generator.  A C pointer into an array is the array with the
    offset of the pointer. *)

From S2P Require Import Prelude FixedPoint Codebooks Math.

(** ** insertionSort, getMinInArray *)

(** The inner [while]: shift right every element above [currentValue]. *)
Definition insertionShift (currentValue i : Z) (x : list Z) : res (list Z * Z) :=
  while (S (Z.to_nat i))
    (λ '(x, j), if 0 <=? j then let* v := ld x j in Ok (currentValue <? v) else Ok false)
    (λ '(x, j), let* v := ld x j in let* x := st x (j + 1) v in Ok (x, j - 1))
    (x, i - 1).

Definition insertionSort (x : list Z) (length : Z) : res (list Z) :=
  for_up 1 length x (λ i x,
    let* currentValue := ld x i in
    let* (x, j) := insertionShift currentValue i x in
    st x (j + 1) currentValue).

Definition getMinInArray (x : list Z) (length : Z) : res Z :=
  for_up 0 length MAXINT16 (λ i min,
    let* v := ld x i in
    Ok (if v <? min then v else min)).

(** ** computeParity *)

Definition computeParity (adaptativeCodebookIndex : Z) : res Z :=
  let idx := u16 (SHR adaptativeCodebookIndex 2) in
  let* (parity, _) := for_up 0 6 (1, idx) (λ _ '(parity, idx),
    Ok (Z.lxor parity (Z.land idx 1), u16 (SHR idx 1))) in
  Ok parity.

(** ** rearrangeCoefficients *)

Definition rearrangeCoefficients (qLSP : list Z) (J : Z) : res (list Z) :=
  for_up 1 NB_LSP_COEFF qLSP (λ i qLSP,
    let* a := ld qLSP (i - 1) in
    let* b := ld qLSP i in
    let delta := i16 (Z.quot (ADD16 (SUB16 a b) J) 2) in
    if 0 <? delta then
      let* qLSP := st qLSP (i - 1) (i16 (SUB16 a delta)) in
      let* b' := ld qLSP i in
      st qLSP i (ADD16 b' delta)
    else Ok qLSP).

(** ** synthesisFilter, correlateVectors *)

Definition synthesisFilter (inputSignal : list Z) (filterCoefficients : list Z)
    (filteredSignal : list Z) (off : Z) : res (list Z) :=
  for_up 0 L_SUBFRAME filteredSignal (λ i filteredSignal,
    let* s := ld inputSignal i in
    let* acc := for_up 0 NB_LSP_COEFF (SSHL s 12) (λ j acc,
      let* c := ld filterCoefficients j in
      let* y := ld filteredSignal (off + (i - j - 1)) in
      Ok (MSU16_16 acc c y)) in
    st filteredSignal (off + i) (i16 (SATURATE (PSHR acc 12) MAXINT16))).

Definition correlateVectors (x y c : list Z) : res (list Z) :=
  for_up 0 L_SUBFRAME c (λ i c,
    let* c := st c i 0 in
    for_up i L_SUBFRAME c (λ j c,
      let* ci := ld c i in
      let* xj := ld x j in
      let* yj := ld y (j - i) in
      st c i (MAC16_16 ci xj yj))).

(** ** Gain prediction *)

Definition fixedCodebookEnergy (fixedCodebookVector : list Z) : res Z :=
  for_up 0 L_SUBFRAME 0 (λ i sum,
    let* v := ld fixedCodebookVector i in
    Ok (if v =? 0 then sum else MAC16_16 sum v v)).

Definition MACodeGainPrediction (previousGainPredictionError fixedCodebookVector : list Z) : res Z :=
  let* fixedCodebookVectorSquaresSum := fixedCodebookEnergy fixedCodebookVector in
  let* l := g729Log2_Q0Q16 fixedCodebookVectorSquaresSum in
  let acc := MAC16_32_Q13 8145364 (-24660) l in
  let acc := SHL acc 8 in
  let* acc := for_up 0 4 acc (λ i acc,
    let* e := ld previousGainPredictionError i in
    let* c := ld MAPredictionCoefficients i in
    Ok (MAC16_16 acc e c)) in
  let acc := SHR acc 2 in
  let acc := MULT16_32_Q15 5442 acc in
  let acc := PSHR acc 11 in
  g729Exp2_Q11Q16 (i16 acc).

(** [previousGainPredictionError] is shifted by one and the new error stored first. *)
Definition pushGainPredictionError (previousGainPredictionError : list Z) (e : Z) : res (list Z) :=
  let p := previousGainPredictionError in
  let* v := ld p 2 in
  let* p := st p 3 v in
  let* v := ld p 1 in
  let* p := st p 2 v in
  let* v := ld p 0 in
  let* p := st p 1 v in
  st p 0 (i16 e).

Definition computeGainPredictionError (fixedCodebookGainCorrectionFactor : Z)
    (previousGainPredictionError : list Z) : res (list Z) :=
  let* l := g729Log2_Q0Q16 fixedCodebookGainCorrectionFactor in
  let currentGainPredictionError := SUB32 l 786432 in
  let currentGainPredictionError := PSHR (MULT16_32_Q12 24660 currentGainPredictionError) 6 in
  pushGainPredictionError previousGainPredictionError currentGainPredictionError.

(** ** Frame layouts *)

Definition parametersArray2BitStream (parameters bitStream : list Z) : res (list Z) :=
  let* p0 := ld parameters 0 in let* p1 := ld parameters 1 in
  let* bitStream := st bitStream 0 (u8 (Z.lor (Z.shiftl (Z.land p0 1) 7) (Z.land p1 127))) in
  let* p2 := ld parameters 2 in let* p3 := ld parameters 3 in
  let* bitStream := st bitStream 1
    (u8 (Z.lor (Z.shiftl (Z.land p2 31) 3) (Z.land (Z.shiftr p3 2) 7))) in
  let* p4 := ld parameters 4 in
  let* bitStream := st bitStream 2
    (u8 (Z.lor (Z.shiftl (Z.land p3 3) 6) (Z.land (Z.shiftr p4 2) 63))) in
  let* p5 := ld parameters 5 in let* p6 := ld parameters 6 in
  let* bitStream := st bitStream 3
    (u8 (Z.lor (Z.lor (Z.shiftl (Z.land p4 3) 6) (Z.shiftl (Z.land p5 1) 5))
               (Z.land (Z.shiftr p6 8) 31))) in
  let* bitStream := st bitStream 4 (u8 (Z.land p6 255)) in
  let* p7 := ld parameters 7 in let* p8 := ld parameters 8 in let* p9 := ld parameters 9 in
  let* bitStream := st bitStream 5
    (u8 (Z.lor (Z.lor (Z.shiftl (Z.land p7 15) 4) (Z.shiftl (Z.land p8 7) 1))
               (Z.land (Z.shiftr p9 3) 1))) in
  let* p10 := ld parameters 10 in
  let* bitStream := st bitStream 6 (u8 (Z.lor (Z.shiftl (Z.land p9 7) 5) (Z.land p10 31))) in
  let* p11 := ld parameters 11 in
  let* bitStream := st bitStream 7 (u8 (Z.land (Z.shiftr p11 5) 255)) in
  let* p12 := ld parameters 12 in
  let* bitStream := st bitStream 8
    (u8 (Z.lor (Z.shiftl (Z.land p11 31) 3) (Z.land (Z.shiftr p12 1) 7))) in
  let* p13 := ld parameters 13 in let* p14 := ld parameters 14 in
  st bitStream 9
    (u8 (Z.lor (Z.lor (Z.shiftl (Z.land p12 1) 7) (Z.shiftl (Z.land p13 7) 4)) (Z.land p14 15))).

Definition CNGparametersArray2BitStream (parameters bitStream : list Z) : res (list Z) :=
  let* p0 := ld parameters 0 in let* p1 := ld parameters 1 in let* p2 := ld parameters 2 in
  let* bitStream := st bitStream 0
    (u8 (Z.lor (Z.lor (Z.shiftl (Z.land p0 1) 7) (Z.shiftl (Z.land p1 31) 2))
               (Z.land (Z.shiftr p2 2) 3))) in
  let* p3 := ld parameters 3 in
  st bitStream 1 (u8 (Z.lor (Z.shiftl (Z.land p2 3) 6) (Z.shiftl (Z.land p3 31) 1))).

Definition parametersBitStream2Array (bitStream parameters : list Z) : res (list Z) :=
  let* b0 := ld bitStream 0 in
  let* parameters := st parameters 0 (u16 (Z.land (Z.shiftr b0 7) 1)) in
  let* parameters := st parameters 1 (u16 (Z.land b0 127)) in
  let* b1 := ld bitStream 1 in
  let* parameters := st parameters 2 (u16 (Z.land (Z.shiftr b1 3) 31)) in
  let* b2 := ld bitStream 2 in
  let* parameters := st parameters 3
    (u16 (Z.lor (Z.shiftl (Z.land b1 7) 2) (Z.land (Z.shiftr b2 6) 3))) in
  let* b3 := ld bitStream 3 in
  let* parameters := st parameters 4
    (u16 (Z.lor (Z.shiftl (Z.land b2 63) 2) (Z.land (Z.shiftr b3 6) 3))) in
  let* parameters := st parameters 5 (u16 (Z.land (Z.shiftr b3 5) 1)) in
  let* b4 := ld bitStream 4 in
  let* parameters := st parameters 6 (u16 (Z.lor (Z.shiftl (u16 (Z.land b3 31)) 8) b4)) in
  let* b5 := ld bitStream 5 in
  let* parameters := st parameters 7 (u16 (Z.land (Z.shiftr b5 4) 15)) in
  let* parameters := st parameters 8 (u16 (Z.land (Z.shiftr b5 1) 7)) in
  let* b6 := ld bitStream 6 in
  let* parameters := st parameters 9
    (u16 (Z.lor (Z.shiftl (Z.land b5 1) 3) (Z.land (Z.shiftr b6 5) 7))) in
  let* parameters := st parameters 10 (u16 (Z.land b6 31)) in
  let* b7 := ld bitStream 7 in let* b8 := ld bitStream 8 in
  let* parameters := st parameters 11
    (u16 (Z.lor (Z.shiftl b7 5) (Z.land (Z.shiftr b8 3) 31))) in
  let* b9 := ld bitStream 9 in
  let* parameters := st parameters 12
    (u16 (Z.lor (Z.shiftl (Z.land b8 7) 1) (Z.land (Z.shiftr b9 7) 1))) in
  let* parameters := st parameters 13 (u16 (Z.land (Z.shiftr b9 4) 7)) in
  st parameters 14 (u16 (Z.land b9 15)).

(** ** pseudoRandom: the new seed, which is also the value returned *)

Definition pseudoRandom (randomGeneratorSeed : Z) : Z :=
  u16 (MAC16_16 13849 randomGeneratorSeed 31821).

(** ** insertionSort sorts *)

Lemma ld_app_mid {A} (l k : list A) v : ld (l ++ v :: k) (zlen l) = Ok v.
Proof. apply ld_lookup. unfold zlen. rewrite Nat2Z.id, list_lookup_middle by done. split; [lia|done]. Qed.

Lemma st_app_mid {A} (l k : list A) v w : st (l ++ v :: k) (zlen l) w = Ok (l ++ w :: k).
Proof.
  unfold st, zlen. rewrite length_app. cbn [length].
  destruct (Z.leb_spec 0 (Z.of_nat (length l))); [|lia].
  destruct (Z.ltb_spec (Z.of_nat (length l)) (Z.of_nat (length l + S (length k)))); [|lia]. simpl. by rewrite Nat2Z.id, insert_app_r_alt, Nat.sub_diag by done.
Qed.

Lemma zlen_app {A} (l k : list A) : zlen (l ++ k) = zlen l + zlen k.
Proof. unfold zlen. rewrite length_app. lia. Qed.
Lemma zlen_cons {A} (x : A) l : zlen (x :: l) = zlen l + 1.
Proof. unfold zlen. simpl. lia. Qed.
Lemma zlen_snoc {A} (l : list A) a : zlen (l ++ [a]) = zlen l + 1.
Proof. by rewrite zlen_app, zlen_cons. Qed.

(** The shift loop on the sorted prefix [A ++ B], [B] already shifted over the hole [h]. *)
Lemma insertionShift_loop c (A B R : list Z) h fuel :
  Forall (λ b, c < b) B → (length A < fuel)%nat →
  ∃ A1 A2 h', A = A1 ++ A2 ∧ Forall (λ b, c < b) A2 ∧
    (∀ a l, A1 = l ++ [a] → a ≤ c) ∧
    while fuel
      (λ '(x, j), if 0 <=? j then let* v := ld x j in Ok (c <? v) else Ok false)
      (λ '(x, j), let* v := ld x j in let* x := st x (j + 1) v in Ok (x, j - 1))
      (A ++ h :: B ++ R, zlen A - 1)
    = Ok (A1 ++ h' :: (A2 ++ B) ++ R, zlen A1 - 1).
Proof.
  revert B h fuel. induction A as [|a A IH] using rev_ind; intros B h [|fuel] HB Hf; try (simpl in Hf; lia).
  - exists [], [], h. split; [done|]. split; [constructor|]. split; [by intros ? []|]. done.
  - rewrite length_app in Hf. simpl in Hf. cbn [while].
    rewrite zlen_snoc. pose proof (zlen_nonneg A). rewrite Z.add_simpl_r.
    destruct (Z.leb_spec 0 (zlen A)); [|lia].
    rewrite <-!app_assoc. simpl ([a] ++ _). rewrite ld_app_mid. cbn [bind].
    destruct (Z.ltb_spec c a) as [Hca|Hca].
    + cbn [bind].
      replace (A ++ a :: h :: B ++ R) with ((A ++ [a]) ++ h :: B ++ R) by (by rewrite <-app_assoc).
      rewrite <-(zlen_snoc A a).
      rewrite st_app_mid. cbn [bind]. rewrite <-app_assoc. simpl ([a] ++ _).
      destruct (IH (a :: B) a fuel) as (A1 & A2 & h' & -> & HA2 & HA1 & Hw); [by constructor|lia|].
      exists A1, (A2 ++ [a]), h'. split; [by rewrite app_assoc|].
      split; [apply Forall_app; split; [done|by constructor]|]. split; [done|].
      simpl in Hw. rewrite Hw. by rewrite <-!app_assoc.
    + exists (A ++ [a]), [], h. split; [by rewrite app_nil_r|]. split; [constructor|]. split.
      * intros a' l [_ [= ->]]%app_inj_tail. done.
      * cbn [bind]. rewrite <-!app_assoc. simpl. do 2 f_equal. rewrite zlen_snoc. lia.
Qed.

Lemma StronglySorted_le_insert (A B : list Z) c :
  StronglySorted Z.le (A ++ B) → Forall (λ b, c < b) B → (∀ a l, A = l ++ [a] → a ≤ c) →
  StronglySorted Z.le (A ++ c :: B).
Proof.
  intros (HAB & HSA & HSB)%StronglySorted_app HB HA. apply StronglySorted_app.
  rewrite Forall_forall in HB.
  assert (∀ a, a ∈ A → a ≤ c) as HA'.
  { destruct A as [|z A _] using rev_ind; [by intros a ?%not_elem_of_nil|].
    specialize (HA z A eq_refl). apply StronglySorted_app in HSA as (HSA & _ & _).
    intros a [Ha|Ha%list_elem_of_singleton]%elem_of_app; [|by subst].
    etrans; [|done]. apply HSA; [done|]. by apply list_elem_of_singleton. }
  split; [|split; [done|]].
  - intros a b Ha [->|Hb]%elem_of_cons; auto.
  - constructor; [done|]. apply Forall_forall. intros b Hb%HB. lia.
Qed.

Lemma insertionSort_ok x :
  ∃ y, insertionSort x (zlen x) = Ok y ∧ StronglySorted Z.le y ∧ x ≡ₚ y.
Proof.
  destruct x as [|x0 x]; [by exists []; repeat split; constructor|].
  cut (wp no_fault (insertionSort (x0 :: x) (zlen (x0 :: x)))
    (λ y, StronglySorted Z.le y ∧ x0 :: x ≡ₚ y)).
  { intros H%safe_ok. destruct H as (y & ? & ? & ?). eauto. }
  unfold insertionSort.
  apply wp_for_up with (I := λ i y, zlen y = zlen (x0 :: x) ∧
    StronglySorted Z.le (take (Z.to_nat i) y) ∧ x0 :: x ≡ₚ y).
  - rewrite zlen_cons. pose proof (zlen_nonneg x). lia.
  - split; [done|]. split; [|done]. simpl. repeat constructor.
  - intros i y Hi (Hlen & HS & HP).
    destruct (lookup_lt_is_Some_2 y (Z.to_nat i)) as [c Hc]; [unfold zlen in *; lia|].
    pose proof (take_drop_middle y _ c Hc) as Hy.
    set (A := take (Z.to_nat i) y) in *. set (R := drop (S (Z.to_nat i)) y) in *.
    assert (zlen A = i) as HA by (unfold A, zlen in *; rewrite length_take; lia).
    clearbody A R. rewrite <-Hy. apply wp_bind. rewrite <-HA at 1. rewrite ld_app_mid. unfold wp at 1.
    apply wp_bind. unfold insertionShift.
    destruct (insertionShift_loop c A [] R c (S (Z.to_nat i))) as (A1 & A2 & h & -> & HA2 & HA1 & Hw);
      [constructor|unfold zlen in *; lia|].
    rewrite !app_nil_l, ?app_nil_r in Hw. rewrite <-HA at 2. rewrite Hw. unfold wp at 1.
    replace (zlen A1 - 1 + 1) with (zlen A1) by lia. rewrite st_app_mid. unfold wp.
    split; [|split].
    + rewrite <-Hlen, <-Hy. rewrite !zlen_app, !zlen_cons, !zlen_app. lia.
    + replace (A1 ++ c :: A2 ++ R) with ((A1 ++ c :: A2) ++ R) by (by rewrite <-app_assoc).
      rewrite take_app_length'; [|rewrite zlen_app in HA; unfold zlen in *; rewrite length_app; simpl; lia].
      by apply StronglySorted_le_insert.
    + rewrite HP, <-Hy. rewrite <-!app_assoc. simpl. solve_Permutation.
  - intros y (Hlen & HS & HP). split; [|done]. rewrite take_ge in HS; [done|]. unfold zlen in *. lia.
Qed.

(** ** Frame layouts: bit fields as arithmetic *)

Lemma lor_low k x y : 0 ≤ k → x mod 2 ^ k = 0 → 0 ≤ y < 2 ^ k → Z.lor x y = x + y.
Proof.
  intros Hk Hx Hy. symmetry. apply Z.add_nocarry_lor.
  rewrite <-(Z.mod_small y (2 ^ k)) by done. rewrite <-Z.land_ones by done.
  rewrite (Z.land_comm y), Z.land_assoc, Z.land_ones, Hx by done. apply Z.land_0_l.
Qed.

Lemma land_1 a : Z.land a 1 = a mod 2. Proof. by apply (Z.land_ones a 1). Qed.
Lemma land_3 a : Z.land a 3 = a mod 4. Proof. by apply (Z.land_ones a 2). Qed.
Lemma land_7 a : Z.land a 7 = a mod 8. Proof. by apply (Z.land_ones a 3). Qed.
Lemma land_15 a : Z.land a 15 = a mod 16. Proof. by apply (Z.land_ones a 4). Qed.
Lemma land_31 a : Z.land a 31 = a mod 32. Proof. by apply (Z.land_ones a 5). Qed.
Lemma land_63 a : Z.land a 63 = a mod 64. Proof. by apply (Z.land_ones a 6). Qed.
Lemma land_127 a : Z.land a 127 = a mod 128. Proof. by apply (Z.land_ones a 7). Qed.
Lemma land_255 a : Z.land a 255 = a mod 256. Proof. by apply (Z.land_ones a 8). Qed.
Lemma shl_mul a k : Z.shiftl a (Z.pos k) = a * 2 ^ Z.pos k.
Proof. apply Z.shiftl_mul_pow2. lia. Qed.
Lemma shr_div a k : Z.shiftr a (Z.pos k) = a / 2 ^ Z.pos k.
Proof. apply Z.shiftr_div_pow2. lia. Qed.

Create Rewrite HintDb bits.
#[export] Hint Rewrite land_1 land_3 land_7 land_15 land_31 land_63 land_127 land_255 shl_mul shr_div : bits.

Ltac bits_to_arith :=
  autorewrite with bits;
  repeat match goal with
  | |- context [2 ^ Z.pos ?k] => let v := eval vm_compute in (2 ^ Z.pos k) in change (2 ^ Z.pos k) with v
  end.

Ltac divmod := Z.div_mod_to_equations; lia.

(** The order of the fields of a frame and their widths, spec 4 table 8. *)
Definition field_widths : list Z := [1; 7; 5; 5; 8; 1; 13; 4; 3; 4; 5; 13; 4; 3; 4].

Definition params_ok (p : list Z) : Prop :=
  Forall2 (λ v w, 0 ≤ v < 2 ^ w) p field_widths.

Lemma params_ok_inv p : params_ok p → ∃ p0 p1 p2 p3 p4 p5 p6 p7 p8 p9 p10 p11 p12 p13 p14,
  p = [p0; p1; p2; p3; p4; p5; p6; p7; p8; p9; p10; p11; p12; p13; p14] ∧
  (0 ≤ p0 < 2 ∧ 0 ≤ p1 < 128 ∧ 0 ≤ p2 < 32 ∧ 0 ≤ p3 < 32 ∧ 0 ≤ p4 < 256 ∧ 0 ≤ p5 < 2 ∧
   0 ≤ p6 < 8192 ∧ 0 ≤ p7 < 16 ∧ 0 ≤ p8 < 8 ∧ 0 ≤ p9 < 16 ∧ 0 ≤ p10 < 32 ∧ 0 ≤ p11 < 8192 ∧
   0 ≤ p12 < 16 ∧ 0 ≤ p13 < 8 ∧ 0 ≤ p14 < 16).
Proof.
  unfold params_ok, field_widths. intros H.
  repeat match goal with H : Forall2 _ _ _ |- _ => inversion H; clear H; subst end.
  do 15 eexists. split; [done|]. cbn in *. tauto.
Qed.

(** Name the elements of an array of known size. *)
Ltac explode l H :=
  let L := fresh in
  match type of H with
  | zlen _ = ?n =>
      let m := eval vm_compute in (Z.to_nat n) in
      assert (length l = m) as L by (unfold zlen in H; lia)
  end;
  repeat match type of L with
  | length l = S _ => destruct l as [|? l]; [discriminate L | cbn [length] in L; apply (f_equal pred) in L; cbn [pred] in L]
  | length l = O => destruct l; [clear L | discriminate L]
  end; clear H.

(** Run straight-line array code on an array whose elements are named. *)
Ltac arr_cbv f :=
  cbv [f bind ld st zlen length Z.of_nat Z.to_nat Z.leb Z.ltb Z.compare
       Pos.compare Pos.compare_cont Pos.of_succ_nat Pos.succ Pos.to_nat Pos.iter_op Nat.add andb
       lookup list_lookup insert list_insert].

Lemma pack_spec p b : params_ok p → zlen b = 10 →
  parametersArray2BitStream p b =
    Ok (match p with
        | [p0; p1; p2; p3; p4; p5; p6; p7; p8; p9; p10; p11; p12; p13; p14] =>
          [p0 * 128 + p1; p2 * 8 + p3 / 4; p3 mod 4 * 64 + p4 / 4;
           p4 mod 4 * 64 + p5 * 32 + p6 / 256; p6 mod 256; p7 * 16 + p8 * 2 + p9 / 8;
           p9 mod 8 * 32 + p10; p11 / 32; p11 mod 32 * 8 + p12 / 2;
           p12 mod 2 * 128 + p13 * 16 + p14]
        | _ => b
        end).
Proof.
  intros Hp Hb.
  destruct (params_ok_inv p Hp) as (p0&p1&p2&p3&p4&p5&p6&p7&p8&p9&p10&p11&p12&p13&p14&->&HR).
  clear Hp. explode b Hb.
  arr_cbv parametersArray2BitStream.
  f_equal. unfold u8. repeat apply (f_equal2 cons); [..|done]; bits_to_arith.
  - rewrite (lor_low 7) by divmod. divmod.
  - rewrite (lor_low 3) by divmod. divmod.
  - rewrite (lor_low 6) by divmod. divmod.
  - rewrite (lor_low 6 _ (p5 mod 2 * 32)), (lor_low 5) by divmod. divmod.
  - divmod.
  - rewrite (lor_low 4 _ (p8 mod 8 * 2)), (lor_low 1) by divmod. divmod.
  - rewrite (lor_low 5) by divmod. divmod.
  - divmod.
  - rewrite (lor_low 3) by divmod. divmod.
  - rewrite (lor_low 7 _ (p13 mod 8 * 16)), (lor_low 4) by divmod. divmod.
Qed.

Lemma unpack_spec b p : arr u8r 10 b → zlen p = 15 →
  parametersBitStream2Array b p =
    Ok (match b with
        | [b0; b1; b2; b3; b4; b5; b6; b7; b8; b9] =>
          [b0 / 128; b0 mod 128; b1 / 8; b1 mod 8 * 4 + b2 / 64; b2 mod 64 * 4 + b3 / 64;
           b3 / 32 mod 2; b3 mod 32 * 256 + b4; b5 / 16; b5 / 2 mod 8; b5 mod 2 * 8 + b6 / 32;
           b6 mod 32; b7 * 32 + b8 / 8; b8 mod 8 * 2 + b9 / 128; b9 / 16 mod 8; b9 mod 16]
        | _ => p
        end).
Proof.
  intros [Hb HF] Hp. explode b Hb. explode p Hp.
  repeat match goal with H : Forall _ (_ :: _) |- _ => inversion H; clear H; subst end.
  unfold rng in *. arr_cbv parametersBitStream2Array.
  f_equal. unfold u16. repeat apply (f_equal2 cons); [..|done]; bits_to_arith;
    first [divmod | rewrite (lor_low 2) by divmod; divmod | rewrite (lor_low 8) by divmod; divmod
          | rewrite (lor_low 3) by divmod; divmod | rewrite (lor_low 5) by divmod; divmod
          | rewrite (lor_low 1) by divmod; divmod].
Qed.

Lemma unpack_packed p b q : params_ok p → zlen b = 10 → zlen q = 15 →
  (let* bits := parametersArray2BitStream p b in parametersBitStream2Array bits q) = Ok p.
Proof.
  intros Hp Hb Hq. rewrite pack_spec by done. cbn [bind].
  destruct (params_ok_inv p Hp) as (p0&p1&p2&p3&p4&p5&p6&p7&p8&p9&p10&p11&p12&p13&p14&->&HR).
  rewrite unpack_spec; [|split; [done|]; repeat constructor; unfold rng; divmod|done].
  f_equal. repeat apply (f_equal2 cons); try done; divmod.
Qed.

(** ** Safety of the array routines *)

Lemma wp_insertionSort F P n x (Q : list Z → Prop) :
  arr P n x → (∀ y, arr P n y → StronglySorted Z.le y → x ≡ₚ y → Q y) →
  wp F (insertionSort x n) Q.
Proof.
  intros [<- HP] HQ. destruct (insertionSort_ok x) as (y & -> & HS & Hperm).
  apply HQ; [|done..]. split.
  - unfold zlen. by rewrite Hperm.
  - by rewrite <-Hperm.
Qed.

Lemma wp_rearrangeCoefficients F x J (Q : list Z → Prop) :
  arr i16r 10 x → (∀ y, arr i16r 10 y → Q y) → wp F (rearrangeCoefficients x J) Q.
Proof.
  intros Hx HQ. unfold rearrangeCoefficients, NB_LSP_COEFF.
  apply wp_for_inv with (I := arr i16r 10); [done| |done].
  intros i y Hi Hy. wp_go; done.
Qed.

Lemma wp_synthesisFilter F n inp coeffs y off (Q : list Z → Prop) :
  arr i16r 40 inp → arr i16r 10 coeffs → arr i16r n y → 10 ≤ off → off + 40 ≤ n →
  (∀ y', arr i16r n y' → Q y') → wp F (synthesisFilter inp coeffs y off) Q.
Proof.
  intros. unfold synthesisFilter, L_SUBFRAME, NB_LSP_COEFF.
  apply wp_for_inv with (I := arr i16r n); [done| |done].
  intros i z Hi Hz. wp_go.
  apply wp_for_inv with (I := i32r); [auto with rng| |].
  - intros j acc Hj Hacc. wp_go. auto with rng.
  - intros acc Hacc. wp_go. done.
Qed.

Lemma wp_pushGainPredictionError F p e (Q : list Z → Prop) :
  arr i16r 4 p → (∀ p', arr i16r 4 p' → Q p') → wp F (pushGainPredictionError p e) Q.
Proof. intros Hp HQ. unfold pushGainPredictionError. cbv zeta. wp_go. auto. Qed.

Lemma wp_computeGainPredictionError F g p (Q : list Z → Prop) :
  0 ≤ g < 2147483648 → arr i16r 4 p → (∀ p', arr i16r 4 p' → Q p') →
  wp F (computeGainPredictionError g p) Q.
Proof.
  intros Hg Hp HQ. unfold computeGainPredictionError. wp_step.
  apply wp_g729Log2; [done|]. intros l Hl. cbv zeta. by eapply wp_pushGainPredictionError.
Qed.

Lemma wp_MACodeGainPrediction F p fcv (Q : Z → Prop) :
  arr i16r 4 p → safe (fixedCodebookEnergy fcv) (rng 0 2147483647) →
  (∀ g, rng 0 2147483647 g → Q g) → wp F (MACodeGainPrediction p fcv) Q.
Proof.
  intros Hp HE HQ. unfold MACodeGainPrediction. wp_step. eapply wp_of_safe; [done|].
  intros e He. wp_step. apply wp_g729Log2; [unfold rng in He; lia|]. intros l Hl. cbv zeta.
  wp_step. apply wp_for_inv with (I := i32r); [auto with rng| |].
  - intros i acc Hi Hacc. wp_go. auto with rng.
  - intros acc Hacc. apply wp_g729Exp2; [apply i16_rng|done].
Qed.

Lemma computeParity_ok idx : 0 ≤ idx < 256 →
  ∃ b, computeParity idx = Ok b ∧ rng 0 1 b.
Proof.
  intros Hi. exhaust 8%nat 0 256 (λ i, match computeParity i with Ok b => rngb 0 1 b | _ => false end) idx as H.
  destruct (computeParity idx) as [b|]; [|done]. exists b. split; [done|]. by apply rngb_sound.
Qed.

Lemma pseudoRandom_rng s : u16r (pseudoRandom s).
Proof. apply u16_rng. Qed.
#[export] Hint Resolve pseudoRandom_rng : rng.
