(* ===== verification/Context.v ===== *)
(** The decoder's persistent state: [bcg729DecoderChannelContextStruct] and the comfort
    noise context it owns ([typedef.h]), one field per C member, with the invariant every
    decoder operation preserves.  The two pointers into the filter buffers
    ([longTermFilteredResidualSignal] = buffer + 1, [shortTermFilteredResidualSignal] =
    buffer + 10) are set once by [initPostFilter] and never change: they are the offsets
    1 and 10 in the operations that use them. *)

From S2P Require Import Prelude FixedPoint.

(** [bcg729CNGChannelContextStruct] *)
Module Cng.

Record ctx : Type := Mk {
  receivedSIDGain : Z;
  smoothedSIDGain : Z;
  qLSP : list Z;
  lastFrameEnergy : Z
}.

Definition set_receivedSIDGain (v : Z) (c : ctx) : ctx :=
  Mk v c.(smoothedSIDGain) c.(qLSP) c.(lastFrameEnergy).
Definition set_smoothedSIDGain (v : Z) (c : ctx) : ctx :=
  Mk c.(receivedSIDGain) v c.(qLSP) c.(lastFrameEnergy).
Definition set_qLSP (v : list Z) (c : ctx) : ctx :=
  Mk c.(receivedSIDGain) c.(smoothedSIDGain) v c.(lastFrameEnergy).
Definition set_lastFrameEnergy (v : Z) (c : ctx) : ctx :=
  Mk c.(receivedSIDGain) c.(smoothedSIDGain) c.(qLSP) v.

(** Array sizes and the ranges of the C types. *)
Record wf (c : ctx) : Prop := {
  wf_receivedSIDGain : i16r c.(receivedSIDGain);
  wf_smoothedSIDGain : i16r c.(smoothedSIDGain);
  wf_qLSP : arr i16r 10 c.(qLSP);
  wf_lastFrameEnergy : i64r c.(lastFrameEnergy)
}.

Lemma wf_set_receivedSIDGain c v : wf c → i16r v → wf (set_receivedSIDGain v c).
Proof. intros [] ?; by constructor. Qed.
Lemma wf_set_smoothedSIDGain c v : wf c → i16r v → wf (set_smoothedSIDGain v c).
Proof. intros [] ?; by constructor. Qed.
Lemma wf_set_qLSP c v : wf c → arr i16r 10 v → wf (set_qLSP v c).
Proof. intros [] ?; by constructor. Qed.
Lemma wf_set_lastFrameEnergy c v : wf c → i64r v → wf (set_lastFrameEnergy v c).
Proof. intros [] ?; by constructor. Qed.

#[export] Hint Resolve wf_receivedSIDGain wf_smoothedSIDGain wf_qLSP wf_lastFrameEnergy : csafe rng.
#[export] Hint Resolve wf_set_receivedSIDGain wf_set_smoothedSIDGain wf_set_qLSP wf_set_lastFrameEnergy : csafe.

End Cng.
Export (hints) Cng.

(** [bcg729DecoderChannelContextStruct] *)
Module Dec.

Record ctx : Type := Mk {
  previousqLSP : list Z;
  excitationVector : list Z;
  boundedAdaptativeCodebookGain : Z;
  adaptativeCodebookGain : Z;
  fixedCodebookGain : Z;
  reconstructedSpeech : list Z;
  pseudoRandomSeed : Z;
  CNGpseudoRandomSeed : Z;
  lastqLSF : list Z;
  previousLCodeWord : list (list Z);
  lastValidL0 : Z;
  previousIntPitchDelay : Z;
  previousGainPredictionError : list Z;
  residualSignalBuffer : list Z;
  scaledResidualSignalBuffer : list Z;
  longTermFilteredResidualSignalBuffer : list Z;
  shortTermFilteredResidualSignalBuffer : list Z;
  previousAdaptativeGain : Z;
  inputX0 : Z;
  inputX1 : Z;
  outputY2 : Z;
  outputY1 : Z;
  CNGChannelContext : Cng.ctx;
  previousFrameIsActiveFlag : Z
}.

Definition set_previousqLSP (v : list Z) (c : ctx) : ctx :=
  Mk v c.(excitationVector) c.(boundedAdaptativeCodebookGain) c.(adaptativeCodebookGain)
  c.(fixedCodebookGain) c.(reconstructedSpeech) c.(pseudoRandomSeed) c.(CNGpseudoRandomSeed)
  c.(lastqLSF) c.(previousLCodeWord) c.(lastValidL0) c.(previousIntPitchDelay)
  c.(previousGainPredictionError) c.(residualSignalBuffer) c.(scaledResidualSignalBuffer)
  c.(longTermFilteredResidualSignalBuffer) c.(shortTermFilteredResidualSignalBuffer)
  c.(previousAdaptativeGain) c.(inputX0) c.(inputX1) c.(outputY2) c.(outputY1)
  c.(CNGChannelContext) c.(previousFrameIsActiveFlag).
Definition set_excitationVector (v : list Z) (c : ctx) : ctx :=
  Mk c.(previousqLSP) v c.(boundedAdaptativeCodebookGain) c.(adaptativeCodebookGain)
  c.(fixedCodebookGain) c.(reconstructedSpeech) c.(pseudoRandomSeed) c.(CNGpseudoRandomSeed)
  c.(lastqLSF) c.(previousLCodeWord) c.(lastValidL0) c.(previousIntPitchDelay)
  c.(previousGainPredictionError) c.(residualSignalBuffer) c.(scaledResidualSignalBuffer)
  c.(longTermFilteredResidualSignalBuffer) c.(shortTermFilteredResidualSignalBuffer)
  c.(previousAdaptativeGain) c.(inputX0) c.(inputX1) c.(outputY2) c.(outputY1)
  c.(CNGChannelContext) c.(previousFrameIsActiveFlag).
Definition set_boundedAdaptativeCodebookGain (v : Z) (c : ctx) : ctx :=
  Mk c.(previousqLSP) c.(excitationVector) v c.(adaptativeCodebookGain) c.(fixedCodebookGain)
  c.(reconstructedSpeech) c.(pseudoRandomSeed) c.(CNGpseudoRandomSeed) c.(lastqLSF)
  c.(previousLCodeWord) c.(lastValidL0) c.(previousIntPitchDelay) c.(previousGainPredictionError)
  c.(residualSignalBuffer) c.(scaledResidualSignalBuffer)
  c.(longTermFilteredResidualSignalBuffer) c.(shortTermFilteredResidualSignalBuffer)
  c.(previousAdaptativeGain) c.(inputX0) c.(inputX1) c.(outputY2) c.(outputY1)
  c.(CNGChannelContext) c.(previousFrameIsActiveFlag).
Definition set_adaptativeCodebookGain (v : Z) (c : ctx) : ctx :=
  Mk c.(previousqLSP) c.(excitationVector) c.(boundedAdaptativeCodebookGain) v
  c.(fixedCodebookGain) c.(reconstructedSpeech) c.(pseudoRandomSeed) c.(CNGpseudoRandomSeed)
  c.(lastqLSF) c.(previousLCodeWord) c.(lastValidL0) c.(previousIntPitchDelay)
  c.(previousGainPredictionError) c.(residualSignalBuffer) c.(scaledResidualSignalBuffer)
  c.(longTermFilteredResidualSignalBuffer) c.(shortTermFilteredResidualSignalBuffer)
  c.(previousAdaptativeGain) c.(inputX0) c.(inputX1) c.(outputY2) c.(outputY1)
  c.(CNGChannelContext) c.(previousFrameIsActiveFlag).
Definition set_fixedCodebookGain (v : Z) (c : ctx) : ctx :=
  Mk c.(previousqLSP) c.(excitationVector) c.(boundedAdaptativeCodebookGain)
  c.(adaptativeCodebookGain) v c.(reconstructedSpeech) c.(pseudoRandomSeed)
  c.(CNGpseudoRandomSeed) c.(lastqLSF) c.(previousLCodeWord) c.(lastValidL0)
  c.(previousIntPitchDelay) c.(previousGainPredictionError) c.(residualSignalBuffer)
  c.(scaledResidualSignalBuffer) c.(longTermFilteredResidualSignalBuffer)
  c.(shortTermFilteredResidualSignalBuffer) c.(previousAdaptativeGain) c.(inputX0) c.(inputX1)
  c.(outputY2) c.(outputY1) c.(CNGChannelContext) c.(previousFrameIsActiveFlag).
Definition set_reconstructedSpeech (v : list Z) (c : ctx) : ctx :=
  Mk c.(previousqLSP) c.(excitationVector) c.(boundedAdaptativeCodebookGain)
  c.(adaptativeCodebookGain) c.(fixedCodebookGain) v c.(pseudoRandomSeed) c.(CNGpseudoRandomSeed)
  c.(lastqLSF) c.(previousLCodeWord) c.(lastValidL0) c.(previousIntPitchDelay)
  c.(previousGainPredictionError) c.(residualSignalBuffer) c.(scaledResidualSignalBuffer)
  c.(longTermFilteredResidualSignalBuffer) c.(shortTermFilteredResidualSignalBuffer)
  c.(previousAdaptativeGain) c.(inputX0) c.(inputX1) c.(outputY2) c.(outputY1)
  c.(CNGChannelContext) c.(previousFrameIsActiveFlag).
Definition set_pseudoRandomSeed (v : Z) (c : ctx) : ctx :=
  Mk c.(previousqLSP) c.(excitationVector) c.(boundedAdaptativeCodebookGain)
  c.(adaptativeCodebookGain) c.(fixedCodebookGain) c.(reconstructedSpeech) v
  c.(CNGpseudoRandomSeed) c.(lastqLSF) c.(previousLCodeWord) c.(lastValidL0)
  c.(previousIntPitchDelay) c.(previousGainPredictionError) c.(residualSignalBuffer)
  c.(scaledResidualSignalBuffer) c.(longTermFilteredResidualSignalBuffer)
  c.(shortTermFilteredResidualSignalBuffer) c.(previousAdaptativeGain) c.(inputX0) c.(inputX1)
  c.(outputY2) c.(outputY1) c.(CNGChannelContext) c.(previousFrameIsActiveFlag).
Definition set_CNGpseudoRandomSeed (v : Z) (c : ctx) : ctx :=
  Mk c.(previousqLSP) c.(excitationVector) c.(boundedAdaptativeCodebookGain)
  c.(adaptativeCodebookGain) c.(fixedCodebookGain) c.(reconstructedSpeech) c.(pseudoRandomSeed) v
  c.(lastqLSF) c.(previousLCodeWord) c.(lastValidL0) c.(previousIntPitchDelay)
  c.(previousGainPredictionError) c.(residualSignalBuffer) c.(scaledResidualSignalBuffer)
  c.(longTermFilteredResidualSignalBuffer) c.(shortTermFilteredResidualSignalBuffer)
  c.(previousAdaptativeGain) c.(inputX0) c.(inputX1) c.(outputY2) c.(outputY1)
  c.(CNGChannelContext) c.(previousFrameIsActiveFlag).
Definition set_lastqLSF (v : list Z) (c : ctx) : ctx :=
  Mk c.(previousqLSP) c.(excitationVector) c.(boundedAdaptativeCodebookGain)
  c.(adaptativeCodebookGain) c.(fixedCodebookGain) c.(reconstructedSpeech) c.(pseudoRandomSeed)
  c.(CNGpseudoRandomSeed) v c.(previousLCodeWord) c.(lastValidL0) c.(previousIntPitchDelay)
  c.(previousGainPredictionError) c.(residualSignalBuffer) c.(scaledResidualSignalBuffer)
  c.(longTermFilteredResidualSignalBuffer) c.(shortTermFilteredResidualSignalBuffer)
  c.(previousAdaptativeGain) c.(inputX0) c.(inputX1) c.(outputY2) c.(outputY1)
  c.(CNGChannelContext) c.(previousFrameIsActiveFlag).
Definition set_previousLCodeWord (v : list (list Z)) (c : ctx) : ctx :=
  Mk c.(previousqLSP) c.(excitationVector) c.(boundedAdaptativeCodebookGain)
  c.(adaptativeCodebookGain) c.(fixedCodebookGain) c.(reconstructedSpeech) c.(pseudoRandomSeed)
  c.(CNGpseudoRandomSeed) c.(lastqLSF) v c.(lastValidL0) c.(previousIntPitchDelay)
  c.(previousGainPredictionError) c.(residualSignalBuffer) c.(scaledResidualSignalBuffer)
  c.(longTermFilteredResidualSignalBuffer) c.(shortTermFilteredResidualSignalBuffer)
  c.(previousAdaptativeGain) c.(inputX0) c.(inputX1) c.(outputY2) c.(outputY1)
  c.(CNGChannelContext) c.(previousFrameIsActiveFlag).
Definition set_lastValidL0 (v : Z) (c : ctx) : ctx :=
  Mk c.(previousqLSP) c.(excitationVector) c.(boundedAdaptativeCodebookGain)
  c.(adaptativeCodebookGain) c.(fixedCodebookGain) c.(reconstructedSpeech) c.(pseudoRandomSeed)
  c.(CNGpseudoRandomSeed) c.(lastqLSF) c.(previousLCodeWord) v c.(previousIntPitchDelay)
  c.(previousGainPredictionError) c.(residualSignalBuffer) c.(scaledResidualSignalBuffer)
  c.(longTermFilteredResidualSignalBuffer) c.(shortTermFilteredResidualSignalBuffer)
  c.(previousAdaptativeGain) c.(inputX0) c.(inputX1) c.(outputY2) c.(outputY1)
  c.(CNGChannelContext) c.(previousFrameIsActiveFlag).
Definition set_previousIntPitchDelay (v : Z) (c : ctx) : ctx :=
  Mk c.(previousqLSP) c.(excitationVector) c.(boundedAdaptativeCodebookGain)
  c.(adaptativeCodebookGain) c.(fixedCodebookGain) c.(reconstructedSpeech) c.(pseudoRandomSeed)
  c.(CNGpseudoRandomSeed) c.(lastqLSF) c.(previousLCodeWord) c.(lastValidL0) v
  c.(previousGainPredictionError) c.(residualSignalBuffer) c.(scaledResidualSignalBuffer)
  c.(longTermFilteredResidualSignalBuffer) c.(shortTermFilteredResidualSignalBuffer)
  c.(previousAdaptativeGain) c.(inputX0) c.(inputX1) c.(outputY2) c.(outputY1)
  c.(CNGChannelContext) c.(previousFrameIsActiveFlag).
Definition set_previousGainPredictionError (v : list Z) (c : ctx) : ctx :=
  Mk c.(previousqLSP) c.(excitationVector) c.(boundedAdaptativeCodebookGain)
  c.(adaptativeCodebookGain) c.(fixedCodebookGain) c.(reconstructedSpeech) c.(pseudoRandomSeed)
  c.(CNGpseudoRandomSeed) c.(lastqLSF) c.(previousLCodeWord) c.(lastValidL0)
  c.(previousIntPitchDelay) v c.(residualSignalBuffer) c.(scaledResidualSignalBuffer)
  c.(longTermFilteredResidualSignalBuffer) c.(shortTermFilteredResidualSignalBuffer)
  c.(previousAdaptativeGain) c.(inputX0) c.(inputX1) c.(outputY2) c.(outputY1)
  c.(CNGChannelContext) c.(previousFrameIsActiveFlag).
Definition set_residualSignalBuffer (v : list Z) (c : ctx) : ctx :=
  Mk c.(previousqLSP) c.(excitationVector) c.(boundedAdaptativeCodebookGain)
  c.(adaptativeCodebookGain) c.(fixedCodebookGain) c.(reconstructedSpeech) c.(pseudoRandomSeed)
  c.(CNGpseudoRandomSeed) c.(lastqLSF) c.(previousLCodeWord) c.(lastValidL0)
  c.(previousIntPitchDelay) c.(previousGainPredictionError) v c.(scaledResidualSignalBuffer)
  c.(longTermFilteredResidualSignalBuffer) c.(shortTermFilteredResidualSignalBuffer)
  c.(previousAdaptativeGain) c.(inputX0) c.(inputX1) c.(outputY2) c.(outputY1)
  c.(CNGChannelContext) c.(previousFrameIsActiveFlag).
Definition set_scaledResidualSignalBuffer (v : list Z) (c : ctx) : ctx :=
  Mk c.(previousqLSP) c.(excitationVector) c.(boundedAdaptativeCodebookGain)
  c.(adaptativeCodebookGain) c.(fixedCodebookGain) c.(reconstructedSpeech) c.(pseudoRandomSeed)
  c.(CNGpseudoRandomSeed) c.(lastqLSF) c.(previousLCodeWord) c.(lastValidL0)
  c.(previousIntPitchDelay) c.(previousGainPredictionError) c.(residualSignalBuffer) v
  c.(longTermFilteredResidualSignalBuffer) c.(shortTermFilteredResidualSignalBuffer)
  c.(previousAdaptativeGain) c.(inputX0) c.(inputX1) c.(outputY2) c.(outputY1)
  c.(CNGChannelContext) c.(previousFrameIsActiveFlag).
Definition set_longTermFilteredResidualSignalBuffer (v : list Z) (c : ctx) : ctx :=
  Mk c.(previousqLSP) c.(excitationVector) c.(boundedAdaptativeCodebookGain)
  c.(adaptativeCodebookGain) c.(fixedCodebookGain) c.(reconstructedSpeech) c.(pseudoRandomSeed)
  c.(CNGpseudoRandomSeed) c.(lastqLSF) c.(previousLCodeWord) c.(lastValidL0)
  c.(previousIntPitchDelay) c.(previousGainPredictionError) c.(residualSignalBuffer)
  c.(scaledResidualSignalBuffer) v c.(shortTermFilteredResidualSignalBuffer)
  c.(previousAdaptativeGain) c.(inputX0) c.(inputX1) c.(outputY2) c.(outputY1)
  c.(CNGChannelContext) c.(previousFrameIsActiveFlag).
Definition set_shortTermFilteredResidualSignalBuffer (v : list Z) (c : ctx) : ctx :=
  Mk c.(previousqLSP) c.(excitationVector) c.(boundedAdaptativeCodebookGain)
  c.(adaptativeCodebookGain) c.(fixedCodebookGain) c.(reconstructedSpeech) c.(pseudoRandomSeed)
  c.(CNGpseudoRandomSeed) c.(lastqLSF) c.(previousLCodeWord) c.(lastValidL0)
  c.(previousIntPitchDelay) c.(previousGainPredictionError) c.(residualSignalBuffer)
  c.(scaledResidualSignalBuffer) c.(longTermFilteredResidualSignalBuffer) v
  c.(previousAdaptativeGain) c.(inputX0) c.(inputX1) c.(outputY2) c.(outputY1)
  c.(CNGChannelContext) c.(previousFrameIsActiveFlag).
Definition set_previousAdaptativeGain (v : Z) (c : ctx) : ctx :=
  Mk c.(previousqLSP) c.(excitationVector) c.(boundedAdaptativeCodebookGain)
  c.(adaptativeCodebookGain) c.(fixedCodebookGain) c.(reconstructedSpeech) c.(pseudoRandomSeed)
  c.(CNGpseudoRandomSeed) c.(lastqLSF) c.(previousLCodeWord) c.(lastValidL0)
  c.(previousIntPitchDelay) c.(previousGainPredictionError) c.(residualSignalBuffer)
  c.(scaledResidualSignalBuffer) c.(longTermFilteredResidualSignalBuffer)
  c.(shortTermFilteredResidualSignalBuffer) v c.(inputX0) c.(inputX1) c.(outputY2) c.(outputY1)
  c.(CNGChannelContext) c.(previousFrameIsActiveFlag).
Definition set_inputX0 (v : Z) (c : ctx) : ctx :=
  Mk c.(previousqLSP) c.(excitationVector) c.(boundedAdaptativeCodebookGain)
  c.(adaptativeCodebookGain) c.(fixedCodebookGain) c.(reconstructedSpeech) c.(pseudoRandomSeed)
  c.(CNGpseudoRandomSeed) c.(lastqLSF) c.(previousLCodeWord) c.(lastValidL0)
  c.(previousIntPitchDelay) c.(previousGainPredictionError) c.(residualSignalBuffer)
  c.(scaledResidualSignalBuffer) c.(longTermFilteredResidualSignalBuffer)
  c.(shortTermFilteredResidualSignalBuffer) c.(previousAdaptativeGain) v c.(inputX1) c.(outputY2)
  c.(outputY1) c.(CNGChannelContext) c.(previousFrameIsActiveFlag).
Definition set_inputX1 (v : Z) (c : ctx) : ctx :=
  Mk c.(previousqLSP) c.(excitationVector) c.(boundedAdaptativeCodebookGain)
  c.(adaptativeCodebookGain) c.(fixedCodebookGain) c.(reconstructedSpeech) c.(pseudoRandomSeed)
  c.(CNGpseudoRandomSeed) c.(lastqLSF) c.(previousLCodeWord) c.(lastValidL0)
  c.(previousIntPitchDelay) c.(previousGainPredictionError) c.(residualSignalBuffer)
  c.(scaledResidualSignalBuffer) c.(longTermFilteredResidualSignalBuffer)
  c.(shortTermFilteredResidualSignalBuffer) c.(previousAdaptativeGain) c.(inputX0) v c.(outputY2)
  c.(outputY1) c.(CNGChannelContext) c.(previousFrameIsActiveFlag).
Definition set_outputY2 (v : Z) (c : ctx) : ctx :=
  Mk c.(previousqLSP) c.(excitationVector) c.(boundedAdaptativeCodebookGain)
  c.(adaptativeCodebookGain) c.(fixedCodebookGain) c.(reconstructedSpeech) c.(pseudoRandomSeed)
  c.(CNGpseudoRandomSeed) c.(lastqLSF) c.(previousLCodeWord) c.(lastValidL0)
  c.(previousIntPitchDelay) c.(previousGainPredictionError) c.(residualSignalBuffer)
  c.(scaledResidualSignalBuffer) c.(longTermFilteredResidualSignalBuffer)
  c.(shortTermFilteredResidualSignalBuffer) c.(previousAdaptativeGain) c.(inputX0) c.(inputX1) v
  c.(outputY1) c.(CNGChannelContext) c.(previousFrameIsActiveFlag).
Definition set_outputY1 (v : Z) (c : ctx) : ctx :=
  Mk c.(previousqLSP) c.(excitationVector) c.(boundedAdaptativeCodebookGain)
  c.(adaptativeCodebookGain) c.(fixedCodebookGain) c.(reconstructedSpeech) c.(pseudoRandomSeed)
  c.(CNGpseudoRandomSeed) c.(lastqLSF) c.(previousLCodeWord) c.(lastValidL0)
  c.(previousIntPitchDelay) c.(previousGainPredictionError) c.(residualSignalBuffer)
  c.(scaledResidualSignalBuffer) c.(longTermFilteredResidualSignalBuffer)
  c.(shortTermFilteredResidualSignalBuffer) c.(previousAdaptativeGain) c.(inputX0) c.(inputX1)
  c.(outputY2) v c.(CNGChannelContext) c.(previousFrameIsActiveFlag).
Definition set_CNGChannelContext (v : Cng.ctx) (c : ctx) : ctx :=
  Mk c.(previousqLSP) c.(excitationVector) c.(boundedAdaptativeCodebookGain)
  c.(adaptativeCodebookGain) c.(fixedCodebookGain) c.(reconstructedSpeech) c.(pseudoRandomSeed)
  c.(CNGpseudoRandomSeed) c.(lastqLSF) c.(previousLCodeWord) c.(lastValidL0)
  c.(previousIntPitchDelay) c.(previousGainPredictionError) c.(residualSignalBuffer)
  c.(scaledResidualSignalBuffer) c.(longTermFilteredResidualSignalBuffer)
  c.(shortTermFilteredResidualSignalBuffer) c.(previousAdaptativeGain) c.(inputX0) c.(inputX1)
  c.(outputY2) c.(outputY1) v c.(previousFrameIsActiveFlag).
Definition set_previousFrameIsActiveFlag (v : Z) (c : ctx) : ctx :=
  Mk c.(previousqLSP) c.(excitationVector) c.(boundedAdaptativeCodebookGain)
  c.(adaptativeCodebookGain) c.(fixedCodebookGain) c.(reconstructedSpeech) c.(pseudoRandomSeed)
  c.(CNGpseudoRandomSeed) c.(lastqLSF) c.(previousLCodeWord) c.(lastValidL0)
  c.(previousIntPitchDelay) c.(previousGainPredictionError) c.(residualSignalBuffer)
  c.(scaledResidualSignalBuffer) c.(longTermFilteredResidualSignalBuffer)
  c.(shortTermFilteredResidualSignalBuffer) c.(previousAdaptativeGain) c.(inputX0) c.(inputX1)
  c.(outputY2) c.(outputY1) c.(CNGChannelContext) v.

(** Array sizes and the ranges of the C types. *)
Record wf (c : ctx) : Prop := {
  wf_previousqLSP : arr i16r 10 c.(previousqLSP);
  wf_excitationVector : arr i16r 234 c.(excitationVector);
  wf_boundedAdaptativeCodebookGain : rng 3277 13107 c.(boundedAdaptativeCodebookGain);
  wf_adaptativeCodebookGain : i16r c.(adaptativeCodebookGain);
  wf_fixedCodebookGain : i16r c.(fixedCodebookGain);
  wf_reconstructedSpeech : arr i16r 90 c.(reconstructedSpeech);
  wf_pseudoRandomSeed : u16r c.(pseudoRandomSeed);
  wf_CNGpseudoRandomSeed : u16r c.(CNGpseudoRandomSeed);
  wf_lastqLSF : arr i16r 10 c.(lastqLSF);
  wf_previousLCodeWord : arr (arr i16r 10) 4 c.(previousLCodeWord);
  wf_lastValidL0 : rng 0 1 c.(lastValidL0);
  wf_previousIntPitchDelay : rng 19 144 c.(previousIntPitchDelay);
  wf_previousGainPredictionError : arr i16r 4 c.(previousGainPredictionError);
  wf_residualSignalBuffer : arr i16r 223 c.(residualSignalBuffer);
  wf_scaledResidualSignalBuffer : arr i16r 223 c.(scaledResidualSignalBuffer);
  wf_longTermFilteredResidualSignalBuffer : arr i16r 41 c.(longTermFilteredResidualSignalBuffer);
  wf_shortTermFilteredResidualSignalBuffer : arr i16r 50 c.(shortTermFilteredResidualSignalBuffer);
  wf_previousAdaptativeGain : i16r c.(previousAdaptativeGain);
  wf_inputX0 : i16r c.(inputX0);
  wf_inputX1 : i16r c.(inputX1);
  wf_outputY2 : i32r c.(outputY2);
  wf_outputY1 : i32r c.(outputY1);
  wf_CNGChannelContext : Cng.wf c.(CNGChannelContext);
  wf_previousFrameIsActiveFlag : u8r c.(previousFrameIsActiveFlag)
}.

Lemma wf_set_previousqLSP c v : wf c → arr i16r 10 v → wf (set_previousqLSP v c).
Proof. intros [] ?; by constructor. Qed.
Lemma wf_set_excitationVector c v : wf c → arr i16r 234 v → wf (set_excitationVector v c).
Proof. intros [] ?; by constructor. Qed.
Lemma wf_set_boundedAdaptativeCodebookGain c v : wf c → rng 3277 13107 v → wf (set_boundedAdaptativeCodebookGain v c).
Proof. intros [] ?; by constructor. Qed.
Lemma wf_set_adaptativeCodebookGain c v : wf c → i16r v → wf (set_adaptativeCodebookGain v c).
Proof. intros [] ?; by constructor. Qed.
Lemma wf_set_fixedCodebookGain c v : wf c → i16r v → wf (set_fixedCodebookGain v c).
Proof. intros [] ?; by constructor. Qed.
Lemma wf_set_reconstructedSpeech c v : wf c → arr i16r 90 v → wf (set_reconstructedSpeech v c).
Proof. intros [] ?; by constructor. Qed.
Lemma wf_set_pseudoRandomSeed c v : wf c → u16r v → wf (set_pseudoRandomSeed v c).
Proof. intros [] ?; by constructor. Qed.
Lemma wf_set_CNGpseudoRandomSeed c v : wf c → u16r v → wf (set_CNGpseudoRandomSeed v c).
Proof. intros [] ?; by constructor. Qed.
Lemma wf_set_lastqLSF c v : wf c → arr i16r 10 v → wf (set_lastqLSF v c).
Proof. intros [] ?; by constructor. Qed.
Lemma wf_set_previousLCodeWord c v : wf c → arr (arr i16r 10) 4 v → wf (set_previousLCodeWord v c).
Proof. intros [] ?; by constructor. Qed.
Lemma wf_set_lastValidL0 c v : wf c → rng 0 1 v → wf (set_lastValidL0 v c).
Proof. intros [] ?; by constructor. Qed.
Lemma wf_set_previousIntPitchDelay c v : wf c → rng 19 144 v → wf (set_previousIntPitchDelay v c).
Proof. intros [] ?; by constructor. Qed.
Lemma wf_set_previousGainPredictionError c v : wf c → arr i16r 4 v → wf (set_previousGainPredictionError v c).
Proof. intros [] ?; by constructor. Qed.
Lemma wf_set_residualSignalBuffer c v : wf c → arr i16r 223 v → wf (set_residualSignalBuffer v c).
Proof. intros [] ?; by constructor. Qed.
Lemma wf_set_scaledResidualSignalBuffer c v : wf c → arr i16r 223 v → wf (set_scaledResidualSignalBuffer v c).
Proof. intros [] ?; by constructor. Qed.
Lemma wf_set_longTermFilteredResidualSignalBuffer c v : wf c → arr i16r 41 v → wf (set_longTermFilteredResidualSignalBuffer v c).
Proof. intros [] ?; by constructor. Qed.
Lemma wf_set_shortTermFilteredResidualSignalBuffer c v : wf c → arr i16r 50 v → wf (set_shortTermFilteredResidualSignalBuffer v c).
Proof. intros [] ?; by constructor. Qed.
Lemma wf_set_previousAdaptativeGain c v : wf c → i16r v → wf (set_previousAdaptativeGain v c).
Proof. intros [] ?; by constructor. Qed.
Lemma wf_set_inputX0 c v : wf c → i16r v → wf (set_inputX0 v c).
Proof. intros [] ?; by constructor. Qed.
Lemma wf_set_inputX1 c v : wf c → i16r v → wf (set_inputX1 v c).
Proof. intros [] ?; by constructor. Qed.
Lemma wf_set_outputY2 c v : wf c → i32r v → wf (set_outputY2 v c).
Proof. intros [] ?; by constructor. Qed.
Lemma wf_set_outputY1 c v : wf c → i32r v → wf (set_outputY1 v c).
Proof. intros [] ?; by constructor. Qed.
Lemma wf_set_CNGChannelContext c v : wf c → Cng.wf v → wf (set_CNGChannelContext v c).
Proof. intros [] ?; by constructor. Qed.
Lemma wf_set_previousFrameIsActiveFlag c v : wf c → u8r v → wf (set_previousFrameIsActiveFlag v c).
Proof. intros [] ?; by constructor. Qed.

#[export] Hint Resolve wf_previousqLSP wf_excitationVector wf_boundedAdaptativeCodebookGain wf_adaptativeCodebookGain wf_fixedCodebookGain wf_reconstructedSpeech wf_pseudoRandomSeed wf_CNGpseudoRandomSeed wf_lastqLSF wf_previousLCodeWord wf_lastValidL0 wf_previousIntPitchDelay wf_previousGainPredictionError wf_residualSignalBuffer wf_scaledResidualSignalBuffer wf_longTermFilteredResidualSignalBuffer wf_shortTermFilteredResidualSignalBuffer wf_previousAdaptativeGain wf_inputX0 wf_inputX1 wf_outputY2 wf_outputY1 wf_CNGChannelContext wf_previousFrameIsActiveFlag : csafe rng.
#[export] Hint Resolve wf_set_previousqLSP wf_set_excitationVector wf_set_boundedAdaptativeCodebookGain wf_set_adaptativeCodebookGain wf_set_fixedCodebookGain wf_set_reconstructedSpeech wf_set_pseudoRandomSeed wf_set_CNGpseudoRandomSeed wf_set_lastqLSF wf_set_previousLCodeWord wf_set_lastValidL0 wf_set_previousIntPitchDelay wf_set_previousGainPredictionError wf_set_residualSignalBuffer wf_set_scaledResidualSignalBuffer wf_set_longTermFilteredResidualSignalBuffer wf_set_shortTermFilteredResidualSignalBuffer wf_set_previousAdaptativeGain wf_set_inputX0 wf_set_inputX1 wf_set_outputY2 wf_set_outputY1 wf_set_CNGChannelContext wf_set_previousFrameIsActiveFlag : csafe.

End Dec.
Export (hints) Dec.
