(* ===== verification/Heap.v ===== *)
(** The C allocator as the code uses it: [malloc] may fail, [free] of a block that is not
    live is the fault [BadFree]. *)

From S2P Require Import Prelude.

(** [next] is the address of the next block; [live] the blocks allocated and not freed. *)
Record heap : Type := Heap {
  next : Z;
  live : list Z
}.

Definition malloc (h : heap) (succeeds : bool) : heap * option Z :=
  if succeeds then (Heap (next h + 1) (next h :: live h), Some (next h)) else (h, None).

Fixpoint remove_one (p : Z) (l : list Z) : list Z :=
  match l with
  | [] => []
  | q :: l => if p =? q then l else q :: remove_one p l
  end.

Definition free (h : heap) (p : Z) : res heap :=
  if existsb (Z.eqb p) (live h) then Ok (Heap (next h) (remove_one p (live h))) else Err BadFree.

(** Every live block is below [next], and no block is live twice. *)
Definition heap_wf (h : heap) : Prop := Forall (λ p, p < next h) (live h) ∧ NoDup (live h).

Lemma heap_wf_malloc h ok : heap_wf h → heap_wf (malloc h ok).1.
Proof.
  intros [Hlt Hnd]. destruct ok; [|done]. split; simpl.
  - constructor; [lia|]. eapply Forall_impl; [done|]. simpl. lia.
  - constructor; [|done]. intros Hin. rewrite Forall_forall in Hlt. specialize (Hlt _ Hin). lia.
Qed.

Lemma free_head h p l : live h = p :: l → free h p = Ok (Heap (next h) l).
Proof. unfold free. intros ->. simpl. by rewrite Z.eqb_refl. Qed.

Lemma free_second h p q l : live h = q :: p :: l → p ≠ q → free h p = Ok (Heap (next h) (q :: l)).
Proof.
  unfold free. intros -> Hne. simpl. destruct (Z.eqb_spec p q); [done|]. simpl. by rewrite Z.eqb_refl.
Qed.

(** Evaluation of [free] on a heap whose live blocks are known. *)
Ltac heap_cbn :=
  unfold free; cbn [live next existsb remove_one];
  repeat match goal with
  | |- context [Z.eqb ?a ?b] =>
      first [ rewrite (proj2 (Z.eqb_eq a b)) by lia | rewrite (proj2 (Z.eqb_neq a b)) by lia ]
  end; cbn [orb bind live next].
