(* ===== verification/DecodeLSP.v ===== *)
(** LSP decoding and conversion to LP coefficients: [decodeLSP.c], [interpolateqLSP.c]
    and [qLSP2LP.c]. *)

From S2P Require Import Prelude FixedPoint Codebooks Math Utils Context.

(** ** decodeLSP.c *)

Definition previousLCodeWordInit : list Z :=
  [2339; 4679; 7018; 9358; 11698; 14037; 16377; 18717; 21056; 23396].

Definition initDecodeLSP (c : Dec.ctx) : res Dec.ctx :=
  let* previousLCodeWord := for_up 0 MA_MAX_K (Dec.previousLCodeWord c) (λ i m,
    for_up 0 NB_LSP_COEFF m (λ j m,
      let* v := ld previousLCodeWordInit j in
      st2 m i j v)) in
  let* lastqLSF := for_up 0 NB_LSP_COEFF (Dec.lastqLSF c) (λ j a,
    let* v := ld previousLCodeWordInit j in
    st a j v) in
  Ok (Dec.set_lastqLSF lastqLSF (Dec.set_lastValidL0 0 (Dec.set_previousLCodeWord previousLCodeWord c))).

(** MA prediction of the current code word, and shift of the code word history. *)
Definition predictqLSF (codebookqLSF : list Z) (previousLCodeWord : list (list Z)) (L0 : Z)
    (currentMAPredictor : list (list (list Z))) (currentMAPredictorSum : list (list Z))
    : res (list Z * list (list Z)) :=
  for_up 0 NB_LSP_COEFF (codebookqLSF, previousLCodeWord) (λ i '(codebookqLSF, previousLCodeWord),
    let* s := ld2 currentMAPredictorSum L0 i in
    let* q := ld codebookqLSF i in
    let acc := MULT16_16 s q in
    let* (acc, previousLCodeWord) :=
      for_down (MA_MAX_K - 1) 0 (acc, previousLCodeWord) (λ j '(acc, previousLCodeWord),
        let* predictor := ld currentMAPredictor L0 in
        let* m := ld2 predictor j i in
        let* p := ld2 previousLCodeWord j i in
        let acc := MAC16_16 acc m p in
        let* p' := (if 0 <? j then ld2 previousLCodeWord (j - 1) i else ld codebookqLSF i) in
        let* previousLCodeWord := st2 previousLCodeWord j i p' in
        Ok (acc, previousLCodeWord)) in
    let* codebookqLSF := st codebookqLSF i (i16 (PSHR acc 15)) in
    Ok (codebookqLSF, previousLCodeWord)).

(** Stability of the quantised LSF: order, lower limit, minimal distance, upper limit. *)
Definition stabiliseqLSF (codebookqLSF : list Z) : res (list Z) :=
  let* q := insertionSort codebookqLSF NB_LSP_COEFF in
  let* q0 := ld q 0 in
  let* q := (if q0 <? qLSF_MIN then st q 0 qLSF_MIN else Ok q) in
  let* q := for_up 0 (NB_LSP_COEFF - 1) q (λ i q,
    let* b := ld q (i + 1) in
    let* a := ld q i in
    if SUB16 b a <? MIN_qLSF_DISTANCE then st q (i + 1) (i16 (a + MIN_qLSF_DISTANCE)) else Ok q) in
  let* q9 := ld q (NB_LSP_COEFF - 1) in
  if qLSF_MAX <? q9 then st q (NB_LSP_COEFF - 1) qLSF_MAX else Ok q.

Definition computeqLSF (codebookqLSF : list Z) (previousLCodeWord : list (list Z)) (L0 : Z)
    (currentMAPredictor : list (list (list Z))) (currentMAPredictorSum : list (list Z))
    : res (list Z * list (list Z)) :=
  let* codebookqLSF := rearrangeCoefficients codebookqLSF GAP1 in
  let* codebookqLSF := rearrangeCoefficients codebookqLSF GAP2 in
  let* (codebookqLSF, previousLCodeWord) :=
    predictqLSF codebookqLSF previousLCodeWord L0 currentMAPredictor currentMAPredictorSum in
  let* codebookqLSF := stabiliseqLSF codebookqLSF in
  Ok (codebookqLSF, previousLCodeWord).

(** [codebookSum a b lo hi q]: the loops that add an L1 row and an L2L3 row. *)
Definition codebookSum (i1 i2 lo hi : Z) (q : list Z) : res (list Z) :=
  for_up lo hi q (λ i q,
    let* a := ld2 L1 i1 i in
    let* b := ld2 L2L3 i2 i in
    st q i (ADD16 a b)).

(** Frame received: spec 3.2.4. *)
Definition decodeLSP_received (c : Dec.ctx) (L : list Z) : res (Dec.ctx * list Z) :=
  let* l0 := ld L 0 in let* l1 := ld L 1 in let* l2 := ld L 2 in let* l3 := ld L 3 in
  let* currentqLSF := codebookSum l1 l2 0 (NB_LSP_COEFF / 2) (zeros NB_LSP_COEFF) in
  let* currentqLSF := codebookSum l1 l3 (NB_LSP_COEFF / 2) NB_LSP_COEFF currentqLSF in
  let* (currentqLSF, previousLCodeWord) :=
    computeqLSF currentqLSF (Dec.previousLCodeWord c) (u8 l0) MAPredictor MAPredictorSum in
  let* lastqLSF := for_up 0 NB_LSP_COEFF (Dec.lastqLSF c) (λ i a,
    let* v := ld currentqLSF i in st a i v) in
  Ok (Dec.set_lastValidL0 (i16 l0) (Dec.set_lastqLSF lastqLSF
        (Dec.set_previousLCodeWord previousLCodeWord c)), currentqLSF).

(** Frame erased: repeat the last qLSF and rebuild the code word it stands for, spec 4.4. *)
Definition decodeLSP_erased (c : Dec.ctx) : res (Dec.ctx * list Z) :=
  let* currentqLSF := for_up 0 NB_LSP_COEFF (zeros NB_LSP_COEFF) (λ i a,
    let* v := ld (Dec.lastqLSF c) i in st a i v) in
  let* previousLCodeWord := for_up 0 NB_LSP_COEFF (Dec.previousLCodeWord c) (λ i previousLCodeWord,
    let* q := ld (Dec.lastqLSF c) i in
    let acc := SHL q 15 in
    let* acc := for_up 0 MA_MAX_K acc (λ j acc,
      let* predictor := ld MAPredictor (Dec.lastValidL0 c) in
      let* m := ld2 predictor j i in
      let* p := ld2 previousLCodeWord j i in
      Ok (MSU16_16 acc m p)) in
    let* inv := ld2 invMAPredictorSum (Dec.lastValidL0 c) i in
    let acc := MULT16_32_Q12 inv acc in
    for_down (MA_MAX_K - 1) 0 previousLCodeWord (λ j previousLCodeWord,
      let* p' := (if 0 <? j then ld2 previousLCodeWord (j - 1) i else Ok (i16 (PSHR acc 15))) in
      st2 previousLCodeWord j i p')) in
  Ok (Dec.set_previousLCodeWord previousLCodeWord c, currentqLSF).

Definition decodeLSP (c : Dec.ctx) (L qLSP : list Z) (frameErased : Z) : res (Dec.ctx * list Z) :=
  let* (c, currentqLSF) :=
    (if frameErased =? 0 then decodeLSP_received c L else decodeLSP_erased c) in
  let* qLSP := for_up 0 NB_LSP_COEFF qLSP (λ i qLSP,
    let* v := ld currentqLSF i in
    st qLSP i (g729Cos_Q13Q15 v)) in
  Ok (c, qLSP).

(** ** interpolateqLSP.c *)

Definition interpolateqLSP (previousqLSP currentqLSP interpolatedqLSP : list Z) : res (list Z) :=
  for_up 0 NB_LSP_COEFF interpolatedqLSP (λ i interpolatedqLSP,
    let* a := ld previousqLSP i in
    let* b := ld currentqLSP i in
    st interpolatedqLSP i (i16 (PSHR (ADD32 a b) 1))).

(** ** qLSP2LP.c *)

(** [qLSP] is read from the offset [off] of its array. *)
Definition computePolynomialCoefficients (qLSP : list Z) (off : Z) (f : list Z) : res (list Z) :=
  let* f := st f 0 16777216 in
  let* q0 := ld qLSP (off + 0) in
  let* f := st f 1 (MULT16_16 q0 (-1024)) in
  for_up 2 6 f (λ i f,
    let* q := ld qLSP (off + (2 * i - 2)) in
    let* a := ld f (i - 2) in
    let* b := ld f (i - 1) in
    let* f := st f i (SSHL (SUB32 a (MULT16_32_P15 q b)) 1) in
    let* f := for_down (i - 1) 2 f (λ j f,
      let* fj := ld f j in
      let* fj2 := ld f (j - 2) in
      let* fj1 := ld f (j - 1) in
      st f j (ADD32 fj (SUB32 fj2 (MULT16_32_P14 q fj1)))) in
    let* f1 := ld f 1 in
    st f 1 (SUB32 f1 (SSHL q 10))).

(** The ten coefficients are written from the offset [off] of [LP]. *)
Definition qLSP2LP (qLSP LP : list Z) (off : Z) : res (list Z) :=
  let* f1 := computePolynomialCoefficients qLSP 0 (zeros 6) in
  let* f2 := computePolynomialCoefficients qLSP 1 (zeros 6) in
  let* (f1, f2) := for_down 5 1 (f1, f2) (λ i '(f1, f2),
    let* a := ld f1 i in
    let* b := ld f1 (i - 1) in
    let* f1 := st f1 i (ADD32 a b) in
    let* a := ld f2 i in
    let* b := ld f2 (i - 1) in
    let* f2 := st f2 i (SUB32 a b) in
    Ok (f1, f2)) in
  for_up 0 5 LP (λ i LP,
    let* a := ld f1 (1 + i) in
    let* b := ld f2 (1 + i) in
    let* LP := st LP (off + i) (i16 (PSHR (ADD32 a b) 13)) in
    st LP (off + (9 - i)) (i16 (PSHR (SUB32 a b) 13))).

(** ** Safety *)

Lemma wp_predictqLSF F q m L0 pred psum (Q : list Z * list (list Z) → Prop) :
  arr i16r 10 q → arr (arr i16r 10) 4 m → 0 ≤ L0 < 2 →
  arr (arr (arr (rng 0 32767) 10) 4) 2 pred → arr (arr (rng 0 32767) 10) 2 psum →
  (∀ q' m', arr i16r 10 q' → arr (arr i16r 10) 4 m' → Q (q', m')) →
  wp F (predictqLSF q m L0 pred psum) Q.
Proof.
  intros Hq Hm HL Hp Hs HQ. unfold predictqLSF, NB_LSP_COEFF, MA_MAX_K.
  apply wp_for_inv with (I := λ '(q, m), arr i16r 10 q ∧ arr (arr i16r 10) 4 m); [done| |].
  2:{ intros [q' m'] [? ?]. by apply HQ. }
  intros i [q1 m1] Hi [Hq1 Hm1]. wp_go.
  apply wp_for_down with (I := λ '(acc, m), i32r acc ∧ arr (arr i16r 10) 4 m); [solve_inv| |].
  - intros j [acc m2] Hj [Hacc Hm2]. wp_go; auto with rng.
  - intros [acc m2] [Hacc Hm2]. wp_go. done.
Qed.

Lemma wp_stabiliseqLSF F q (Q : list Z → Prop) :
  arr i16r 10 q → (∀ q', arr i16r 10 q' → Q q') → wp F (stabiliseqLSF q) Q.
Proof.
  intros Hq HQ. unfold stabiliseqLSF, NB_LSP_COEFF. wp_step.
  eapply wp_insertionSort; [done|]. intros y Hy _ _. wp_step. wp_step.
  wp_step. apply wp_mono with (P := arr i16r 10).
  { destruct (_ <? _); [|done]. unfold qLSF_MIN. wp_go. done. }
  intros z Hz. wp_step. apply wp_for_inv with (I := arr i16r 10); [done| |].
  - intros i w Hi Hw. wp_go; done.
  - intros w Hw. unfold qLSF_MAX. wp_go; auto.
Qed.

Lemma wp_computeqLSF F q m L0 pred psum (Q : list Z * list (list Z) → Prop) :
  arr i16r 10 q → arr (arr i16r 10) 4 m → 0 ≤ L0 < 2 →
  arr (arr (arr (rng 0 32767) 10) 4) 2 pred → arr (arr (rng 0 32767) 10) 2 psum →
  (∀ q' m', arr i16r 10 q' → arr (arr i16r 10) 4 m' → Q (q', m')) →
  wp F (computeqLSF q m L0 pred psum) Q.
Proof.
  intros Hq Hm HL Hp Hs HQ. unfold computeqLSF. wp_step.
  eapply wp_rearrangeCoefficients; [done|]. intros q1 Hq1. wp_step.
  eapply wp_rearrangeCoefficients; [done|]. intros q2 Hq2. wp_step.
  eapply wp_predictqLSF; [done..|]. intros q3 m3 Hq3 Hm3. wp_step.
  eapply wp_stabiliseqLSF; [done|]. intros q4 Hq4. by apply HQ.
Qed.

Lemma wp_codebookSum F i1 i2 lo hi q (Q : list Z → Prop) :
  0 ≤ i1 < 128 → 0 ≤ i2 < 32 → 0 ≤ lo → hi ≤ 10 → arr i16r 10 q →
  (∀ q', arr i16r 10 q' → Q q') → wp F (codebookSum i1 i2 lo hi q) Q.
Proof.
  intros. unfold codebookSum. apply wp_for_inv with (I := arr i16r 10); [done| |done].
  intros i q' Hi Hq'. wp_go. done.
Qed.

(** What [decodeLSP] needs of the four LSP parameters of a received frame. *)
Definition lsp_params_ok (L : list Z) : Prop :=
  ∃ l0 l1 l2 l3, ld L 0 = Ok l0 ∧ ld L 1 = Ok l1 ∧ ld L 2 = Ok l2 ∧ ld L 3 = Ok l3 ∧
    0 ≤ l0 < 2 ∧ 0 ≤ l1 < 128 ∧ 0 ≤ l2 < 32 ∧ 0 ≤ l3 < 32.

Lemma wp_copy10 F P n (src dst : list Z) (f : Z → Z) (Q : list Z → Prop) :
  arr P 10 src → arr i16r n dst → 10 ≤ n → (∀ v, P v → i16r (f v)) →
  (∀ a, arr i16r n a → Q a) →
  wp F (for_up 0 NB_LSP_COEFF dst (λ i a, let* v := ld src i in st a i (f v))) Q.
Proof.
  intros Hs Hd Hn Hf HQ. unfold NB_LSP_COEFF.
  apply wp_for_inv with (I := arr i16r n); [done| |done]. intros i a Hi Ha.
  wp_step. eapply wp_ld_arr; [done|lia|]. intros v Hv.
  eapply wp_st_arr; [done|lia|auto|done].
Qed.

Lemma wp_decodeLSP_received F c L (Q : Dec.ctx * list Z → Prop) :
  Dec.wf c → lsp_params_ok L →
  (∀ c' q, Dec.wf c' → arr i16r 10 q → Q (c', q)) → wp F (decodeLSP_received c L) Q.
Proof.
  intros Hc (l0&l1&l2&l3&E0&E1&E2&E3&H0&H1&H2&H3) HQ. unfold decodeLSP_received.
  rewrite E0, E1, E2, E3. cbn [bind]. wp_step.
  apply wp_codebookSum; [done|done|done|by vm_compute|by apply arr_zeros|]. intros q1 Hq1. wp_step.
  apply wp_codebookSum; [done|done|by vm_compute|by vm_compute|done|]. intros q2 Hq2. wp_step.
  eapply wp_computeqLSF; [done|eauto with csafe| |apply MAPredictor_arr|apply MAPredictorSum_arr|].
  { rewrite u8_id; [done|]. unfold rng. lia. }
  intros q3 m Hq3 Hm. cbv beta iota. wp_step.
  eapply (wp_copy10 F i16r 10 q3 _ (λ v, v)); [done|eauto with csafe|done|done|]. intros a Ha.
  unfold wp. apply HQ; [|done]. rewrite i16_id by (unfold rng; lia).
  apply Dec.wf_set_lastValidL0; [|unfold rng; lia]. eauto 4 with csafe.
Qed.

Lemma wp_decodeLSP_erased F c (Q : Dec.ctx * list Z → Prop) :
  Dec.wf c → (∀ c' q, Dec.wf c' → arr i16r 10 q → Q (c', q)) → wp F (decodeLSP_erased c) Q.
Proof.
  intros Hc HQ. unfold decodeLSP_erased.
  pose proof (Dec.wf_lastValidL0 _ Hc) as HL0. pose proof (Dec.wf_lastqLSF _ Hc) as Hlast.
  unfold rng in HL0. wp_step.
  eapply (wp_copy10 F i16r 10 _ _ (λ v, v)); [done|by apply arr_zeros|done|done|]. intros q Hq.
  wp_step. unfold NB_LSP_COEFF, MA_MAX_K.
  apply wp_for_inv with (I := arr (arr i16r 10) 4); [eauto with csafe| |].
  2:{ intros m Hm. unfold wp. apply HQ; [eauto with csafe|done]. }
  intros i m Hi Hm. wp_go. apply wp_for_inv with (I := i32r); [solve_inv| |].
  - intros j acc Hj Hacc. wp_go. auto with rng.
  - intros acc Hacc. wp_go.
    apply wp_for_down with (I := arr (arr i16r 10) 4); [done| |done].
    intros j m' Hj Hm'. wp_go; done.
Qed.

Lemma g729Cos_rng x : i16r (g729Cos_Q13Q15 x).
Proof. unfold g729Cos_Q13Q15. repeat case_match; apply i16_rng. Qed.
#[export] Hint Resolve g729Cos_rng : rng.

Lemma wp_decodeLSP F c L q erased (Q : Dec.ctx * list Z → Prop) :
  Dec.wf c → (erased = 0 → lsp_params_ok L) → arr i16r 10 q →
  (∀ c' q', Dec.wf c' → arr i16r 10 q' → Q (c', q')) → wp F (decodeLSP c L q erased) Q.
Proof.
  intros Hc HL Hq HQ. unfold decodeLSP. wp_step.
  apply wp_mono with (P := λ '(c', q'), Dec.wf c' ∧ arr i16r 10 q').
  - destruct (Z.eqb_spec erased 0); [apply wp_decodeLSP_received|apply wp_decodeLSP_erased]; auto.
  - intros [c' q'] [Hc' Hq']. wp_step.
    eapply (wp_copy10 F i16r 10 q' _ g729Cos_Q13Q15); [done|done|done|auto with rng|].
    intros a Ha. by apply HQ.
Qed.

Lemma wp_interpolateqLSP F a b d (Q : list Z → Prop) :
  arr i16r 10 a → arr i16r 10 b → arr i16r 10 d → (∀ x, arr i16r 10 x → Q x) →
  wp F (interpolateqLSP a b d) Q.
Proof.
  intros. unfold interpolateqLSP, NB_LSP_COEFF.
  apply wp_for_inv with (I := arr i16r 10); [done| |done]. intros i x Hi Hx. wp_go. done.
Qed.

Lemma wp_computePolynomialCoefficients F q off f (Q : list Z → Prop) :
  arr i16r 10 q → 0 ≤ off ≤ 1 → arr i32r 6 f → (∀ f', arr i32r 6 f' → Q f') →
  wp F (computePolynomialCoefficients q off f) Q.
Proof.
  intros. unfold computePolynomialCoefficients. wp_go.
  apply wp_for_inv with (I := arr i32r 6); [done| |done]. intros i g Hi Hg. wp_go.
  apply wp_for_down with (I := arr i32r 6); [done| |].
  - intros j h Hj Hh. wp_go. done.
  - intros h Hh. wp_go. done.
Qed.

Lemma wp_qLSP2LP F n q LP off (Q : list Z → Prop) :
  arr i16r 10 q → arr i16r n LP → 0 ≤ off → off + 10 ≤ n → (∀ LP', arr i16r n LP' → Q LP') →
  wp F (qLSP2LP q LP off) Q.
Proof.
  intros. unfold qLSP2LP. wp_step.
  apply wp_computePolynomialCoefficients; [done|done|by apply arr_zeros|]. intros f1 Hf1. wp_step.
  apply wp_computePolynomialCoefficients; [done|done|by apply arr_zeros|]. intros f2 Hf2. wp_step.
  apply wp_for_down with (I := λ '(f1, f2), arr i32r 6 f1 ∧ arr i32r 6 f2); [done| |].
  - intros i [g1 g2] Hi [? ?]. wp_go. done.
  - intros [g1 g2] [Hg1 Hg2]. apply wp_for_inv with (I := arr i16r n); [done| |done].
    intros i LP1 Hi HLP. wp_go. done.
Qed.

(** ** Stability of the quantised frequencies *)

Lemma wp_ld_total F (a : list Z) i (Q : Z → Prop) :
  0 ≤ i < zlen a → Q (a !!! Z.to_nat i) → wp F (ld a i) Q.
Proof.
  intros Hi HQ. apply wp_ld; [done|]. intros v Hv. by rewrite (list_lookup_total_correct _ _ _ Hv) in HQ.
Qed.

(** The distance loop after [i] steps: the first [i] gaps are wide enough, and an element
    exceeds the bound of the input by at most the gaps before it. *)
Definition spaced (i : Z) (q : list Z) : Prop :=
  zlen q = 10 ∧ 40 ≤ q !!! 0%nat ∧ (∀ j, 0 ≤ Z.of_nat j < i → 321 ≤ q !!! S j - q !!! j) ∧
  (∀ j, (j < 10)%nat → -32768 ≤ q !!! j ≤ 29878 + 321 * Z.min i (Z.of_nat j)).

Lemma spaced_low i q j : spaced i q → 0 ≤ Z.of_nat j ≤ i → 40 ≤ q !!! j.
Proof.
  intros (_ & H0 & Hgap & _). induction j as [|j IH]; intros Hj; [done|].
  specialize (Hgap j ltac:(lia)). specialize (IH ltac:(lia)). lia.
Qed.

Lemma spaced_step i q : 0 ≤ i < 9 → spaced i q →
  wp no_fault (let* b := ld q (i + 1) in
    let* a := ld q i in
    if SUB16 b a <? MIN_qLSF_DISTANCE then st q (i + 1) (i16 (a + MIN_qLSF_DISTANCE)) else Ok q)
    (spaced (i + 1)).
Proof.
  intros Hi Hs. pose proof (spaced_low i q (Z.to_nat i) Hs ltac:(lia)) as Hlow.
  destruct Hs as (Hlen & H0 & Hgap & Hb). unfold MIN_qLSF_DISTANCE.
  wp_step. apply wp_ld_total; [lia|]. wp_step. apply wp_ld_total; [lia|].
  replace (Z.to_nat (i + 1)) with (S (Z.to_nat i)) by lia. set (n := Z.to_nat i) in *.
  pose proof (Hb n ltac:(lia)) as Ha. pose proof (Hb (S n) ltac:(lia)) as Hb1.
  assert (0 ≤ Z.min i (Z.of_nat n) ≤ 8 ∧ 0 ≤ Z.min i (Z.of_nat (S n)) ≤ 8) as [Hm1 Hm2] by lia.
  unfold SUB16. rewrite !i16_id by (unfold rng; lia).
  destruct (Z.ltb_spec (q !!! S n - q !!! n) 321) as [Hlt|Hge].
  - apply wp_st; [lia|]. replace (Z.to_nat (i + 1)) with (S n) by lia.
    assert (∀ j, (j < 10)%nat → <[S n := q !!! n + 321]> q !!! j = if decide (j = S n) then q !!! n + 321 else q !!! j) as Hins.
    { intros j Hj. destruct (decide (j = S n)) as [->|].
      - apply list_lookup_total_insert_eq. unfold zlen in *. lia.
      - by apply list_lookup_total_insert_ne. }
    split; [by rewrite zlen_insert|]. split; [by rewrite Hins by lia|]. split.
    + intros j Hj. rewrite !Hins by lia. destruct (decide (S j = S n)), (decide (j = S n)); try lia.
      * replace j with n by lia. lia.
      * apply Hgap. lia.
    + intros j Hj. rewrite Hins by lia. pose proof (Hb j Hj). destruct (decide (j = S n)); [subst j|]; lia.
  - unfold wp. split; [done|]. split; [done|]. split.
    + intros j Hj. destruct (decide (j = n)) as [->|]; [lia|]. apply Hgap. lia.
    + intros j Hj. pose proof (Hb j Hj). lia.
Qed.

Lemma stabilise_ok q : arr (rng (-32768) 29878) 10 q →
  ∃ y, stabiliseqLSF q = Ok y ∧ arr i16r 10 y ∧ qLSF_MIN ≤ y !!! 0%nat ∧ y !!! 9%nat ≤ qLSF_MAX ∧
    (∀ i, (i < 8)%nat → MIN_qLSF_DISTANCE ≤ y !!! S i - y !!! i) ∧
    (y !!! 9%nat < qLSF_MAX → MIN_qLSF_DISTANCE ≤ y !!! 9%nat - y !!! 8%nat).
Proof.
  intros Hq. apply safe_ok. unfold stabiliseqLSF, NB_LSP_COEFF, qLSF_MIN, qLSF_MAX. wp_step.
  eapply wp_insertionSort; [done|]. intros y [Hy HF] _ _. wp_step. apply wp_ld_total; [lia|].
  assert (∀ j, (j < 10)%nat → -32768 ≤ y !!! j ≤ 29878) as Hr.
  { intros j Hj. destruct (lookup_lt_is_Some_2 y j) as [v Hv]; [unfold zlen in *; lia|].
    rewrite (list_lookup_total_correct _ _ _ Hv). by apply (Forall_lookup_1 _ _ _ _ HF Hv). }
  wp_step. apply wp_mono with (P := spaced 0).
  { destruct (Z.ltb_spec (y !!! Z.to_nat 0) 40) as [Hlt|Hge].
    - apply wp_st; [lia|]. change (Z.to_nat 0) with 0%nat in *. split; [by rewrite zlen_insert|].
      rewrite list_lookup_total_insert_eq by (unfold zlen in *; lia). split; [done|]. split; [lia|].
      intros [|j] Hj; [rewrite list_lookup_total_insert_eq by (unfold zlen in *; lia); lia|].
      rewrite list_lookup_total_insert_ne by done. specialize (Hr (S j) Hj). lia.
    - unfold wp. split; [done|]. split; [done|]. split; [lia|]. intros j Hj. specialize (Hr j Hj). lia. }
  intros z Hz. wp_step. apply wp_for_up with (I := spaced); [lia|done|intros; by apply spaced_step|].
  intros w Hw. pose proof Hw as (Hlen & H0 & Hgap & Hb). wp_step. apply wp_ld_total; [lia|].
  pose proof (spaced_low 9 w 8 Hw ltac:(lia)) as H8. change (Z.to_nat (10 - 1)) with 9%nat.
  assert (arr i16r 10 w) as Harr.
  { split; [done|]. apply Forall_lookup_2. intros j v Hv.
    pose proof (lookup_lt_Some _ _ _ Hv) as Hj. specialize (Hb j ltac:(unfold zlen in *; lia)).
    rewrite (list_lookup_total_correct _ _ _ Hv) in Hb. unfold rng. lia. }
  unfold MIN_qLSF_DISTANCE. destruct (Z.ltb_spec 25681 (w !!! 9%nat)) as [Hbig|Hok].
  - eapply wp_st; [lia|]. change (Z.to_nat (10 - 1)) with 9%nat.
    rewrite list_lookup_total_insert_eq by (unfold zlen in *; lia).
    rewrite list_lookup_total_insert_ne by done. split.
    { split; [by rewrite zlen_insert|]. apply Forall_insert; [apply Harr|by unfold rng]. }
    split; [done|]. split; [done|]. split; [|lia]. intros i Hi.
    rewrite !list_lookup_total_insert_ne by lia. apply Hgap. lia.
  - unfold wp. split; [done|]. split; [done|]. split; [done|]. split; [intros; apply Hgap; lia|].
    intros _. apply (Hgap 8%nat). lia.
Qed.
