(* ===== verification/DecodeExcitation.v ===== *)
(** Decoding of the excitation: [decodeAdaptativeCodeVector.c], [decodeFixedCodeVector.c]
    and [decodeGains.c]. *)

From S2P Require Import Prelude FixedPoint Codebooks Math Utils Context.

(** ** decodeAdaptativeCodeVector.c *)

Definition initDecodeAdaptativeCodeVector (c : Dec.ctx) : Dec.ctx :=
  Dec.set_previousIntPitchDelay 60 c.

(** [excitationVector] is the array [exc] seen from the offset [off]: the past excitation
    lies below [off]. *)
Definition computeAdaptativeCodebookVector (exc : list Z) (off fracPitchDelay intPitchDelay : Z)
    : res (list Z) :=
  let minusK := if fracPitchDelay =? 1 then off - (intPitchDelay + 1) else off - intPitchDelay in
  let frac := if fracPitchDelay =? 1 then 2 else i16 (- fracPitchDelay) in
  for_up 0 L_SUBFRAME exc (λ n exc,
    let* acc := for_up 0 10 0 (λ i acc,
      let* u := ld exc (minusK + n - i) in
      let* b := ld b30 (frac + 3 * i) in
      let acc := MAC16_16 acc u b in
      let* u := ld exc (minusK + (n + 1) + i) in
      let* b := ld b30 (3 - frac + 3 * i) in
      Ok (MAC16_16 acc u b)) in
    st exc (off + n) (i16 (SATURATE (PSHR acc 15) MAXINT16))).

(** The pitch delay of a subframe: [(previousIntPitchDelay, intPitchDelay, fracPitchDelay)]. *)
Definition decodePitchDelay (previousIntPitchDelay subFrameIndex adaptativeCodebookIndex
    parityFlag frameErasureFlag intPitchDelay : Z) : Z * Z * Z :=
  let repeatPrevious :=
    let p := u16 (previousIntPitchDelay + 1) in
    (if MAXIMUM_INT_PITCH_DELAY <? p then MAXIMUM_INT_PITCH_DELAY else p,
     i16 previousIntPitchDelay, 0) in
  if subFrameIndex =? 0 then
    if negb (Z.lor parityFlag frameErasureFlag =? 0) then repeatPrevious
    else if adaptativeCodebookIndex <? 197 then
      let intPitchDelay :=
        ADD16 (MULT16_16_Q15 (ADD16 adaptativeCodebookIndex 2) 10923) 19 in
      let fracPitchDelay :=
        ADD16 (SUB16 adaptativeCodebookIndex (MULT16_16 intPitchDelay 3)) 58 in
      (u16 intPitchDelay, intPitchDelay, fracPitchDelay)
    else
      let intPitchDelay := i16 (SUB16 adaptativeCodebookIndex 112) in
      (u16 intPitchDelay, intPitchDelay, 0)
  else
    if negb (frameErasureFlag =? 0) then repeatPrevious
    else
      let tMin := i16 (SUB16 intPitchDelay 5) in
      let tMin := if tMin <? 20 then 20 else tMin in
      let tMin := if 134 <? tMin then 134 else tMin in
      let intPitchDelay :=
        i16 (SUB16 (MULT16_16_Q15 (ADD16 adaptativeCodebookIndex 2) 10923) 1) in
      let fracPitchDelay :=
        i16 (SUB16 (SUB16 adaptativeCodebookIndex (MULT16_16 intPitchDelay 3)) 2) in
      let intPitchDelay := ADD16 intPitchDelay tMin in
      (u16 intPitchDelay, intPitchDelay, fracPitchDelay).

Definition decodeAdaptativeCodeVector (c : Dec.ctx) (subFrameIndex adaptativeCodebookIndex
    parityFlag frameErasureFlag intPitchDelay off : Z) : res (Dec.ctx * Z) :=
  let '(previousIntPitchDelay, intPitchDelay, fracPitchDelay) :=
    decodePitchDelay (Dec.previousIntPitchDelay c) subFrameIndex adaptativeCodebookIndex
      parityFlag frameErasureFlag intPitchDelay in
  let c := Dec.set_previousIntPitchDelay previousIntPitchDelay c in
  let* exc :=
    computeAdaptativeCodebookVector (Dec.excitationVector c) off fracPitchDelay intPitchDelay in
  Ok (Dec.set_excitationVector exc c, intPitchDelay).

(** ** decodeFixedCodeVector.c *)

Definition pulsePositions (positions : Z) : list Z :=
  let m0 := u16 (Z.land positions 7 * 5) in
  let positions := u16 (SHR positions 3) in
  let m1 := u16 (Z.land positions 7 * 5 + 1) in
  let positions := u16 (SHR positions 3) in
  let m2 := u16 (Z.land positions 7 * 5 + 2) in
  let positions := u16 (SHR positions 3) in
  let jx := Z.land positions 1 in
  let positions := u16 (SHR positions 1) in
  let m3 := u16 (Z.land positions 7 * 5 + 3 + jx) in
  [m0; m1; m2; m3].

Definition decodeFixedCodeVector (signs positions intPitchDelay boundedPitchGain : Z)
    (fixedCodebookVector : list Z) : res (list Z) :=
  let positionsArray := pulsePositions positions in
  let* v := for_up 0 L_SUBFRAME fixedCodebookVector (λ i v, st v i 0) in
  let* (v, _) := for_up 0 4 (v, signs) (λ i '(v, signs),
    let* m := ld positionsArray i in
    let* v := st v m (if negb (Z.land signs 1 =? 0) then 8192 else -8192) in
    Ok (v, u16 (SHR signs 1))) in
  for_up intPitchDelay L_SUBFRAME v (λ i v,
    let* a := ld v i in
    let* b := ld v (i - intPitchDelay) in
    st v i (ADD16 a (MULT16_16_P14 b boundedPitchGain))).

(** ** decodeGains.c *)

Definition initDecodeGains (c : Dec.ctx) : res Dec.ctx :=
  let* p := st (Dec.previousGainPredictionError c) 0 (-14336) in
  let* p := st p 1 (-14336) in
  let* p := st p 2 (-14336) in
  let* p := st p 3 (-14336) in
  Ok (Dec.set_previousGainPredictionError p c).

(** Frame erasure, spec 4.4.2 and 4.4.3: the gains decay and the predictor is damped. *)
Definition decodeGains_erased (c : Dec.ctx) (adaptativeCodebookGain fixedCodebookGain : Z)
    : res (Dec.ctx * Z * Z) :=
  let adaptativeCodebookGain :=
    if adaptativeCodebookGain <? 16384
    then i16 (MULT16_16_Q15 adaptativeCodebookGain 29491) else 14746 in
  let fixedCodebookGain := i16 (MULT16_16_Q15 fixedCodebookGain 32113) in
  let* e := for_up 0 4 0 (λ i e,
    let* p := ld (Dec.previousGainPredictionError c) i in
    Ok (ADD32 e p)) in
  let e := PSHR e 2 in
  let e := if e <? -10240 then -14336 else SUB32 e 4096 in
  let* p := pushGainPredictionError (Dec.previousGainPredictionError c) e in
  Ok (Dec.set_previousGainPredictionError p c, adaptativeCodebookGain, fixedCodebookGain).

(** [(context, adaptativeCodebookGain, fixedCodebookGain)] *)
Definition decodeGains (c : Dec.ctx) (GA GB : Z) (fixedCodebookVector : list Z)
    (frameErasureFlag adaptativeCodebookGain fixedCodebookGain : Z) : res (Dec.ctx * Z * Z) :=
  if negb (frameErasureFlag =? 0) then
    decodeGains_erased c adaptativeCodebookGain fixedCodebookGain
  else
    let* GA := ld reverseIndexMappingGA GA in
    let* GB := ld reverseIndexMappingGB GB in
    let* a := ld2 GACodebook GA 0 in
    let* b := ld2 GBCodebook GB 0 in
    let adaptativeCodebookGain := ADD16 a b in
    let* predictedFixedCodebookGain :=
      MACodeGainPrediction (Dec.previousGainPredictionError c) fixedCodebookVector in
    let* a := ld2 GACodebook GA 1 in
    let* b := ld2 GBCodebook GB 1 in
    let factor := ADD16 a b in
    let fixedCodebookGain :=
      i16 (PSHR (MULT16_32_Q12 factor predictedFixedCodebookGain) 15) in
    let* p := computeGainPredictionError factor (Dec.previousGainPredictionError c) in
    Ok (Dec.set_previousGainPredictionError p c, adaptativeCodebookGain, fixedCodebookGain).

(** ** The pitch delay *)

(** The multiplication by 10923 in Q15 is the division by three of the specification. *)
Lemma third_Q15 p : 0 ≤ p < 256 → MULT16_16_Q15 (ADD16 p 2) 10923 = (p + 2) / 3.
Proof.
  intros Hp. exhaust 8%nat 0 256 (λ p, MULT16_16_Q15 (ADD16 p 2) 10923 =? (p + 2) / 3) p as H. lia.
Qed.

Lemma pitch_first_fine prev p T : 0 ≤ p < 197 →
  ∃ t f, decodePitchDelay prev 0 p 0 0 T = (t, t, f) ∧ 3 * t + f = p + 58 ∧ -1 ≤ f ≤ 1 ∧ 19 ≤ t ≤ 85.
Proof.
  intros Hp. unfold decodePitchDelay. simpl.
  destruct (Z.ltb_spec p 197); [|lia]. rewrite third_Q15 by lia.
  unfold ADD16, SUB16, MULT16_16.
  assert (0 ≤ (p + 2) / 3 ≤ 66) by (Z.div_mod_to_equations; lia).
  rewrite (i16_id ((p + 2) / 3)), (i16_id 19), (i16_id ((p + 2) / 3 + 19)) by (unfold rng; lia).
  set (t := (p + 2) / 3 + 19). assert (t = (p + 2) / 3 + 19) as Et by done. clearbody t.
  rewrite (i32_id t), (i32_id 3), (i32_id (t * 3)), (i16_id p), (i16_id (t * 3)), (i16_id 58)
    by (unfold rng; lia).
  rewrite (i16_id (p - t * 3)), i16_id, u16_id by (unfold rng; Z.div_mod_to_equations; lia).
  exists t, (p - t * 3 + 58). split; [done|]. Z.div_mod_to_equations; lia.
Qed.

Lemma pitch_first_int prev p T : 197 ≤ p < 256 →
  decodePitchDelay prev 0 p 0 0 T = (p - 112, p - 112, 0).
Proof.
  intros Hp. unfold decodePitchDelay. simpl.
  destruct (Z.ltb_spec p 197); [lia|]. unfold SUB16.
  rewrite (i16_id p), (i16_id 112), !i16_id, u16_id; unfold rng; try lia.
  done.
Qed.

(** The window of the second subframe. *)
Definition tMin_of (T1 : Z) : Z := Z.min 134 (Z.max 20 (T1 - 5)).

Lemma pitch_second prev p2 T1 par : 0 ≤ p2 < 32 → 19 ≤ T1 ≤ 144 →
  ∃ t f, decodePitchDelay prev 40 p2 par 0 T1 = (t, t, f) ∧
    3 * (t - tMin_of T1) + f = p2 - 2 ∧ -1 ≤ f ≤ 1 ∧ tMin_of T1 - 1 ≤ t ≤ tMin_of T1 + 10.
Proof.
  intros Hp HT. unfold decodePitchDelay. cbn [Z.eqb negb Pos.eqb]. rewrite third_Q15 by lia.
  unfold ADD16, SUB16, MULT16_16, tMin_of.
  assert (0 ≤ (p2 + 2) / 3 ≤ 11) by (Z.div_mod_to_equations; lia).
  rewrite (i16_id T1), (i16_id 5), (i16_id (T1 - 5)) by (unfold rng; lia).
  set (tm := if 134 <? (if T1 - 5 <? 20 then 20 else T1 - 5) then 134
             else (if T1 - 5 <? 20 then 20 else T1 - 5)).
  assert (tm = Z.min 134 (Z.max 20 (T1 - 5))) as Etm
    by (unfold tm; destruct (Z.ltb_spec (T1 - 5) 20), (Z.ltb_spec 134 (T1 - 5)); try destruct (134 <? 20) eqn:?; lia).
  clearbody tm. rewrite <-Etm.
  rewrite (i16_id ((p2 + 2) / 3)), (i16_id 1), !(i16_id ((p2 + 2) / 3 - 1)) by (unfold rng; lia).
  set (d := (p2 + 2) / 3 - 1) in *. assert (d = (p2 + 2) / 3 - 1) as Ed by done. clearbody d.
  rewrite (i32_id d), (i32_id 3), (i32_id (d * 3)), (i16_id p2), (i16_id (d * 3)), (i16_id tm), (i16_id 2)
    by (unfold rng; lia).
  rewrite (i16_id (p2 - d * 3)) by (unfold rng; lia).
  rewrite (i16_id (p2 - d * 3 - 2)), (i16_id (d + tm)), u16_id by (unfold rng; lia).
  exists (d + tm), (p2 - d * 3 - 2). split; [done|]. Z.div_mod_to_equations; lia.
Qed.

Lemma pitch_repeat prev sub p par er T : 19 ≤ prev ≤ 144 →
  (sub = 0 ∧ Z.lor par er ≠ 0 ∨ sub = 40 ∧ er ≠ 0) →
  decodePitchDelay prev sub p par er T = (Z.min 143 (prev + 1), prev, 0).
Proof.
  intros Hprev Hsub. unfold decodePitchDelay, MAXIMUM_INT_PITCH_DELAY.
  rewrite u16_id, i16_id by (unfold rng; lia).
  assert ((if 143 <? prev + 1 then 143 else prev + 1) = Z.min 143 (prev + 1)) as ->
    by (destruct (Z.ltb_spec 143 (prev + 1)); lia).
  destruct Hsub as [[-> Hn]|[-> Hn]]; simpl.
  - destruct (Z.eqb_spec (Z.lor par er) 0); [done|]. done.
  - destruct (Z.eqb_spec er 0); [done|]. done.
Qed.

(** What the pitch decoder needs of its arguments: on an erased frame, nothing of the index. *)
Definition pitch_args (sub p er T : Z) : Prop :=
  sub = 0 ∧ (er = 0 → 0 ≤ p < 256) ∨ sub = 40 ∧ (er = 0 → 0 ≤ p < 32) ∧ 19 ≤ T ≤ 144.

(** All the cases together: the delays the codebook search can be asked for. *)
Lemma decodePitchDelay_range prev sub p par er T :
  19 ≤ prev ≤ 144 → pitch_args sub p er T →
  ∃ prev' t f, decodePitchDelay prev sub p par er T = (prev', t, f) ∧
    19 ≤ prev' ≤ 144 ∧ 19 ≤ t ≤ 144 ∧ -1 ≤ f ≤ 1.
Proof.
  intros Hprev [[-> Hp]|(-> & Hp & HT)].
  - destruct (Z.eq_dec (Z.lor par er) 0) as [E|E].
    + apply Z.lor_eq_0_iff in E as [-> ->]. specialize (Hp eq_refl). destruct (Z.lt_ge_cases p 197).
      * destruct (pitch_first_fine prev p T) as (t & f & -> & ? & ? & ?); [lia|].
        exists t, t, f. split; [done|lia].
      * rewrite pitch_first_int by lia. do 3 eexists. split; [done|lia].
    + rewrite pitch_repeat; [|done|by left]. do 3 eexists. split; [done|lia].
  - destruct (Z.eq_dec er 0) as [->|E].
    + destruct (pitch_second prev p T par) as (t & f & -> & ? & ? & ?); [auto; lia..|].
      unfold tMin_of in *. exists t, t, f. split; [done|lia].
    + rewrite pitch_repeat; [|done|by right]. do 3 eexists. split; [done|lia].
Qed.

Lemma wp_computeAdaptativeCodebookVector F n exc off frac int_ (Q : list Z → Prop) :
  arr i16r n exc → 154 ≤ off → off + 40 ≤ n → -1 ≤ frac ≤ 1 → 10 ≤ int_ ≤ 144 →
  (∀ e, arr i16r n e → Q e) → wp F (computeAdaptativeCodebookVector exc off frac int_) Q.
Proof.
  intros He Hoff Hn Hf Hint HQ. unfold computeAdaptativeCodebookVector, L_SUBFRAME. cbv zeta.
  set (mk := if frac =? 1 then off - (int_ + 1) else off - int_).
  set (fr := if frac =? 1 then 2 else i16 (- frac)).
  assert (off - 145 ≤ mk ≤ off - 10 ∧ 0 ≤ fr ≤ 2) as [Hmk Hfr].
  { unfold mk, fr. destruct (Z.eqb_spec frac 1); [lia|]. rewrite i16_id by (unfold rng; lia). lia. }
  clearbody mk fr. apply wp_for_inv with (I := arr i16r n); [done| |done].
  intros i e Hi Hen. wp_step. apply wp_for_inv with (I := i32r); [solve_inv| |].
  - intros j acc Hj Hacc. wp_go. solve_inv.
  - intros acc Hacc. wp_go. done.
Qed.

Lemma wp_decodeAdaptativeCodeVector F c sub p par er T (Q : Dec.ctx * Z → Prop) :
  Dec.wf c → pitch_args sub p er T →
  (∀ c' t, Dec.wf c' → 19 ≤ t ≤ 144 → Q (c', t)) →
  wp F (decodeAdaptativeCodeVector c sub p par er T (L_PAST_EXCITATION + sub)) Q.
Proof.
  intros Hc Hsub HQ. unfold decodeAdaptativeCodeVector, L_PAST_EXCITATION.
  destruct (decodePitchDelay_range (Dec.previousIntPitchDelay c) sub p par er T)
    as (prev' & t & f & -> & Hprev' & Ht & Hf); [by apply Dec.wf_previousIntPitchDelay|done|].
  cbv beta iota zeta. wp_step.
  assert (0 ≤ sub ≤ 40) by (unfold pitch_args in Hsub; lia).
  apply (wp_computeAdaptativeCodebookVector F 234); [eauto with csafe|lia|lia|done|lia|].
  intros e He. unfold wp. apply HQ; [|done].
  apply Dec.wf_set_excitationVector; [|done]. apply Dec.wf_set_previousIntPitchDelay; [done|solve_rng].
Qed.

(** ** The fixed codebook vector and its energy *)

Fixpoint sumsq (l : list Z) : Z :=
  match l with
  | [] => 0
  | v :: l => v * v + sumsq l
  end.

Lemma sumsq_nonneg l : 0 ≤ sumsq l.
Proof. induction l; simpl; nia. Qed.

Lemma sumsq_app l k : sumsq (l ++ k) = sumsq l + sumsq k.
Proof. induction l; simpl; lia. Qed.

Lemma sumsq_insert l i v : sumsq (<[i:=v]> l) ≤ sumsq l + v * v.
Proof.
  revert i. induction l as [|x l IH]; intros [|i]; simpl; [nia..|]. specialize (IH i). lia.
Qed.

Lemma sumsq_take_S l n v : l !! n = Some v → sumsq (take (S n) l) = sumsq (take n l) + v * v.
Proof. intros H. rewrite (take_S_r _ _ v) by done. rewrite sumsq_app. simpl. lia. Qed.

Lemma sumsq_take_le l n m : (n ≤ m)%nat → sumsq (take n l) ≤ sumsq (take m l).
Proof.
  intros H. replace m with (n + (m - n))%nat by lia. rewrite <-take_take_drop, sumsq_app.
  pose proof (sumsq_nonneg (take (m - n) (drop n l))). lia.
Qed.

(** The energy loop computes the exact sum of squares when that sum fits 32 bits. *)
Lemma fixedCodebookEnergy_exact v :
  arr i16r 40 v → sumsq v ≤ 2147483647 → fixedCodebookEnergy v = Ok (sumsq v).
Proof.
  intros [Hlen HF] Hs.
  cut (safe (fixedCodebookEnergy v) (λ e, e = sumsq v)).
  { intros (e & -> & ->)%safe_ok. done. }
  unfold fixedCodebookEnergy, L_SUBFRAME.
  apply wp_for_up with (I := λ i e, e = sumsq (take (Z.to_nat i) v)); [lia|done| |].
  - intros i e Hi ->. apply wp_bind, wp_ld; [lia|]. intros x Hx. unfold wp.
    pose proof (Forall_lookup_1 _ _ _ _ HF Hx) as Hr. unfold rng in Hr.
    replace (Z.to_nat (i + 1)) with (S (Z.to_nat i)) by lia.
    pose proof (sumsq_take_S _ _ _ Hx) as E.
    pose proof (sumsq_take_le v (S (Z.to_nat i)) (length v) ltac:(unfold zlen in *; lia)) as Hle.
    rewrite (take_ge v (length v)) in Hle by lia. pose proof (sumsq_nonneg (take (Z.to_nat i) v)).
    destruct (Z.eqb_spec x 0) as [->|Hnz]; [lia|].
    unfold MAC16_16, ADD32, MULT16_16. rewrite (i32_id x) by (unfold rng; lia).
    rewrite !(i32_id (x * x)), (i32_id (sumsq (take (Z.to_nat i) v))), i32_id by (unfold rng; nia). lia.
  - intros e ->. rewrite take_ge; [done|]. unfold zlen in *. lia.
Qed.

(** One step of pitch sharpening. *)
Definition sharpened (a b g : Z) : Z := ADD16 a (MULT16_16_P14 b g).

Lemma sharpen_term b g : -20000 ≤ b ≤ 20000 → 0 ≤ g ≤ 13107 →
  MULT16_16_P14 b g = (8192 + b * g) / 16384 ∧
  -16001 ≤ (8192 + b * g) / 16384 ≤ 16001.
Proof.
  intros Hb Hg. unfold MULT16_16_P14, MULT16_16_P, SHR, ADD32, MULT16_16. change (Z.shiftl 1 (14 - 1)) with 8192.
  rewrite (i32_id b), (i32_id g), !(i32_id (b * g)), (i32_id 8192), (i32_id (8192 + b * g)) by (unfold rng; nia).
  rewrite Z.shiftr_div_pow2 by lia. split; [done|].
  split; [apply Z.div_le_lower_bound|apply Z.div_le_upper_bound]; nia.
Qed.

Lemma sharpened_exact a b g : -20000 ≤ b ≤ 20000 → 0 ≤ g ≤ 13107 → -8192 ≤ a ≤ 8192 →
  sharpened a b g = a + (8192 + b * g) / 16384.
Proof.
  intros Hb Hg Ha. destruct (sharpen_term b g Hb Hg) as [E ?]. unfold sharpened, ADD16. rewrite E.
  rewrite (i16_id a), (i16_id ((8192 + b * g) / 16384)), i16_id; unfold rng; lia.
Qed.

Definition pulse (x : Z) : Prop := x = 0 ∨ x = 8192 ∨ x = -8192.

(** What each sample of the sharpened vector satisfies, [T] being the pitch delay. *)
Definition sample_ok (x : list Z) (T j v : Z) : Prop :=
  ∃ xj, x !! Z.to_nat j = Some xj ∧ pulse xj ∧
    (j < T → v = xj) ∧
    (T ≤ j < 2 * T → -14747 ≤ v ≤ 14747 ∧ ∃ xt, x !! Z.to_nat (j - T) = Some xt ∧ v * v ≤ 2 * (xj * xj) + 2 * (xt * xt)) ∧
    -20000 ≤ v ≤ 20000.

Lemma sample_step x T j xj b g :
  19 ≤ T → T ≤ j < 40 → 0 ≤ g ≤ 13107 → x !! Z.to_nat j = Some xj → pulse xj →
  sample_ok x T (j - T) b → sample_ok x T j (sharpened xj b g).
Proof.
  intros HT Hj Hg Hx Hp (xt & Hxt & Hpt & Hlow & Hmid & Hb).
  assert (-8192 ≤ xj ≤ 8192) by (destruct Hp as [|[|]]; lia).
  rewrite sharpened_exact by lia. exists xj. split; [done|]. split; [done|]. split; [lia|].
  destruct (Z.lt_ge_cases (j - T) T) as [Hlt|Hge].
  - rewrite Hlow in * by done. clear b Hlow Hmid Hb.
    assert (pulse xt ∧ (xt = 0 → (8192 + xt * g) / 16384 = 0) ∧
            -6555 ≤ (8192 + xt * g) / 16384 ≤ 6555) as (_ & Hz & Hr).
    { split; [done|]. split.
      - intros ->. done.
      - destruct Hpt as [->|[->| ->]]; Z.div_mod_to_equations; lia. }
    set (r := (8192 + xt * g) / 16384) in *. clearbody r. split; [|lia]. intros _. split; [lia|].
    exists xt. split; [done|]. destruct Hpt as [->|[->| ->]].
    + rewrite Hz by done. nia.
    + destruct Hp as [->|[->| ->]]; nia.
    + destruct Hp as [->|[->| ->]]; nia.
  - split; [lia|].
    destruct (Z.lt_ge_cases (j - T) (2 * T)) as [Hlt2|]; [|lia].
    destruct (Hmid ltac:(lia)) as [Hb' _]. Z.div_mod_to_equations. nia.
Qed.

Lemma sharpened_energy x v T :
  19 ≤ T → zlen x = 40 → zlen v = 40 →
  (∀ j y, 0 ≤ j < 40 → v !! Z.to_nat j = Some y → sample_ok x T j y) →
  sumsq v ≤ 4 * sumsq x + 800000000.
Proof.
  intros HT Hx Hv Hok.
  assert (∀ n, (n ≤ 40)%nat → sumsq (take n v) ≤
    2 * sumsq (take n x) + 2 * sumsq (take (n - Z.to_nat T) x) + 400000000 * Z.max 0 (Z.of_nat n - 38)) as H.
  { induction n as [|n IH]; intros Hn; [by simpl|]. specialize (IH ltac:(lia)).
    destruct (lookup_lt_is_Some_2 v n) as [y Hy]; [unfold zlen in *; lia|].
    destruct (Hok (Z.of_nat n) y) as (xj & Hxj & Hp & Hlow & Hmid & Hb); [lia|by rewrite Nat2Z.id|].
    rewrite Nat2Z.id in Hxj. rewrite (sumsq_take_S _ _ _ Hy), (sumsq_take_S _ _ _ Hxj).
    pose proof (sumsq_take_le x (n - Z.to_nat T) (S n - Z.to_nat T) ltac:(lia)) as Hmono.
    destruct (Z.lt_ge_cases (Z.of_nat n) T) as [Hl|Hl].
    - rewrite Hlow by done. assert (0 ≤ xj * xj) by nia. lia.
    - destruct (Z.lt_ge_cases (Z.of_nat n) (2 * T)) as [Hl2|Hl2].
      + destruct (Hmid ltac:(lia)) as (_ & xt & Hxt & Hle).
        replace (Z.to_nat (Z.of_nat n - T)) with (n - Z.to_nat T)%nat in Hxt by lia.
        replace (S n - Z.to_nat T)%nat with (S (n - Z.to_nat T)) by lia.
        rewrite (sumsq_take_S _ _ _ Hxt). lia.
      + assert (38 ≤ Z.of_nat n) by lia. assert (y * y ≤ 400000000) by nia.
        assert (0 ≤ xj * xj) by nia. lia. }
  specialize (H 40%nat ltac:(lia)). unfold zlen in *.
  rewrite !(take_ge _ 40) in H by lia.
  pose proof (sumsq_take_le x (40 - Z.to_nat T) 40 ltac:(lia)) as Hm. rewrite (take_ge x 40) in Hm by lia.
  simpl (Z.max _ _) in H. lia.
Qed.

Lemma pulsePositions_arr p : arr (rng 0 39) 4 (pulsePositions p).
Proof.
  unfold pulsePositions. cbv zeta. split; [done|].
  assert (∀ z, 0 ≤ Z.land z 7 ≤ 7) as H7 by (intros z; rewrite land_7; pose proof (Z.mod_pos_bound z 8); lia).
  assert (∀ z, 0 ≤ Z.land z 1 ≤ 1) as H1 by (intros z; rewrite land_1; pose proof (Z.mod_pos_bound z 2); lia).
  repeat constructor; unfold rng;
    match goal with |- context [u16 (Z.land ?z 7 * 5 + 3 + Z.land ?y 1)] => pose proof (H7 z); pose proof (H1 y)
                  | |- context [Z.land ?z 7] => pose proof (H7 z) end;
    rewrite u16_id; unfold rng; lia.
Qed.

Lemma clear_loop F v (Q : list Z → Prop) :
  arr i16r 40 v → Q (replicate 40 0) → wp F (for_up 0 L_SUBFRAME v (λ i v, st v i 0)) Q.
Proof.
  intros [Hlen _] HQ. unfold L_SUBFRAME.
  apply wp_for_up with (I := λ i w, zlen w = 40 ∧ take (Z.to_nat i) w = replicate (Z.to_nat i) 0);
    [lia|done| |].
  - intros i w Hi [Hw Ht]. apply wp_st; [lia|]. split; [by rewrite zlen_insert|].
    replace (Z.to_nat (i + 1)) with (S (Z.to_nat i)) by lia.
    rewrite (take_S_r _ _ 0); [|apply list_lookup_insert_eq; unfold zlen in *; lia].
    rewrite take_insert_ge by lia. by rewrite Ht, <-replicate_S_end.
  - intros w [Hw Ht]. rewrite take_ge in Ht by (unfold zlen in *; lia). by rewrite Ht.
Qed.

Lemma wp_decodeFixedCodeVector F signs positions T g v (Q : list Z → Prop) :
  arr i16r 40 v → 19 ≤ T → rng 3277 13107 g →
  (∀ v', arr i16r 40 v' → sumsq v' ≤ 2147483647 → Q v') →
  wp F (decodeFixedCodeVector signs positions T g v) Q.
Proof.
  intros Hv HT Hg HQ. unfold decodeFixedCodeVector. cbv zeta. wp_step.
  apply clear_loop; [done|]. wp_step.
  apply wp_for_up with (I := λ i '(x, _), arr pulse 40 x ∧ sumsq x ≤ i * 67108864); [lia| | |].
  { split; [split; [done|]|by vm_compute]. by repeat constructor. }
  { intros i [x s] Hi [[Hlen HF] Hs]. wp_step.
    eapply wp_ld_arr; [apply pulsePositions_arr|done|]. intros m Hm. wp_step.
    apply wp_st; [unfold rng in Hm; lia|]. unfold wp. split.
    - split; [by rewrite zlen_insert|]. apply Forall_insert; [done|].
      unfold pulse. destruct (negb _); auto.
    - etrans; [apply sumsq_insert|]. destruct (negb _); lia. }
  intros [x s] [[Hlen HF] Hs].
  assert (∀ j xj, x !! j = Some xj → pulse xj) as Hpulse by (intros; by eapply Forall_lookup_1).
  destruct (Z.le_gt_cases T 40).
  2:{ unfold for_up, L_SUBFRAME. replace (Z.to_nat (40 - T)) with 0%nat by lia. apply HQ; [|lia].
      split; [done|]. eapply Forall_impl; [done|]. intros y [|[|]]; unfold rng; lia. }
  unfold L_SUBFRAME. unfold rng in Hg.
  apply wp_for_up with (I := λ i w, zlen w = 40 ∧ (∀ j, i ≤ Z.of_nat j → w !! j = x !! j) ∧
    (∀ j y, 0 ≤ j < i → w !! Z.to_nat j = Some y → sample_ok x T j y)); [lia| | |].
  - split; [done|]. split; [done|]. intros j y Hj Hy. exists y.
    pose proof (Hpulse _ _ Hy) as Hp. assert (-8192 ≤ y ≤ 8192) by (destruct Hp as [|[|]]; lia).
    split; [done|]. split; [done|]. split; [done|]. split; lia.
  - intros i w Hi (Hw & Hhi & Hlo). wp_step. apply wp_ld; [lia|]. intros a Ha.
    rewrite Hhi in Ha by lia. wp_step. apply wp_ld; [lia|]. intros b Hb.
    apply wp_st; [lia|]. fold (sharpened a b g). split; [by rewrite zlen_insert|]. split.
    + intros j Hj. rewrite list_lookup_insert_ne by lia. apply Hhi. lia.
    + intros j y Hj Hy. destruct (Z.eq_dec j i) as [->|].
      * rewrite list_lookup_insert_eq in Hy by (unfold zlen in *; lia). injection Hy as <-.
        apply sample_step; [lia|lia|lia|done|by eapply Hpulse|]. apply Hlo; [lia|done].
      * rewrite list_lookup_insert_ne in Hy by lia. apply Hlo; [lia|done].
  - intros w (Hw & _ & Hlo). apply HQ.
    + split; [done|]. apply Forall_lookup_2. intros j y Hy.
      assert (Z.of_nat j < 40) by (apply lookup_lt_Some in Hy; unfold zlen in *; lia).
      destruct (Hlo (Z.of_nat j) y) as (_ & _ & _ & _ & _ & Hb); [lia|by rewrite Nat2Z.id|]. unfold rng. lia.
    + pose proof (sharpened_energy x w T HT Hlen Hw Hlo). lia.
Qed.

(** ** Gains *)

Lemma wp_decodeGains F c GA GB v er ga gf (Q : Dec.ctx * Z * Z → Prop) :
  Dec.wf c → (er = 0 → 0 ≤ GA < 8 ∧ 0 ≤ GB < 16) → arr i16r 40 v → sumsq v ≤ 2147483647 →
  i16r ga → i16r gf →
  (∀ c' a b, Dec.wf c' → i16r a → i16r b → Q (c', a, b)) → wp F (decodeGains c GA GB v er ga gf) Q.
Proof.
  intros Hc Hidx Hv Hs Hga Hgf HQ. unfold decodeGains. destruct (Z.eqb_spec er 0) as [E|E]; cbn [negb].
  - destruct (Hidx E) as [HA HB]. wp_go.
    apply wp_MACodeGainPrediction; [eauto with csafe| |].
    { rewrite fixedCodebookEnergy_exact by done. unfold wp, rng.
      pose proof (sumsq_nonneg v). lia. }
    intros gp Hgp. wp_go. apply wp_computeGainPredictionError; [|eauto with csafe|].
    { unfold ADD16. unfold rng in *. rewrite !i16_id; unfold rng; rewrite ?i16_id; unfold rng; lia. }
    intros p Hp. unfold wp. apply HQ; [eauto with csafe|auto with rng..].
  - unfold decodeGains_erased. cbv zeta. wp_step.
    apply wp_for_inv with (I := i32r); [solve_inv| |].
    + intros i e Hi He. wp_go. solve_inv.
    + intros e He. wp_step. apply wp_pushGainPredictionError; [eauto with csafe|]. intros p Hp.
      unfold wp. apply HQ; [eauto with csafe| |auto with rng].
      destruct (_ <? _); [auto with rng|solve_rng].
Qed.
