(* ===== verification/Synthesis.v ===== *)
(** Speech reconstruction: [LPSynthesisFilter.c], [postFilter.c] and [postProcessing.c]. *)

From S2P Require Import Prelude FixedPoint Codebooks Math Utils Context.

(** ** LPSynthesisFilter.c *)

(** The three pointers are arrays with offsets. *)
Definition LPSynthesisFilter (excitationVector : list Z) (eoff : Z) (LPCoefficients : list Z) (loff : Z)
    (reconstructedSpeech : list Z) (roff : Z) : res (list Z) :=
  for_up 0 L_SUBFRAME reconstructedSpeech (λ i reconstructedSpeech,
    let* e := ld excitationVector (eoff + i) in
    let* acc := for_up 0 NB_LSP_COEFF (SSHL e 12) (λ j acc,
      let* a := ld LPCoefficients (loff + j) in
      let* y := ld reconstructedSpeech (roff + (i - j - 1)) in
      Ok (MSU16_16 acc a y)) in
    st reconstructedSpeech (roff + i) (i16 (SATURATE (PSHR acc 12) MAXINT16))).

(** ** postFilter.c *)

Definition GAMMA_N : list Z := [18022; 9912; 5452; 2998; 1649; 907; 499; 274; 151; 83].
Definition GAMMA_D : list Z := [22938; 16056; 11239; 7868; 5507; 3855; 2699; 1889; 1322; 926].

Definition initPostFilter (c : Dec.ctx) : res Dec.ctx :=
  let* r := write_block (Dec.residualSignalBuffer c) 0 (zeros MAXIMUM_INT_PITCH_DELAY) in
  let* s := write_block (Dec.scaledResidualSignalBuffer c) 0 (zeros MAXIMUM_INT_PITCH_DELAY) in
  let* l := st (Dec.longTermFilteredResidualSignalBuffer c) 0 0 in
  let* h := write_block (Dec.shortTermFilteredResidualSignalBuffer c) 0 (zeros NB_LSP_COEFF) in
  Ok (Dec.set_previousAdaptativeGain 4096 (Dec.set_shortTermFilteredResidualSignalBuffer h
       (Dec.set_longTermFilteredResidualSignalBuffer l (Dec.set_scaledResidualSignalBuffer s
         (Dec.set_residualSignalBuffer r c))))).

(** LP coefficients weighted by the powers of gamma. *)
Definition weightLP (gamma LPCoefficients : list Z) (loff : Z) : res (list Z) :=
  for_up 0 NB_LSP_COEFF (zeros NB_LSP_COEFF) (λ i w,
    let* a := ld LPCoefficients (loff + i) in
    let* g := ld gamma i in
    st w i (i16 (MULT16_16_P15 a g))).

(** The residual signal and its version scaled by 1/4, from the offset [base] of their buffers. *)
Definition computeResidual (LPGammaNCoefficients reconstructedSpeech : list Z) (roff : Z)
    (residual scaled : list Z) (base : Z) : res (list Z * list Z) :=
  for_up 0 L_SUBFRAME (residual, scaled) (λ i '(residual, scaled),
    let* s := ld reconstructedSpeech (roff + i) in
    let* acc := for_up 0 NB_LSP_COEFF (SSHL s 12) (λ j acc,
      let* a := ld LPGammaNCoefficients j in
      let* y := ld reconstructedSpeech (roff + (i - j - 1)) in
      Ok (MAC16_16 acc a y)) in
    let r := i16 (SATURATE (PSHR acc 12) MAXINT16) in
    let* residual := st residual (base + i) r in
    let* scaled := st scaled (base + i) (i16 (PSHR r 2)) in
    Ok (residual, scaled)).

(** Scalar product of two 40-sample windows of the scaled residual. *)
Definition windowProduct (scaled : list Z) (b1 b2 : Z) : res Z :=
  for_up 0 L_SUBFRAME 0 (λ j acc,
    let* x := ld scaled (b1 + j) in
    let* y := ld scaled (b2 + j) in
    Ok (MAC16_16 acc x y)).

(** Best delay around the pitch: [(correlationMax, bestIntPitchDelay)]. *)
Definition searchDelay (scaled : list Z) (base intPitchDelay : Z) : res (Z * Z) :=
  for_up (intPitchDelay - 3) (intPitchDelay + 4) (MININT32, 0) (λ i '(correlationMax, best),
    let* correlation := windowProduct scaled (base - i) base in
    Ok (if correlationMax <? correlation then (correlation, i16 i) else (correlationMax, best))).

(** Common scaling of the three values to 16 bits. *)
Definition scaleThree (correlationMax residualEnergy delayedEnergy : Z) : res (Z * Z * Z) :=
  let m := correlationMax in
  let m := if m <? residualEnergy then residualEnergy else m in
  let m := if m <? delayedEnergy then delayedEnergy else m in
  if 0 <? m then
    let* lz := countLeadingZeros m in
    let leadingZeros := i16 lz in
    if leadingZeros <? 16 then
      let* a := shr_chk correlationMax (16 - leadingZeros) in
      let* b := shr_chk residualEnergy (16 - leadingZeros) in
      let* d := shr_chk delayedEnergy (16 - leadingZeros) in
      Ok (i16 a, i16 b, i16 d)
    else Ok (i16 correlationMax, i16 residualEnergy, i16 delayedEnergy)
  else Ok (0, 0, 0).

(** The gains [(g0, g1)] of the long-term filter when it is enabled. *)
Definition longTermGains (correlationMax delayedEnergy c16 d16 : Z) : res (Z * Z) :=
  if delayedEnergy <? correlationMax then Ok (21845, 10923)
  else
    let* q := DIV32 (i32 (Z.shiftl c16 15)) (ADD32 (i32 (Z.shiftl d16 1)) c16) in
    let g1 := i16 q in
    Ok (i16 (SUB16 32767 g1), g1).

(** Long term post filter, into [longTerm] from offset 1. *)
Definition longTermPostFilter (residual scaled longTerm : list Z) (base intPitchDelay : Z)
    : res (list Z) :=
  let intPitchDelay :=
    if MAXIMUM_INT_PITCH_DELAY - 3 <? intPitchDelay then MAXIMUM_INT_PITCH_DELAY - 3 else intPitchDelay in
  let* (correlationMax, best) := searchDelay scaled base intPitchDelay in
  let correlationMax := if correlationMax <? 0 then 0 else correlationMax in
  let* residualEnergy := windowProduct scaled base base in
  let* delayedEnergy := windowProduct scaled (base - best) (base - best) in
  let* (c16, r16, d16) := scaleThree correlationMax residualEnergy delayedEnergy in
  if (MULT16_16 c16 c16 <? SHR (MULT16_16 r16 d16) 1) || ((c16 =? 0) && (d16 =? 0)) then
    for_up 0 L_SUBFRAME longTerm (λ i longTerm,
      let* r := ld residual (base + i) in
      st longTerm (1 + i) r)
  else
    let* (g0, g1) := longTermGains correlationMax delayedEnergy c16 d16 in
    for_up 0 L_SUBFRAME longTerm (λ i longTerm,
      let* r := ld residual (base + i) in
      let* d := ld residual (base - best + i) in
      st longTerm (1 + i)
        (i16 (SATURATE (PSHR (ADD32 (MULT16_16 g0 r) (MULT16_16 g1 d)) 15) MAXINT16))).

(** Truncated impulse response [hf] of A(z/gamma_n)/A(z/gamma_d). *)
Definition impulseResponse (LPGammaNCoefficients LPGammaDCoefficients : list Z) : res (list Z) :=
  let* hf := st (zeros 22) 0 4096 in
  let* hf := for_up 1 11 hf (λ i hf,
    let* n := ld LPGammaNCoefficients (i - 1) in
    let* acc := for_up 0 (Z.min NB_LSP_COEFF i) (SSHL n 12) (λ j acc,
      let* d := ld LPGammaDCoefficients j in
      let* h := ld hf (i - j - 1) in
      Ok (MSU16_16 acc d h)) in
    st hf i (i16 (SATURATE (PSHR acc 12) MAXINT16))) in
  for_up 11 22 hf (λ i hf,
    let* acc := for_up 0 NB_LSP_COEFF 0 (λ j acc,
      let* d := ld LPGammaDCoefficients j in
      let* h := ld hf (i - j - 1) in
      Ok (MSU16_16 acc d h)) in
    st hf i (i16 (SATURATE (PSHR acc 12) MAXINT16))).

(** [rh1] and, when the filter is on, [rh0]: correlations of the impulse response. *)
Definition hfCorrelation1 (hf : list Z) : res Z :=
  let* a := ld hf 0 in
  let* b := ld hf 1 in
  for_up 1 21 (MULT16_16 a b) (λ i rh1,
    let* a := ld hf i in
    let* b := ld hf (i + 1) in
    Ok (MAC16_16 rh1 a b)).
Definition hfCorrelation0 (hf : list Z) : res Z :=
  let* a := ld hf 0 in
  for_up 1 22 (MULT16_16 a a) (λ i rh0,
    let* a := ld hf i in
    Ok (MAC16_16 rh0 a a)).

(** Tilt compensation of the long term output. *)
Definition tiltCompensation (hf longTerm : list Z) : res (list Z) :=
  let* rh1 := hfCorrelation1 hf in
  if rh1 <? 0 then copy_block (zeros L_SUBFRAME) 0 longTerm 1 L_SUBFRAME
  else
    let* rh0 := hfCorrelation0 hf in
    let rh1 := MULT16_32_Q15 GAMMA_T rh1 in
    let* q := DIV32 rh1 (PSHR rh0 12) in
    let tiltCompensationGain := i16 (SATURATE q MAXINT16) in
    for_up 0 L_SUBFRAME (zeros L_SUBFRAME) (λ i tilt,
      let* a := ld longTerm (1 + i) in
      let* b := ld longTerm (1 + (i - 1)) in
      st tilt i (i16 (MSU16_16_Q12 a tiltCompensationGain b))).

(** Sum of the squares of 40 samples from [off], scaled by 1/16, on 32 unsigned bits. *)
Definition squareSum_Q4 (x : list Z) (off : Z) : res Z :=
  for_up 0 L_SUBFRAME 0 (λ i s,
    let* v := ld x (off + i) in
    Ok (u32 (UMAC16_16_Q4 s v v))).

(** The gain scaling factor G, already multiplied by 0.1. *)
Definition gainScaling (reconstructedSpeechSquareSum filteredSquareSum : Z) : res Z :=
  if reconstructedSpeechSquareSum =? 0 then Ok 0
  else
    let* lz := unsignedCountLeadingZeros reconstructedSpeechSquareSum in
    let numeratorShift := i16 lz in
    let* num := ushl_chk reconstructedSpeechSquareSum numeratorShift in
    let* sden := UVSHR32 filteredSquareSum (10 - numeratorShift) in
    let scaledDen := i32 sden in
    let* fractionResult :=
      (if scaledDen =? 0 then
         let* q := UDIV32 num filteredSquareSum in
         UVSHR32 q (numeratorShift - 10)
       else UDIV32 num scaledDen) in
    let* s := g729Sqrt_Q0Q7 fractionResult in
    let gainScalingFactor := i16 (SATURATE s MAXINT16) in
    Ok (i16 (MULT16_16_P15 gainScalingFactor 3277)).

(** Adaptive gain control: [(previousAdaptativeGain, postFilteredSignal)]. *)
Definition adaptiveGainControl (shortTerm reconstructedSpeech : list Z) (roff : Z)
    (previousAdaptativeGain : Z) (postFilteredSignal : list Z) : res (Z * list Z) :=
  let* filteredSquareSum := squareSum_Q4 shortTerm NB_LSP_COEFF in
  if filteredSquareSum =? 0 then
    let* out := for_up 0 L_SUBFRAME postFilteredSignal (λ i out,
      let* v := ld shortTerm (NB_LSP_COEFF + i) in
      st out i v) in
    Ok (0, out)
  else
    let* speechSquareSum := squareSum_Q4 reconstructedSpeech roff in
    let* gainScalingFactor := gainScaling speechSquareSum filteredSquareSum in
    for_up 0 L_SUBFRAME (previousAdaptativeGain, postFilteredSignal) (λ i '(gain, out),
      let gain := ADD16 gainScalingFactor (MULT16_16_P15 gain 29491) in
      let* v := ld shortTerm (NB_LSP_COEFF + i) in
      let* out := st out i (i16 (MULT16_16_Q12 gain v)) in
      Ok (gain, out)).

(** Shift of a residual buffer by one frame, after the second subframe. *)
Definition shiftResidual (subframeIndex : Z) (buf : list Z) : res (list Z) :=
  if 0 <? subframeIndex then copy_block buf 0 buf L_FRAME MAXIMUM_INT_PITCH_DELAY else Ok buf.

Definition postFilter (c : Dec.ctx) (LPCoefficients : list Z) (loff : Z) (reconstructedSpeech : list Z)
    (roff intPitchDelay subframeIndex : Z) (postFilteredSignal : list Z) : res (Dec.ctx * list Z) :=
  let* gN := weightLP GAMMA_N LPCoefficients loff in
  let base := MAXIMUM_INT_PITCH_DELAY + subframeIndex in
  let* (residual, scaled) :=
    computeResidual gN reconstructedSpeech roff
      (Dec.residualSignalBuffer c) (Dec.scaledResidualSignalBuffer c) base in
  let* longTerm :=
    longTermPostFilter residual scaled (Dec.longTermFilteredResidualSignalBuffer c) base intPitchDelay in
  let* gD := weightLP GAMMA_D LPCoefficients loff in
  let* hf := impulseResponse gN gD in
  let* tilt := tiltCompensation hf longTerm in
  let* last := ld longTerm (1 + (L_SUBFRAME - 1)) in
  let* longTerm := st longTerm 0 last in
  let* shortTerm :=
    synthesisFilter tilt gD (Dec.shortTermFilteredResidualSignalBuffer c) NB_LSP_COEFF in
  let* shortTerm := copy_block shortTerm 0 shortTerm L_SUBFRAME NB_LSP_COEFF in
  let* (gain, out) :=
    adaptiveGainControl shortTerm reconstructedSpeech roff (Dec.previousAdaptativeGain c)
      postFilteredSignal in
  let* residual := shiftResidual subframeIndex residual in
  let* scaled := shiftResidual subframeIndex scaled in
  Ok (Dec.set_previousAdaptativeGain gain (Dec.set_shortTermFilteredResidualSignalBuffer shortTerm
       (Dec.set_longTermFilteredResidualSignalBuffer longTerm (Dec.set_scaledResidualSignalBuffer scaled
         (Dec.set_residualSignalBuffer residual c)))), out).

(** ** postProcessing.c *)

Module PostProcessing.
Definition A1 : Z := 15836.
Definition A2 : Z := -7667.
Definition B0 : Z := 7699.
Definition B1 : Z := -15398.
Definition B2 : Z := 7699.
End PostProcessing.

Definition initPostProcessing (c : Dec.ctx) : Dec.ctx :=
  Dec.set_outputY2 0 (Dec.set_outputY1 0 (Dec.set_inputX0 0 (Dec.set_inputX1 0 c))).

Definition postProcessing (c : Dec.ctx) (signal : list Z) : res (Dec.ctx * list Z) :=
  for_up 0 L_SUBFRAME (c, signal) (λ i '(c, signal),
    let inputX2 := Dec.inputX1 c in
    let inputX1 := Dec.inputX0 c in
    let* inputX0 := ld signal i in
    let acc := MULT16_32_Q13 PostProcessing.A1 (Dec.outputY1 c) in
    let acc := MAC16_32_Q13 acc PostProcessing.A2 (Dec.outputY2 c) in
    let acc := MAC16_16 acc inputX0 PostProcessing.B0 in
    let acc := MAC16_16 acc inputX1 PostProcessing.B1 in
    let acc := SATURATE (MAC16_16 acc inputX2 PostProcessing.B2) MAXINT29 in
    let* signal := st signal i (i16 (SATURATE (PSHR acc 12) MAXINT16)) in
    Ok (Dec.set_outputY1 acc (Dec.set_outputY2 (Dec.outputY1 c)
          (Dec.set_inputX0 inputX0 (Dec.set_inputX1 inputX1 c))), signal)).

(** ** Safety of the synthesis filter *)

Lemma wp_LPSynthesisFilter F ne nl n e eoff a loff y roff (Q : list Z → Prop) :
  arr i16r ne e → 0 ≤ eoff → eoff + 40 ≤ ne → arr i16r nl a → 0 ≤ loff → loff + 10 ≤ nl →
  arr i16r n y → 10 ≤ roff → roff + 40 ≤ n →
  (∀ y', arr i16r n y' → Q y') → wp F (LPSynthesisFilter e eoff a loff y roff) Q.
Proof.
  intros. unfold LPSynthesisFilter, L_SUBFRAME, NB_LSP_COEFF.
  apply wp_for_inv with (I := arr i16r n); [done| |done].
  intros i z Hi Hz. wp_go.
  apply wp_for_inv with (I := i32r); [auto with rng| |].
  - intros j acc Hj Hacc. wp_go. auto with rng.
  - intros acc Hacc. wp_go. done.
Qed.

(** ** Safety of the post filter *)

Lemma GAMMA_N_arr : arr i16r 10 GAMMA_N. Proof. by apply arr_rng_by. Qed.
Lemma GAMMA_D_arr : arr i16r 10 GAMMA_D. Proof. by apply arr_rng_by. Qed.
#[export] Hint Resolve GAMMA_N_arr GAMMA_D_arr : csafe.

Lemma wp_weightLP F g n a off (Q : list Z → Prop) :
  arr i16r 10 g → arr i16r n a → 0 ≤ off → off + 10 ≤ n → (∀ w, arr i16r 10 w → Q w) →
  wp F (weightLP g a off) Q.
Proof.
  intros. unfold weightLP, NB_LSP_COEFF.
  apply wp_for_inv with (I := arr i16r 10); [by apply arr_zeros| |done].
  intros i w Hi Hw. wp_go. done.
Qed.

Lemma wp_computeResidual F n m g y roff r s base (Q : list Z * list Z → Prop) :
  arr i16r 10 g → arr i16r n y → 10 ≤ roff → roff + 40 ≤ n → arr i16r m r → arr i16r m s →
  0 ≤ base → base + 40 ≤ m → (∀ r' s', arr i16r m r' → arr i16r m s' → Q (r', s')) →
  wp F (computeResidual g y roff r s base) Q.
Proof.
  intros. unfold computeResidual, L_SUBFRAME, NB_LSP_COEFF.
  apply wp_for_inv with (I := λ '(r, s), arr i16r m r ∧ arr i16r m s); [done| |].
  2:{ intros [r' s'] [? ?]. auto. }
  intros i [r1 s1] Hi [Hr1 Hs1]. wp_go.
  apply wp_for_inv with (I := i32r); [auto with rng| |].
  - intros j acc Hj Hacc. wp_go. auto with rng.
  - intros acc Hacc. wp_go. done.
Qed.

Lemma wp_windowProduct F n s b1 b2 (Q : Z → Prop) :
  arr i16r n s → 0 ≤ b1 → b1 + 40 ≤ n → 0 ≤ b2 → b2 + 40 ≤ n → (∀ v, i32r v → Q v) →
  wp F (windowProduct s b1 b2) Q.
Proof.
  intros. unfold windowProduct, L_SUBFRAME. apply wp_for_inv with (I := i32r); [solve_inv| |done].
  intros j acc Hj Hacc. wp_go. auto with rng.
Qed.

(** The search starts from [MININT32]: the delay stays 0 only when no correlation exceeds it. *)
Lemma wp_searchDelay F n s base T (Q : Z * Z → Prop) :
  arr i16r n s → 143 ≤ base → base + 40 ≤ n → 16 ≤ T ≤ 140 →
  (∀ c b, i32r c → 0 ≤ b ≤ 143 → Q (c, b)) → wp F (searchDelay s base T) Q.
Proof.
  intros Hs Hb Hn HT HQ. unfold searchDelay.
  apply wp_for_inv with (I := λ '(c, b), i32r c ∧ 0 ≤ b ≤ 143).
  - unfold MININT32, rng. lia.
  - intros i [c b] Hi [Hc Hb']. wp_step. apply (wp_windowProduct F n); [done|lia..|].
    intros v Hv. unfold wp. destruct (c <? v); [|done]. split; [done|]. rewrite i16_id; [|unfold rng]; lia.
  - intros [c b] [? ?]. auto.
Qed.

Lemma shift_fits m k : 0 < m < 2147483648 → k = 16 - (30 - Z.log2 m) → 0 < k →
  0 ≤ Z.shiftr m k < 32768.
Proof.
  intros Hm Hk Hpos. rewrite Z.shiftr_div_pow2 by lia. pose proof (Z.log2_spec m ltac:(lia)) as [_ H].
  split; [apply Z.div_pos; lia|]. apply Z.div_lt_upper_bound; [lia|].
  replace 32768 with (2 ^ 15) by done. rewrite <-Z.pow_add_r by lia.
  by replace (k + 15) with (Z.succ (Z.log2 m)) by lia.
Qed.

(** What the gains computation relies on: the scaled correlation and delayed energy keep
    their sign and order when they are nonnegative and ordered. *)
Definition scaled_ok (c d c16 d16 : Z) : Prop :=
  i16r c16 ∧ i16r d16 ∧ (0 ≤ c ≤ d → 0 ≤ c16 ≤ d16).

Lemma wp_scaleThree F c r d (Q : Z * Z * Z → Prop) :
  i32r c → i32r r → i32r d →
  (∀ c16 r16 d16, scaled_ok c d c16 d16 → i16r r16 → Q (c16, r16, d16)) →
  wp F (scaleThree c r d) Q.
Proof.
  intros Hc Hr Hd HQ. unfold scaleThree. cbv zeta.
  set (m0 := if c <? r then r else c). set (m := if m0 <? d then d else m0).
  assert (c ≤ m ∧ d ≤ m ∧ m < 2147483648) as (Hcm & Hdm & Hm).
  { unfold m, m0, rng in *. repeat case_match; lia. }
  clearbody m. clear m0. destruct (Z.ltb_spec 0 m) as [Hpos|Hneg].
  - rewrite countLeadingZeros_pos by lia. cbn [bind]. pose proof (log2_le_30 m ltac:(lia)) as HL.
    rewrite i16_id by (unfold rng; lia). destruct (Z.ltb_spec (30 - Z.log2 m) 16) as [Hlz|Hlz].
    + wp_step. apply wp_shr_chk; [lia|]. wp_step. apply wp_shr_chk; [lia|]. wp_step.
      apply wp_shr_chk; [lia|]. unfold wp. apply HQ; [|auto with rng].
      split; [auto with rng|]. split; [auto with rng|]. intros [Hc0 Hcd].
      pose proof (shift_fits m _ ltac:(lia) eq_refl ltac:(lia)) as [_ Hfit].
      set (k := 16 - (30 - Z.log2 m)) in *. rewrite !Z.shiftr_div_pow2 in * by lia.
      assert (0 < 2 ^ k) by (apply Z.pow_pos_nonneg; lia).
      pose proof (Z.div_le_mono c d (2 ^ k) ltac:(lia) ltac:(lia)).
      pose proof (Z.div_le_mono d m (2 ^ k) ltac:(lia) ltac:(lia)).
      pose proof (Z.div_pos c (2 ^ k) ltac:(lia) ltac:(lia)).
      rewrite !i16_id; unfold rng; lia.
    + unfold wp. apply HQ; [|auto with rng]. split; [auto with rng|]. split; [auto with rng|].
      intros [Hc0 Hcd]. assert (m < 2 ^ 15).
      { apply Z.log2_lt_pow2; lia. }
      change (2 ^ 15) with 32768 in *. rewrite !i16_id; unfold rng; lia.
  - unfold wp. apply HQ; [|by unfold rng]. unfold scaled_ok, rng. lia.
Qed.

Lemma wp_longTermGains F c d c16 d16 (Q : Z * Z → Prop) :
  0 ≤ c → scaled_ok c d c16 d16 → ¬ (c16 = 0 ∧ d16 = 0) →
  (∀ g0 g1, i16r g0 → i16r g1 → Q (g0, g1)) → wp F (longTermGains c d c16 d16) Q.
Proof.
  intros Hc (Hc16 & Hd16 & Hs) Hnz HQ. unfold longTermGains. destruct (Z.ltb_spec d c) as [|Hle].
  - apply HQ; by unfold rng.
  - specialize (Hs ltac:(lia)). unfold rng in *. rewrite !Z.shiftl_mul_pow2 by lia.
    unfold ADD32. change (2 ^ 1) with 2. change (2 ^ 15) with 32768.
    rewrite (i32_id c16), (i32_id (d16 * 2)), (i32_id (d16 * 2)), (i32_id (d16 * 2 + c16)), (i32_id (c16 * 32768))
      by (unfold rng; lia).
    wp_step. apply wp_DIV32; [unfold rng; lia..|]. intros q Hq _. cbv zeta. unfold wp. apply HQ; apply i16_rng.
Qed.

Lemma wp_longTermPostFilter F r s lt base T (Q : list Z → Prop) :
  arr i16r 223 r → arr i16r 223 s → arr i16r 41 lt → 143 ≤ base ≤ 183 → 19 ≤ T ≤ 144 →
  (∀ lt', arr i16r 41 lt' → Q lt') → wp F (longTermPostFilter r s lt base T) Q.
Proof.
  intros Hr Hs Hlt Hb HT HQ. unfold longTermPostFilter, MAXIMUM_INT_PITCH_DELAY, L_SUBFRAME. cbv zeta.
  set (T' := if 143 - 3 <? T then 143 - 3 else T).
  assert (16 ≤ T' ≤ 140) as HT' by (unfold T'; case_match; lia). clearbody T'.
  wp_step. apply (wp_searchDelay F 223); [done|lia..|]. intros c b Hc Hb'.
  cbv beta iota zeta. set (c' := if c <? 0 then 0 else c).
  assert (0 ≤ c' ∧ i32r c') as [Hc0 Hc'] by (unfold c', rng in *; case_match; lia). clearbody c'.
  wp_step. apply (wp_windowProduct F 223); [done|lia..|]. intros e He.
  wp_step. apply (wp_windowProduct F 223); [done|lia..|]. intros d Hd.
  wp_step. apply wp_scaleThree; [done..|]. intros c16 r16 d16 Hsc Hr16. cbv beta iota.
  destruct (_ || _) eqn:E.
  - apply wp_for_inv with (I := arr i16r 41); [done| |done]. intros i l Hi Hl. wp_go. done.
  - apply wp_bind, wp_longTermGains; [done|done| |].
    { apply orb_false_iff in E as [_ E]. lia. }
    intros g0 g1 Hg0 Hg1. cbv beta iota.
    apply wp_for_inv with (I := arr i16r 41); [done| |done]. intros i l Hi Hl. wp_go. done.
Qed.

Lemma wp_impulseResponse F gN gD (Q : list Z → Prop) :
  arr i16r 10 gN → arr i16r 10 gD → (∀ h, arr i16r 22 h → Q h) → wp F (impulseResponse gN gD) Q.
Proof.
  intros HN HD HQ. unfold impulseResponse, NB_LSP_COEFF. wp_step.
  eapply wp_st_arr; [by apply (arr_zeros i16r)|lia|by unfold rng|]. intros h0 H0. wp_step.
  apply wp_for_inv with (I := arr i16r 22); [done| |].
  - intros i h Hi Hh. wp_go. apply wp_for_inv with (I := i32r); [auto with rng| |].
    + intros j acc Hj Hacc. wp_go. auto with rng.
    + intros acc Hacc. wp_go. done.
  - intros h Hh. apply wp_for_inv with (I := arr i16r 22); [done| |done].
    intros i h' Hi Hh'. wp_go. apply wp_for_inv with (I := i32r); [solve_inv| |].
    + intros j acc Hj Hacc. wp_go. auto with rng.
    + intros acc Hacc. wp_go. done.
Qed.

Lemma wp_hfCorrelation1 F h (Q : Z → Prop) :
  arr i16r 22 h → (∀ v, i32r v → Q v) → wp F (hfCorrelation1 h) Q.
Proof.
  intros Hh HQ. unfold hfCorrelation1. wp_go.
  apply wp_for_inv with (I := i32r); [auto with rng| |done]. intros i acc Hi Hacc. wp_go. auto with rng.
Qed.

Lemma wp_hfCorrelation0 F h (Q : Z → Prop) :
  arr i16r 22 h → (∀ v, i32r v → Q v) → wp F (hfCorrelation0 h) Q.
Proof.
  intros Hh HQ. unfold hfCorrelation0. wp_go.
  apply wp_for_inv with (I := i32r); [auto with rng| |done]. intros i acc Hi Hacc. wp_go. auto with rng.
Qed.

(** The only fault the post filter can run into: the tilt division, when the energy of the
    impulse response overflows 32 bits and wraps to a value that rounds to zero. *)
Definition only_div : fault → Prop := λ f, f = DivError.

Lemma wp_tiltCompensation (F : fault → Prop) h lt (Q : list Z → Prop) :
  F DivError → arr i16r 22 h → arr i16r 41 lt → (∀ t, arr i16r 40 t → Q t) →
  wp F (tiltCompensation h lt) Q.
Proof.
  intros HF Hh Hlt HQ. unfold tiltCompensation, L_SUBFRAME.
  assert (arr i16r 40 (zeros 40)) by by apply arr_zeros.
  wp_step. apply wp_hfCorrelation1; [done|]. intros rh1 Hrh1. destruct (rh1 <? 0).
  - eapply wp_copy_block; [done|done|lia..|done].
  - wp_step. apply wp_hfCorrelation0; [done|]. intros rh0 Hrh0. cbv zeta. wp_step.
    apply wp_DIV32_any; [done|]. intros q.
    apply wp_for_inv with (I := arr i16r 40); [done| |done]. intros i t Hi Ht. wp_go. done.
Qed.

Lemma wp_squareSum F n x off (Q : Z → Prop) :
  arr i16r n x → 0 ≤ off → off + 40 ≤ n → (∀ v, u32r v → Q v) → wp F (squareSum_Q4 x off) Q.
Proof.
  intros. unfold squareSum_Q4, L_SUBFRAME. apply wp_for_inv with (I := u32r); [solve_inv| |done].
  intros i s Hi Hs. wp_go. auto with rng.
Qed.

Lemma wp_gainScaling F s f (Q : Z → Prop) :
  u32r s → u32r f → f ≠ 0 → (∀ g, i16r g → Q g) → wp F (gainScaling s f) Q.
Proof.
  intros Hs Hf Hnz HQ. unfold gainScaling. destruct (Z.eqb_spec s 0); [apply HQ; by unfold rng|].
  unfold rng in Hs. rewrite unsignedCountLeadingZeros_pos by lia. cbn [bind].
  assert (0 ≤ Z.log2 s ≤ 31) as HL.
  { split; [apply Z.log2_nonneg|]. cut (Z.log2 s < 32); [lia|]. apply Z.log2_lt_pow2; lia. }
  rewrite i16_id by (unfold rng; lia). cbv zeta. set (lz := 31 - Z.log2 s).
  assert (0 ≤ lz ≤ 31) as Hlz by (unfold lz; lia). clearbody lz.
  wp_step. unfold ushl_chk. destruct (_ && _) eqn:E; [|lia]. unfold wp at 1.
  wp_step. apply wp_UVSHR32; [done|lia|]. intros sd Hsd. wp_step.
  apply wp_mono with (P := u32r).
  - pose proof (i32_rng sd) as Hi. destruct (Z.eqb_spec (i32 sd) 0) as [|Hsnz].
    + wp_step. apply wp_UDIV32; [done..|]. intros q Hq. apply wp_UVSHR32; [done|lia|done].
    + unfold UDIV32. assert (u32 (i32 sd) ≠ 0).
      { unfold u32. intros Hz. apply Z.mod_divide in Hz as [k Hk]; [|done]. unfold rng in Hi.
        assert (k = 0) by lia. subst. lia. }
      destruct (_ =? 0) eqn:E2; [lia|]. pose proof (u32_rng (i32 sd)).
      pose proof (u32_rng (u32 (s ≪ lz))). unfold wp, rng in *.
      split; [apply Z.div_pos; lia|]. apply Z.div_le_upper_bound; nia.
  - intros q Hq. wp_step. apply wp_g729Sqrt; [done|]. intros v _ _. apply HQ, i16_rng.
Qed.

Lemma wp_adaptiveGainControl F n sh y roff g out (Q : Z * list Z → Prop) :
  arr i16r 50 sh → arr i16r n y → 0 ≤ roff → roff + 40 ≤ n → i16r g → arr i16r 40 out →
  (∀ g' out', i16r g' → arr i16r 40 out' → Q (g', out')) →
  wp F (adaptiveGainControl sh y roff g out) Q.
Proof.
  intros Hsh Hy H0 Hn Hg Hout HQ. unfold adaptiveGainControl, L_SUBFRAME, NB_LSP_COEFF. wp_step.
  apply (wp_squareSum F 50); [done|lia..|]. intros fs Hfs. destruct (Z.eqb_spec fs 0).
  - wp_step. apply wp_for_inv with (I := arr i16r 40); [done| |].
    + intros i o Hi Ho. wp_go. done.
    + intros o Ho. apply HQ; [by unfold rng|done].
  - wp_step. apply (wp_squareSum F n); [done|lia..|]. intros ss Hss. wp_step.
    apply wp_gainScaling; [done..|]. intros sc Hsc.
    apply wp_for_inv with (I := λ '(g, o), i16r g ∧ arr i16r 40 o); [done| |].
    + intros i [g1 o] Hi [Hg1 Ho]. wp_go. split; [auto with rng|done].
    + intros [g1 o] [? ?]. auto.
Qed.

Lemma wp_shiftResidual F sub r (Q : list Z → Prop) :
  arr i16r 223 r → (∀ r', arr i16r 223 r' → Q r') → wp F (shiftResidual sub r) Q.
Proof.
  intros Hr HQ. unfold shiftResidual, L_FRAME, MAXIMUM_INT_PITCH_DELAY. case_match; [|by apply HQ].
  eapply wp_copy_block; [done|done|lia..|done].
Qed.

Lemma wp_postFilter (F : fault → Prop) c nl a loff n y roff T sub out (Q : Dec.ctx * list Z → Prop) :
  F DivError → Dec.wf c → arr i16r nl a → 0 ≤ loff → loff + 10 ≤ nl →
  arr i16r n y → 10 ≤ roff → roff + 40 ≤ n → 19 ≤ T ≤ 144 → 0 ≤ sub ≤ 40 → arr i16r 40 out →
  (∀ c' out', Dec.wf c' → arr i16r 40 out' → Q (c', out')) →
  wp F (postFilter c a loff y roff T sub out) Q.
Proof.
  intros HF Hc Ha Hl Hnl Hy Hroff Hn HT Hsub Hout HQ.
  unfold postFilter, MAXIMUM_INT_PITCH_DELAY, L_SUBFRAME, NB_LSP_COEFF. wp_step.
  eapply wp_weightLP; [apply GAMMA_N_arr|done|done|done|]. intros gN HgN. cbv zeta. wp_step.
  eapply (wp_computeResidual F n 223); [done|done|lia|lia|eauto with csafe|eauto with csafe|lia|lia|].
  intros r s Hr Hs. wp_step.
  apply wp_longTermPostFilter; [done|done|eauto with csafe|lia|lia|]. intros lt Hlt. wp_step.
  eapply wp_weightLP; [apply GAMMA_D_arr|done|done|done|]. intros gD HgD. wp_step.
  apply wp_impulseResponse; [done|done|]. intros hf Hhf. wp_step.
  apply wp_tiltCompensation; [done|done|done|]. intros tilt Htilt. wp_go.
  eapply (wp_synthesisFilter F 50); [done|done|eauto with csafe|lia|lia|]. intros sh Hsh. wp_step.
  eapply wp_copy_block; [done|done|lia..|]. intros sh' Hsh'. wp_step.
  eapply wp_adaptiveGainControl; [done|done|lia|lia|eauto with rng|done|]. intros g o Hg Ho. wp_step.
  apply wp_shiftResidual; [done|]. intros r' Hr'. wp_step.
  apply wp_shiftResidual; [done|]. intros s' Hs'. unfold wp. apply HQ; [|done]. eauto 8 with csafe.
Qed.

(** ** Safety of the output high-pass filter *)

Lemma wp_postProcessing F c x (Q : Dec.ctx * list Z → Prop) :
  Dec.wf c → arr i16r 40 x → (∀ c' x', Dec.wf c' → arr i16r 40 x' → Q (c', x')) →
  wp F (postProcessing c x) Q.
Proof.
  intros Hc Hx HQ. unfold postProcessing, L_SUBFRAME.
  apply wp_for_inv with (I := λ '(c, x), Dec.wf c ∧ arr i16r 40 x); [done| |].
  2:{ intros [c' x'] [? ?]. auto. }
  intros i [c1 x1] Hi [Hc1 Hx1]. cbv beta iota zeta. wp_step.
  eapply wp_ld_arr; [done|lia|]. intros v Hv. wp_step.
  eapply wp_st_arr; [done|lia|auto with rng|]. intros x2 Hx2. unfold wp. split; [|done].
  apply Dec.wf_set_outputY1; [eauto 6 with csafe rng|].
  pose proof (SATURATE_rng (MAC16_16 (MAC16_16 (MAC16_16 (MAC16_32_Q13 (MULT16_32_Q13 PostProcessing.A1
    (Dec.outputY1 c1)) PostProcessing.A2 (Dec.outputY2 c1)) v PostProcessing.B0) (Dec.inputX0 c1)
    PostProcessing.B1) (Dec.inputX1 c1) PostProcessing.B2) MAXINT29 ltac:(by vm_compute)) as H.
  unfold MAXINT29, rng in *. lia.
Qed.
