(* ===== verification/LP2LSP.v ===== *)
(** [LP2LSPConversion.c]: line spectral pairs of an LP filter, by the search for sign
    changes of the Chebyshev polynomials of F1 and F2 on a grid of 51 cosines. *)

From S2P Require Import Prelude FixedPoint Codebooks Math Utils.

Definition cosW0pi : list Z :=
  [32760; 32703; 32509; 32187; 31738; 31164; 30466; 29649; 28714; 27666; 26509; 25248; 23886; 22431;
   20887; 19260; 17557; 15786; 13951; 12062; 10125; 8149; 6140; 4106; 2057; 0; -2057; -4106; -6140;
   -8149; -10125; -12062; -13951; -15786; -17557; -19260; -20887; -22431; -23886; -25248; -26509;
   -27666; -28714; -29649; -30466; -31164; -31738; -32187; -32509; -32703; -32760].

Definition ChebyshevPolynomial (x : Z) (f : list Z) : res Z :=
  let* f1 := ld f 1 in
  let* (bk1, bk2) := for_down 3 1 (ADD32 (SSHL x 1) f1, ONE_IN_Q15) (λ k '(bk1, bk2),
    let* fk := ld f (5 - k) in
    let bk := SUB32 (ADD32 (SSHL (MULT16_32_Q15 x bk1) 1) fk) bk2 in
    Ok (bk, bk1)) in
  let* f5 := ld f 5 in
  Ok (SUB32 (ADD32 (MULT16_32_Q15 x bk1) (SHR f5 1)) bk2).

(** The coefficients of F1 and F2 in Q15. *)
Definition polynomialsF1F2 (LPCoefficients : list Z) : res (list Z * list Z) :=
  let* f1 := st (zeros 6) 0 ONE_IN_Q12 in
  let* f2 := st (zeros 6) 0 ONE_IN_Q12 in
  let* (f1, f2) := for_up 0 5 (f1, f2) (λ i '(f1, f2),
    let* a := ld LPCoefficients i in
    let* b := ld LPCoefficients (9 - i) in
    let* x := ld f1 i in
    let* f1 := st f1 (i + 1) (ADD32 a (SUB32 b x)) in
    let* y := ld f2 i in
    let* f2 := st f2 (i + 1) (ADD32 y (SUB32 a b)) in
    Ok (f1, f2)) in
  for_up 1 6 (f1, f2) (λ i '(f1, f2),
    let* a := ld f1 i in
    let* f1 := st f1 i (SSHL a 3) in
    let* b := ld f2 i in
    let* f2 := st f2 i (SSHL b 3) in
    Ok (f1, f2)).

(** [(a ^ b) & 0x10000000] *)
Definition signChange (a b : Z) : bool := negb (Z.land (Z.lxor a b) 268435456 =? 0).

(** Two bisections of [xLow, xHigh]: [(xLow, xHigh, previousCx, Cx)]. *)
Definition bisect (poly : list Z) (xLow xHigh previousCx Cx : Z) : res (Z * Z * Z * Z) :=
  for_up 0 2 (xLow, xHigh, previousCx, Cx) (λ _ '(xLow, xHigh, previousCx, Cx),
    let xMean := i16 (SHR (ADD32 xLow xHigh) 1) in
    let* middleCx := ChebyshevPolynomial xMean poly in
    if signChange previousCx middleCx then Ok (xLow, xMean, previousCx, middleCx)
    else Ok (xMean, xHigh, middleCx, Cx)).

(** Linear interpolation of the root. *)
Definition interpolateRoot (xLow xHigh previousCx Cx : Z) : res Z :=
  let* q := DIV32 (SSHL (SATURATE previousCx MAXINT17) 14) (SHR (SUB32 Cx previousCx) 1) in
  Ok (i16 (SUB32 xLow (MULT16_32_Q15 (SUB32 xHigh xLow) q))).

(** State of the grid loop; [usesF2] is the pointer [polynomialCoefficients], and the
    loop is left ([break]) when [numberOfRootFound] reaches 10. *)
Record rootSearch : Type := RootSearch {
  previousCx : Z;
  usesF2 : bool;
  numberOfRootFound : Z;
  LSPCoefficients : list Z
}.

Definition gridStep (f1 f2 : list Z) (i : Z) (s : rootSearch) : res rootSearch :=
  if numberOfRootFound s =? NB_LSP_COEFF then Ok s
  else
    let poly := if usesF2 s then f2 else f1 in
    let* x := ld cosW0pi i in
    let* Cx := ChebyshevPolynomial x poly in
    if signChange (previousCx s) Cx then
      let* xl := ld cosW0pi (i - 1) in
      let* (xLow, xHigh, prev, Cx) := bisect poly xl x (previousCx s) Cx in
      let usesF2 := negb (usesF2 s) in
      let* xMean := interpolateRoot xLow xHigh prev Cx in
      let* prev := ChebyshevPolynomial xMean (if usesF2 then f2 else f1) in
      let* L := st (LSPCoefficients s) (numberOfRootFound s) xMean in
      Ok (RootSearch prev usesF2 (u8 (numberOfRootFound s + 1)) L)
    else Ok s.

(** [true] and the ten LSP, or [false] with the roots found so far written. *)
Definition LP2LSPConversion (LPCoefficients LSP : list Z) : res (bool * list Z) :=
  let* (f1, f2) := polynomialsF1F2 LPCoefficients in
  let* x0 := ld cosW0pi 0 in
  let* previousCx := ChebyshevPolynomial x0 f1 in
  let* s := for_up 1 NB_COMPUTED_VALUES_CHEBYSHEV_POLYNOMIAL (RootSearch previousCx false 0 LSP)
    (gridStep f1 f2) in
  Ok (numberOfRootFound s =? NB_LSP_COEFF, LSPCoefficients s).

(** ** Safety: the division of the interpolation is the only operation that can fail *)

Lemma cosW0pi_arr : arr i16r 51 cosW0pi. Proof. by apply arr_rng_by. Qed.
#[export] Hint Resolve cosW0pi_arr : csafe.

Lemma wp_ChebyshevPolynomial F x f (Q : Z → Prop) :
  arr i32r 6 f → (∀ v, i32r v → Q v) → wp F (ChebyshevPolynomial x f) Q.
Proof.
  intros Hf HQ. unfold ChebyshevPolynomial. wp_go.
  apply wp_for_down with (I := λ '(a, b), i32r a ∧ i32r b).
  - split; [auto with rng|by unfold rng].
  - intros k [a b] Hk [? ?]. wp_go. auto with rng.
  - intros [a b] _. wp_go. auto with rng.
Qed.

Lemma wp_polynomialsF1F2 F a (Q : list Z * list Z → Prop) :
  arr i16r 10 a → (∀ f1 f2, arr i32r 6 f1 → arr i32r 6 f2 → Q (f1, f2)) →
  wp F (polynomialsF1F2 a) Q.
Proof.
  intros Ha HQ. unfold polynomialsF1F2.
  assert (arr i32r 6 (zeros 6)) by by apply arr_zeros. unfold ONE_IN_Q12. wp_go.
  apply wp_for_inv with (I := λ '(f1, f2), arr i32r 6 f1 ∧ arr i32r 6 f2); [done| |].
  - intros i [f1 f2] Hi [? ?]. wp_go. done.
  - intros [f1 f2] [? ?]. apply wp_for_inv with (I := λ '(f1, f2), arr i32r 6 f1 ∧ arr i32r 6 f2); [done| |].
    + intros i [g1 g2] Hi [? ?]. wp_go. done.
    + intros [g1 g2] [? ?]. auto.
Qed.

Lemma wp_bisect F poly xl xh p c (Q : Z * Z * Z * Z → Prop) :
  arr i32r 6 poly → i16r xl → i16r xh → i32r p → i32r c →
  (∀ xl xh p c, i16r xl → i16r xh → i32r p → i32r c → Q (xl, xh, p, c)) →
  wp F (bisect poly xl xh p c) Q.
Proof.
  intros Hf ? ? ? ? HQ. unfold bisect.
  apply wp_for_inv with (I := λ '(xl, xh, p, c), i16r xl ∧ i16r xh ∧ i32r p ∧ i32r c); [done| |].
  - intros i [[[a b] p'] c'] Hi (? & ? & ? & ?). wp_go. apply wp_ChebyshevPolynomial; [done|].
    intros m Hm. wp_go; auto with rng.
  - intros [[[a b] p'] c'] (? & ? & ? & ?). auto.
Qed.

Lemma wp_LP2LSPConversion (F : fault → Prop) a L (Q : bool * list Z → Prop) :
  F DivError → arr i16r 10 a → arr i16r 10 L → (∀ b L', arr i16r 10 L' → Q (b, L')) →
  wp F (LP2LSPConversion a L) Q.
Proof.
  intros HF Ha HL HQ. unfold LP2LSPConversion. wp_step.
  apply wp_polynomialsF1F2; [done|]. intros f1 f2 H1 H2. wp_go.
  apply wp_ChebyshevPolynomial; [done|]. intros p Hp. wp_step.
  unfold NB_COMPUTED_VALUES_CHEBYSHEV_POLYNOMIAL.
  apply wp_for_inv with (I := λ s, i32r (previousCx s) ∧ 0 ≤ numberOfRootFound s ≤ 10 ∧
    arr i16r 10 (LSPCoefficients s)); [by simpl| |].
  2:{ intros s (_ & _ & Hs). unfold wp. auto. }
  intros i [p' u n L'] Hi (Hp' & Hn & HL'). unfold gridStep, NB_LSP_COEFF.
  cbn [previousCx usesF2 numberOfRootFound LSPCoefficients] in *.
  destruct (Z.eqb_spec n 10); [done|]. cbv zeta.
  assert (arr i32r 6 (if u then f2 else f1)) as Hpoly by by destruct u.
  assert (arr i32r 6 (if negb u then f2 else f1)) as Hpoly' by by destruct u.
  wp_step. eapply wp_ld_arr; [apply cosW0pi_arr|lia|]. intros x Hx. wp_step.
  apply wp_ChebyshevPolynomial; [done|]. intros Cx HCx. destruct (signChange _ _); [|done].
  wp_step. eapply wp_ld_arr; [apply cosW0pi_arr|lia|]. intros x' Hx'. wp_step.
  apply wp_bisect; [done..|]. intros xl xh q c Hxl Hxh Hq Hc. wp_step.
  unfold interpolateRoot. wp_step. apply wp_DIV32_any; [done|]. intros d.
  wp_step. wp_step. apply wp_ChebyshevPolynomial; [done|]. intros pc Hpc. wp_step.
  eapply wp_st_arr; [done|lia|auto with rng|]. intros L2 HL2. wp_step. simpl.
  split; [done|]. split; [|done]. rewrite u8_id; unfold rng; lia.
Qed.
