(* ===== verification/ComfortNoise.v ===== *)
(** Comfort noise generation, [cng.c]: the excitation generator of annex B.4.4 and the
    decoding of SID frames (two-byte G.729B and RFC 3389 payloads). *)

From S2P Require Import Prelude FixedPoint Codebooks Math Utils Context DecodeLSP DecodeExcitation LP2LSP.

Definition SIDqLSPInitialValues : list Z :=
  [31441; 27566; 21458; 13612; 4663; -4663; -13612; -21458; -27566; -31441].

(** The context filled by [initBcg729CNGChannel]; the allocation is in [Decoder]. *)
Definition initialCNGContext : Cng.ctx := Cng.Mk 0 0 SIDqLSPInitialValues 0.

(** ** computeComfortNoiseExcitationVector *)

(** The random parameters of a subframe. *)
Record randomParameters : Type := RandomParameters {
  fracPitchDelay : Z;
  intPitchDelay : Z;
  position : list Z;
  sign : list Z;
  Ga : Z
}.

(** The three first numbers of the generator, split in bit fields; also the new seed. *)
Definition drawParameters (seed : Z) : randomParameters * Z :=
  let r1 := pseudoRandom seed in
  let frac := i16 (Z.land r1 3 - 1) in
  let frac := if frac =? 2 then 0 else frac in
  let b := Z.shiftr r1 2 in
  let int_ := i16 (Z.land b 63 + 40) in
  let b := Z.shiftr b 6 in
  let p0 := i16 (Z.land b 7 * 5) in
  let b := Z.shiftr b 3 in
  let s0 := Z.land b 1 in
  let b := Z.shiftr b 1 in
  let p1 := i16 (Z.land b 7 * 5 + 1) in
  let b := Z.shiftr b 3 in
  let s1 := Z.land b 1 in
  let r2 := pseudoRandom r1 in
  let p2 := i16 (Z.land r2 7 * 5 + 2) in
  let b := Z.shiftr r2 3 in
  let s2 := Z.land b 1 in
  let b := Z.shiftr b 1 in
  let p3 := i16 (Z.land b 1 + 3) in
  let b := Z.shiftr b 1 in
  let p3 := i16 (p3 + Z.land b 7 * 5) in
  let b := Z.shiftr b 3 in
  let s3 := Z.land b 1 in
  let r3 := pseudoRandom r2 in
  let Ga := i16 (Z.shiftl (Z.land r3 8191) 1) in
  (RandomParameters frac int_ [p0; p1; p2; p3] [s0; s1; s2; s3] Ga, r3).

(** One gaussian sample: twelve random numbers, as signed 16 bits, summed. *)
Definition gaussianSample (seed : Z) : res (Z * Z) :=
  let* (tmpBuffer, seed) := for_up 0 12 (0, seed) (λ _ '(tmpBuffer, seed),
    let seed := pseudoRandom seed in
    Ok (ADD32 tmpBuffer (i16 seed), seed)) in
  Ok (i16 (SHR tmpBuffer 7), seed).

(** The 40 samples, their energy and the new seed. *)
Definition gaussianExcitation (seed : Z) : res (list Z * Z * Z) :=
  for_up 0 L_SUBFRAME (zeros L_SUBFRAME, 0, seed) (λ i '(g, Eg, seed),
    let* (v, seed) := gaussianSample seed in
    let* g := st g i v in
    Ok (g, MAC16_16 Eg v v, seed)).

(** The samples scaled to the target gain. *)
Definition scaleGaussian (targetGain Eg : Z) (g : list Z) : res (list Z) :=
  let* inv := g729InvSqrt_Q0Q31 Eg in
  let Gg := MULT16_32_Q15 GAUSSIAN_EXCITATION_COEFF_FACTOR inv in
  let Gg := MULT16_32_Q15 targetGain Gg in
  for_up 0 L_SUBFRAME g (λ i g,
    let* v := ld g i in
    if v <? 0 then st g i (i16 (- SATURATE (PSHR (MULT16_32_Q15 (- v) Gg) 2) MAXINT16))
    else st g i (i16 (PSHR (MULT16_32_Q15 v Gg) 2))).

(** Adaptive excitation scaled by [Ga], plus the gaussian one; [off] is the subframe. *)
Definition mixExcitation (p : randomParameters) (g e : list Z) (off : Z) : res (list Z) :=
  let* e := computeAdaptativeCodebookVector e off (fracPitchDelay p) (intPitchDelay p) in
  let* e := for_up 0 L_SUBFRAME e (λ i e,
    let* v := ld e (i + off) in
    st e (i + off) (i16 (SATURATE (MULT16_16_P15 v (Ga p)) MAXINT16))) in
  for_up 0 L_SUBFRAME e (λ i e,
    let* v := ld e (i + off) in
    let* w := ld g i in
    st e (i + off) (i16 (SATURATE (ADD32 v w) MAXINT16))).

Definition excitationEnergy (e : list Z) (off : Z) : res Z :=
  for_up 0 L_SUBFRAME 0 (λ i Ea,
    let* v := ld e (i + off) in
    Ok (MAC16_16 Ea v v)).

(** [Ei], accumulated on the four signed pulses from its current value. *)
Definition interExcitation (p : randomParameters) (e : list Z) (off Ei : Z) : res Z :=
  for_up 0 4 Ei (λ i Ei,
    let* s := ld (sign p) i in
    let* pos := ld (position p) i in
    let* v := ld e (pos + off) in
    Ok (if s =? 0 then SUB32 Ei v else ADD32 Ei v)).

(** The discriminant and the excitation it is computed for: when it is negative the
    adaptive part is cancelled and it is computed again. *)
Definition discriminant (p : randomParameters) (targetGain : Z) (g e : list Z) (off : Z)
    : res (list Z * Z * Z) :=
  let* Ea := excitationEnergy e off in
  let* Ei := interExcitation p e off 0 in
  let K := MULT16_32 targetGain (SHR (MULT16_16 L_SUBFRAME targetGain) 3) in
  let delta := ADD64 (MULT32_32 Ei Ei) (SHR (SUB64 K (i64 (Z.shiftl Ea 3))) 1) in
  if delta <? 0 then
    let* e := for_up 0 L_SUBFRAME e (λ i e,
      let* v := ld g i in
      st e (i + off) v) in
    let* Ei := interExcitation p e off Ei in
    Ok (e, Ei, ADD64 (MULT32_32 Ei Ei) (MULT16_32_P15 COEFF_K K))
  else Ok (e, Ei, delta).

(** [delta] halved until it fits 32 bits, an even number of times: [(delta, deltaScaleFactor)]. *)
Definition scaleDelta (delta : Z) : res (Z * Z) :=
  let* (delta, n) := while 64 (λ '(delta, _), Ok (2147483648 <=? delta))
    (λ '(delta, n), Ok (Z.shiftr delta 1, u8 (n + 1))) (delta, 0) in
  Ok (if n mod 2 =? 1 then (Z.shiftr delta 1, u8 (n + 1)) else (delta, n)).

(** The root of smallest magnitude. *)
Definition fixedGain (Ei delta : Z) : res Z :=
  let* (delta, deltaScaleFactor) := scaleDelta delta in
  let* delta := g729Sqrt_Q0Q7 (u32 (i32 delta)) in
  let* Ei := SVSHR32 Ei (deltaScaleFactor / 2 - 7) in
  let Gf := SUB32 delta Ei in
  let x2 := i32 (- ADD32 delta Ei) in
  let Gf := if ABS x2 <? ABS Gf then x2 else Gf in
  VSHR32 Gf (2 + 7 - deltaScaleFactor / 2).

Definition addPulses (p : randomParameters) (Gf : Z) (e : list Z) (off : Z) : res (list Z) :=
  for_up 0 4 e (λ i e,
    let* s := ld (sign p) i in
    let* pos := ld (position p) i in
    let* v := ld e (pos + off) in
    st e (pos + off) (i16 (if s =? 0 then SUB32 v Gf else ADD32 v Gf))).

(** One subframe of comfort noise, written from [off]. *)
Definition noiseSubframe (targetGain seed : Z) (e : list Z) (off : Z) : res (list Z * Z) :=
  let '(p, seed) := drawParameters seed in
  let* (g, Eg, seed) := gaussianExcitation seed in
  let* g := scaleGaussian targetGain Eg g in
  let* e := mixExcitation p g e off in
  let* (e, Ei, delta) := discriminant p targetGain g e off in
  let* Gf := fixedGain Ei delta in
  let* e := addPulses p Gf e off in
  Ok (e, seed).

(** [e] is the whole [excitationVector] of the context, the C pointer is its offset
    [L_PAST_EXCITATION]: [(excitationVector, randomGeneratorSeed)]. *)
Definition computeComfortNoiseExcitationVector (targetGain seed : Z) (e : list Z) (eoff : Z)
    : res (list Z * Z) :=
  let* (e, seed) := noiseSubframe targetGain seed e eoff in
  noiseSubframe targetGain seed e (eoff + L_SUBFRAME).

(** ** decodeSIDframe *)

(** RFC 3389: the noise level byte. *)
Definition rfc3389Gain (level : Z) : res Z :=
  let log := ADD32 (- level) 90 in
  let log := if 66 <? log then 66 else log in
  let log := MULT16_16 log 680 in
  let* energy := g729Exp2_Q11Q16 (i16 log) in
  let* g0 := ld SIDGainCodebook 0 in
  if 0 <? energy then
    let* s := g729Sqrt_Q0Q7 (u32 energy) in
    let gain := i16 (SHR s 12) in
    Ok (if gain <? g0 then g0 else gain)
  else Ok g0.

(** The quantised reflection coefficients. *)
Definition reflectionCoefficients (bitStream : list Z) (bitStreamLength : Z) : res (list Z) :=
  let CNFilterOrder := u8 (bitStreamLength - 1) in
  let CNFilterOrder := if NB_LSP_COEFF <? CNFilterOrder then NB_LSP_COEFF else CNFilterOrder in
  let* k := for_up 0 CNFilterOrder (zeros NB_LSP_COEFF) (λ i k,
    let* b := ld bitStream (i + 1) in
    st k i (i16 (MULT16_16 (ADD16 b 127) 258))) in
  for_up CNFilterOrder NB_LSP_COEFF k (λ i k, st k i 0).

(** LP coefficients in Q27 from the reflection coefficients (step-up recursion). *)
Definition stepUp (k : list Z) : res (list Z) :=
  let* LP := st (zeros 11) 0 ONE_IN_Q27 in
  let* k0 := ld k 0 in
  let* LP := st LP 1 (i32 (- SHL k0 12)) in
  let* (LP, _) := for_up 2 (NB_LSP_COEFF + 1) (LP, zeros 11) (λ i '(LP, previous),
    let* previous := for_up 1 i previous (λ j previous,
      let* v := ld LP j in
      st previous j v) in
    let* ki := ld k (i - 1) in
    let* LP := st LP i (i32 (- SHL ki 16)) in
    let* LP := for_up 1 i LP (λ j LP,
      let* a := ld LP j in
      let* b := ld LP i in
      let* c := ld previous (i - j) in
      st LP j (MAC32_32_Q31 a b c)) in
    let* v := ld LP i in
    let* LP := st LP i (SHR v 4) in
    Ok (LP, previous)) in
  Ok LP.

Definition LPtoQ12 (LP : list Z) : res (list Z) :=
  for_up 0 NB_LSP_COEFF (zeros NB_LSP_COEFF) (λ i q,
    let* v := ld LP (i + 1) in
    st q i (i16 (SATURATE (PSHR v 15) MAXINT16))).

Definition decodeRFC3389 (c : Cng.ctx) (bitStream : list Z) (bitStreamLength : Z)
    (previousqLSP : list Z) : res Cng.ctx :=
  let* level := ld bitStream 0 in
  let* gain := rfc3389Gain level in
  let c := Cng.set_receivedSIDGain gain c in
  let* k := reflectionCoefficients bitStream bitStreamLength in
  let* LP := stepUp k in
  let* LPQ12 := LPtoQ12 LP in
  let* (found, qLSP) := LP2LSPConversion LPQ12 (Cng.qLSP c) in
  if found then Ok (Cng.set_qLSP qLSP c)
  else
    let* qLSP := copy_block qLSP 0 previousqLSP 0 NB_LSP_COEFF in
    Ok (Cng.set_qLSP qLSP c).

(** The fields of a two-byte SID payload: [(L0, L1Index, L2Index, gain index)]. *)
Definition sidFields (b0 b1 : Z) : Z * Z * Z * Z :=
  (u8 (Z.land (Z.shiftr b0 7) 1), u8 (Z.land (Z.shiftr b0 2) 31),
   u8 (Z.lor (Z.shiftl (Z.land b0 3) 2) (Z.land (Z.shiftr b1 6) 3)),
   Z.land (Z.shiftr b1 1) 31).

(** The two-byte SID payload; also returns [previousLCodeWord]. *)
Definition decodeG729SID (c : Cng.ctx) (bitStream : list Z) (previousLCodeWord : list (list Z))
    : res (Cng.ctx * list (list Z)) :=
  let* b0 := ld bitStream 0 in
  let* b1 := ld bitStream 1 in
  let '(L0, L1Index, L2Index, gainIndex) := sidFields b0 b1 in
  let* gain := ld SIDGainCodebook gainIndex in
  let c := Cng.set_receivedSIDGain gain c in
  let* i1 := ld L1SubsetIndex L1Index in
  let* i2 := ld L2SubsetIndex L2Index in
  let* i3 := ld L3SubsetIndex L2Index in
  let* q := codebookSum i1 i2 0 (NB_LSP_COEFF / 2) (zeros NB_LSP_COEFF) in
  let* q := codebookSum i1 i3 (NB_LSP_COEFF / 2) NB_LSP_COEFF q in
  let* (q, m) := computeqLSF q previousLCodeWord L0 noiseMAPredictor noiseMAPredictorSum in
  let* qLSP := for_up 0 NB_LSP_COEFF (Cng.qLSP c) (λ i a,
    let* v := ld q i in
    st a i (g729Cos_Q13Q15 v)) in
  Ok (Cng.set_qLSP qLSP c, m).

(** Smoothing of the target gain. *)
Definition smoothGain (c : Cng.ctx) (previousFrameIsActiveFlag : Z) : Cng.ctx :=
  if negb (previousFrameIsActiveFlag =? 0) then Cng.set_smoothedSIDGain (Cng.receivedSIDGain c) c
  else
    let s := i16 (SUB16 (Cng.smoothedSIDGain c) (Z.shiftr (Cng.smoothedSIDGain c) 3)) in
    Cng.set_smoothedSIDGain (ADD16 s (Z.shiftr (Cng.receivedSIDGain c) 3)) c.

(** What [decodeSIDframe] updates besides its context. *)
Record sidState : Type := SidState {
  sid_ctx : Cng.ctx;
  sid_excitationVector : list Z;
  sid_previousqLSP : list Z;
  sid_LP : list Z;
  sid_pseudoRandomSeed : Z;
  sid_previousLCodeWord : list (list Z)
}.

(** [bitStream] is [None] for the NULL pointer. *)
Definition decodeSIDframe (s : sidState) (previousFrameIsActiveFlag : Z) (bitStream : option (list Z))
    (bitStreamLength rfc3389PayloadFlag : Z) : res sidState :=
  let* (c, m) :=
    match bitStream with
    | Some b =>
      if negb (rfc3389PayloadFlag =? 0) then
        let* c := decodeRFC3389 (sid_ctx s) b bitStreamLength (sid_previousqLSP s) in
        Ok (c, sid_previousLCodeWord s)
      else decodeG729SID (sid_ctx s) b (sid_previousLCodeWord s)
    | None => Ok (sid_ctx s, sid_previousLCodeWord s)
    end in
  let* interpolatedqLSP := interpolateqLSP (sid_previousqLSP s) (Cng.qLSP c) (zeros NB_LSP_COEFF) in
  let* previousqLSP := for_up 0 NB_LSP_COEFF (sid_previousqLSP s) (λ i p,
    let* v := ld (Cng.qLSP c) i in
    st p i v) in
  let* LP := qLSP2LP interpolatedqLSP (sid_LP s) 0 in
  let* LP := qLSP2LP (Cng.qLSP c) LP NB_LSP_COEFF in
  let c := smoothGain c previousFrameIsActiveFlag in
  let* (e, seed) := computeComfortNoiseExcitationVector (Cng.smoothedSIDGain c)
    (sid_pseudoRandomSeed s) (sid_excitationVector s) L_PAST_EXCITATION in
  Ok (SidState c e previousqLSP LP seed m).

(** ** Safety of the generator *)

Definition params_drawn (p : randomParameters) : Prop :=
  -1 ≤ fracPitchDelay p ≤ 1 ∧ 40 ≤ intPitchDelay p ≤ 103 ∧ arr (rng 0 39) 4 (position p) ∧
  arr (rng 0 1) 4 (sign p) ∧ 0 ≤ Ga p ≤ 16382.

Lemma drawParameters_ok seed :
  params_drawn (drawParameters seed).1 ∧ u16r (drawParameters seed).2.
Proof.
  unfold drawParameters, params_drawn. cbv zeta.
  set (r1 := pseudoRandom seed). set (r2 := pseudoRandom r1).
  assert (∀ k z, 0 ≤ k → 0 ≤ Z.land z (Z.ones k) < 2 ^ k) as HL.
  { intros k z Hk. rewrite Z.land_ones by done. apply Z.mod_pos_bound. lia. }
  assert (∀ z, 0 ≤ Z.land z 1 < 2) as H1 by (intros z; by apply (HL 1)).
  assert (∀ z, 0 ≤ Z.land z 3 < 4) as H2 by (intros z; by apply (HL 2)).
  assert (∀ z, 0 ≤ Z.land z 7 < 8) as H3 by (intros z; by apply (HL 3)).
  assert (∀ z, 0 ≤ Z.land z 63 < 64) as H6 by (intros z; by apply (HL 6)).
  assert (∀ z, 0 ≤ Z.land z 8191 < 8192) as H13 by (intros z; by apply (HL 13)). clear HL.
  cbn [fst snd fracPitchDelay intPitchDelay position sign Ga].
  split; [|apply pseudoRandom_rng]. split_and!.
  - pose proof (H2 r1). rewrite (i16_id (Z.land r1 3 - 1)) by (unfold rng; lia).
    destruct (Z.eqb_spec (Z.land r1 3 - 1) 2); lia.
  - pose proof (H2 r1). rewrite (i16_id (Z.land r1 3 - 1)) by (unfold rng; lia).
    destruct (Z.eqb_spec (Z.land r1 3 - 1) 2); lia.
  - pose proof (H6 (r1 ≫ 2)). rewrite i16_id; unfold rng; lia.
  - pose proof (H6 (r1 ≫ 2)). rewrite i16_id; unfold rng; lia.
  - split; [done|]. repeat constructor; unfold rng;
      repeat match goal with
      | |- context [Z.land ?z 7] => pose proof (H3 z); generalize dependent (Z.land z 7); intros
      | |- context [Z.land ?z 1] => pose proof (H1 z); generalize dependent (Z.land z 1); intros
      end;
      repeat match goal with |- context [i16 ?e] => rewrite (i16_id e) by (unfold rng; lia) end; lia.
  - split; [done|]. repeat constructor; unfold rng;
      match goal with |- context [Z.land ?z 1] => pose proof (H1 z); lia end.
  - pose proof (H13 (pseudoRandom r2)). rewrite Z.shiftl_mul_pow2 by lia. rewrite i16_id; unfold rng; lia.
  - pose proof (H13 (pseudoRandom r2)). rewrite Z.shiftl_mul_pow2 by lia. rewrite i16_id; unfold rng; lia.
Qed.

(** The generator is affine modulo 2^16: after [n] draws from [s] the seed is
    [pa n * s + pc n] and the sum of the draws [sa n * s + sb n], modulo 2^16. *)
Fixpoint affine (n : nat) : Z * Z * Z * Z :=
  match n with
  | O => (1, 0, 0, 0)
  | S n => let '(pa, pc, sa, sb) := affine n in
           let pa := pa * 31821 mod 65536 in
           let pc := (pc * 31821 + 13849) mod 65536 in
           (pa, pc, (sa + pa) mod 65536, (sb + pc) mod 65536)
  end.

Lemma pseudoRandom_affine s : u16r s → pseudoRandom s = (31821 * s + 13849) mod 65536.
Proof.
  unfold rng, pseudoRandom, u16, MAC16_16, ADD32, MULT16_16. intros Hs.
  rewrite (i32_id s), (i32_id 31821), !(i32_id (s * 31821)), (i32_id 13849), i32_id by (unfold rng; lia).
  f_equal. lia.
Qed.

Lemma i16_mod z : i16 z mod 65536 = z mod 65536.
Proof. unfold i16. destruct (_ && _); [done|]. rewrite Zminus_mod_idemp_l. f_equal. lia. Qed.

Definition affine_ok (n : nat) (s0 t s : Z) : Prop :=
  let '(pa, pc, sa, sb) := affine n in
  s = (pa * s0 + pc) mod 65536 ∧ t mod 65536 = (sa * s0 + sb) mod 65536.

Lemma affine_step n s0 t s : u16r s → affine_ok n s0 t s →
  affine_ok (S n) s0 (t + i16 (pseudoRandom s)) (pseudoRandom s).
Proof.
  unfold affine_ok. simpl. destruct (affine n) as [[[pa pc] sa] sb]. intros Hs [-> Ht].
  rewrite (pseudoRandom_affine _ Hs).
  set (s1 := (31821 * ((pa * s0 + pc) mod 65536) + 13849) mod 65536).
  assert (s1 = (pa * 31821 mod 65536 * s0 + (pc * 31821 + 13849) mod 65536) mod 65536) as E.
  { unfold s1. rewrite <-Z.add_mod_idemp_l, Z.mul_mod_idemp_r, Z.add_mod_idemp_l by done.
    rewrite Z.add_mod_idemp_r by done. rewrite <-(Z.add_mod_idemp_l (_ * s0)), Z.mul_mod_idemp_l by done.
    rewrite Z.add_mod_idemp_l by done. f_equal. ring. }
  split; [done|]. rewrite Z.add_mod, i16_mod, Ht by done.
  assert (s1 mod 65536 = s1) as -> by (unfold s1; by rewrite Z.mod_mod). rewrite E.
  set (p' := pa * 31821 mod 65536). set (c' := (pc * 31821 + 13849) mod 65536).
  rewrite <-Z.add_mod by done. rewrite (Z.add_mod_idemp_r _ (sb + c')) by done.
  rewrite <-(Z.add_mod_idemp_l (_ * s0)), Z.mul_mod_idemp_l, Z.add_mod_idemp_l by done. f_equal. ring.
Qed.

Lemma gaussianSample_ok seed : u16r seed → ∃ v seed' t, gaussianSample seed = Ok (v, seed') ∧
  -3072 ≤ v ≤ 3072 ∧ u16r seed' ∧ v = t / 128 ∧ affine_ok 12 seed t seed'.
Proof.
  intros Hseed.
  cut (safe (gaussianSample seed) (λ '(v, seed'), -3072 ≤ v ≤ 3072 ∧ u16r seed' ∧
    ∃ t, v = t / 128 ∧ affine_ok 12 seed t seed')).
  { intros ([v s] & -> & ? & ? & t & ? & ?)%safe_ok. by exists v, s, t. }
  unfold gaussianSample. wp_step.
  apply wp_for_up with (I := λ i '(t, s), -32768 * i ≤ t ≤ 32767 * i ∧ u16r s ∧
    affine_ok (Z.to_nat i) seed t s); [lia| | |].
  - split; [lia|]. split; [done|]. unfold affine_ok. simpl. unfold rng in Hseed.
    split; [|done]. rewrite Z.mod_small; lia.
  - intros i [t s] Hi (Ht & Hs & Ha). unfold wp.
    pose proof (i16_rng (pseudoRandom s)) as Hr. unfold rng in Hr.
    assert (ADD32 t (i16 (pseudoRandom s)) = t + i16 (pseudoRandom s)) as ->.
    { unfold ADD32. rewrite (i32_id t), (i32_id (i16 _)), i32_id; unfold rng; lia. }
    split; [lia|]. split; [apply pseudoRandom_rng|].
    replace (Z.to_nat (i + 1)) with (S (Z.to_nat i)) by lia. by apply affine_step.
  - intros [t s] (Ht & Hs & Ha). unfold wp, SHR. rewrite Z.shiftr_div_pow2 by lia. change (2 ^ 7) with 128.
    rewrite i16_id by (unfold rng; Z.div_mod_to_equations; lia).
    split; [Z.div_mod_to_equations; lia|]. split; [done|]. by exists t.
Qed.

(** Some of the [n] gaussian samples drawn from [seed] is not zero. *)
Fixpoint someNonzero (n : nat) (seed : Z) : bool :=
  match n with
  | O => false
  | S n => match gaussianSample seed with
           | Ok (v, seed) => if v =? 0 then someNonzero n seed else true
           | Err _ => false
           end
  end.

(** The same check on the affine form of the sum, which is cheap to evaluate. *)
Fixpoint affineNonzero (n : nat) (seed : Z) : bool :=
  match n with
  | O => false
  | S n => if (14676 * seed + 3126) mod 65536 <? 128
           then affineNonzero n ((16561 * seed + 57348) mod 65536) else true
  end.

Lemma affine_12 : affine 12 = (16561, 57348, 14676, 3126).
Proof. reflexivity. Qed.

Lemma affineNonzero_sound n seed : u16r seed → affineNonzero n seed = true → someNonzero n seed = true.
Proof.
  revert seed. induction n as [|n IH]; intros seed Hs Hn; [done|]. cbn [someNonzero affineNonzero] in *.
  destruct (gaussianSample_ok seed Hs) as (v & s' & t & -> & _ & Hs' & Hv & Ha).
  unfold affine_ok in Ha. rewrite affine_12 in Ha. destruct Ha as [Es Et].
  destruct (Z.eqb_spec v 0) as [->|]; [|done]. rewrite <-Et in Hn.
  assert (t mod 65536 < 128) by (Z.div_mod_to_equations; lia).
  destruct (Z.ltb_spec (t mod 65536) 128); [|lia]. rewrite Es. apply IH; [|done]. rewrite <-Es. done.
Qed.

Lemma someNonzero_40 seed : u16r seed → someNonzero 40 seed = true.
Proof.
  intros Hs. apply affineNonzero_sound; [done|].
  exhaust 16%nat 0 65536 (λ s, affineNonzero 40 s) seed as H. done.
Qed.

(** A nonzero sample is still to come at step [i] of the loop. *)
Inductive nonzeroAhead (i seed : Z) : Prop :=
| NonzeroAhead : someNonzero (Z.to_nat (40 - i)) seed = true → nonzeroAhead i seed.

Lemma someNonzero_all seed n : u16r seed → n = 40%nat → someNonzero n seed = true.
Proof. intros Hs ->. exact (someNonzero_40 seed Hs). Qed.

Lemma nonzeroAhead_0 seed : u16r seed → nonzeroAhead 0 seed.
Proof. intros Hs. refine (NonzeroAhead 0 seed (someNonzero_all seed _ Hs _)). reflexivity. Qed.

Lemma someNonzero_S n s v s' : gaussianSample s = Ok (v, s') →
  someNonzero (S n) s = if v =? 0 then someNonzero n s' else true.
Proof.
  change (someNonzero (S n) s) with
    (match gaussianSample s with
     | Ok (v, seed) => if v =? 0 then someNonzero n seed else true
     | Err _ => false end).
  intros ->. reflexivity.
Qed.

Lemma nonzeroAhead_step i s v s' : i < 40 → gaussianSample s = Ok (v, s') → nonzeroAhead i s →
  v ≠ 0 ∨ nonzeroAhead (i + 1) s'.
Proof.
  intros Hi Hv [Hnz]. replace (Z.to_nat (40 - i)) with (S (Z.to_nat (40 - (i + 1)))) in Hnz by lia.
  rewrite (someNonzero_S _ _ _ _ Hv) in Hnz.
  destruct (Z.eqb_spec v 0); [right; exact (NonzeroAhead _ _ Hnz)|left; assumption].
Qed.

Lemma nonzeroAhead_end s : nonzeroAhead 40 s → False.
Proof. intros [H]. discriminate H. Qed.

(** The energy of the gaussian excitation is the sum of its squares, and it is positive:
    its inverse square root is defined for every seed. *)
Lemma wp_gaussianExcitation F seed (Q : list Z * Z * Z → Prop) :
  u16r seed →
  (∀ g Eg s, arr i16r 40 g → 0 < Eg ≤ 377487360 → u16r s → Q (g, Eg, s)) →
  wp F (gaussianExcitation seed) Q.
Proof.
  intros Hs HQ. unfold gaussianExcitation, L_SUBFRAME.
  apply wp_for_up with (I := λ i '(g, Eg, s), arr i16r 40 g ∧ 0 ≤ Eg ≤ i * 9437184 ∧ u16r s ∧
    (0 < Eg ∨ nonzeroAhead i s)); [lia| | |].
  - split; [by apply arr_zeros|]. split; [lia|]. split; [done|]. right. by apply nonzeroAhead_0.
  - intros i [[g Eg] s] Hi (Hg & HE & Hs' & Hnz).
    destruct (gaussianSample_ok s Hs') as (v & s' & _ & Hv & Hvr & Hs'' & _). wp_step. rewrite Hv. unfold wp at 1. wp_step.
    eapply wp_st_arr; [done|lia|unfold rng; lia|]. intros g' Hg'. unfold wp.
    assert (MAC16_16 Eg v v = Eg + v * v) as ->.
    { unfold MAC16_16, ADD32, MULT16_16.
      rewrite (i32_id v), !(i32_id (v * v)), (i32_id Eg), i32_id by (unfold rng; nia). done. }
    split; [done|]. split; [nia|]. split; [done|]. destruct Hnz as [|Hnz]; [left; nia|].
    destruct (nonzeroAhead_step i s v s' ltac:(lia) Hv Hnz); [left; nia|by right].
  - intros [[g Eg] s] (Hg & HE & Hs' & [Hpos|Hnz]); [|by apply nonzeroAhead_end in Hnz]. apply HQ; [done|lia|done].
Qed.

Lemma wp_scaleGaussian F t Eg g (Q : list Z → Prop) :
  0 < Eg ≤ 377487360 → arr i16r 40 g → (∀ g', arr i16r 40 g' → Q g') →
  wp F (scaleGaussian t Eg g) Q.
Proof.
  intros HE Hg HQ. unfold scaleGaussian. wp_step. apply wp_g729InvSqrt; [unfold rng; lia|].
  intros v Hv. cbv zeta. unfold L_SUBFRAME. apply wp_for_inv with (I := arr i16r 40); [done| |done].
  intros i g1 Hi Hg1. wp_go; done.
Qed.

Lemma wp_mixExcitation F p g e off (Q : list Z → Prop) :
  params_drawn p → arr i16r 40 g → arr i16r 234 e → 154 ≤ off ≤ 194 →
  (∀ e', arr i16r 234 e' → Q e') → wp F (mixExcitation p g e off) Q.
Proof.
  intros (Hf & Hi & _) Hg He Hoff HQ. unfold mixExcitation, L_SUBFRAME. wp_step.
  apply (wp_computeAdaptativeCodebookVector F 234); [done|lia..|]. intros e1 He1. wp_step.
  apply wp_for_inv with (I := arr i16r 234); [done| |].
  - intros i e2 Hi2 He2. wp_go. done.
  - intros e2 He2. apply wp_for_inv with (I := arr i16r 234); [done| |done].
    intros i e3 Hi3 He3. wp_go. done.
Qed.

Lemma wp_interExcitation F p e off Ei (Q : Z → Prop) :
  params_drawn p → arr i16r 234 e → 154 ≤ off ≤ 194 → i32r Ei → (∀ v, i32r v → Q v) →
  wp F (interExcitation p e off Ei) Q.
Proof.
  intros (_ & _ & Hp & Hs & _) He Hoff HE HQ. unfold interExcitation.
  apply wp_for_inv with (I := i32r); [done| |done]. intros i v Hi Hv.
  wp_step. eapply wp_ld_arr; [done|lia|]. intros s Hsr. wp_step.
  eapply wp_ld_arr; [done|lia|]. intros q Hq. unfold rng in Hq. wp_go. case_match; auto with rng.
Qed.

Lemma wp_discriminant F p t g e off (Q : list Z * Z * Z → Prop) :
  params_drawn p → arr i16r 40 g → arr i16r 234 e → 154 ≤ off ≤ 194 →
  (∀ e' Ei d, arr i16r 234 e' → i32r Ei → i64r d → Q (e', Ei, d)) →
  wp F (discriminant p t g e off) Q.
Proof.
  intros Hp Hg He Hoff HQ. unfold discriminant, excitationEnergy, L_SUBFRAME. wp_step.
  apply wp_for_inv with (I := i32r); [solve_inv|intros i v Hi Hv; wp_go; auto with rng|].
  intros Ea HEa. wp_step. apply wp_interExcitation; [done|done|done|solve_rng|]. intros Ei HEi. cbv zeta.
  destruct (_ <? 0).
  - wp_step. apply wp_for_inv with (I := arr i16r 234); [done|intros i e1 Hi He1; wp_go; done|].
    intros e1 He1. wp_step. apply wp_interExcitation; [done..|]. intros Ei' HEi'.
    unfold wp. apply HQ; [done|done|apply i64_rng].
  - unfold wp. apply HQ; [done|done|apply i64_rng].
Qed.

(** The halving loop ends after at most 32 steps on a 64-bit value. *)
Lemma scaleDelta_loop (k : nat) fuel d n :
  d < 2147483648 * 2 ^ Z.of_nat k → (k < fuel)%nat → 0 ≤ n → n + Z.of_nat k ≤ 200 → ∃ d' n',
    while fuel (λ '(delta, _), Ok (2147483648 <=? delta))
      (λ '(delta, n), Ok (Z.shiftr delta 1, u8 (n + 1))) (d, n) = Ok (d', n') ∧
    d' < 2147483648 ∧ n ≤ n' ≤ n + Z.of_nat k ∧ (d < 0 → d' = d).
Proof.
  revert fuel d n. induction k as [|k IH]; intros [|fuel] d n Hd Hf Hn Hb; try lia; simpl while;
    destruct (Z.leb_spec 2147483648 d) as [Hle|Hlt]; cbn [bind].
  - simpl in Hd. lia.
  - exists d, n. split; [done|]. lia.
  - rewrite u8_id by (unfold rng; lia). rewrite Z.shiftr_div_pow2 by lia. change (2 ^ 1) with 2.
    destruct (IH fuel (d / 2) (n + 1)) as (d' & n' & E & ? & ? & ?); [|lia..|].
    { rewrite Nat2Z.inj_succ, Z.pow_succ_r in Hd by lia. apply Z.div_lt_upper_bound; lia. }
    exists d', n'. split; [done|]. lia.
  - exists d, n. split; [done|]. lia.
Qed.

Lemma wp_scaleDelta F d (Q : Z * Z → Prop) :
  i64r d → (∀ d' n, 0 ≤ n ≤ 32 → Q (d', n)) → wp F (scaleDelta d) Q.
Proof.
  intros Hd HQ. unfold scaleDelta.
  destruct (scaleDelta_loop 32 64 d 0) as (d' & n & -> & H1 & H2 & _); [unfold rng in Hd; lia|lia..|].
  unfold wp, bind. destruct (Z.eqb_spec (n mod 2) 1) as [E|E].
  - apply HQ. rewrite u8_id by (unfold rng; lia).
    assert (n ≠ 32) by (intros ->; by cbv in E). lia.
  - apply HQ. lia.
Qed.

Lemma wp_fixedGain F Ei d (Q : Z → Prop) :
  i32r Ei → i64r d → (∀ g, i32r g → Q g) → wp F (fixedGain Ei d) Q.
Proof.
  intros HE Hd HQ. unfold fixedGain. wp_step. apply wp_scaleDelta; [done|]. intros d' n Hn. wp_step.
  apply wp_g729Sqrt; [apply u32_rng|]. intros s Hs _. wp_step.
  assert (0 ≤ n / 2 ≤ 16) by (Z.div_mod_to_equations; lia).
  apply wp_SVSHR32; [lia|]. intros Ei' HEi'. cbv zeta. apply wp_VSHR32; [|lia|done].
  case_match; auto with rng.
Qed.

Lemma wp_addPulses F p Gf e off (Q : list Z → Prop) :
  params_drawn p → arr i16r 234 e → 154 ≤ off ≤ 194 → (∀ e', arr i16r 234 e' → Q e') →
  wp F (addPulses p Gf e off) Q.
Proof.
  intros (_ & _ & Hp & Hs & _) He Hoff HQ. unfold addPulses.
  apply wp_for_inv with (I := arr i16r 234); [done| |done]. intros i v Hi Hv.
  wp_step. eapply wp_ld_arr; [done|lia|]. intros s Hsr. wp_step.
  eapply wp_ld_arr; [done|lia|]. intros q Hq. unfold rng in Hq. wp_go. done.
Qed.

Lemma wp_noiseSubframe F t seed e off (Q : list Z * Z → Prop) :
  arr i16r 234 e → 154 ≤ off ≤ 194 → (∀ e' s, arr i16r 234 e' → u16r s → Q (e', s)) →
  wp F (noiseSubframe t seed e off) Q.
Proof.
  intros He Hoff HQ. unfold noiseSubframe.
  destruct (drawParameters_ok seed) as [Hp Hs]. destruct (drawParameters seed) as [p s]. simpl in Hp, Hs.
  wp_step. apply wp_gaussianExcitation; [done|]. intros g Eg s1 Hg HEg Hs1. wp_step.
  apply wp_scaleGaussian; [done..|]. intros g1 Hg1. wp_step.
  apply wp_mixExcitation; [done..|]. intros e1 He1. wp_step.
  apply wp_discriminant; [done..|]. intros e2 Ei d He2 HEi Hd. wp_step.
  apply wp_fixedGain; [done..|]. intros Gf HGf. wp_step.
  apply wp_addPulses; [done..|]. intros e3 He3. unfold wp. auto.
Qed.

Lemma wp_computeComfortNoise F t seed e (Q : list Z * Z → Prop) :
  arr i16r 234 e → (∀ e' s, arr i16r 234 e' → u16r s → Q (e', s)) →
  wp F (computeComfortNoiseExcitationVector t seed e L_PAST_EXCITATION) Q.
Proof.
  intros He HQ. unfold computeComfortNoiseExcitationVector, L_PAST_EXCITATION, L_SUBFRAME. wp_step.
  apply wp_noiseSubframe; [done|lia|]. intros e1 s1 He1 _. by apply wp_noiseSubframe.
Qed.

(** ** Safety of the SID decoder *)

Lemma wp_rfc3389Gain F level (Q : Z → Prop) : (∀ g, i16r g → Q g) → wp F (rfc3389Gain level) Q.
Proof.
  intros HQ. unfold rfc3389Gain. cbv zeta. wp_step.
  apply wp_g729Exp2; [apply i16_rng|]. intros e He. wp_step.
  eapply wp_ld_arr; [apply SIDGainCodebook_arr|lia|]. intros g0 Hg0.
  assert (i16r g0) by (unfold rng in *; lia).
  destruct (0 <? e); [|by apply HQ]. wp_step. apply wp_g729Sqrt; [apply u32_rng|]. intros s _ _.
  apply HQ. case_match; [done|apply i16_rng].
Qed.

Lemma wp_reflectionCoefficients F b n (Q : list Z → Prop) :
  Forall u8r b → n ≤ zlen b → 1 ≤ n ≤ 255 → (∀ k, arr i16r 10 k → Q k) →
  wp F (reflectionCoefficients b n) Q.
Proof.
  intros Hb Hn Hn1 HQ. unfold reflectionCoefficients, NB_LSP_COEFF. cbv zeta.
  rewrite u8_id by (unfold rng; lia).
  assert (arr u8r (zlen b) b) as Hba by by split.
  wp_step. apply wp_for_inv with (I := arr i16r 10); [by apply arr_zeros| |].
  - intros i k Hi Hk. assert (i < 10 ∧ i < n - 1) as [? ?] by (destruct (Z.ltb_spec 10 (n - 1)); lia).
    wp_go. done.
  - intros k Hk. apply wp_for_inv with (I := arr i16r 10); [done| |done].
    intros i k' Hi Hk'. assert (0 ≤ i) by (destruct (Z.ltb_spec 10 (n - 1)); lia). wp_go. done.
Qed.

Lemma wp_stepUp F k (Q : list Z → Prop) :
  arr i16r 10 k → (∀ LP, arr i32r 11 LP → Q LP) → wp F (stepUp k) Q.
Proof.
  intros Hk HQ. unfold stepUp, NB_LSP_COEFF, ONE_IN_Q27.
  assert (arr i32r 11 (zeros 11)) as Hz by by apply arr_zeros. wp_go.
  apply wp_for_inv with (I := λ '(LP, p), arr i32r 11 LP ∧ arr i32r 11 p); [done| |].
  2:{ intros [LP p] [? ?]. unfold wp. auto. }
  intros i [LP p] Hi [HLP Hp]. wp_step.
  apply wp_for_inv with (I := arr i32r 11); [done|intros j p' Hj Hp'; wp_go; done|].
  intros p1 Hp1. wp_go.
  apply wp_for_inv with (I := arr i32r 11); [done|intros j L Hj HL; wp_go; done|].
  intros L HL. wp_step. eapply wp_ld_arr; [done|lia|]. intros w Hw. wp_step.
  eapply wp_st_arr; [done|lia| |]; [apply shiftr_rng; [lia..|done]|]. intros L' HL'. done.
Qed.

Lemma wp_LPtoQ12 F LP (Q : list Z → Prop) :
  arr i32r 11 LP → (∀ q, arr i16r 10 q → Q q) → wp F (LPtoQ12 LP) Q.
Proof.
  intros HLP HQ. unfold LPtoQ12, NB_LSP_COEFF.
  apply wp_for_inv with (I := arr i16r 10); [by apply arr_zeros| |done]. intros i q Hi Hq. wp_go. done.
Qed.

Lemma wp_decodeRFC3389 (F : fault → Prop) c b n p (Q : Cng.ctx → Prop) :
  F DivError → Cng.wf c → Forall u8r b → n ≤ zlen b → 1 ≤ n ≤ 255 → arr i16r 10 p →
  (∀ c', Cng.wf c' → Q c') → wp F (decodeRFC3389 c b n p) Q.
Proof.
  intros HF Hc Hb Hn Hn1 Hp HQ. unfold decodeRFC3389.
  assert (arr u8r (zlen b) b) as Hba by by split. wp_step.
  eapply wp_ld_arr; [done|lia|]. intros l Hl. wp_step.
  apply wp_rfc3389Gain. intros g Hg. cbv zeta. wp_step.
  apply wp_reflectionCoefficients; [done..|]. intros k Hk. wp_step.
  apply wp_stepUp; [done|]. intros LP HLP. wp_step.
  apply wp_LPtoQ12; [done|]. intros q Hq. wp_step.
  apply wp_LP2LSPConversion; [done|done|simpl; eauto with csafe|]. intros found L HL.
  destruct found.
  - apply HQ. eauto with csafe.
  - wp_step. eapply wp_copy_block; [done|done|unfold NB_LSP_COEFF; lia..|]. intros L' HL'.
    apply HQ. eauto with csafe.
Qed.

Lemma wp_decodeG729SID F c b m (Q : Cng.ctx * list (list Z) → Prop) :
  Cng.wf c → Forall u8r b → 2 ≤ zlen b → arr (arr i16r 10) 4 m →
  (∀ c' m', Cng.wf c' → arr (arr i16r 10) 4 m' → Q (c', m')) → wp F (decodeG729SID c b m) Q.
Proof.
  intros Hc Hb Hn Hm HQ. unfold decodeG729SID.
  assert (arr u8r (zlen b) b) as Hba by by split. wp_step.
  eapply wp_ld_arr; [done|lia|]. intros b0 Hb0. wp_step.
  eapply wp_ld_arr; [done|lia|]. intros b1 Hb1. unfold sidFields. cbv zeta.
  rewrite land_1, !land_31, !land_3, shl_mul. change (2 ^ 2) with 4.
  set (x0 := b0 ≫ 7). set (x1 := b0 ≫ 2). set (x2 := b1 ≫ 6). set (x3 := b1 ≫ 1).
  pose proof (Z.mod_pos_bound x0 2 ltac:(lia)). pose proof (Z.mod_pos_bound x1 32 ltac:(lia)).
  pose proof (Z.mod_pos_bound x2 4 ltac:(lia)). pose proof (Z.mod_pos_bound x3 32 ltac:(lia)).
  pose proof (Z.mod_pos_bound b0 4 ltac:(lia)).
  rewrite (lor_low 2 (b0 mod 4 * 4)); [|lia|change (2 ^ 2) with 4; apply Z.mod_mul; lia|lia].
  rewrite !u8_id by (unfold rng; lia). wp_step.
  eapply wp_ld_arr; [apply SIDGainCodebook_arr|lia|]. intros g Hg. wp_step.
  eapply wp_ld_arr; [apply L1SubsetIndex_arr|lia|]. intros i1 Hi1. wp_step.
  eapply wp_ld_arr; [apply L2SubsetIndex_arr|lia|]. intros i2 Hi2. wp_step.
  eapply wp_ld_arr; [apply L3SubsetIndex_arr|lia|]. intros i3 Hi3. unfold rng in Hi1, Hi2, Hi3. wp_step.
  apply wp_codebookSum; [lia|lia|done|by vm_compute|by apply arr_zeros|]. intros q1 Hq1. wp_step.
  apply wp_codebookSum; [lia|lia|by vm_compute|by vm_compute|done|]. intros q2 Hq2. wp_step.
  eapply wp_computeqLSF; [done|done|lia|apply noiseMAPredictor_arr|apply noiseMAPredictorSum_arr|].
  intros q3 m' Hq3 Hm'. wp_step.
  eapply (wp_copy10 F i16r 10 q3 _ g729Cos_Q13Q15); [done|simpl; eauto with csafe|done|auto with rng|].
  intros a Ha. unfold wp. apply HQ; [|done]. apply Cng.wf_set_qLSP; [|done].
  apply Cng.wf_set_receivedSIDGain; [done|]. unfold rng in *. lia.
Qed.

Lemma wf_smoothGain c f : Cng.wf c → Cng.wf (smoothGain c f).
Proof. intros Hc. unfold smoothGain. case_match; eauto with csafe rng. Qed.

(** What a SID frame must look like: two bytes, or for RFC 3389 at least one byte and no
    fewer bytes than announced. *)
Definition sid_payload_ok (bitStream : option (list Z)) (len rfc : Z) : Prop :=
  match bitStream with
  | None => True
  | Some b => Forall u8r b ∧ (if rfc =? 0 then 2 ≤ zlen b else 1 ≤ len ≤ 255 ∧ len ≤ zlen b)
  end.

Record sid_wf (s : sidState) : Prop := {
  sid_wf_ctx : Cng.wf (sid_ctx s);
  sid_wf_excitation : arr i16r 234 (sid_excitationVector s);
  sid_wf_previousqLSP : arr i16r 10 (sid_previousqLSP s);
  sid_wf_LP : arr i16r 20 (sid_LP s);
  sid_wf_seed : u16r (sid_pseudoRandomSeed s);
  sid_wf_codeWord : arr (arr i16r 10) 4 (sid_previousLCodeWord s)
}.

Lemma wp_decodeSIDframe (F : fault → Prop) s active b len rfc (Q : sidState → Prop) :
  F DivError → sid_wf s → sid_payload_ok b len rfc → (∀ s', sid_wf s' → Q s') →
  wp F (decodeSIDframe s active b len rfc) Q.
Proof.
  intros HF [Hc He Hp HL Hs Hm] Hb HQ. unfold decodeSIDframe. wp_step.
  apply wp_mono with (P := λ '(c, m), Cng.wf c ∧ arr (arr i16r 10) 4 m).
  { destruct b as [b|]; [|done]. destruct Hb as [Hb Hlen]. destruct (Z.eqb_spec rfc 0); cbn [negb].
    - by apply wp_decodeG729SID.
    - wp_step. destruct Hlen. by apply wp_decodeRFC3389. }
  intros [c m] [Hc' Hm']. unfold NB_LSP_COEFF. wp_step.
  apply wp_interpolateqLSP; [done|eauto with csafe|by apply arr_zeros|]. intros iq Hiq. wp_step.
  eapply (wp_copy10 F i16r 10 _ _ (λ v, v)); [eauto with csafe|done|done|done|]. intros p' Hp'. wp_step.
  apply (wp_qLSP2LP F 20); [done|done|lia|lia|]. intros LP1 HLP1. wp_step.
  apply (wp_qLSP2LP F 20); [eauto with csafe|done|lia|lia|]. intros LP2 HLP2. cbv zeta. wp_step.
  apply wp_computeComfortNoise; [done|]. intros e s' He' Hs'. unfold wp. apply HQ.
  constructor; simpl; [by apply wf_smoothGain|done..].
Qed.
