(* ===== verification/Decoder.v ===== *)
(** The decoder, [decoder.c]: channel creation and destruction, and the decoding of one
    frame (active, erased or comfort noise) into 80 samples. *)

From S2P Require Import Prelude FixedPoint Codebooks Math Utils Context Heap DecodeLSP DecodeExcitation.
From S2P Require Import Synthesis ComfortNoise.

Definition previousqLSPInitialValues : list Z :=
  [30000; 26000; 21000; 15000; 8000; 0; -8000; -15000; -21000; -26000].

(** The context after [memset (.., 0, sizeof ..)]. *)
Definition zeroDecoderContext : Dec.ctx :=
  Dec.Mk (zeros 10) (zeros 234) 0 0 0 (zeros 90) 0 0 (zeros 10) (replicate 4 (zeros 10)) 0 0 (zeros 4)
    (zeros 223) (zeros 223) (zeros 41) (zeros 50) 0 0 0 0 0 (Cng.Mk 0 0 (zeros 10) 0) 0.

(** A decoder channel: its two heap blocks and the contents of its context. *)
Record decoderChannel : Type := DecoderChannel {
  dec_block : Z;
  cng_block : option Z;
  dec_context : Dec.ctx
}.

(** [malloc] is not tested: [memset] on a NULL pointer is the fault [NullDeref]. *)
Definition initBcg729CNGChannel (h : heap) (succeeds : bool) : res (heap * Z * Cng.ctx) :=
  match malloc h succeeds with
  | (h, None) => Err NullDeref
  | (h, Some p) => Ok (h, p, initialCNGContext)
  end.

(** The fields set before the comfort noise channel is created. *)
Definition initialDecoderFields (c : Dec.ctx) : res Dec.ctx :=
  let* q := copy_block (Dec.previousqLSP c) 0 previousqLSPInitialValues 0 NB_LSP_COEFF in
  let* e := write_block (Dec.excitationVector c) 0 (zeros L_PAST_EXCITATION) in
  let* y := write_block (Dec.reconstructedSpeech c) 0 (zeros NB_LSP_COEFF) in
  let c := Dec.set_excitationVector e (Dec.set_previousqLSP q c) in
  let c := Dec.set_boundedAdaptativeCodebookGain BOUNDED_PITCH_GAIN_MIN c in
  let c := Dec.set_pseudoRandomSeed 21845 c in
  let c := Dec.set_CNGpseudoRandomSeed CNG_DTX_RANDOM_SEED_INIT c in
  let c := Dec.set_fixedCodebookGain 0 (Dec.set_adaptativeCodebookGain 0 c) in
  Ok (Dec.set_previousFrameIsActiveFlag 1 (Dec.set_reconstructedSpeech y c)).

Definition initBcg729DecoderChannel (h : heap) (succeeds1 succeeds2 : bool) : res (heap * decoderChannel) :=
  match malloc h succeeds1 with
  | (h, None) => Err NullDeref
  | (h, Some p) =>
    let* c := initialDecoderFields zeroDecoderContext in
    let* (h, q, cng) := initBcg729CNGChannel h succeeds2 in
    let c := Dec.set_CNGChannelContext cng c in
    let* c := initDecodeLSP c in
    let c := initDecodeAdaptativeCodeVector c in
    let* c := initDecodeGains c in
    let* c := initPostFilter c in
    let c := initPostProcessing c in
    Ok (h, DecoderChannel p (Some q) c)
  end.

(** [None] is the NULL pointer. *)
Definition closeBcg729DecoderChannel (h : heap) (d : option decoderChannel) : res heap :=
  match d with
  | None => Ok h
  | Some d =>
    let* h := match cng_block d with Some q => free h q | None => Ok h end in
    free h (dec_block d)
  end.

(** ** bcg729Decoder *)

(** From the excitation of a subframe to its 40 output samples, written in [signal] from
    [soff + subframeIndex]: synthesis filter, post filter, post processing. *)
Definition outputSubframe (c : Dec.ctx) (LP : list Z) (LPCoefficientsIndex intPitchDelay subframeIndex : Z)
    (signal : list Z) (soff : Z) : res (Dec.ctx * list Z) :=
  let* y := LPSynthesisFilter (Dec.excitationVector c) (L_PAST_EXCITATION + subframeIndex)
    LP LPCoefficientsIndex (Dec.reconstructedSpeech c) (NB_LSP_COEFF + subframeIndex) in
  let c := Dec.set_reconstructedSpeech y c in
  let* (c, postFilteredSignal) := postFilter c LP LPCoefficientsIndex (Dec.reconstructedSpeech c)
    (NB_LSP_COEFF + subframeIndex) intPitchDelay subframeIndex (zeros L_SUBFRAME) in
  let* (c, postFilteredSignal) := postProcessing c postFilteredSignal in
  let* signal := for_up 0 L_SUBFRAME signal (λ i signal,
    let* v := ld postFilteredSignal i in
    st signal (soff + (subframeIndex + i)) v) in
  Ok (c, signal).

(** The buffers shifted by one frame at the end of a call. *)
Definition shiftFrame (c : Dec.ctx) : res Dec.ctx :=
  let* e := copy_block (Dec.excitationVector c) 0 (Dec.excitationVector c) L_FRAME L_PAST_EXCITATION in
  let* y := copy_block (Dec.reconstructedSpeech c) 0 (Dec.reconstructedSpeech c) L_FRAME NB_LSP_COEFF in
  Ok (Dec.set_reconstructedSpeech y (Dec.set_excitationVector e c)).

(** A comfort noise frame. *)
Definition decodeNoiseFrame (c : Dec.ctx) (bitStream : option (list Z))
    (bitStreamLength rfc3389PayloadFlag : Z) (signal : list Z) (soff : Z) : res (Dec.ctx * list Z) :=
  let* s := decodeSIDframe
    (SidState (Dec.CNGChannelContext c) (Dec.excitationVector c) (Dec.previousqLSP c)
       (zeros (2 * NB_LSP_COEFF)) (Dec.CNGpseudoRandomSeed c) (Dec.previousLCodeWord c))
    (Dec.previousFrameIsActiveFlag c) bitStream bitStreamLength rfc3389PayloadFlag in
  let c := Dec.set_CNGChannelContext (sid_ctx s) (Dec.set_excitationVector (sid_excitationVector s)
    (Dec.set_previousqLSP (sid_previousqLSP s) (Dec.set_CNGpseudoRandomSeed (sid_pseudoRandomSeed s)
      (Dec.set_previousLCodeWord (sid_previousLCodeWord s) c)))) in
  let c := Dec.set_previousFrameIsActiveFlag 0 c in
  let* (c, signal) := outputSubframe c (sid_LP s) 0 (Dec.previousIntPitchDelay c) 0 signal soff in
  let* (c, signal) :=
    outputSubframe c (sid_LP s) NB_LSP_COEFF (Dec.previousIntPitchDelay c) L_SUBFRAME signal soff in
  let c := Dec.set_boundedAdaptativeCodebookGain BOUNDED_PITCH_GAIN_MIN c in
  let* c := shiftFrame c in
  Ok (c, signal).

(** Random pulses replace those of an erased frame. *)
Definition erasedPulses (c : Dec.ctx) (parameters : list Z) (parametersIndex : Z)
    : res (Dec.ctx * list Z) :=
  let r1 := pseudoRandom (Dec.pseudoRandomSeed c) in
  let* parameters := st parameters parametersIndex (Z.land r1 8191) in
  let r2 := pseudoRandom r1 in
  let* parameters := st parameters (parametersIndex + 1) (Z.land r2 15) in
  Ok (Dec.set_pseudoRandomSeed r2 c, parameters).

Definition boundedGain (g : Z) : Z :=
  let g := if BOUNDED_PITCH_GAIN_MAX <? g then BOUNDED_PITCH_GAIN_MAX else g in
  if g <? BOUNDED_PITCH_GAIN_MIN then BOUNDED_PITCH_GAIN_MIN else g.

(** The excitation of a subframe: adaptive and fixed vectors weighted by their gains. *)
Definition combineExcitation (c : Dec.ctx) (fixedCodebookVector : list Z) (subframeIndex : Z)
    : res (list Z) :=
  for_up 0 L_SUBFRAME (Dec.excitationVector c) (λ i e,
    let* a := ld e (L_PAST_EXCITATION + subframeIndex + i) in
    let* f := ld fixedCodebookVector i in
    st e (L_PAST_EXCITATION + subframeIndex + i)
      (i16 (SATURATE (PSHR (ADD32 (MULT16_16 a (Dec.adaptativeCodebookGain c))
                                  (MULT16_16 f (Dec.fixedCodebookGain c))) 14) MAXINT16))).

(** State of the loop over the two subframes of an active frame. *)
Record frameState : Type := FrameState {
  fs_ctx : Dec.ctx;
  fs_parameters : list Z;
  fs_parametersIndex : Z;
  fs_intPitchDelay : Z;
  fs_signal : list Z
}.

(** The excitation of one subframe of an active frame; the parameters are consumed from
    [parametersIndex]. *)
Definition decodeExcitation (s : frameState) (subframeIndex parityErrorFlag frameErasureFlag : Z)
    : res frameState :=
  let pi := fs_parametersIndex s in
  let* P := ld (fs_parameters s) pi in
  let* (c, intPitchDelay) := decodeAdaptativeCodeVector (fs_ctx s) subframeIndex P parityErrorFlag
    frameErasureFlag (fs_intPitchDelay s) (L_PAST_EXCITATION + subframeIndex) in
  let pi := if subframeIndex =? 0 then pi + 2 else pi + 1 in
  let* (c, parameters) :=
    (if negb (frameErasureFlag =? 0) then erasedPulses c (fs_parameters s) pi
     else Ok (c, fs_parameters s)) in
  let* signs := ld parameters (pi + 1) in
  let* positions := ld parameters pi in
  let* fixedCodebookVector := decodeFixedCodeVector signs positions intPitchDelay
    (Dec.boundedAdaptativeCodebookGain c) (zeros L_SUBFRAME) in
  let pi := pi + 2 in
  let* GA := ld parameters pi in
  let* GB := ld parameters (pi + 1) in
  let* (c, ga, gf) := decodeGains c GA GB fixedCodebookVector frameErasureFlag
    (Dec.adaptativeCodebookGain c) (Dec.fixedCodebookGain c) in
  let c := Dec.set_fixedCodebookGain gf (Dec.set_adaptativeCodebookGain ga c) in
  let c := Dec.set_boundedAdaptativeCodebookGain (boundedGain (Dec.adaptativeCodebookGain c)) c in
  let* e := combineExcitation c fixedCodebookVector subframeIndex in
  Ok (FrameState (Dec.set_excitationVector e c) parameters (pi + 2) intPitchDelay (fs_signal s)).

Definition decodeSubframe (s : frameState) (LP : list Z) (LPCoefficientsIndex subframeIndex parityErrorFlag
    frameErasureFlag soff : Z) : res frameState :=
  let* s := decodeExcitation s subframeIndex parityErrorFlag frameErasureFlag in
  let* (c, signal) := outputSubframe (fs_ctx s) LP LPCoefficientsIndex (fs_intPitchDelay s) subframeIndex
    (fs_signal s) soff in
  Ok (FrameState c (fs_parameters s) (fs_parametersIndex s) (fs_intPitchDelay s) signal).

(** The LP coefficients of the two subframes of an active frame. *)
Definition decodeSpectrum (c : Dec.ctx) (parameters : list Z) (frameErasureFlag : Z)
    : res (Dec.ctx * list Z) :=
  let* (c, qLSP) := decodeLSP c parameters (zeros NB_LSP_COEFF) frameErasureFlag in
  let* interpolatedqLSP := interpolateqLSP (Dec.previousqLSP c) qLSP (zeros NB_LSP_COEFF) in
  let* p := for_up 0 NB_LSP_COEFF (Dec.previousqLSP c) (λ i p,
    let* v := ld qLSP i in
    st p i v) in
  let c := Dec.set_previousqLSP p c in
  let* LP := qLSP2LP interpolatedqLSP (zeros (2 * NB_LSP_COEFF)) 0 in
  let* LP := qLSP2LP qLSP LP NB_LSP_COEFF in
  Ok (c, LP).

(** An active or erased frame. *)
Definition decodeActiveFrame (c : Dec.ctx) (parameters : list Z) (frameErasureFlag : Z)
    (signal : list Z) (soff : Z) : res (Dec.ctx * list Z) :=
  let c := Dec.set_previousFrameIsActiveFlag 1 c in
  let c := Dec.set_CNGpseudoRandomSeed CNG_DTX_RANDOM_SEED_INIT c in
  let* (c, LP) := decodeSpectrum c parameters frameErasureFlag in
  let* p4 := ld parameters 4 in
  let* parity := computeParity p4 in
  let* p5 := ld parameters 5 in
  let parityErrorFlag := u8 (Z.lxor parity p5) in
  let* s := decodeSubframe (FrameState c parameters 4 0 signal) LP 0 0 parityErrorFlag
    frameErasureFlag soff in
  let* s := decodeSubframe s LP NB_LSP_COEFF L_SUBFRAME parityErrorFlag frameErasureFlag soff in
  let* c := shiftFrame (fs_ctx s) in
  Ok (c, fs_signal s).

(** [uninit] is the indeterminate content of the local [parameters]; the 80 samples are
    written in [signal] from [soff]. *)
Definition bcg729Decoder (c : Dec.ctx) (uninit : list Z) (bitStream : option (list Z))
    (bitStreamLength frameErasureFlag SIDFrameFlag rfc3389PayloadFlag : Z)
    (signal : list Z) (soff : Z) : res (Dec.ctx * list Z) :=
  let* parameters :=
    match bitStream with
    | Some b => if SIDFrameFlag =? 0 then parametersBitStream2Array b uninit else Ok uninit
    | None => for_up 0 NB_PARAMETERS uninit (λ i p, st p i 0)
    end in
  let SIDFrameFlag :=
    if negb (frameErasureFlag =? 0) then
      if negb (Dec.previousFrameIsActiveFlag c =? 0) then 0 else 1
    else SIDFrameFlag in
  if SIDFrameFlag =? 1 then decodeNoiseFrame c bitStream bitStreamLength rfc3389PayloadFlag signal soff
  else decodeActiveFrame c parameters frameErasureFlag signal soff.

(** ** Initialisation *)

Lemma initBcg729DecoderChannel_run h :
  ∃ c, initBcg729DecoderChannel h true true =
    Ok (Heap (next h + 1 + 1) (next h + 1 :: next h :: live h), DecoderChannel (next h) (Some (next h + 1)) c) ∧
  Dec.wf c.
Proof.
  unfold initBcg729DecoderChannel. cbn [malloc].
  assert (∃ c, (let* c := initialDecoderFields zeroDecoderContext in
    let c := Dec.set_CNGChannelContext initialCNGContext c in
    let* c := initDecodeLSP c in
    let c := initDecodeAdaptativeCodeVector c in
    let* c := initDecodeGains c in
    let* c := initPostFilter c in
    Ok (initPostProcessing c)) = Ok c) as [c Hc] by (vm_compute; eauto).
  exists c. split.
  - destruct (initialDecoderFields zeroDecoderContext) as [c0|]; [|done]. cbn [bind] in *.
    unfold initBcg729CNGChannel. cbn [malloc bind next live]. cbv zeta in *.
    destruct (initDecodeLSP _) as [c1|]; [|done]. cbn [bind] in *.
    destruct (initDecodeGains _) as [c2|]; [|done]. cbn [bind] in *.
    destruct (initPostFilter _) as [c3|]; [|done]. cbn [bind] in *. by injection Hc as ->.
  - vm_compute in Hc. injection Hc as <-.
    repeat match goal with
    | |- Dec.wf _ => constructor
    | |- Cng.wf _ => constructor
    | |- arr (arr _ _) _ _ => apply arr_rng2_by; reflexivity
    | |- arr _ _ _ => apply arr_rng_by; reflexivity
    | |- _ => unfold rng; simpl; lia
    end.
Qed.

(** ** Safety of the decoder *)

(** The received parameters: 15 numbers of 16 bits, within their fields when the frame is
    not erased. *)
Definition parameters_ok (er : Z) (p : list Z) : Prop := arr u16r 15 p ∧ (er = 0 → params_ok p).

Lemma params_ok_ld p i v w : params_ok p → field_widths !! Z.to_nat i = Some w →
  p !! Z.to_nat i = Some v → 0 ≤ v < 2 ^ w.
Proof. intros Hp Hw Hv. by eapply (Forall2_lookup_lr _ _ _ _ _ _ Hp). Qed.

Lemma wp_ld_param F er p i w (Q : Z → Prop) :
  parameters_ok er p → 0 ≤ i < 15 → field_widths !! Z.to_nat i = Some w →
  (∀ v, u16r v → (er = 0 → 0 ≤ v < 2 ^ w) → Q v) → wp F (ld p i) Q.
Proof.
  intros [[Hlen HF] Hp] Hi Hw HQ. apply wp_ld; [lia|]. intros v Hv. apply HQ.
  - by eapply Forall_lookup_1.
  - intros E. by eapply params_ok_ld; [apply Hp|..].
Qed.

Lemma wp_computeParity F idx (Q : Z → Prop) : (∀ b, rng 0 1 b → Q b) → wp F (computeParity idx) Q.
Proof.
  intros HQ. unfold computeParity. cbv zeta. wp_step.
  apply wp_for_inv with (I := λ '(b, _), b = 0 ∨ b = 1); [by right| |].
  - intros i [b x] _ Hb. unfold wp. rewrite land_1. pose proof (Z.mod_pos_bound x 2 ltac:(lia)).
    assert (x mod 2 = 0 ∨ x mod 2 = 1) as [-> | ->] by lia; destruct Hb as [-> | ->]; by vm_compute; auto.
  - intros [b x] Hb. unfold wp. apply HQ. unfold rng. lia.
Qed.

Lemma params_ok_unpack b p : arr u8r 10 b → arr u16r 15 p →
  safe (parametersBitStream2Array b p) (parameters_ok 0).
Proof.
  intros Hb [Hp _]. rewrite (unpack_spec b p Hb Hp). destruct Hb as [Hb HF].
  explode b Hb. repeat match goal with H : Forall _ (_ :: _) |- _ => inversion H; clear H; subst end.
  unfold rng in *. unfold wp. split.
  - split; [done|]. repeat constructor; divmod.
  - intros _. unfold params_ok, field_widths. repeat constructor; cbn; divmod.
Qed.

Lemma wp_outputSubframe (F : fault → Prop) c LP li T sub n signal soff (Q : Dec.ctx * list Z → Prop) :
  F DivError → Dec.wf c → arr i16r 20 LP → 0 ≤ li ≤ 10 → 19 ≤ T ≤ 144 → 0 ≤ sub ≤ 40 →
  arr i16r n signal → 0 ≤ soff → soff + 80 ≤ n →
  (∀ c' s', Dec.wf c' → arr i16r n s' → Q (c', s')) →
  wp F (outputSubframe c LP li T sub signal soff) Q.
Proof.
  intros HF Hc HLP Hli HT Hsub Hs Hso Hn HQ.
  unfold outputSubframe, L_PAST_EXCITATION, NB_LSP_COEFF, L_SUBFRAME. wp_step.
  eapply wp_LPSynthesisFilter; [eauto with csafe|lia|lia|done|lia|lia|eauto with csafe|lia|lia|].
  intros y Hy. cbv zeta. wp_step.
  eapply wp_postFilter; [done|eauto with csafe|done|lia|lia|done|lia|lia|done|done|by apply arr_zeros|].
  intros c1 o1 Hc1 Ho1. wp_step. apply wp_postProcessing; [done..|]. intros c2 o2 Hc2 Ho2. wp_step.
  apply wp_for_inv with (I := arr i16r n); [done| |].
  - intros i s Hi Hs1. wp_go. done.
  - intros s Hs1. unfold wp. auto.
Qed.

Lemma wp_shiftFrame F c (Q : Dec.ctx → Prop) :
  Dec.wf c → (∀ c', Dec.wf c' → Q c') → wp F (shiftFrame c) Q.
Proof.
  intros Hc HQ. unfold shiftFrame, L_FRAME, L_PAST_EXCITATION, NB_LSP_COEFF. wp_step.
  eapply wp_copy_block; [eauto with csafe|eauto with csafe|lia..|]. intros e He. wp_step.
  eapply wp_copy_block; [eauto with csafe|eauto with csafe|lia..|]. intros y Hy.
  unfold wp. apply HQ. eauto with csafe.
Qed.

Lemma wp_decodeNoiseFrame (F : fault → Prop) c b len rfc n signal soff (Q : Dec.ctx * list Z → Prop) :
  F DivError → Dec.wf c → sid_payload_ok b len rfc → arr i16r n signal → 0 ≤ soff → soff + 80 ≤ n →
  (∀ c' s', Dec.wf c' → arr i16r n s' → Q (c', s')) →
  wp F (decodeNoiseFrame c b len rfc signal soff) Q.
Proof.
  intros HF Hc Hb Hs Hso Hn HQ. unfold decodeNoiseFrame, NB_LSP_COEFF, L_SUBFRAME. wp_step.
  apply wp_decodeSIDframe; [done| |done|].
  { constructor; simpl; eauto with csafe rng. by apply arr_zeros. }
  intros s [H1 H2 H3 H4 H5 H6]. cbv zeta.
  match goal with |- context [outputSubframe ?x _ 0] => assert (Dec.wf x) as Hc' end.
  { apply Dec.wf_set_previousFrameIsActiveFlag; [|by unfold rng]. eauto 8 with csafe. }
  match goal with |- context [outputSubframe ?x _ 0] => generalize dependent x end. intros c' Hc'.
  pose proof (Dec.wf_previousIntPitchDelay _ Hc') as HT. unfold rng in HT. wp_step.
  apply (wp_outputSubframe F _ _ _ _ _ n); [done|done|done|lia|lia|lia|done|done|done|].
  intros c1 s1 Hc1 Hs1. wp_step.
  pose proof (Dec.wf_previousIntPitchDelay _ Hc1) as HT1. unfold rng in HT1.
  apply (wp_outputSubframe F _ _ _ _ _ n); [done|done|done|lia|lia|lia|done|done|done|].
  intros c2 s2 Hc2 Hs2. wp_step. apply wp_shiftFrame.
  { apply Dec.wf_set_boundedAdaptativeCodebookGain; [done|by vm_compute]. }
  intros c3 Hc3. unfold wp. auto.
Qed.

Lemma boundedGain_rng g : rng 3277 13107 (boundedGain g).
Proof. unfold boundedGain, BOUNDED_PITCH_GAIN_MAX, BOUNDED_PITCH_GAIN_MIN, rng. repeat case_match; lia. Qed.

Lemma wp_erasedPulses F er c p i (Q : Dec.ctx * list Z → Prop) :
  er ≠ 0 → Dec.wf c → parameters_ok er p → 0 ≤ i ≤ 13 →
  (∀ c' p', Dec.wf c' → parameters_ok er p' → Q (c', p')) → wp F (erasedPulses c p i) Q.
Proof.
  intros Her Hc [Hp _] Hi HQ. unfold erasedPulses. cbv zeta.
  assert (∀ k z, 0 ≤ k ≤ 16 → u16r (Z.land z (Z.ones k))) as HL.
  { intros k z Hk. rewrite Z.land_ones by lia. pose proof (Z.mod_pos_bound z (2 ^ k) ltac:(lia)).
    pose proof (Z.pow_le_mono_r 2 k 16 ltac:(lia) ltac:(lia)). unfold rng. lia. }
  wp_step. eapply wp_st_arr; [done|lia|by apply (HL 13)|]. intros p1 Hp1. wp_step.
  eapply wp_st_arr; [done|lia|by apply (HL 4)|]. intros p2 Hp2. unfold wp. apply HQ.
  - apply Dec.wf_set_pseudoRandomSeed; [done|apply pseudoRandom_rng].
  - by split.
Qed.

Lemma wp_combineExcitation F c v sub (Q : list Z → Prop) :
  Dec.wf c → arr i16r 40 v → 0 ≤ sub ≤ 40 → (∀ e, arr i16r 234 e → Q e) →
  wp F (combineExcitation c v sub) Q.
Proof.
  intros Hc Hv Hsub HQ. unfold combineExcitation, L_SUBFRAME, L_PAST_EXCITATION.
  apply wp_for_inv with (I := arr i16r 234); [eauto with csafe| |done].
  intros i e Hi He. wp_go. done.
Qed.

(** The state of the subframe loop; before the first subframe no delay is known. *)
Record frame_wf (er n pi : Z) (s : frameState) : Prop := {
  fw_ctx : Dec.wf (fs_ctx s);
  fw_parameters : parameters_ok er (fs_parameters s);
  fw_index : fs_parametersIndex s = pi;
  fw_delay : pi ≠ 4 → 19 ≤ fs_intPitchDelay s ≤ 144;
  fw_signal : arr i16r n (fs_signal s)
}.

Definition subframe_at (sub pi : Z) : Prop := sub = 0 ∧ pi = 4 ∨ sub = 40 ∧ pi = 10.

Lemma wp_decodeExcitation F er n pi s sub par (Q : frameState → Prop) :
  frame_wf er n pi s → subframe_at sub pi →
  (∀ s', frame_wf er n (if sub =? 0 then 10 else 15) s' → Q s') →
  wp F (decodeExcitation s sub par er) Q.
Proof.
  intros [Hc Hp Hpi HT Hs] Hsub HQ. unfold decodeExcitation. rewrite Hpi. cbv zeta. wp_step.
  eapply (wp_ld_param F er _ _ (if sub =? 0 then 8 else 5)); [done|destruct Hsub; lia| |].
  { by destruct Hsub as [[-> ->]|[-> ->]]. }
  intros P HP HPr. wp_step. apply wp_decodeAdaptativeCodeVector; [done| |].
  { destruct Hsub as [[-> ->]|[-> ->]]; [left|right]; [by auto|]. split; [done|]. split; [done|]. by apply HT. }
  intros c1 T Hc1 HT1. wp_step.
  set (pi' := if sub =? 0 then pi + 2 else pi + 1).
  assert (sub = 0 ∧ pi' = 6 ∨ sub = 40 ∧ pi' = 11) as Hpi'.
  { unfold pi'. destruct Hsub as [[-> ->]|[-> ->]]; simpl; lia. }
  clearbody pi'. assert (0 ≤ sub ≤ 40) by lia.
  apply wp_mono with (P := λ '(c', p'), Dec.wf c' ∧ parameters_ok er p').
  { destruct (Z.eqb_spec er 0); simpl; [done|]. apply (wp_erasedPulses F er); [done..|lia|done]. }
  intros [c2 p2] [Hc2 Hp2]. wp_step. eapply wp_ld_arr; [apply Hp2|lia|]. intros sg Hsg. wp_step.
  eapply wp_ld_arr; [apply Hp2|lia|]. intros ps Hps. wp_step.
  apply wp_decodeFixedCodeVector; [by apply arr_zeros|lia|eauto with csafe|]. intros v Hv HE. wp_step.
  eapply (wp_ld_param F er _ _ 3); [done|lia|by destruct Hpi' as [[_ ->]|[_ ->]]|]. intros GA HGA HGAr. wp_step.
  eapply (wp_ld_param F er _ _ 4); [done|lia|by destruct Hpi' as [[_ ->]|[_ ->]]|]. intros GB HGB HGBr. wp_step.
  apply wp_decodeGains; [done|auto|done|done|eauto with rng|eauto with rng|].
  intros c3 ga gf Hc3 Hga Hgf. wp_step.
  match goal with |- wp _ (combineExcitation ?c' _ _) _ => assert (Dec.wf c') as Hc4 end.
  { apply Dec.wf_set_boundedAdaptativeCodebookGain; [eauto with csafe|apply boundedGain_rng]. }
  apply wp_combineExcitation; [done..|]. intros e He. unfold wp. apply HQ.
  constructor; simpl; [by apply Dec.wf_set_excitationVector|done| |done|done].
  destruct Hpi' as [[-> ->]|[-> ->]]; done.
Qed.

Lemma wp_decodeSubframe (F : fault → Prop) er n pi s LP li sub par soff (Q : frameState → Prop) :
  F DivError → frame_wf er n pi s → subframe_at sub pi → arr i16r 20 LP → 0 ≤ li ≤ 10 →
  0 ≤ soff → soff + 80 ≤ n →
  (∀ s', frame_wf er n (if sub =? 0 then 10 else 15) s' → Q s') →
  wp F (decodeSubframe s LP li sub par er soff) Q.
Proof.
  intros HF Hs Hsub HLP Hli Hso Hn HQ. unfold decodeSubframe. wp_step.
  eapply wp_decodeExcitation; [done..|]. intros s1 [H1 H2 H3 H4 H5]. wp_step.
  assert (19 ≤ fs_intPitchDelay s1 ≤ 144) by (apply H4; destruct (sub =? 0); done).
  apply (wp_outputSubframe F _ _ _ _ _ n);
    [done|done|done|done|done|unfold subframe_at in Hsub; lia|done|done|done|].
  intros c s2 Hc2 Hs2. unfold wp. apply HQ. by constructor.
Qed.

Lemma lsp_params_of p : params_ok p → lsp_params_ok p.
Proof.
  intros (p0&p1&p2&p3&p4&p5&p6&p7&p8&p9&p10&p11&p12&p13&p14&->&HR)%params_ok_inv.
  exists p0, p1, p2, p3. repeat split; try done; lia.
Qed.

Lemma wp_decodeSpectrum F c p er (Q : Dec.ctx * list Z → Prop) :
  Dec.wf c → parameters_ok er p → (∀ c' LP, Dec.wf c' → arr i16r 20 LP → Q (c', LP)) →
  wp F (decodeSpectrum c p er) Q.
Proof.
  intros Hc [Hp Hpo] HQ. unfold decodeSpectrum, NB_LSP_COEFF.
  assert (arr i16r 10 (zeros 10)) by by apply arr_zeros. wp_step.
  apply wp_decodeLSP; [done|auto using lsp_params_of|done|]. intros c1 q Hc1 Hq. wp_step.
  apply wp_interpolateqLSP; [eauto with csafe|done|done|]. intros iq Hiq. wp_step.
  eapply (wp_copy10 F i16r 10 _ _ (λ v, v)); [done|eauto with csafe|done|done|]. intros p' Hp'.
  cbv zeta. wp_step.
  apply (wp_qLSP2LP F 20); [done|by apply (arr_zeros i16r)|lia|lia|]. intros LP1 HLP1. wp_step.
  apply (wp_qLSP2LP F 20); [done|done|lia|lia|]. intros LP2 HLP2. unfold wp. apply HQ; [eauto with csafe|done].
Qed.

Lemma wp_decodeActiveFrame (F : fault → Prop) c p er n signal soff (Q : Dec.ctx * list Z → Prop) :
  F DivError → Dec.wf c → parameters_ok er p → arr i16r n signal → 0 ≤ soff → soff + 80 ≤ n →
  (∀ c' s', Dec.wf c' → arr i16r n s' → Q (c', s')) →
  wp F (decodeActiveFrame c p er signal soff) Q.
Proof.
  intros HF Hc Hp Hs Hso Hn HQ. unfold decodeActiveFrame. cbv zeta. wp_step.
  apply wp_decodeSpectrum; [|done|].
  { apply Dec.wf_set_CNGpseudoRandomSeed; [|by vm_compute].
    apply Dec.wf_set_previousFrameIsActiveFlag; [done|by vm_compute]. }
  intros c1 LP Hc1 HLP. wp_step. eapply wp_ld_arr; [apply Hp|lia|]. intros p4 Hp4. wp_step.
  apply wp_computeParity. intros par Hpar. wp_step.
  eapply wp_ld_arr; [apply Hp|lia|]. intros p5 Hp5. wp_step.
  eapply (wp_decodeSubframe F er n 4); [done| |by left|done|lia|done|done|].
  { by constructor. }
  intros s1 Hs1. wp_step.
  eapply (wp_decodeSubframe F er n 10); [done|done|by right|done|by vm_compute|done|done|].
  intros s2 Hs2. wp_step. apply wp_shiftFrame; [apply Hs2|]. intros c2 Hc2. unfold wp. apply HQ; [done|apply Hs2].
Qed.

(** What the caller owes the decoder: ten bytes for a speech frame, a SID payload for a SID
    frame; nothing of the bit stream when the pointer is NULL. *)
Definition frame_args_ok (b : option (list Z)) (len er sid rfc : Z) : Prop :=
  match b with
  | None => True
  | Some b => sid = 0 ∧ arr u8r 10 b ∧ (er ≠ 0 → rfc = 0) ∨ sid = 1 ∧ er = 0 ∧ sid_payload_ok (Some b) len rfc
  end.

Lemma wp_bcg729Decoder (F : fault → Prop) c uninit b len er sid rfc n signal soff
    (Q : Dec.ctx * list Z → Prop) :
  F DivError → Dec.wf c → arr u16r 15 uninit → frame_args_ok b len er sid rfc →
  arr i16r n signal → 0 ≤ soff → soff + 80 ≤ n →
  (∀ c' s', Dec.wf c' → arr i16r n s' → Q (c', s')) →
  wp F (bcg729Decoder c uninit b len er sid rfc signal soff) Q.
Proof.
  intros HF Hc Hu Hb Hs Hso Hn HQ. unfold bcg729Decoder. wp_step.
  apply wp_mono with (P := λ p, arr u16r 15 p ∧ (sid ≠ 1 → params_ok p)).
  { destruct b as [b|].
    - destruct Hb as [(-> & Hb & _)|(-> & _ & _)]; [|by simpl].
      eapply wp_of_safe; [by apply params_ok_unpack|]. intros p [? ?]. auto.
    - unfold NB_PARAMETERS. apply wp_mono with (P := λ p, p = replicate 15 0).
      + destruct Hu as [Hu _]. explode uninit Hu. by vm_compute.
      + intros p ->. split; [by apply (arr_rng_by 0 65535)|]. intros _. unfold params_ok, field_widths.
        repeat constructor; by vm_compute. }
  intros p [Hp Hpo]. cbv zeta.
  set (sid' := if negb (er =? 0) then if negb _ then 0 else 1 else sid).
  destruct (Z.eqb_spec sid' 1) as [E|E].
  - eapply wp_decodeNoiseFrame; [done|done| |done|done|done|done].
    unfold sid' in E. destruct b as [b|]; [|done]. destruct Hb as [(-> & Hb & Hr)|(-> & -> & Hb)]; [|done].
    destruct (Z.eqb_spec er 0); [by simpl in E|]. rewrite Hr by done. destruct Hb as [Hb1 Hb2].
    split; [done|]. simpl. lia.
  - eapply wp_decodeActiveFrame; [done|done| |done|done|done|done].
    split; [done|]. intros ->. apply Hpo. unfold sid' in E. by simpl in E.
Qed.
