(* ===== verification/EncContext.v ===== *)
(** The encoder's persistent state ([typedef.h]): the channel context and the VAD and DTX
    contexts it may own, one field per C member.  The pointers [signalLastInputFrame] and
    [signalCurrentFrame] are set once to the offsets 160 and 120 of [signalBuffer]. *)

From S2P Require Import Prelude FixedPoint.

(** [bcg729VADChannelContextStruct] *)
Module Vad.

Record ctx : Type := Mk {
  initEfSum : Z;
  initZCSum : Z;
  initLSFSum : list Z;
  nbValidInitFrame : Z;
  meanZC : Z;
  meanEf : Z;
  meanEl : Z;
  meanLSF : list Z;
  frameCount : Z;
  updateCount : Z;
  EfBuffer : list Z;
  SVDm1 : Z;
  SVDm2 : Z;
  Count_inert : Z;
  secondStageVADSmoothingFlag : Z;
  smoothingCounter : Z;
  previousFrameEf : Z;
  noiseContinuityCounter : Z
}.

Definition set_initEfSum (v : Z) (c : ctx) : ctx :=
  Mk v c.(initZCSum) c.(initLSFSum) c.(nbValidInitFrame) c.(meanZC) c.(meanEf) c.(meanEl)
  c.(meanLSF) c.(frameCount) c.(updateCount) c.(EfBuffer) c.(SVDm1) c.(SVDm2) c.(Count_inert)
  c.(secondStageVADSmoothingFlag) c.(smoothingCounter) c.(previousFrameEf)
  c.(noiseContinuityCounter).
Definition set_initZCSum (v : Z) (c : ctx) : ctx :=
  Mk c.(initEfSum) v c.(initLSFSum) c.(nbValidInitFrame) c.(meanZC) c.(meanEf) c.(meanEl)
  c.(meanLSF) c.(frameCount) c.(updateCount) c.(EfBuffer) c.(SVDm1) c.(SVDm2) c.(Count_inert)
  c.(secondStageVADSmoothingFlag) c.(smoothingCounter) c.(previousFrameEf)
  c.(noiseContinuityCounter).
Definition set_initLSFSum (v : list Z) (c : ctx) : ctx :=
  Mk c.(initEfSum) c.(initZCSum) v c.(nbValidInitFrame) c.(meanZC) c.(meanEf) c.(meanEl)
  c.(meanLSF) c.(frameCount) c.(updateCount) c.(EfBuffer) c.(SVDm1) c.(SVDm2) c.(Count_inert)
  c.(secondStageVADSmoothingFlag) c.(smoothingCounter) c.(previousFrameEf)
  c.(noiseContinuityCounter).
Definition set_nbValidInitFrame (v : Z) (c : ctx) : ctx :=
  Mk c.(initEfSum) c.(initZCSum) c.(initLSFSum) v c.(meanZC) c.(meanEf) c.(meanEl) c.(meanLSF)
  c.(frameCount) c.(updateCount) c.(EfBuffer) c.(SVDm1) c.(SVDm2) c.(Count_inert)
  c.(secondStageVADSmoothingFlag) c.(smoothingCounter) c.(previousFrameEf)
  c.(noiseContinuityCounter).
Definition set_meanZC (v : Z) (c : ctx) : ctx :=
  Mk c.(initEfSum) c.(initZCSum) c.(initLSFSum) c.(nbValidInitFrame) v c.(meanEf) c.(meanEl)
  c.(meanLSF) c.(frameCount) c.(updateCount) c.(EfBuffer) c.(SVDm1) c.(SVDm2) c.(Count_inert)
  c.(secondStageVADSmoothingFlag) c.(smoothingCounter) c.(previousFrameEf)
  c.(noiseContinuityCounter).
Definition set_meanEf (v : Z) (c : ctx) : ctx :=
  Mk c.(initEfSum) c.(initZCSum) c.(initLSFSum) c.(nbValidInitFrame) c.(meanZC) v c.(meanEl)
  c.(meanLSF) c.(frameCount) c.(updateCount) c.(EfBuffer) c.(SVDm1) c.(SVDm2) c.(Count_inert)
  c.(secondStageVADSmoothingFlag) c.(smoothingCounter) c.(previousFrameEf)
  c.(noiseContinuityCounter).
Definition set_meanEl (v : Z) (c : ctx) : ctx :=
  Mk c.(initEfSum) c.(initZCSum) c.(initLSFSum) c.(nbValidInitFrame) c.(meanZC) c.(meanEf) v
  c.(meanLSF) c.(frameCount) c.(updateCount) c.(EfBuffer) c.(SVDm1) c.(SVDm2) c.(Count_inert)
  c.(secondStageVADSmoothingFlag) c.(smoothingCounter) c.(previousFrameEf)
  c.(noiseContinuityCounter).
Definition set_meanLSF (v : list Z) (c : ctx) : ctx :=
  Mk c.(initEfSum) c.(initZCSum) c.(initLSFSum) c.(nbValidInitFrame) c.(meanZC) c.(meanEf)
  c.(meanEl) v c.(frameCount) c.(updateCount) c.(EfBuffer) c.(SVDm1) c.(SVDm2) c.(Count_inert)
  c.(secondStageVADSmoothingFlag) c.(smoothingCounter) c.(previousFrameEf)
  c.(noiseContinuityCounter).
Definition set_frameCount (v : Z) (c : ctx) : ctx :=
  Mk c.(initEfSum) c.(initZCSum) c.(initLSFSum) c.(nbValidInitFrame) c.(meanZC) c.(meanEf)
  c.(meanEl) c.(meanLSF) v c.(updateCount) c.(EfBuffer) c.(SVDm1) c.(SVDm2) c.(Count_inert)
  c.(secondStageVADSmoothingFlag) c.(smoothingCounter) c.(previousFrameEf)
  c.(noiseContinuityCounter).
Definition set_updateCount (v : Z) (c : ctx) : ctx :=
  Mk c.(initEfSum) c.(initZCSum) c.(initLSFSum) c.(nbValidInitFrame) c.(meanZC) c.(meanEf)
  c.(meanEl) c.(meanLSF) c.(frameCount) v c.(EfBuffer) c.(SVDm1) c.(SVDm2) c.(Count_inert)
  c.(secondStageVADSmoothingFlag) c.(smoothingCounter) c.(previousFrameEf)
  c.(noiseContinuityCounter).
Definition set_EfBuffer (v : list Z) (c : ctx) : ctx :=
  Mk c.(initEfSum) c.(initZCSum) c.(initLSFSum) c.(nbValidInitFrame) c.(meanZC) c.(meanEf)
  c.(meanEl) c.(meanLSF) c.(frameCount) c.(updateCount) v c.(SVDm1) c.(SVDm2) c.(Count_inert)
  c.(secondStageVADSmoothingFlag) c.(smoothingCounter) c.(previousFrameEf)
  c.(noiseContinuityCounter).
Definition set_SVDm1 (v : Z) (c : ctx) : ctx :=
  Mk c.(initEfSum) c.(initZCSum) c.(initLSFSum) c.(nbValidInitFrame) c.(meanZC) c.(meanEf)
  c.(meanEl) c.(meanLSF) c.(frameCount) c.(updateCount) c.(EfBuffer) v c.(SVDm2) c.(Count_inert)
  c.(secondStageVADSmoothingFlag) c.(smoothingCounter) c.(previousFrameEf)
  c.(noiseContinuityCounter).
Definition set_SVDm2 (v : Z) (c : ctx) : ctx :=
  Mk c.(initEfSum) c.(initZCSum) c.(initLSFSum) c.(nbValidInitFrame) c.(meanZC) c.(meanEf)
  c.(meanEl) c.(meanLSF) c.(frameCount) c.(updateCount) c.(EfBuffer) c.(SVDm1) v c.(Count_inert)
  c.(secondStageVADSmoothingFlag) c.(smoothingCounter) c.(previousFrameEf)
  c.(noiseContinuityCounter).
Definition set_Count_inert (v : Z) (c : ctx) : ctx :=
  Mk c.(initEfSum) c.(initZCSum) c.(initLSFSum) c.(nbValidInitFrame) c.(meanZC) c.(meanEf)
  c.(meanEl) c.(meanLSF) c.(frameCount) c.(updateCount) c.(EfBuffer) c.(SVDm1) c.(SVDm2) v
  c.(secondStageVADSmoothingFlag) c.(smoothingCounter) c.(previousFrameEf)
  c.(noiseContinuityCounter).
Definition set_secondStageVADSmoothingFlag (v : Z) (c : ctx) : ctx :=
  Mk c.(initEfSum) c.(initZCSum) c.(initLSFSum) c.(nbValidInitFrame) c.(meanZC) c.(meanEf)
  c.(meanEl) c.(meanLSF) c.(frameCount) c.(updateCount) c.(EfBuffer) c.(SVDm1) c.(SVDm2)
  c.(Count_inert) v c.(smoothingCounter) c.(previousFrameEf) c.(noiseContinuityCounter).
Definition set_smoothingCounter (v : Z) (c : ctx) : ctx :=
  Mk c.(initEfSum) c.(initZCSum) c.(initLSFSum) c.(nbValidInitFrame) c.(meanZC) c.(meanEf)
  c.(meanEl) c.(meanLSF) c.(frameCount) c.(updateCount) c.(EfBuffer) c.(SVDm1) c.(SVDm2)
  c.(Count_inert) c.(secondStageVADSmoothingFlag) v c.(previousFrameEf)
  c.(noiseContinuityCounter).
Definition set_previousFrameEf (v : Z) (c : ctx) : ctx :=
  Mk c.(initEfSum) c.(initZCSum) c.(initLSFSum) c.(nbValidInitFrame) c.(meanZC) c.(meanEf)
  c.(meanEl) c.(meanLSF) c.(frameCount) c.(updateCount) c.(EfBuffer) c.(SVDm1) c.(SVDm2)
  c.(Count_inert) c.(secondStageVADSmoothingFlag) c.(smoothingCounter) v
  c.(noiseContinuityCounter).
Definition set_noiseContinuityCounter (v : Z) (c : ctx) : ctx :=
  Mk c.(initEfSum) c.(initZCSum) c.(initLSFSum) c.(nbValidInitFrame) c.(meanZC) c.(meanEf)
  c.(meanEl) c.(meanLSF) c.(frameCount) c.(updateCount) c.(EfBuffer) c.(SVDm1) c.(SVDm2)
  c.(Count_inert) c.(secondStageVADSmoothingFlag) c.(smoothingCounter) c.(previousFrameEf) v.

(** Array sizes and the ranges of the C types. *)
Record wf (c : ctx) : Prop := {
  wf_initEfSum : i32r c.(initEfSum);
  wf_initZCSum : i32r c.(initZCSum);
  wf_initLSFSum : arr i32r 10 c.(initLSFSum);
  wf_nbValidInitFrame : u8r c.(nbValidInitFrame);
  wf_meanZC : i16r c.(meanZC);
  wf_meanEf : i16r c.(meanEf);
  wf_meanEl : i16r c.(meanEl);
  wf_meanLSF : arr i16r 10 c.(meanLSF);
  wf_frameCount : u32r c.(frameCount);
  wf_updateCount : u32r c.(updateCount);
  wf_EfBuffer : arr i16r 128 c.(EfBuffer);
  wf_SVDm1 : u8r c.(SVDm1);
  wf_SVDm2 : u8r c.(SVDm2);
  wf_Count_inert : u32r c.(Count_inert);
  wf_secondStageVADSmoothingFlag : u8r c.(secondStageVADSmoothingFlag);
  wf_smoothingCounter : u32r c.(smoothingCounter);
  wf_previousFrameEf : i16r c.(previousFrameEf);
  wf_noiseContinuityCounter : i32r c.(noiseContinuityCounter)
}.

Lemma vad_wf_set_initEfSum c v : wf c → i32r v → wf (set_initEfSum v c).
Proof. intros [] ?; by constructor. Qed.
Lemma vad_wf_set_initZCSum c v : wf c → i32r v → wf (set_initZCSum v c).
Proof. intros [] ?; by constructor. Qed.
Lemma vad_wf_set_initLSFSum c v : wf c → arr i32r 10 v → wf (set_initLSFSum v c).
Proof. intros [] ?; by constructor. Qed.
Lemma vad_wf_set_nbValidInitFrame c v : wf c → u8r v → wf (set_nbValidInitFrame v c).
Proof. intros [] ?; by constructor. Qed.
Lemma vad_wf_set_meanZC c v : wf c → i16r v → wf (set_meanZC v c).
Proof. intros [] ?; by constructor. Qed.
Lemma vad_wf_set_meanEf c v : wf c → i16r v → wf (set_meanEf v c).
Proof. intros [] ?; by constructor. Qed.
Lemma vad_wf_set_meanEl c v : wf c → i16r v → wf (set_meanEl v c).
Proof. intros [] ?; by constructor. Qed.
Lemma vad_wf_set_meanLSF c v : wf c → arr i16r 10 v → wf (set_meanLSF v c).
Proof. intros [] ?; by constructor. Qed.
Lemma vad_wf_set_frameCount c v : wf c → u32r v → wf (set_frameCount v c).
Proof. intros [] ?; by constructor. Qed.
Lemma vad_wf_set_updateCount c v : wf c → u32r v → wf (set_updateCount v c).
Proof. intros [] ?; by constructor. Qed.
Lemma vad_wf_set_EfBuffer c v : wf c → arr i16r 128 v → wf (set_EfBuffer v c).
Proof. intros [] ?; by constructor. Qed.
Lemma vad_wf_set_SVDm1 c v : wf c → u8r v → wf (set_SVDm1 v c).
Proof. intros [] ?; by constructor. Qed.
Lemma vad_wf_set_SVDm2 c v : wf c → u8r v → wf (set_SVDm2 v c).
Proof. intros [] ?; by constructor. Qed.
Lemma vad_wf_set_Count_inert c v : wf c → u32r v → wf (set_Count_inert v c).
Proof. intros [] ?; by constructor. Qed.
Lemma vad_wf_set_secondStageVADSmoothingFlag c v : wf c → u8r v → wf (set_secondStageVADSmoothingFlag v c).
Proof. intros [] ?; by constructor. Qed.
Lemma vad_wf_set_smoothingCounter c v : wf c → u32r v → wf (set_smoothingCounter v c).
Proof. intros [] ?; by constructor. Qed.
Lemma vad_wf_set_previousFrameEf c v : wf c → i16r v → wf (set_previousFrameEf v c).
Proof. intros [] ?; by constructor. Qed.
Lemma vad_wf_set_noiseContinuityCounter c v : wf c → i32r v → wf (set_noiseContinuityCounter v c).
Proof. intros [] ?; by constructor. Qed.

#[export] Hint Resolve wf_initEfSum wf_initZCSum wf_initLSFSum wf_nbValidInitFrame wf_meanZC wf_meanEf wf_meanEl wf_meanLSF wf_frameCount wf_updateCount wf_EfBuffer wf_SVDm1 wf_SVDm2 wf_Count_inert wf_secondStageVADSmoothingFlag wf_smoothingCounter wf_previousFrameEf wf_noiseContinuityCounter : csafe rng.
#[export] Hint Resolve vad_wf_set_initEfSum vad_wf_set_initZCSum vad_wf_set_initLSFSum vad_wf_set_nbValidInitFrame vad_wf_set_meanZC vad_wf_set_meanEf vad_wf_set_meanEl vad_wf_set_meanLSF vad_wf_set_frameCount vad_wf_set_updateCount vad_wf_set_EfBuffer vad_wf_set_SVDm1 vad_wf_set_SVDm2 vad_wf_set_Count_inert vad_wf_set_secondStageVADSmoothingFlag vad_wf_set_smoothingCounter vad_wf_set_previousFrameEf vad_wf_set_noiseContinuityCounter : csafe.

End Vad.
Export (hints) Vad.

(** [bcg729DTXChannelContextStruct] *)
Module Dtx.

Record ctx : Type := Mk {
  autocorrelationCoefficients : list (list Z);
  autocorrelationCoefficientsScale : list Z;
  previousVADflag : Z;
  previousResidualEnergy : Z;
  previousResidualEnergyScale : Z;
  previousDecodedLogEnergy : Z;
  count_fr : Z;
  SIDLPCoefficientAutocorrelation : list Z;
  currentSIDGain : Z;
  smoothedSIDGain : Z;
  pseudoRandomSeed : Z;
  qLSPCoefficients : list Z;
  reflectionCoefficients : list Z;
  decodedLogEnergy : Z
}.

Definition set_autocorrelationCoefficients (v : list (list Z)) (c : ctx) : ctx :=
  Mk v c.(autocorrelationCoefficientsScale) c.(previousVADflag) c.(previousResidualEnergy)
  c.(previousResidualEnergyScale) c.(previousDecodedLogEnergy) c.(count_fr)
  c.(SIDLPCoefficientAutocorrelation) c.(currentSIDGain) c.(smoothedSIDGain) c.(pseudoRandomSeed)
  c.(qLSPCoefficients) c.(reflectionCoefficients) c.(decodedLogEnergy).
Definition set_autocorrelationCoefficientsScale (v : list Z) (c : ctx) : ctx :=
  Mk c.(autocorrelationCoefficients) v c.(previousVADflag) c.(previousResidualEnergy)
  c.(previousResidualEnergyScale) c.(previousDecodedLogEnergy) c.(count_fr)
  c.(SIDLPCoefficientAutocorrelation) c.(currentSIDGain) c.(smoothedSIDGain) c.(pseudoRandomSeed)
  c.(qLSPCoefficients) c.(reflectionCoefficients) c.(decodedLogEnergy).
Definition set_previousVADflag (v : Z) (c : ctx) : ctx :=
  Mk c.(autocorrelationCoefficients) c.(autocorrelationCoefficientsScale) v
  c.(previousResidualEnergy) c.(previousResidualEnergyScale) c.(previousDecodedLogEnergy)
  c.(count_fr) c.(SIDLPCoefficientAutocorrelation) c.(currentSIDGain) c.(smoothedSIDGain)
  c.(pseudoRandomSeed) c.(qLSPCoefficients) c.(reflectionCoefficients) c.(decodedLogEnergy).
Definition set_previousResidualEnergy (v : Z) (c : ctx) : ctx :=
  Mk c.(autocorrelationCoefficients) c.(autocorrelationCoefficientsScale) c.(previousVADflag) v
  c.(previousResidualEnergyScale) c.(previousDecodedLogEnergy) c.(count_fr)
  c.(SIDLPCoefficientAutocorrelation) c.(currentSIDGain) c.(smoothedSIDGain) c.(pseudoRandomSeed)
  c.(qLSPCoefficients) c.(reflectionCoefficients) c.(decodedLogEnergy).
Definition set_previousResidualEnergyScale (v : Z) (c : ctx) : ctx :=
  Mk c.(autocorrelationCoefficients) c.(autocorrelationCoefficientsScale) c.(previousVADflag)
  c.(previousResidualEnergy) v c.(previousDecodedLogEnergy) c.(count_fr)
  c.(SIDLPCoefficientAutocorrelation) c.(currentSIDGain) c.(smoothedSIDGain) c.(pseudoRandomSeed)
  c.(qLSPCoefficients) c.(reflectionCoefficients) c.(decodedLogEnergy).
Definition set_previousDecodedLogEnergy (v : Z) (c : ctx) : ctx :=
  Mk c.(autocorrelationCoefficients) c.(autocorrelationCoefficientsScale) c.(previousVADflag)
  c.(previousResidualEnergy) c.(previousResidualEnergyScale) v c.(count_fr)
  c.(SIDLPCoefficientAutocorrelation) c.(currentSIDGain) c.(smoothedSIDGain) c.(pseudoRandomSeed)
  c.(qLSPCoefficients) c.(reflectionCoefficients) c.(decodedLogEnergy).
Definition set_count_fr (v : Z) (c : ctx) : ctx :=
  Mk c.(autocorrelationCoefficients) c.(autocorrelationCoefficientsScale) c.(previousVADflag)
  c.(previousResidualEnergy) c.(previousResidualEnergyScale) c.(previousDecodedLogEnergy) v
  c.(SIDLPCoefficientAutocorrelation) c.(currentSIDGain) c.(smoothedSIDGain) c.(pseudoRandomSeed)
  c.(qLSPCoefficients) c.(reflectionCoefficients) c.(decodedLogEnergy).
Definition set_SIDLPCoefficientAutocorrelation (v : list Z) (c : ctx) : ctx :=
  Mk c.(autocorrelationCoefficients) c.(autocorrelationCoefficientsScale) c.(previousVADflag)
  c.(previousResidualEnergy) c.(previousResidualEnergyScale) c.(previousDecodedLogEnergy)
  c.(count_fr) v c.(currentSIDGain) c.(smoothedSIDGain) c.(pseudoRandomSeed) c.(qLSPCoefficients)
  c.(reflectionCoefficients) c.(decodedLogEnergy).
Definition set_currentSIDGain (v : Z) (c : ctx) : ctx :=
  Mk c.(autocorrelationCoefficients) c.(autocorrelationCoefficientsScale) c.(previousVADflag)
  c.(previousResidualEnergy) c.(previousResidualEnergyScale) c.(previousDecodedLogEnergy)
  c.(count_fr) c.(SIDLPCoefficientAutocorrelation) v c.(smoothedSIDGain) c.(pseudoRandomSeed)
  c.(qLSPCoefficients) c.(reflectionCoefficients) c.(decodedLogEnergy).
Definition set_smoothedSIDGain (v : Z) (c : ctx) : ctx :=
  Mk c.(autocorrelationCoefficients) c.(autocorrelationCoefficientsScale) c.(previousVADflag)
  c.(previousResidualEnergy) c.(previousResidualEnergyScale) c.(previousDecodedLogEnergy)
  c.(count_fr) c.(SIDLPCoefficientAutocorrelation) c.(currentSIDGain) v c.(pseudoRandomSeed)
  c.(qLSPCoefficients) c.(reflectionCoefficients) c.(decodedLogEnergy).
Definition set_pseudoRandomSeed (v : Z) (c : ctx) : ctx :=
  Mk c.(autocorrelationCoefficients) c.(autocorrelationCoefficientsScale) c.(previousVADflag)
  c.(previousResidualEnergy) c.(previousResidualEnergyScale) c.(previousDecodedLogEnergy)
  c.(count_fr) c.(SIDLPCoefficientAutocorrelation) c.(currentSIDGain) c.(smoothedSIDGain) v
  c.(qLSPCoefficients) c.(reflectionCoefficients) c.(decodedLogEnergy).
Definition set_qLSPCoefficients (v : list Z) (c : ctx) : ctx :=
  Mk c.(autocorrelationCoefficients) c.(autocorrelationCoefficientsScale) c.(previousVADflag)
  c.(previousResidualEnergy) c.(previousResidualEnergyScale) c.(previousDecodedLogEnergy)
  c.(count_fr) c.(SIDLPCoefficientAutocorrelation) c.(currentSIDGain) c.(smoothedSIDGain)
  c.(pseudoRandomSeed) v c.(reflectionCoefficients) c.(decodedLogEnergy).
Definition set_reflectionCoefficients (v : list Z) (c : ctx) : ctx :=
  Mk c.(autocorrelationCoefficients) c.(autocorrelationCoefficientsScale) c.(previousVADflag)
  c.(previousResidualEnergy) c.(previousResidualEnergyScale) c.(previousDecodedLogEnergy)
  c.(count_fr) c.(SIDLPCoefficientAutocorrelation) c.(currentSIDGain) c.(smoothedSIDGain)
  c.(pseudoRandomSeed) c.(qLSPCoefficients) v c.(decodedLogEnergy).
Definition set_decodedLogEnergy (v : Z) (c : ctx) : ctx :=
  Mk c.(autocorrelationCoefficients) c.(autocorrelationCoefficientsScale) c.(previousVADflag)
  c.(previousResidualEnergy) c.(previousResidualEnergyScale) c.(previousDecodedLogEnergy)
  c.(count_fr) c.(SIDLPCoefficientAutocorrelation) c.(currentSIDGain) c.(smoothedSIDGain)
  c.(pseudoRandomSeed) c.(qLSPCoefficients) c.(reflectionCoefficients) v.

(** Array sizes and the ranges of the C types. *)
Record wf (c : ctx) : Prop := {
  wf_autocorrelationCoefficients : arr (arr i32r 11) 7 c.(autocorrelationCoefficients);
  wf_autocorrelationCoefficientsScale : arr i8r 7 c.(autocorrelationCoefficientsScale);
  wf_previousVADflag : u8r c.(previousVADflag);
  wf_previousResidualEnergy : i32r c.(previousResidualEnergy);
  wf_previousResidualEnergyScale : u8r c.(previousResidualEnergyScale);
  wf_previousDecodedLogEnergy : i8r c.(previousDecodedLogEnergy);
  wf_count_fr : u8r c.(count_fr);
  wf_SIDLPCoefficientAutocorrelation : arr i32r 11 c.(SIDLPCoefficientAutocorrelation);
  wf_currentSIDGain : i16r c.(currentSIDGain);
  wf_smoothedSIDGain : i16r c.(smoothedSIDGain);
  wf_pseudoRandomSeed : u16r c.(pseudoRandomSeed);
  wf_qLSPCoefficients : arr i16r 10 c.(qLSPCoefficients);
  wf_reflectionCoefficients : arr i32r 10 c.(reflectionCoefficients);
  wf_decodedLogEnergy : i8r c.(decodedLogEnergy)
}.

Lemma dtx_wf_set_autocorrelationCoefficients c v : wf c → arr (arr i32r 11) 7 v → wf (set_autocorrelationCoefficients v c).
Proof. intros [] ?; by constructor. Qed.
Lemma dtx_wf_set_autocorrelationCoefficientsScale c v : wf c → arr i8r 7 v → wf (set_autocorrelationCoefficientsScale v c).
Proof. intros [] ?; by constructor. Qed.
Lemma dtx_wf_set_previousVADflag c v : wf c → u8r v → wf (set_previousVADflag v c).
Proof. intros [] ?; by constructor. Qed.
Lemma dtx_wf_set_previousResidualEnergy c v : wf c → i32r v → wf (set_previousResidualEnergy v c).
Proof. intros [] ?; by constructor. Qed.
Lemma dtx_wf_set_previousResidualEnergyScale c v : wf c → u8r v → wf (set_previousResidualEnergyScale v c).
Proof. intros [] ?; by constructor. Qed.
Lemma dtx_wf_set_previousDecodedLogEnergy c v : wf c → i8r v → wf (set_previousDecodedLogEnergy v c).
Proof. intros [] ?; by constructor. Qed.
Lemma dtx_wf_set_count_fr c v : wf c → u8r v → wf (set_count_fr v c).
Proof. intros [] ?; by constructor. Qed.
Lemma dtx_wf_set_SIDLPCoefficientAutocorrelation c v : wf c → arr i32r 11 v → wf (set_SIDLPCoefficientAutocorrelation v c).
Proof. intros [] ?; by constructor. Qed.
Lemma dtx_wf_set_currentSIDGain c v : wf c → i16r v → wf (set_currentSIDGain v c).
Proof. intros [] ?; by constructor. Qed.
Lemma dtx_wf_set_smoothedSIDGain c v : wf c → i16r v → wf (set_smoothedSIDGain v c).
Proof. intros [] ?; by constructor. Qed.
Lemma dtx_wf_set_pseudoRandomSeed c v : wf c → u16r v → wf (set_pseudoRandomSeed v c).
Proof. intros [] ?; by constructor. Qed.
Lemma dtx_wf_set_qLSPCoefficients c v : wf c → arr i16r 10 v → wf (set_qLSPCoefficients v c).
Proof. intros [] ?; by constructor. Qed.
Lemma dtx_wf_set_reflectionCoefficients c v : wf c → arr i32r 10 v → wf (set_reflectionCoefficients v c).
Proof. intros [] ?; by constructor. Qed.
Lemma dtx_wf_set_decodedLogEnergy c v : wf c → i8r v → wf (set_decodedLogEnergy v c).
Proof. intros [] ?; by constructor. Qed.

#[export] Hint Resolve wf_autocorrelationCoefficients wf_autocorrelationCoefficientsScale wf_previousVADflag wf_previousResidualEnergy wf_previousResidualEnergyScale wf_previousDecodedLogEnergy wf_count_fr wf_SIDLPCoefficientAutocorrelation wf_currentSIDGain wf_smoothedSIDGain wf_pseudoRandomSeed wf_qLSPCoefficients wf_reflectionCoefficients wf_decodedLogEnergy : csafe rng.
#[export] Hint Resolve dtx_wf_set_autocorrelationCoefficients dtx_wf_set_autocorrelationCoefficientsScale dtx_wf_set_previousVADflag dtx_wf_set_previousResidualEnergy dtx_wf_set_previousResidualEnergyScale dtx_wf_set_previousDecodedLogEnergy dtx_wf_set_count_fr dtx_wf_set_SIDLPCoefficientAutocorrelation dtx_wf_set_currentSIDGain dtx_wf_set_smoothedSIDGain dtx_wf_set_pseudoRandomSeed dtx_wf_set_qLSPCoefficients dtx_wf_set_reflectionCoefficients dtx_wf_set_decodedLogEnergy : csafe.

End Dtx.
Export (hints) Dtx.

(** [bcg729EncoderChannelContextStruct] *)
Module Enc.

Record ctx : Type := Mk {
  signalBuffer : list Z;
  previousLSPCoefficients : list Z;
  previousqLSPCoefficients : list Z;
  weightedInputSignal : list Z;
  excitationVector : list Z;
  targetSignal : list Z;
  lastQuantizedAdaptativeCodebookGain : Z;
  inputX0 : Z;
  inputX1 : Z;
  outputY2 : Z;
  outputY1 : Z;
  previousqLSF : list (list Z);
  previousGainPredictionError : list Z;
  VADChannelContext : option Vad.ctx;
  DTXChannelContext : option Dtx.ctx
}.

Definition set_signalBuffer (v : list Z) (c : ctx) : ctx :=
  Mk v c.(previousLSPCoefficients) c.(previousqLSPCoefficients) c.(weightedInputSignal)
  c.(excitationVector) c.(targetSignal) c.(lastQuantizedAdaptativeCodebookGain) c.(inputX0)
  c.(inputX1) c.(outputY2) c.(outputY1) c.(previousqLSF) c.(previousGainPredictionError)
  c.(VADChannelContext) c.(DTXChannelContext).
Definition set_previousLSPCoefficients (v : list Z) (c : ctx) : ctx :=
  Mk c.(signalBuffer) v c.(previousqLSPCoefficients) c.(weightedInputSignal) c.(excitationVector)
  c.(targetSignal) c.(lastQuantizedAdaptativeCodebookGain) c.(inputX0) c.(inputX1) c.(outputY2)
  c.(outputY1) c.(previousqLSF) c.(previousGainPredictionError) c.(VADChannelContext)
  c.(DTXChannelContext).
Definition set_previousqLSPCoefficients (v : list Z) (c : ctx) : ctx :=
  Mk c.(signalBuffer) c.(previousLSPCoefficients) v c.(weightedInputSignal) c.(excitationVector)
  c.(targetSignal) c.(lastQuantizedAdaptativeCodebookGain) c.(inputX0) c.(inputX1) c.(outputY2)
  c.(outputY1) c.(previousqLSF) c.(previousGainPredictionError) c.(VADChannelContext)
  c.(DTXChannelContext).
Definition set_weightedInputSignal (v : list Z) (c : ctx) : ctx :=
  Mk c.(signalBuffer) c.(previousLSPCoefficients) c.(previousqLSPCoefficients) v
  c.(excitationVector) c.(targetSignal) c.(lastQuantizedAdaptativeCodebookGain) c.(inputX0)
  c.(inputX1) c.(outputY2) c.(outputY1) c.(previousqLSF) c.(previousGainPredictionError)
  c.(VADChannelContext) c.(DTXChannelContext).
Definition set_excitationVector (v : list Z) (c : ctx) : ctx :=
  Mk c.(signalBuffer) c.(previousLSPCoefficients) c.(previousqLSPCoefficients)
  c.(weightedInputSignal) v c.(targetSignal) c.(lastQuantizedAdaptativeCodebookGain) c.(inputX0)
  c.(inputX1) c.(outputY2) c.(outputY1) c.(previousqLSF) c.(previousGainPredictionError)
  c.(VADChannelContext) c.(DTXChannelContext).
Definition set_targetSignal (v : list Z) (c : ctx) : ctx :=
  Mk c.(signalBuffer) c.(previousLSPCoefficients) c.(previousqLSPCoefficients)
  c.(weightedInputSignal) c.(excitationVector) v c.(lastQuantizedAdaptativeCodebookGain)
  c.(inputX0) c.(inputX1) c.(outputY2) c.(outputY1) c.(previousqLSF)
  c.(previousGainPredictionError) c.(VADChannelContext) c.(DTXChannelContext).
Definition set_lastQuantizedAdaptativeCodebookGain (v : Z) (c : ctx) : ctx :=
  Mk c.(signalBuffer) c.(previousLSPCoefficients) c.(previousqLSPCoefficients)
  c.(weightedInputSignal) c.(excitationVector) c.(targetSignal) v c.(inputX0) c.(inputX1)
  c.(outputY2) c.(outputY1) c.(previousqLSF) c.(previousGainPredictionError)
  c.(VADChannelContext) c.(DTXChannelContext).
Definition set_inputX0 (v : Z) (c : ctx) : ctx :=
  Mk c.(signalBuffer) c.(previousLSPCoefficients) c.(previousqLSPCoefficients)
  c.(weightedInputSignal) c.(excitationVector) c.(targetSignal)
  c.(lastQuantizedAdaptativeCodebookGain) v c.(inputX1) c.(outputY2) c.(outputY1)
  c.(previousqLSF) c.(previousGainPredictionError) c.(VADChannelContext) c.(DTXChannelContext).
Definition set_inputX1 (v : Z) (c : ctx) : ctx :=
  Mk c.(signalBuffer) c.(previousLSPCoefficients) c.(previousqLSPCoefficients)
  c.(weightedInputSignal) c.(excitationVector) c.(targetSignal)
  c.(lastQuantizedAdaptativeCodebookGain) c.(inputX0) v c.(outputY2) c.(outputY1)
  c.(previousqLSF) c.(previousGainPredictionError) c.(VADChannelContext) c.(DTXChannelContext).
Definition set_outputY2 (v : Z) (c : ctx) : ctx :=
  Mk c.(signalBuffer) c.(previousLSPCoefficients) c.(previousqLSPCoefficients)
  c.(weightedInputSignal) c.(excitationVector) c.(targetSignal)
  c.(lastQuantizedAdaptativeCodebookGain) c.(inputX0) c.(inputX1) v c.(outputY1) c.(previousqLSF)
  c.(previousGainPredictionError) c.(VADChannelContext) c.(DTXChannelContext).
Definition set_outputY1 (v : Z) (c : ctx) : ctx :=
  Mk c.(signalBuffer) c.(previousLSPCoefficients) c.(previousqLSPCoefficients)
  c.(weightedInputSignal) c.(excitationVector) c.(targetSignal)
  c.(lastQuantizedAdaptativeCodebookGain) c.(inputX0) c.(inputX1) c.(outputY2) v c.(previousqLSF)
  c.(previousGainPredictionError) c.(VADChannelContext) c.(DTXChannelContext).
Definition set_previousqLSF (v : list (list Z)) (c : ctx) : ctx :=
  Mk c.(signalBuffer) c.(previousLSPCoefficients) c.(previousqLSPCoefficients)
  c.(weightedInputSignal) c.(excitationVector) c.(targetSignal)
  c.(lastQuantizedAdaptativeCodebookGain) c.(inputX0) c.(inputX1) c.(outputY2) c.(outputY1) v
  c.(previousGainPredictionError) c.(VADChannelContext) c.(DTXChannelContext).
Definition set_previousGainPredictionError (v : list Z) (c : ctx) : ctx :=
  Mk c.(signalBuffer) c.(previousLSPCoefficients) c.(previousqLSPCoefficients)
  c.(weightedInputSignal) c.(excitationVector) c.(targetSignal)
  c.(lastQuantizedAdaptativeCodebookGain) c.(inputX0) c.(inputX1) c.(outputY2) c.(outputY1)
  c.(previousqLSF) v c.(VADChannelContext) c.(DTXChannelContext).
Definition set_VADChannelContext (v : option Vad.ctx) (c : ctx) : ctx :=
  Mk c.(signalBuffer) c.(previousLSPCoefficients) c.(previousqLSPCoefficients)
  c.(weightedInputSignal) c.(excitationVector) c.(targetSignal)
  c.(lastQuantizedAdaptativeCodebookGain) c.(inputX0) c.(inputX1) c.(outputY2) c.(outputY1)
  c.(previousqLSF) c.(previousGainPredictionError) v c.(DTXChannelContext).
Definition set_DTXChannelContext (v : option Dtx.ctx) (c : ctx) : ctx :=
  Mk c.(signalBuffer) c.(previousLSPCoefficients) c.(previousqLSPCoefficients)
  c.(weightedInputSignal) c.(excitationVector) c.(targetSignal)
  c.(lastQuantizedAdaptativeCodebookGain) c.(inputX0) c.(inputX1) c.(outputY2) c.(outputY1)
  c.(previousqLSF) c.(previousGainPredictionError) c.(VADChannelContext) v.

(** Array sizes and the ranges of the C types. *)
Record wf (c : ctx) : Prop := {
  wf_signalBuffer : arr i16r 240 c.(signalBuffer);
  wf_previousLSPCoefficients : arr i16r 10 c.(previousLSPCoefficients);
  wf_previousqLSPCoefficients : arr i16r 10 c.(previousqLSPCoefficients);
  wf_weightedInputSignal : arr i16r 223 c.(weightedInputSignal);
  wf_excitationVector : arr i16r 234 c.(excitationVector);
  wf_targetSignal : arr i16r 50 c.(targetSignal);
  wf_lastQuantizedAdaptativeCodebookGain : rng 3277 19661 c.(lastQuantizedAdaptativeCodebookGain);
  wf_inputX0 : i16r c.(inputX0);
  wf_inputX1 : i16r c.(inputX1);
  wf_outputY2 : i32r c.(outputY2);
  wf_outputY1 : i32r c.(outputY1);
  wf_previousqLSF : arr (arr i16r 10) 4 c.(previousqLSF);
  wf_previousGainPredictionError : arr i16r 4 c.(previousGainPredictionError);
  wf_VADChannelContext : match c.(VADChannelContext) with Some v => Vad.wf v | None => True end;
  wf_DTXChannelContext : match c.(DTXChannelContext) with Some v => Dtx.wf v | None => True end
}.

Lemma enc_wf_set_signalBuffer c v : wf c → arr i16r 240 v → wf (set_signalBuffer v c).
Proof. intros [] ?; by constructor. Qed.
Lemma enc_wf_set_previousLSPCoefficients c v : wf c → arr i16r 10 v → wf (set_previousLSPCoefficients v c).
Proof. intros [] ?; by constructor. Qed.
Lemma enc_wf_set_previousqLSPCoefficients c v : wf c → arr i16r 10 v → wf (set_previousqLSPCoefficients v c).
Proof. intros [] ?; by constructor. Qed.
Lemma enc_wf_set_weightedInputSignal c v : wf c → arr i16r 223 v → wf (set_weightedInputSignal v c).
Proof. intros [] ?; by constructor. Qed.
Lemma enc_wf_set_excitationVector c v : wf c → arr i16r 234 v → wf (set_excitationVector v c).
Proof. intros [] ?; by constructor. Qed.
Lemma enc_wf_set_targetSignal c v : wf c → arr i16r 50 v → wf (set_targetSignal v c).
Proof. intros [] ?; by constructor. Qed.
Lemma enc_wf_set_lastQuantizedAdaptativeCodebookGain c v : wf c → rng 3277 19661 v → wf (set_lastQuantizedAdaptativeCodebookGain v c).
Proof. intros [] ?; by constructor. Qed.
Lemma enc_wf_set_inputX0 c v : wf c → i16r v → wf (set_inputX0 v c).
Proof. intros [] ?; by constructor. Qed.
Lemma enc_wf_set_inputX1 c v : wf c → i16r v → wf (set_inputX1 v c).
Proof. intros [] ?; by constructor. Qed.
Lemma enc_wf_set_outputY2 c v : wf c → i32r v → wf (set_outputY2 v c).
Proof. intros [] ?; by constructor. Qed.
Lemma enc_wf_set_outputY1 c v : wf c → i32r v → wf (set_outputY1 v c).
Proof. intros [] ?; by constructor. Qed.
Lemma enc_wf_set_previousqLSF c v : wf c → arr (arr i16r 10) 4 v → wf (set_previousqLSF v c).
Proof. intros [] ?; by constructor. Qed.
Lemma enc_wf_set_previousGainPredictionError c v : wf c → arr i16r 4 v → wf (set_previousGainPredictionError v c).
Proof. intros [] ?; by constructor. Qed.
Lemma enc_wf_set_VADChannelContext c v : wf c → match v with Some v => Vad.wf v | None => True end → wf (set_VADChannelContext v c).
Proof. intros [] ?; by constructor. Qed.
Lemma enc_wf_set_DTXChannelContext c v : wf c → match v with Some v => Dtx.wf v | None => True end → wf (set_DTXChannelContext v c).
Proof. intros [] ?; by constructor. Qed.

#[export] Hint Resolve wf_signalBuffer wf_previousLSPCoefficients wf_previousqLSPCoefficients wf_weightedInputSignal wf_excitationVector wf_targetSignal wf_lastQuantizedAdaptativeCodebookGain wf_inputX0 wf_inputX1 wf_outputY2 wf_outputY1 wf_previousqLSF wf_previousGainPredictionError wf_VADChannelContext wf_DTXChannelContext : csafe rng.
#[export] Hint Resolve enc_wf_set_signalBuffer enc_wf_set_previousLSPCoefficients enc_wf_set_previousqLSPCoefficients enc_wf_set_weightedInputSignal enc_wf_set_excitationVector enc_wf_set_targetSignal enc_wf_set_lastQuantizedAdaptativeCodebookGain enc_wf_set_inputX0 enc_wf_set_inputX1 enc_wf_set_outputY2 enc_wf_set_outputY1 enc_wf_set_previousqLSF enc_wf_set_previousGainPredictionError enc_wf_set_VADChannelContext enc_wf_set_DTXChannelContext : csafe.

End Enc.
Export (hints) Enc.
