(* ===== verification/EncChannel.v ===== *)
(** Encoder channels: creation and destruction ([encoder.c], with the initialisations of
    [vad.c], [dtx.c], [preProcessing.c], [LSPQuantization.c] and [gainQuantization.c]) and
    the input high-pass filter ([preProcessing.c]). *)

From S2P Require Import Prelude FixedPoint Heap EncContext.

(** ** Initial contexts *)

Definition VOICE : Z := 1.
Definition NOISE : Z := 0.
Definition N0 : Z := 128.
Definition Ni : Z := 32.

Definition initialVADContext : res Vad.ctx :=
  let c := Vad.Mk 0 0 (zeros 10) 0 0 0 0 (zeros 10) 0 0 (zeros N0) 0 0 0 0 0 0 0 in
  let* EfBuffer := for_up 0 N0 (Vad.EfBuffer c) (λ i b, st b i MAXINT16) in
  let c := Vad.set_EfBuffer EfBuffer (Vad.set_updateCount 0 (Vad.set_frameCount 0 c)) in
  let c := Vad.set_Count_inert 0 (Vad.set_SVDm2 VOICE (Vad.set_SVDm1 VOICE c)) in
  let c := Vad.set_smoothingCounter 0 (Vad.set_secondStageVADSmoothingFlag 1 c) in
  Ok (Vad.set_noiseContinuityCounter 0 (Vad.set_previousFrameEf 0 c)).

Definition initialDTXContext : res Dtx.ctx :=
  let c := Dtx.Mk (replicate 7 (zeros 11)) (zeros 7) 0 0 0 0 0 (zeros 11) 0 0 0 (zeros 10) (zeros 10) 0 in
  let* (m, s) := for_up 0 7 (Dtx.autocorrelationCoefficients c, Dtx.autocorrelationCoefficientsScale c)
    (λ i '(m, s),
      let* m := st2 m i 0 ONE_IN_Q30 in
      let* s := st s i 30 in
      Ok (m, s)) in
  let c := Dtx.set_autocorrelationCoefficientsScale s (Dtx.set_autocorrelationCoefficients m c) in
  Ok (Dtx.set_pseudoRandomSeed CNG_DTX_RANDOM_SEED_INIT (Dtx.set_previousVADflag 1 c)).

(** As for the decoder, [malloc] is not tested before [memset]. *)
Definition initBcg729VADChannel (h : heap) (succeeds : bool) : res (heap * Z * Vad.ctx) :=
  match malloc h succeeds with
  | (h, None) => Err NullDeref
  | (h, Some p) => let* c := initialVADContext in Ok (h, p, c)
  end.

Definition initBcg729DTXChannel (h : heap) (succeeds : bool) : res (heap * Z * Dtx.ctx) :=
  match malloc h succeeds with
  | (h, None) => Err NullDeref
  | (h, Some p) => let* c := initialDTXContext in Ok (h, p, c)
  end.

Definition initPreProcessing (c : Enc.ctx) : Enc.ctx :=
  Enc.set_inputX1 0 (Enc.set_inputX0 0 (Enc.set_outputY1 0 (Enc.set_outputY2 0 c))).

Definition previousqLSFInit : list Z :=
  [2339; 4679; 7018; 9358; 11698; 14037; 16377; 18717; 21056; 23396].

Definition initLSPQuantization (c : Enc.ctx) : res Enc.ctx :=
  let* m := for_up 0 MA_MAX_K (Enc.previousqLSF c) (λ i m,
    let* r := ld m i in
    let* r := copy_block r 0 previousqLSFInit 0 NB_LSP_COEFF in
    st m i r) in
  Ok (Enc.set_previousqLSF m c).

Definition initGainQuantization (c : Enc.ctx) : res Enc.ctx :=
  let* p := st (Enc.previousGainPredictionError c) 0 (-14336) in
  let* p := st p 1 (-14336) in
  let* p := st p 2 (-14336) in
  let* p := st p 3 (-14336) in
  Ok (Enc.set_previousGainPredictionError p c).

(** ** Channels *)

(** An encoder channel: its heap blocks and the contents of its context. *)
Record encoderChannel : Type := EncoderChannel {
  enc_block : Z;
  vad_block : option Z;
  dtx_block : option Z;
  enc_context : Enc.ctx
}.

Definition previousLSPInitialValues : list Z :=
  [30000; 26000; 21000; 15000; 8000; 0; -8000; -15000; -21000; -26000].

Definition zeroEncoderContext : Enc.ctx :=
  Enc.Mk (zeros 240) (zeros 10) (zeros 10) (zeros 223) (zeros 234) (zeros 50) 0 0 0 0 0
    (replicate 4 (zeros 10)) (zeros 4) None None.

(** The fields set before the VAD and DTX channels are created. *)
Definition initialEncoderFields (c : Enc.ctx) : res Enc.ctx :=
  let* s := write_block (Enc.signalBuffer c) 0 (zeros (L_LP_ANALYSIS_WINDOW - L_FRAME)) in
  let* l := copy_block (Enc.previousLSPCoefficients c) 0 previousLSPInitialValues 0 NB_LSP_COEFF in
  let* q := copy_block (Enc.previousqLSPCoefficients c) 0 previousLSPInitialValues 0 NB_LSP_COEFF in
  let* w := write_block (Enc.weightedInputSignal c) 0 (zeros MAXIMUM_INT_PITCH_DELAY) in
  let* e := write_block (Enc.excitationVector c) 0 (zeros L_PAST_EXCITATION) in
  let* t := write_block (Enc.targetSignal c) 0 (zeros NB_LSP_COEFF) in
  let c := Enc.set_previousqLSPCoefficients q (Enc.set_previousLSPCoefficients l (Enc.set_signalBuffer s c)) in
  let c := Enc.set_targetSignal t (Enc.set_excitationVector e (Enc.set_weightedInputSignal w c)) in
  Ok (Enc.set_lastQuantizedAdaptativeCodebookGain O2_IN_Q14 c).

Definition initBcg729EncoderChannel (h : heap) (succeeds1 succeeds2 succeeds3 : bool) (enableVAD : Z)
    : res (heap * encoderChannel) :=
  match malloc h succeeds1 with
  | (h, None) => Err NullDeref
  | (h, Some p) =>
    let* c := initialEncoderFields zeroEncoderContext in
    let* (h, c, v, d) :=
      (if enableVAD =? 1 then
         let* (h, v, vc) := initBcg729VADChannel h succeeds2 in
         let* (h, d, dc) := initBcg729DTXChannel h succeeds3 in
         Ok (h, Enc.set_DTXChannelContext (Some dc) (Enc.set_VADChannelContext (Some vc) c), Some v, Some d)
       else Ok (h, Enc.set_DTXChannelContext None (Enc.set_VADChannelContext None c), None, None)) in
    let c := initPreProcessing c in
    let* c := initLSPQuantization c in
    let* c := initGainQuantization c in
    Ok (h, EncoderChannel p v d c)
  end.

Definition freeIfSet (h : heap) (p : option Z) : res heap :=
  match p with
  | Some q => free h q
  | None => Ok h
  end.

Definition closeBcg729EncoderChannel (h : heap) (e : option encoderChannel) : res heap :=
  match e with
  | None => Ok h
  | Some e =>
    let* h := freeIfSet h (vad_block e) in
    let* h := freeIfSet h (dtx_block e) in
    free h (enc_block e)
  end.

(** ** preProcessing *)

Module PreProcessing.
Definition A1 : Z := 7807.
Definition A2 : Z := -3733.
Definition B0 : Z := 1899.
Definition B1 : Z := -3798.
Definition B2 : Z := 1899.
End PreProcessing.

(** The 80 samples of [signal] from [soff] are filtered into [out] from [off]. *)
Definition preProcessing (c : Enc.ctx) (signal : list Z) (soff : Z) (out : list Z) (off : Z)
    : res (Enc.ctx * list Z) :=
  for_up 0 L_FRAME (c, out) (λ i '(c, out),
    let inputX2 := Enc.inputX1 c in
    let inputX1 := Enc.inputX0 c in
    let* inputX0 := ld signal (soff + i) in
    let acc := MULT16_32_Q12 PreProcessing.A1 (Enc.outputY1 c) in
    let acc := MAC16_32_Q12 acc PreProcessing.A2 (Enc.outputY2 c) in
    let acc := MAC16_16 acc inputX0 PreProcessing.B0 in
    let acc := MAC16_16 acc inputX1 PreProcessing.B1 in
    let acc := MAC16_16 acc inputX2 PreProcessing.B2 in
    let acc := SATURATE acc MAXINT28 in
    let* out := st out (off + i) (i16 (PSHR acc 12)) in
    Ok (Enc.set_outputY1 acc (Enc.set_outputY2 (Enc.outputY1 c)
          (Enc.set_inputX0 inputX0 (Enc.set_inputX1 inputX1 c))), out)).

(** ** Creation and destruction *)

(** Creation with VAD allocates three blocks and without VAD one. *)
Lemma initBcg729EncoderChannel_run h v :
  ∃ c, Enc.wf c ∧
  initBcg729EncoderChannel h true true true v =
    Ok (if v =? 1
        then (Heap (next h + 1 + 1 + 1) (next h + 1 + 1 :: next h + 1 :: next h :: live h),
              EncoderChannel (next h) (Some (next h + 1)) (Some (next h + 1 + 1)) c)
        else (Heap (next h + 1) (next h :: live h), EncoderChannel (next h) None None c)).
Proof.
  unfold initBcg729EncoderChannel. cbn [malloc].
  assert (∃ c0 vc dc, initialEncoderFields zeroEncoderContext = Ok c0 ∧ initialVADContext = Ok vc ∧
    initialDTXContext = Ok dc ∧ Enc.wf c0 ∧ Vad.wf vc ∧ Dtx.wf dc ∧
    (∀ a b, ∃ c, (let* c := initLSPQuantization (initPreProcessing (Enc.set_DTXChannelContext a
      (Enc.set_VADChannelContext b c0))) in initGainQuantization c) = Ok c ∧
      ((match a with Some d => Dtx.wf d | _ => True end) →
       (match b with Some d => Vad.wf d | _ => True end) → Enc.wf c)))
    as (c0 & vc & dc & -> & Hv & Hd & Hc0 & Hvc & Hdc & Hfin).
  { do 3 eexists. split; [by vm_compute|]. split; [by vm_compute|]. split; [by vm_compute|].
    split_and!; [| | |intros a b; eexists; split; [by vm_compute|intros Ha Hb]].
    all: constructor; simpl;
      first [ apply arr_rng2_by; reflexivity | apply arr_rng_by; reflexivity
            | unfold rng; lia | exact I | assumption ]. }
  unfold initBcg729VADChannel, initBcg729DTXChannel. rewrite Hv, Hd. cbn [bind malloc next live].
  destruct (Z.eqb_spec v 1) as [E|E]; cbn [bind].
  - destruct (Hfin (Some dc) (Some vc)) as (c & Hc & Hwf). exists c. split; [by apply Hwf|].
    destruct (initLSPQuantization _); [|done]. cbn [bind] in *. by rewrite Hc.
  - destruct (Hfin None None) as (c & Hc & Hwf). exists c. split; [by apply Hwf|].
    destruct (initLSPQuantization _); [|done]. cbn [bind] in *. by rewrite Hc.
Qed.

Lemma wp_preProcessing F c n s soff m out off (Q : Enc.ctx * list Z → Prop) :
  Enc.wf c → arr i16r n s → 0 ≤ soff → soff + 80 ≤ n → arr i16r m out → 0 ≤ off → off + 80 ≤ m →
  (∀ c' o, Enc.wf c' → arr i16r m o → Q (c', o)) → wp F (preProcessing c s soff out off) Q.
Proof.
  intros Hc Hs Hso Hn Ho Hoff Hm HQ. unfold preProcessing, L_FRAME.
  apply wp_for_inv with (I := λ '(c, o), Enc.wf c ∧ arr i16r m o); [done| |].
  2:{ intros [c' o] [? ?]. auto. }
  intros i [c1 o1] Hi [Hc1 Ho1]. cbv beta iota zeta. wp_step.
  eapply wp_ld_arr; [done|lia|]. intros v Hv. wp_step.
  eapply wp_st_arr; [done|lia|auto with rng|]. intros o2 Ho2. unfold wp. split; [|done].
  apply Enc.enc_wf_set_outputY1; [eauto 6 with csafe rng|].
  match goal with |- rng _ _ (SATURATE ?x ?a) => pose proof (SATURATE_rng x a ltac:(by vm_compute)) as H end.
  unfold MAXINT28, rng in *. lia.
Qed.
