(* ===== verification/EncPitch.v ===== *)
(** Pitch analysis of the encoder: the open loop search ([findOpenLoopPitchDelay.c]) and
    the gain of the adaptative codebook ([computeAdaptativeCodebookGain.c]).

    A signal pointer is an array and the offset of the sample it points to: the C code
    reads [weightedInputSignal] from [-143] to [79], here [s] from [off - 143]. *)

From S2P Require Import Prelude FixedPoint Sums Math.

(** ** findOpenLoopPitchDelay.c *)

Definition getCorrelation (s : list Z) (off index : Z) : res Z :=
  for_step 0 L_FRAME 2 0 (λ i correlation,
    let* x := ld s (off + i) in
    let* y := ld s (off + (- index + i)) in
    Ok (MAC16_16 correlation x y)).

(** [(index, correlationMax)], from the caller's value of [index] *)
Definition getCorrelationMax (index : Z) (s : list Z) (off rangeOpen rangeClose step : Z)
    : res (Z * Z) :=
  for_step rangeOpen (rangeClose + 1) step (index, MININT32) (λ i '(index, correlationMax),
    let* correlation := getCorrelation s off i in
    Ok (if correlationMax <? correlation then (u16 i, correlation) else (index, correlationMax))).

Definition signalEnergy (s : list Z) (off : Z) : res Z :=
  for_up (- MAXIMUM_INT_PITCH_DELAY) L_FRAME 0 (λ i autocorrelation,
    let* x := ld s (off + i) in
    Ok (MAC64 autocorrelation x x)).

(** The signal the search works on: the input, or its scaled copy in a local buffer. *)
Definition scaleWeightedSignal (s : list Z) (off : Z) : res (list Z * Z) :=
  let* autocorrelation := signalEnergy s off in
  if MAXINT32 <? autocorrelation then
    let* lz := countLeadingZeros (i32 (Z.shiftr autocorrelation 31)) in
    let overflowScale := PSHR (31 - lz) 1 in
    let* b := for_up (- MAXIMUM_INT_PITCH_DELAY) L_FRAME (zeros (MAXIMUM_INT_PITCH_DELAY + L_FRAME))
      (λ i b,
        let* x := ld s (off + i) in
        let* y := shr_chk x overflowScale in
        st b (MAXIMUM_INT_PITCH_DELAY + i) (i16 y)) in
    Ok (b, MAXIMUM_INT_PITCH_DELAY)
  else Ok (s, off).

(** The third range is searched on the even delays, then refined around the maximum. *)
Definition refineRange3 (s : list Z) (off indexRange3Even correlationMaxRange3 : Z) : res (Z * Z) :=
  let indexRange3 := indexRange3Even in
  let* (indexRange3, correlationMaxRange3) :=
    (if 80 <? indexRange3 then
       let* odd := getCorrelation s off (u16 (indexRange3 - 1)) in
       Ok (if correlationMaxRange3 <? odd then (u16 (indexRange3Even - 1), odd)
           else (indexRange3, correlationMaxRange3))
     else Ok (indexRange3, correlationMaxRange3)) in
  let* odd := getCorrelation s off (u16 (indexRange3 + 1)) in
  Ok (if correlationMaxRange3 <? odd then (u16 (indexRange3Even + 1), odd)
      else (indexRange3, correlationMaxRange3)).

(** The maximum of a range divided by the root of the energy at its delay. *)
Definition normaliseCorrelation (s : list Z) (off index correlationMax : Z) : res Z :=
  let* autoCorrelation := getCorrelation s (off - index) 0 in
  let autoCorrelation := if autoCorrelation =? 0 then 1 else autoCorrelation in
  let* r := g729InvSqrt_Q0Q31 autoCorrelation in
  Ok (MULT32_32_Q23 correlationMax r).

(** The short delays are favoured, then the greatest correlation gives the delay. *)
Definition selectDelay (index1 index2 index3 norm1 norm2 norm3 : Z) : Z :=
  let indexMultiple := u16 (SHL index2 1) in
  let norm2 := if Z.abs (indexMultiple - index3) <? 5 then ADD32 norm2 (SHR norm3 2) else norm2 in
  let norm2 :=
    if Z.abs (indexMultiple + index2 - index3) <? 7 then ADD32 norm2 (SHR norm3 2) else norm2 in
  let indexMultiple := u16 (SHL index1 1) in
  let norm1 :=
    if Z.abs (indexMultiple - index2) <? 5 then MAC16_32_P15 norm1 O2_IN_Q15 norm2 else norm1 in
  let norm1 :=
    if Z.abs (indexMultiple + index1 - index2) <? 7 then MAC16_32_P15 norm1 O2_IN_Q15 norm2
    else norm1 in
  let '(norm1, index1) := if norm1 <? norm2 then (norm2, index2) else (norm1, index1) in
  if norm1 <? norm3 then index3 else index1.

Definition findOpenLoopPitchDelay (weightedInputSignal : list Z) (off : Z) : res Z :=
  let* (s, off) := scaleWeightedSignal weightedInputSignal off in
  let* (indexRange1, correlationMaxRange1) := getCorrelationMax 0 s off 20 39 1 in
  let* (indexRange2, correlationMaxRange2) := getCorrelationMax 0 s off 40 79 1 in
  let* (indexRange3Even, correlationMaxRange3) := getCorrelationMax 0 s off 80 143 2 in
  let* (indexRange3, correlationMaxRange3) :=
    refineRange3 s off indexRange3Even correlationMaxRange3 in
  let* norm1 := normaliseCorrelation s off indexRange1 correlationMaxRange1 in
  let* norm2 := normaliseCorrelation s off indexRange2 correlationMaxRange2 in
  let* norm3 := normaliseCorrelation s off indexRange3 correlationMaxRange3 in
  Ok (selectDelay indexRange1 indexRange2 indexRange3 norm1 norm2 norm3).

(** ** computeAdaptativeCodebookGain.c *)

(** [(gain, gainQuantizationXy, gainQuantizationYy)]; the two signals are seen from [ox]
    and [oy]. *)
Definition computeAdaptativeCodebookGain (targetSignal : list Z) (ox : Z)
    (filteredAdaptativeCodebookVector : list Z) (oy : Z) : res (Z * Z * Z) :=
  let* (xy, yy) := for_up 0 L_SUBFRAME (0, 0) (λ i '(xy, yy),
    let* x := ld targetSignal (ox + i) in
    let* y := ld filteredAdaptativeCodebookVector (oy + i) in
    Ok (MAC64 xy x y, MAC64 yy y y)) in
  if xy <=? 0 then Ok (0, xy, yy)
  else
    let* q := DIV64 (i64 (Z.shiftl xy 14)) yy in
    let gain := i32 q in
    let gain := if ONE_POINT_2_IN_Q14 <? gain then ONE_POINT_2_IN_Q14 else gain in
    Ok (i16 gain, xy, yy).

(** ** Correlations as sums *)

Definition correlation (s : list Z) (off index : Z) : Z :=
  zsum 40 (λ i, at_ s (off + 2 * i) * at_ s (off + 2 * i - index)).

(** The energy of the 223 samples around [off]. *)
Definition energy (s : list Z) (off : Z) : Z :=
  zsum 223 (λ i, at_ s (off - 143 + i) * at_ s (off - 143 + i)).

Lemma getCorrelation_run n s off index :
  arr i16r n s → 0 ≤ off → 0 ≤ off - index → off - index + 80 ≤ n → off + 80 ≤ n →
  getCorrelation s off index = Ok (i32 (correlation s off index)).
Proof.
  intros Hs H0 H1 H2 H3. unfold getCorrelation, for_step, L_FRAME.
  change (Z.to_nat ((80 - 0 + 2 - 1) / 2)) with 40%nat. change 0 with (i32 0) at 2.
  apply forN_zsum. intros k t Hk _. destruct Hs as [Hn Hs].
  rewrite !ld_at by lia. cbn [bind].
  rewrite MAC16_16_wrapped by (apply (at_arr _ n); [done|lia]).
  do 3 f_equal. f_equal; f_equal; lia.
Qed.

Lemma signalEnergy_run n s off :
  arr i16r n s → 143 ≤ off → off + 80 ≤ n →
  signalEnergy s off = Ok (energy s off) ∧ 0 ≤ energy s off ≤ 223 * 1073741824.
Proof.
  intros Hs H0 H1.
  assert (∀ i, 0 ≤ i < 223 → 0 ≤ at_ s (off - 143 + i) * at_ s (off - 143 + i) ≤ 1073741824) as Hsq.
  { intros i Hi. pose proof (at_arr _ n s (off - 143 + i) Hs ltac:(lia)). unfold rng in *. nia. }
  assert (∀ m, (m ≤ 223)%nat →
    0 ≤ zsum m (λ i, at_ s (off - 143 + i) * at_ s (off - 143 + i)) ≤ 1073741824 * Z.of_nat m) as Hb.
  { intros m Hm. split; [apply zsum_nonneg; intros i Hi; apply Hsq; lia|].
    rewrite <-zsum_const. apply zsum_le. intros i Hi. apply Hsq. lia. }
  split; [|specialize (Hb 223%nat ltac:(lia)); unfold energy; lia].
  unfold signalEnergy, MAXIMUM_INT_PITCH_DELAY, L_FRAME.
  apply (for_up_zsum (λ z, z) 223); [done|]. intros i t Hi ->.
  rewrite ld_at by (destruct Hs; lia). cbn [bind].
  replace (off + (- (143) + i)) with (off - 143 + i) by lia.
  pose proof (at_arr _ n s (off - 143 + i) Hs ltac:(lia)).
  specialize (Hb (Z.to_nat i) ltac:(lia)). specialize (Hsq i ltac:(lia)).
  cbv beta. set (e := zsum _ _) in *. set (x := at_ s (off - 143 + i)) in *. clearbody e x.
  rewrite MAC64_exact; unfold rng in *; [done|lia..].
Qed.

(** ** The scaled signal *)

Lemma shiftr_square_le x s : 0 ≤ s →
  10 * 4 ^ s * (Z.shiftr x s * Z.shiftr x s) ≤ 11 * (x * x) + 110 * 4 ^ s.
Proof.
  intros Hs. rewrite Z.shiftr_div_pow2 by done. replace (4 ^ s) with (2 ^ s * 2 ^ s) by (by rewrite <-Z.pow_mul_l).
  pose proof (Z.pow_pos_nonneg 2 s ltac:(lia) Hs) as Hp. set (p := 2 ^ s) in *. clearbody p.
  pose proof (Z.div_mod x p ltac:(lia)). pose proof (Z.mod_pos_bound x p Hp).
  set (y := x / p) in *. clearbody y. set (r := x mod p) in *. clearbody r. subst x.
  assert (0 ≤ (p * y + r + 10 * p) * (p * y + r + 10 * p)) by apply Z.square_nonneg.
  assert (0 ≤ (p * y + r - 10 * p) * (p * y + r - 10 * p)) by apply Z.square_nonneg.
  destruct (Z.le_ge_cases 0 y); nia.
Qed.

Lemma scaledBuffer_run n s off k :
  arr i16r n s → 143 ≤ off → off + 80 ≤ n → 0 ≤ k < 32 →
  safe (for_up (- MAXIMUM_INT_PITCH_DELAY) L_FRAME (zeros (MAXIMUM_INT_PITCH_DELAY + L_FRAME))
    (λ i b,
      let* x := ld s (off + i) in
      let* y := shr_chk x k in
      st b (MAXIMUM_INT_PITCH_DELAY + i) (i16 y)))
    (λ b, arr i16r 223 b ∧ ∀ j, -143 ≤ j < 80 → at_ b (143 + j) = Z.shiftr (at_ s (off + j)) k).
Proof.
  intros Hs H0 H1 Hk. unfold MAXIMUM_INT_PITCH_DELAY, L_FRAME.
  apply wp_for_up with (I := λ i b, arr i16r 223 b ∧
    ∀ j, -143 ≤ j < i → at_ b (143 + j) = Z.shiftr (at_ s (off + j)) k); [done| | |by intros].
  { split; [by apply arr_zeros|]. lia. }
  intros i b Hi [Hb IH]. pose proof (at_arr _ n s (off + i) Hs ltac:(lia)) as Hx.
  rewrite ld_at by (destruct Hs; lia). cbn [bind]. wp_step. apply wp_shr_chk; [done|].
  assert (i16r (Z.shiftr (at_ s (off + i)) k)) as Hy by (apply shiftr_rng; [lia..|done]).
  rewrite i16_id by done. assert (zlen b = 223) as Hl by apply Hb.
  apply wp_st; [lia|]. split.
  - split; [by rewrite zlen_insert|]. apply Forall_insert; [apply Hb|done].
  - intros j Hj. rewrite at_insert by lia. destruct (Z.eqb_spec (143 + i) (143 + j)) as [E|E].
    + by replace j with i by lia.
    + apply IH. lia.
Qed.

(** The number of bits over 31, halved and rounded up. *)
Lemma overflowScale_ok a : 2147483647 < a ≤ 223 * 1073741824 →
  ∃ lz, countLeadingZeros (i32 (Z.shiftr a 31)) = Ok lz ∧
    0 ≤ PSHR (31 - lz) 1 < 32 ∧ a < 2147483648 * 4 ^ PSHR (31 - lz) 1.
Proof.
  intros Ha. rewrite Z.shiftr_div_pow2 by done. change (2 ^ 31) with 2147483648.
  assert (1 ≤ a / 2147483648 ≤ 111) as Hh
    by (split; [apply Z.div_le_lower_bound|apply Z.lt_succ_r, Z.div_lt_upper_bound]; lia).
  rewrite i32_id by (unfold rng; lia). rewrite countLeadingZeros_pos by lia.
  eexists. split; [done|].
  pose proof (Z.div_mod a 2147483648 ltac:(lia)) as Hdm. pose proof (Z.mod_pos_bound a 2147483648 ltac:(lia)).
  set (h := a / 2147483648) in *. clearbody h.
  exhaust 7%nat 0 128 (λ h, (h =? 0) || ((0 <=? PSHR (31 - (30 - Z.log2 h)) 1) &&
    (PSHR (31 - (30 - Z.log2 h)) 1 <? 32) && (h + 1 <=? 4 ^ PSHR (31 - (30 - Z.log2 h)) 1))) h as Hex.
  set (k := PSHR _ _) in *. clearbody k. set (q := 4 ^ k) in *. clearbody q. nia.
Qed.

Definition max_energy : Z := 2362234465.

Lemma scaleWeightedSignal_run n s off :
  arr i16r n s → 143 ≤ off → off + 80 ≤ n →
  ∃ m s' off', scaleWeightedSignal s off = Ok (s', off') ∧
    arr i16r m s' ∧ 143 ≤ off' ∧ off' + 80 ≤ m ∧ energy s' off' ≤ max_energy.
Proof.
  intros Hs H0 H1. destruct (signalEnergy_run n s off) as [HE Hb]; [done..|].
  unfold scaleWeightedSignal. rewrite HE. cbn [bind]. unfold MAXINT32.
  destruct (Z.ltb_spec 2147483647 (energy s off)) as [Hlt|Hle].
  2:{ exists n, s, off. unfold max_energy. split_and!; [done..|lia]. }
  destruct (overflowScale_ok (energy s off)) as (lz & -> & Hk & Ha); [lia|]. cbn [bind].
  set (k := PSHR (31 - lz) 1) in *. clearbody k.
  destruct (proj1 (safe_ok _ _) (scaledBuffer_run n s off k Hs H0 H1 Hk)) as (b & -> & Hb' & Hat).
  cbn [bind]. exists 223, b, 143. split_and!; [done..|]. unfold max_energy.
  assert (10 * 4 ^ k * energy b 143 ≤ 11 * energy s off + 110 * 4 ^ k * Z.of_nat 223) as H.
  { apply zsum_affine_le. intros i Hi. replace (143 - 143 + i) with (143 + (i - 143)) by lia.
    rewrite Hat by lia. replace (off + (i - 143)) with (off - 143 + i) by lia.
    apply shiftr_square_le. lia. }
  set (T := energy b 143) in *. set (A := energy s off) in *. clearbody T A.
  assert (0 < 4 ^ k) by (apply Z.pow_pos_nonneg; lia). nia.
Qed.

(** ** Bounds on the correlations *)

(** The samples [off - d], [off - d + 2], ... that a correlation of delay [d] reads. *)
Definition comb (s : list Z) (off d : Z) (j : Z) : Z := at_ s (off - d + 2 * j).

Lemma comb_energy s off d m : 0 ≤ d ≤ 143 → (2 * Z.of_nat m = 80 + d) →
  zsum m (λ j, comb s off d j * comb s off d j) ≤ energy s off.
Proof.
  intros Hd Hm. unfold comb, energy.
  set (f := λ i, at_ s (off - 143 + i) * at_ s (off - 143 + i)).
  assert (∀ i, 0 ≤ f i) as Hf by (intros; apply Z.square_nonneg).
  pose proof (zsum_window 223 (Z.to_nat (143 - d)) (2 * m) f ltac:(intros; apply Hf) ltac:(lia)) as H1.
  pose proof (zsum_even m (λ i, f (Z.of_nat (Z.to_nat (143 - d)) + i)) ltac:(intros; apply Hf)) as H2.
  etransitivity; [|exact H1]. etransitivity; [|exact H2]. apply Z.eq_le_incl, zsum_ext.
  intros i Hi. unfold f. by replace (off - 143 + (Z.of_nat (Z.to_nat (143 - d)) + 2 * i))
    with (off - d + 2 * i) by lia.
Qed.

(** The [e]-th block of [m] samples of the comb. *)
Definition blockEnergy (s : list Z) (off d : Z) (m : nat) (e : Z) : Z :=
  zsum m (λ i, comb s off d (Z.of_nat m * e + i) * comb s off d (Z.of_nat m * e + i)).
Definition blockProduct (s : list Z) (off d : Z) (m : nat) (e : Z) : Z :=
  zsum m (λ i, comb s off d (Z.of_nat m * (e + 1) + i) * comb s off d (Z.of_nat m * e + i)).

Lemma blockEnergy_nonneg s off d m e : 0 ≤ blockEnergy s off d m e.
Proof. apply zsum_nonneg. intros. apply Z.square_nonneg. Qed.

Lemma block_weighted s off d m e e' P Q : e' = e + 1 → 0 < P → 250000 ≤ P * Q →
  1000 * Z.abs (blockProduct s off d m e) ≤
    P * blockEnergy s off d m e' + Q * blockEnergy s off d m e.
Proof. intros -> ? ?. apply zsum_mul_weighted; lia. Qed.

Lemma blocks_energy s off d m k : zsum (m * k) (λ j, comb s off d j * comb s off d j) =
  zsum k (blockEnergy s off d m).
Proof.
  induction k as [|k IH]; [by rewrite Nat.mul_0_r|].
  replace (m * S k)%nat with (m * k + m)%nat by lia. rewrite zsum_split, IH. cbn [zsum].
  unfold blockEnergy at 3. by rewrite Nat2Z.inj_mul.
Qed.

Lemma blocks_product s off d m k : zsum (m * k) (λ j, comb s off d (Z.of_nat m + j) * comb s off d j) =
  zsum k (blockProduct s off d m).
Proof.
  induction k as [|k IH]; [by rewrite Nat.mul_0_r|].
  replace (m * S k)%nat with (m * k + m)%nat by lia. rewrite zsum_split, IH. cbn [zsum].
  f_equal. apply zsum_ext. intros i Hi. rewrite Nat2Z.inj_mul.
  by replace (Z.of_nat m + (Z.of_nat m * Z.of_nat k + i)) with (Z.of_nat m * (Z.of_nat k + 1) + i) by lia.
Qed.

Lemma correlation_blocks s off d m k : d = 2 * Z.of_nat m → (m * k = 40)%nat →
  correlation s off d = zsum k (blockProduct s off d m).
Proof.
  intros -> Hk. rewrite <-blocks_product, Hk. apply zsum_ext. intros i Hi. unfold comb.
  f_equal; f_equal; lia.
Qed.

Lemma energy_blocks s off d m k : 0 ≤ d ≤ 143 → 2 * Z.of_nat (m * k) = 80 + d →
  zsum k (blockEnergy s off d m) ≤ energy s off.
Proof. intros. rewrite <-blocks_energy. by apply comb_energy. Qed.

(** At the first delay of each range the samples form short chains, so that the correlation
    stays below 7/8 of the energy: a chain of [n] samples has at most [cos (pi / (n + 1))]. *)
Lemma chain_20 s off : 1000 * Z.abs (correlation s off 20) ≤ 875 * energy s off.
Proof.
  rewrite (correlation_blocks s off 20 10 4), zsum_4 by done.
  pose proof (energy_blocks s off 20 10 5 ltac:(lia) ltac:(lia)) as H. rewrite zsum_5 in H.
  pose proof (block_weighted s off 20 10 0 1 286 875 ltac:(lia) ltac:(lia) ltac:(lia)).
  pose proof (block_weighted s off 20 10 1 2 425 589 ltac:(lia) ltac:(lia) ltac:(lia)).
  pose proof (block_weighted s off 20 10 2 3 556 450 ltac:(lia) ltac:(lia) ltac:(lia)).
  pose proof (block_weighted s off 20 10 3 4 784 319 ltac:(lia) ltac:(lia) ltac:(lia)).
  pose proof (blockEnergy_nonneg s off 20 10 4). lia.
Qed.

Lemma chain_40 s off : 1000 * Z.abs (correlation s off 40) ≤ 875 * energy s off.
Proof.
  rewrite (correlation_blocks s off 40 20 2), zsum_2 by done.
  pose proof (energy_blocks s off 40 20 3 ltac:(lia) ltac:(lia)) as H. rewrite zsum_3 in H.
  pose proof (block_weighted s off 40 20 0 1 286 875 ltac:(lia) ltac:(lia) ltac:(lia)).
  pose proof (block_weighted s off 40 20 1 2 425 589 ltac:(lia) ltac:(lia) ltac:(lia)).
  pose proof (blockEnergy_nonneg s off 40 20 2). lia.
Qed.

Lemma chain_80 s off : 1000 * Z.abs (correlation s off 80) ≤ 875 * energy s off.
Proof.
  rewrite (correlation_blocks s off 80 40 1), zsum_1 by done.
  pose proof (energy_blocks s off 80 40 2 ltac:(lia) ltac:(lia)) as H. rewrite zsum_2 in H.
  pose proof (block_weighted s off 80 40 0 1 500 500 ltac:(lia) ltac:(lia) ltac:(lia)).
  pose proof (blockEnergy_nonneg s off 80 40 0). pose proof (blockEnergy_nonneg s off 80 40 1). lia.
Qed.

(** ** The search *)

(** [i] is the first delay of [lo], [lo + step], ... below [hi] with the greatest correlation. *)
Definition firstMax (s : list Z) (off lo step hi i c : Z) : Prop :=
  lo ≤ i < hi ∧ c = i32 (correlation s off i) ∧ (i - lo) mod step = 0 ∧
  ∀ k, 0 ≤ k → lo + k * step < hi →
    i32 (correlation s off (lo + k * step)) ≤ c ∧
    (lo + k * step < i → i32 (correlation s off (lo + k * step)) < c).

Lemma firstMax_step s off lo step i c j c' k0 :
  0 < step → j = lo + k0 * step → firstMax s off lo step j i c → c' = i32 (correlation s off j) →
  let '(i', m) := if c <? c' then (j, c') else (i, c) in firstMax s off lo step (j + step) i' m.
Proof.
  intros Hst Hj (Hi & Hc & Hm & Hmax) Hc'.
  assert (∀ k, 0 ≤ k → lo + k * step < j + step → k < k0 ∧ lo + k * step < j ∨ k = k0) as Hk
    by (intros; nia).
  destruct (Z.ltb_spec c c'); unfold firstMax; (split; [lia|]).
  - split; [done|]. split; [replace (j - lo) with (k0 * step) by lia; apply Z.mod_mul; lia|].
    intros k Hk0 Hlt. destruct (Hk k Hk0 Hlt) as [[? Hl]| ->].
    + destruct (Hmax k Hk0 Hl). lia.
    + rewrite <-Hj. split; [lia|lia].
  - split; [done|]. split; [done|].
    intros k Hk0 Hlt. destruct (Hk k Hk0 Hlt) as [[? Hl]| ->].
    + destruct (Hmax k Hk0 Hl). lia.
    + rewrite <-Hj. split; [lia|lia].
Qed.

Lemma getCorrelationMax_spec n s off idx lo hi step :
  arr i16r n s → 143 ≤ off → off + 80 ≤ n → 0 < step → 0 ≤ lo ≤ hi → hi ≤ 143 →
  MININT32 < i32 (correlation s off lo) →
  ∃ i c, getCorrelationMax idx s off lo hi step = Ok (i, c) ∧ firstMax s off lo step (hi + 1) i c.
Proof.
  intros Hs H0 H1 Hst Hlo Hhi Hfirst. unfold getCorrelationMax, for_step.
  set (m := (hi + 1 - lo + step - 1) / step).
  assert (m * step ≤ hi - lo + step < (m + 1) * step) as Hm.
  { unfold m. replace (hi + 1 - lo + step - 1) with (hi - lo + step) by lia.
    pose proof (Z.div_mod (hi - lo + step) step ltac:(lia)).
    pose proof (Z.mod_pos_bound (hi - lo + step) step Hst). nia. }
  clearbody m. assert (1 ≤ m) as Hm1 by nia.
  match goal with |- context [forN _ _ _ _ ?b] => set (body := b) end.
  assert (safe (forN (Z.to_nat m) lo step (idx, MININT32) body) (λ '(i, c),
    firstMax s off lo step (lo + m * step) i c)) as HS.
  { replace (Z.to_nat m) with (S (Z.to_nat (m - 1))) by lia. cbn [forN]. apply wp_bind.
    unfold body at 1. rewrite (getCorrelation_run n) by (done || lia). cbn [bind wp].
    destruct (Z.ltb_spec MININT32 (i32 (correlation s off lo))) as [_|]; [|lia].
    rewrite u16_id by (unfold rng; lia).
    eapply wp_mono; [apply (wp_forN _ (λ j '(i, c), ∃ k0, j = lo + k0 * step ∧ firstMax s off lo step j i c))|].
    - exists 1. split; [lia|]. unfold firstMax. split; [lia|]. split; [done|].
      split; [by rewrite Z.sub_diag, Z.mod_0_l by lia|]. intros k Hk0 Hk.
      assert (k = 0) as -> by nia. rewrite Z.add_0_r. lia.
    - intros j [i c] (q & Hq & ->) (k0 & Hk0 & Hf). unfold body.
      assert (lo + step + Z.of_nat q * step ≤ hi) by nia.
      rewrite (getCorrelation_run n) by (done || lia). cbn [bind wp].
      rewrite u16_id by (unfold rng; lia).
      pose proof (firstMax_step s off lo step i c _ _ k0 Hst Hk0 Hf eq_refl) as Hn.
      destruct (_ <? _); exists (k0 + 1); (split; [lia|exact Hn]).
    - intros [i c] (k0 & _ & Hf). cbv beta in *. rewrite Z2Nat.id in Hf by lia.
      by replace (lo + step + (m - 1) * step) with (lo + m * step) in Hf by lia. }
  destruct (proj1 (safe_ok _ _) HS) as ([i c] & E & Hf). exists i, c. split; [exact E|].
  destruct Hf as (Hi & Hc & Hmod & Hmax). unfold firstMax.
  assert (i ≤ hi).
  { pose proof (Z.div_mod (i - lo) step ltac:(lia)) as Hd. rewrite Hmod in Hd.
    set (q := (i - lo) / step) in *. clearbody q. assert (q ≤ m - 1) by nia.
    assert (step * q ≤ step * (m - 1)) by (apply Z.mul_le_mono_nonneg_l; lia). lia. }
  split; [lia|]. split; [done|]. split; [done|]. intros k Hk0 Hk. apply Hmax; nia.
Qed.

(** The inverse square root does not fail on a negative energy either: its value is then
    meaningless, but the division is defined. *)
Lemma wp_g729InvSqrt_nonzero F x (Q : Z → Prop) :
  i32r x → x ≠ 0 → (∀ v, i32r v → Q v) → wp F (g729InvSqrt_Q0Q31 x) Q.
Proof.
  intros Hx Hnz HQ. unfold g729InvSqrt_Q0Q31. destruct (x =? 1) eqn:E.
  - apply HQ. unfold MAXINT32. solve_rng.
  - apply wp_bind, wp_g729Sqrt; [apply u32_rng|]. intros s Hs _. apply wp_bind.
    unfold DIV32_32_Q24, DIV64. rewrite (i32_id x), (i64_id x) by solve_rng.
    assert (i64 (Z.shiftl (i64 s) 24) = s * 2 ^ 24) as ->.
    { rewrite (i64_id s), Z.shiftl_mul_pow2, i64_id by (unfold rng in *; lia). done. }
    rewrite (i64_id (s * 2 ^ 24)) by (unfold rng in *; lia).
    destruct (_ || _) eqn:E2; [unfold rng in *; lia|]. apply HQ, i32_rng.
Qed.

Lemma wp_normaliseCorrelation F n s off i c (Q : Z → Prop) :
  arr i16r n s → 143 ≤ off → off + 80 ≤ n → 0 ≤ i ≤ 143 → (∀ v, i32r v → Q v) →
  wp F (normaliseCorrelation s off i c) Q.
Proof.
  intros Hs H0 H1 Hi HQ. unfold normaliseCorrelation.
  rewrite (getCorrelation_run n) by (done || lia). cbn [bind]. cbv zeta. apply wp_bind.
  set (e := i32 _). assert (i32r e) by apply i32_rng. clearbody e.
  apply wp_g729InvSqrt_nonzero; [destruct (e =? 0); [by unfold rng|done]|destruct (Z.eqb_spec e 0); lia|].
  intros v Hv. apply HQ. unfold MULT32_32_Q23. apply i32_rng.
Qed.

Lemma wp_refineRange3 F n s off e c (Q : Z * Z → Prop) :
  arr i16r n s → 143 ≤ off → off + 80 ≤ n → 80 ≤ e ≤ 142 →
  (∀ i c, 80 ≤ i ≤ 143 → Q (i, c)) → wp F (refineRange3 s off e c) Q.
Proof.
  intros Hs H0 H1 He HQ. unfold refineRange3. cbv zeta. apply wp_bind.
  apply wp_mono with (P := λ '(i, c), 80 ≤ i ≤ 142).
  - destruct (Z.ltb_spec 80 e); [|done]. rewrite u16_id by (unfold rng; lia).
    rewrite (getCorrelation_run n) by (done || lia). cbn [bind wp]. destruct (_ <? _); lia.
  - intros [i c'] Hi. cbv beta iota in *. rewrite (u16_id (i + 1)), (u16_id (e + 1)) by (unfold rng; lia).
    rewrite (getCorrelation_run n) by (done || lia). cbn [bind wp].
    destruct (_ <? _); apply HQ; lia.
Qed.

Lemma selectDelay_among i1 i2 i3 n1 n2 n3 :
  let d := selectDelay i1 i2 i3 n1 n2 n3 in d = i1 ∨ d = i2 ∨ d = i3.
Proof. unfold selectDelay. repeat case_match; simplify_eq; auto. Qed.

(** The documented range of the delay, for every signal. *)
Lemma wp_findOpenLoopPitchDelay F n s off (Q : Z → Prop) :
  arr i16r n s → 143 ≤ off → off + 80 ≤ n → (∀ d, 20 ≤ d ≤ 143 → Q d) →
  wp F (findOpenLoopPitchDelay s off) Q.
Proof.
  intros Hs H0 H1 HQ. unfold findOpenLoopPitchDelay.
  destruct (scaleWeightedSignal_run n s off) as (m & s' & off' & -> & Hs' & H0' & H1' & HT); [done..|].
  cbn [bind].
  assert (∀ d, 1000 * Z.abs (correlation s' off' d) ≤ 875 * energy s' off' →
    MININT32 < i32 (correlation s' off' d)) as Hfirst.
  { intros d Hd. unfold max_energy, MININT32 in *. rewrite i32_id; unfold rng; lia. }
  destruct (getCorrelationMax_spec m s' off' 0 20 39 1) as (i1 & c1 & -> & [Hi1 _]);
    [done|lia..|apply Hfirst, chain_20|].
  destruct (getCorrelationMax_spec m s' off' 0 40 79 1) as (i2 & c2 & -> & [Hi2 _]);
    [done|lia..|apply Hfirst, chain_40|].
  destruct (getCorrelationMax_spec m s' off' 0 80 143 2) as (i3 & c3 & -> & [Hi3 [_ [Hmod _]]]);
    [done|lia..|apply Hfirst, chain_80|].
  cbn [bind]. wp_step. apply (wp_refineRange3 _ m); [done..| |].
  { split; [lia|]. destruct (Z.eq_dec i3 143) as [->|]; [done|lia]. }
  intros j3 d3 Hj3. wp_step.
  apply (wp_normaliseCorrelation _ m); [done|lia..|]. intros n1 _. wp_step.
  apply (wp_normaliseCorrelation _ m); [done|lia..|]. intros n2 _. wp_step.
  apply (wp_normaliseCorrelation _ m); [done|lia..|]. intros n3 _. wp_step.
  apply HQ. destruct (selectDelay_among i1 i2 j3 n1 n2 n3) as [-> |[-> | ->]]; lia.
Qed.

(** ** The gain of the adaptative codebook *)

Definition dot (x : list Z) (ox : Z) (y : list Z) (oy : Z) (n : nat) : Z :=
  zsum n (λ i, at_ x (ox + i) * at_ y (oy + i)).

Lemma dot_bound (a b : Z) x ox y oy k : 0 ≤ ox → 0 ≤ oy → arr i16r a x → arr i16r b y →
  ox + Z.of_nat k ≤ a → oy + Z.of_nat k ≤ b →
  - (1073741824 * Z.of_nat k) ≤ dot x ox y oy k ≤ 1073741824 * Z.of_nat k.
Proof.
  intros Hox Hoy Hx Hy Ha Hb. unfold dot.
  pose proof (zsum_le k (λ _, -1073741824) (λ i, at_ x (ox + i) * at_ y (oy + i))) as H1.
  pose proof (zsum_le k (λ i, at_ x (ox + i) * at_ y (oy + i)) (λ _, 1073741824)) as H2.
  rewrite zsum_const in H1, H2.
  assert (∀ i, 0 ≤ i < Z.of_nat k → -1073741824 ≤ at_ x (ox + i) * at_ y (oy + i) ≤ 1073741824) as Hp.
  { intros i Hi. pose proof (at_arr _ a x (ox + i) Hx ltac:(lia)).
    pose proof (at_arr _ b y (oy + i) Hy ltac:(lia)). unfold rng in *. nia. }
  specialize (H1 ltac:(intros; apply Hp; lia)). specialize (H2 ltac:(intros; apply Hp; lia)). lia.
Qed.

(** Samples are integers, so [xy] is at most 2^15 [yy]: the quotient fits 32 bits. *)
Lemma dot_ratio a b x ox y oy k : 0 ≤ ox → 0 ≤ oy → arr i16r a x → arr i16r b y →
  ox + Z.of_nat k ≤ a → oy + Z.of_nat k ≤ b → dot x ox y oy k ≤ 32768 * dot y oy y oy k.
Proof.
  intros Hox Hoy Hx Hy Ha Hb. unfold dot. rewrite <-zsum_scal. apply zsum_le. intros i Hi.
  pose proof (at_arr _ a x (ox + i) Hx ltac:(lia)). pose proof (at_arr _ b y (oy + i) Hy ltac:(lia)).
  set (u := at_ x _) in *. set (v := at_ y _) in *. clearbody u v. unfold rng in *.
  assert (Z.abs v ≤ v * v) by nia. assert (u * v ≤ 32768 * Z.abs v) by nia. lia.
Qed.

Lemma computeAdaptativeCodebookGain_run a b x ox y oy : 0 ≤ ox → 0 ≤ oy →
  arr i16r a x → arr i16r b y → ox + 40 ≤ a → oy + 40 ≤ b →
  let xy := dot x ox y oy 40 in
  let yy := dot y oy y oy 40 in
  (0 < xy → 0 < yy) ∧
  computeAdaptativeCodebookGain x ox y oy =
    Ok (if xy <=? 0 then 0 else Z.min (xy * 16384 / yy) 19661, xy, yy).
Proof.
  intros Hox Hoy Hx Hy Ha Hb xy yy.
  pose proof (dot_ratio a b x ox y oy 40 Hox Hoy Hx Hy ltac:(lia) ltac:(lia)) as Hr. fold xy yy in Hr.
  pose proof (dot_bound a b x ox y oy 40 Hox Hoy Hx Hy ltac:(lia) ltac:(lia)) as Hxy. fold xy in Hxy.
  pose proof (dot_bound b b y oy y oy 40 Hoy Hoy Hy Hy ltac:(lia) ltac:(lia)) as Hyy. fold yy in Hyy.
  split; [lia|]. unfold computeAdaptativeCodebookGain.
  assert (for_up 0 L_SUBFRAME (0, 0) (λ i '(xy, yy),
    let* x := ld x (ox + i) in let* y := ld y (oy + i) in
    Ok (MAC64 xy x y, MAC64 yy y y)) = Ok (xy, yy)) as ->.
  { apply (for_up_state (λ i, (dot x ox y oy (Z.to_nat i), dot y oy y oy (Z.to_nat i))) 0 40); [done|].
    intros i Hi. cbv beta iota. rewrite !ld_at by (unfold arr in *; lia). cbn [bind].
    pose proof (dot_bound a b x ox y oy (Z.to_nat i) Hox Hoy Hx Hy ltac:(lia) ltac:(lia)).
    pose proof (dot_bound b b y oy y oy (Z.to_nat i) Hoy Hoy Hy Hy ltac:(lia) ltac:(lia)).
    pose proof (at_arr _ a x (ox + i) Hx ltac:(lia)). pose proof (at_arr _ b y (oy + i) Hy ltac:(lia)).
    rewrite !MAC64_exact by (done || (unfold rng in *; nia)).
    replace (Z.to_nat (i + 1)) with (S (Z.to_nat i)) by lia. unfold dot. cbn [zsum].
    by rewrite Z2Nat.id by lia. }
  cbn [bind]. destruct (Z.leb_spec xy 0); [done|].
  rewrite Z.shiftl_mul_pow2 by lia. change (2 ^ 14) with 16384. unfold DIV64.
  rewrite (i64_id (xy * 16384)), (i64_id (xy * 16384)), (i64_id yy) by (unfold rng; lia).
  destruct (_ || _) eqn:E; [lia|]. cbn [bind]. rewrite Z.quot_div_nonneg by lia.
  assert (0 ≤ xy * 16384 / yy ≤ 536870912).
  { split; [apply Z.div_pos; lia|apply Z.div_le_upper_bound; lia]. }
  rewrite i32_id by (unfold rng; lia). unfold ONE_POINT_2_IN_Q14.
  do 3 f_equal. destruct (Z.ltb_spec 19661 (xy * 16384 / yy)); rewrite i16_id by (unfold rng; lia); lia.
Qed.
