(* ===== verification/EncGain.v ===== *)
(** Quantization of the codebook gains ([gainQuantization.c]). *)

From S2P Require Import Prelude FixedPoint Sums Codebooks Math Utils Context DecodeExcitation EncContext EncPitch.

(** ** The terms of the error, on 32 bits *)

(** [(word32_t)SHR64(|a|, 30)] *)
Definition highPart (a : Z) : Z := i32 (Z.shiftr (if a <? 0 then i64 (- a) else a) 30).

Definition lowerNormalization (minNormalization x : Z) : res Z :=
  let* currentNormalization := countLeadingZeros x in
  Ok (if currentNormalization <? minNormalization then currentNormalization else minNormalization).

Record terms : Type := Terms { t_xy : Z; t_yy : Z; t_xz : Z; t_yz : Z; t_zz : Z }.

Definition scaleTerms (xy64 yy64 xz64 yz64 zz64 : Z) : res terms :=
  let xy := highPart xy64 in
  let yy := i32 (Z.shiftr yy64 31) in
  let xz := highPart xz64 in
  let yz := highPart yz64 in
  let zz := i32 (Z.shiftr zz64 31) in
  let* m := lowerNormalization 31 xy in
  let* m := lowerNormalization m xz in
  let* m := lowerNormalization m yz in
  let* m := lowerNormalization m yy in
  let* m := lowerNormalization m zz in
  if m <? 31 then
    let m := u16 (31 - m) in
    let* xy := shr64_chk xy64 m in
    let* yy := shr64_chk yy64 m in
    let* xz := shr64_chk xz64 m in
    let* yz := shr64_chk yz64 m in
    let* zz := shr64_chk zz64 m in
    Ok (Terms (i32 xy) (i32 yy) (i32 xz) (i32 yz) (i32 zz))
  else Ok (Terms (i32 xy64) (i32 yy64) (i32 xz64) (i32 yz64) (i32 zz64)).

(** ** The best gains *)

(** [numerator / denominator] shifted left by [k] bits, the shift shared between the two so
    that neither overflows. *)
Definition shiftedQuotient (numerator denominator k : Z) : res Z :=
  let numeratorH := i32 (Z.shiftr numerator 32) in
  let numeratorH := if 0 <? numeratorH then numeratorH else i32 (- numeratorH) in
  let* numeratorNorm := countLeadingZeros numeratorH in
  if k <=? numeratorNorm then
    let* q := DIV64 (SSHL64 numerator k) denominator in
    Ok (i32 q)
  else
    let* shiftedDenominator := shr64_chk denominator (k - numeratorNorm) in
    let* n := shl64_chk numerator numeratorNorm in
    if 0 <? shiftedDenominator then
      let* q := DIV64 n shiftedDenominator in
      Ok (i32 q)
    else
      let* q := DIV64 n denominator in
      shl_chk (i32 q) (k - numeratorNorm).

(** [(bestAdaptativeCodebookGain, bestFixedCodebookGain)] *)
Definition bestGains (t : terms) : res (Z * Z) :=
  let numeratorA := MAC64 (MULT32_32 (t_zz t) (t_xy t)) (i32 (- t_xz t)) (t_yz t) in
  let numeratorF := MAC64 (MULT32_32 (t_yy t) (t_xz t)) (i32 (- t_xy t)) (t_yz t) in
  let denominator := MAC64 (MULT32_32 (t_yy t) (t_zz t)) (i32 (- t_yz t)) (t_yz t) in
  if denominator =? 0 then
    Ok (i32 (Z.shiftr numeratorA 15), i32 (Z.shiftr numeratorF 10))
  else
    let* a := shiftedQuotient numeratorA denominator 9 in
    let* f := shiftedQuotient numeratorF denominator 14 in
    Ok (a, f).

(** ** Preselection: the first of the four (eight) consecutive indices that are searched *)

Definition decr (i : Z) : Z := if 0 <? i then i - 1 else i.

Definition preselectGa (bestFixedCodebookGain predictedFixedCodebookGain : Z) : res Z :=
  let* i := while 8
    (λ i, if i <? 6 then
            let* g := ld2 GACodebook i 1 in
            Ok (MULT16_16_Q14 g predictedFixedCodebookGain <? bestFixedCodebookGain)
          else Ok false)
    (λ i, Ok (i + 1)) 0 in
  Ok (decr (decr i)).

Definition preselectGb (bestAdaptativeCodebookGain : Z) : res Z :=
  let* i := while 14
    (λ i, if i <? 12 then
            let* g := ld2 GBCodebook i 0 in
            Ok (SHR g 5 <? bestAdaptativeCodebookGain)
          else Ok false)
    (λ i, Ok (i + 1)) 0 in
  Ok (decr (decr (decr (decr i)))).

(** ** The search *)

(** The error of eq63 without its constant term; [xy], [xz] and [yz] hold twice their terms. *)
Definition gainDistance (gp gc xy yy xz yz zz : Z) : Z :=
  let acc := MULT32_32 (MULT16_16 gp gp) yy in
  let acc := MAC64 acc (MULT16_16 gc gc) zz in
  let acc := MAC64 acc (i32 (Z.shiftl gp 14)) xy in
  let acc := MAC64 acc (i32 (Z.shiftl gc 14)) xz in
  MAC64 acc (MULT16_16 gp gc) yz.

Record gainSearch : Type := GainSearch {
  distanceMin : Z;
  indexGa : Z;
  indexGb : Z;
  quantizedAdaptativeCodebookGain : Z;
  quantizedFixedCodebookGain : Z
}.

Definition gainStep (xy yy xz yz zz predictedFixedCodebookGain ga gb : Z) (s : gainSearch)
    : res gainSearch :=
  let* a := ld2 GACodebook ga 0 in
  let* b := ld2 GBCodebook gb 0 in
  let gp := ADD16 a b in
  let* a := ld2 GACodebook ga 1 in
  let* b := ld2 GBCodebook gb 1 in
  let gamma := ADD16 a b in
  let gc := MULT16_16_Q14 gamma predictedFixedCodebookGain in
  let acc := gainDistance gp gc xy yy xz yz zz in
  if acc <? distanceMin s then Ok (GainSearch acc ga gb gp (i16 (SHR gc 1))) else Ok s.

Definition searchGains (t : terms) (predictedFixedCodebookGain indexBaseGa indexBaseGb : Z)
    (s : gainSearch) : res gainSearch :=
  let xy := i32 (- SSHL (t_xy t) 1) in
  let xz := i32 (- SSHL (t_xz t) 1) in
  let yz := SSHL (t_yz t) 1 in
  for_up 0 4 s (λ i s, for_up 0 8 s (λ j s,
    gainStep xy (t_yy t) xz yz (t_zz t) predictedFixedCodebookGain
      (i + indexBaseGa) (j + indexBaseGb) s)).

(** [(context, quantizedAdaptativeCodebookGain, quantizedFixedCodebookGain,
     gainCodebookStage1, gainCodebookStage2)]; the caller's values of the two gains are passed
    in, since they are written by the search only. *)
Definition gainQuantization (c : Enc.ctx) (targetSignal : list Z) (ox : Z)
    (filteredAdaptativeCodebookVector : list Z) (oy : Z) (convolvedFixedCodebookVector : list Z)
    (fixedCodebookVector : list Z) (xy64 yy64 adaptativeGain fixedGain : Z)
    : res (Enc.ctx * Z * Z * Z * Z) :=
  let* (xz64, yz64, zz64) := for_up 0 L_SUBFRAME (0, 0, 0) (λ i '(xz64, yz64, zz64),
    let* x := ld targetSignal (ox + i) in
    let* y := ld filteredAdaptativeCodebookVector (oy + i) in
    let* z := ld convolvedFixedCodebookVector i in
    Ok (MAC64 xz64 x z, MAC64 yz64 y z, MAC64 zz64 z z)) in
  let* t := scaleTerms xy64 yy64 xz64 yz64 zz64 in
  let* (bestAdaptativeCodebookGain, bestFixedCodebookGain) := bestGains t in
  let* p := MACodeGainPrediction (Enc.previousGainPredictionError c) fixedCodebookVector in
  let predictedFixedCodebookGain := i16 (Z.shiftr p 12) in
  let* indexBaseGa := preselectGa bestFixedCodebookGain predictedFixedCodebookGain in
  let* indexBaseGb := preselectGb bestAdaptativeCodebookGain in
  let* s := searchGains t predictedFixedCodebookGain indexBaseGa indexBaseGb
    (GainSearch MAXINT64 0 0 adaptativeGain fixedGain) in
  let* a := ld2 GACodebook (indexGa s) 1 in
  let* b := ld2 GBCodebook (indexGb s) 1 in
  let* e := computeGainPredictionError (ADD16 a b) (Enc.previousGainPredictionError c) in
  let* stage1 := ld indexMappingGA (indexGa s) in
  let* stage2 := ld indexMappingGB (indexGb s) in
  Ok (Enc.set_previousGainPredictionError e c, quantizedAdaptativeCodebookGain s,
      quantizedFixedCodebookGain s, stage1, stage2).

(** ** Scaled terms *)

(** Sizes of the scaled terms: [yy] and [zz] are energies on 31 bits, the cross terms leave
    room for their factor 2. *)
Record terms_ok (t : terms) : Prop := TermsOk {
  ok_xy : rng (-1073741824) 1073741823 (t_xy t);
  ok_yy : rng 0 2147483647 (t_yy t);
  ok_xz : rng (-1073741824) 1073741823 (t_xz t);
  ok_yz : rng (-1073741824) 1073741823 (t_yz t);
  ok_zz : rng 0 2147483647 (t_zz t)
}.

Definition cross64 (a : Z) : Prop := rng (-42949672960) 42949672960 a.
Definition energy64 (a : Z) : Prop := rng 0 42949672960 a.

Lemma wp_lowerNormalization F m x (Q : Z → Prop) : 0 ≤ x < 2147483648 → 0 ≤ m ≤ 31 →
  (∀ m', 0 ≤ m' ≤ m → x < 2 ^ (31 - m') → Q m') → wp F (lowerNormalization m x) Q.
Proof.
  intros Hx Hm HQ. unfold lowerNormalization. destruct (clz_bound x Hx) as (n & -> & Hn & Hb).
  cbn [bind wp]. destruct (Z.ltb_spec n m); apply HQ; [lia|done|lia|].
  eapply Z.lt_le_trans; [done|]. apply Z.pow_le_mono_r; lia.
Qed.

Lemma highPart_spec a : cross64 a → 0 ≤ highPart a < 2147483648 ∧
  ∀ P, highPart a < P → Z.abs a < P * 1073741824.
Proof.
  unfold cross64, highPart, rng. intros Ha.
  assert ((if a <? 0 then i64 (- a) else a) = Z.abs a) as ->.
  { destruct (Z.ltb_spec a 0); [rewrite i64_id by (unfold rng; lia)|]; lia. }
  rewrite Z.shiftr_div_pow2 by lia. change (2 ^ 30) with 1073741824.
  assert (0 ≤ Z.abs a / 1073741824 ≤ 40)
    by (split; [apply Z.div_pos; lia|apply Z.div_le_upper_bound; lia]).
  rewrite i32_id by (unfold rng; lia). split; [lia|]. intros P HP.
  pose proof (Z.div_mod (Z.abs a) 1073741824 ltac:(lia)).
  pose proof (Z.mod_pos_bound (Z.abs a) 1073741824 ltac:(lia)). lia.
Qed.

Lemma energyPart_spec a : energy64 a → 0 ≤ i32 (Z.shiftr a 31) < 2147483648 ∧
  ∀ P, i32 (Z.shiftr a 31) < P → 0 ≤ a < P * 2147483648.
Proof.
  unfold energy64, rng. intros Ha. rewrite Z.shiftr_div_pow2 by lia. change (2 ^ 31) with 2147483648.
  assert (0 ≤ a / 2147483648 ≤ 20)
    by (split; [apply Z.div_pos; lia|apply Z.div_le_upper_bound; lia]).
  rewrite i32_id by (unfold rng; lia). split; [lia|]. intros P HP.
  pose proof (Z.div_mod a 2147483648 ltac:(lia)).
  pose proof (Z.mod_pos_bound a 2147483648 ltac:(lia)). lia.
Qed.

Lemma shiftr_term a M B : 0 ≤ M → Z.abs a < 2 ^ M * B → - B ≤ Z.shiftr a M < B.
Proof.
  intros HM Ha. rewrite Z.shiftr_div_pow2 by done.
  pose proof (Z.pow_pos_nonneg 2 M ltac:(lia) HM).
  split; [apply Z.div_le_lower_bound|apply Z.div_lt_upper_bound]; nia.
Qed.

Lemma shiftr_nonneg_term a M B : 0 ≤ M → 0 ≤ a < 2 ^ M * B → 0 ≤ Z.shiftr a M < B.
Proof.
  intros HM Ha. pose proof (shiftr_term a M B HM ltac:(lia)).
  split; [apply Z.shiftr_nonneg; lia|lia].
Qed.

Lemma wp_scaleTerms F xy yy xz yz zz (Q : terms → Prop) :
  cross64 xy → energy64 yy → cross64 xz → cross64 yz → energy64 zz →
  (∀ t, terms_ok t → Q t) → wp F (scaleTerms xy yy xz yz zz) Q.
Proof.
  intros Hxy Hyy Hxz Hyz Hzz HQ. unfold scaleTerms. cbv zeta.
  destruct (highPart_spec xy Hxy) as [? Bxy]. destruct (highPart_spec xz Hxz) as [? Bxz].
  destruct (highPart_spec yz Hyz) as [? Byz].
  destruct (energyPart_spec yy Hyy) as [? Byy]. destruct (energyPart_spec zz Hzz) as [? Bzz].
  wp_step. apply wp_lowerNormalization; [done|lia|]. intros m1 ? P1.
  wp_step. apply wp_lowerNormalization; [done|lia|]. intros m2 ? P2.
  wp_step. apply wp_lowerNormalization; [done|lia|]. intros m3 ? P3.
  wp_step. apply wp_lowerNormalization; [done|lia|]. intros m4 ? P4.
  wp_step. apply wp_lowerNormalization; [done|lia|]. intros m ? P5.
  apply Bxy in P1. apply Bxz in P2. apply Byz in P3. apply Byy in P4. apply Bzz in P5.
  clear Bxy Bxz Byz Byy Bzz.
  assert (∀ m', m ≤ m' ≤ 31 → 2 ^ (31 - m') ≤ 2 ^ (31 - m)) as Hmono
    by (intros; apply Z.pow_le_mono_r; lia).
  pose proof (Hmono m1 ltac:(lia)). pose proof (Hmono m2 ltac:(lia)). pose proof (Hmono m3 ltac:(lia)).
  pose proof (Hmono m4 ltac:(lia)).
  destruct (Z.ltb_spec m 31).
  - rewrite u16_id by (unfold rng; lia).
    pose proof (shiftr_term xy (31 - m) 1073741824 ltac:(lia) ltac:(lia)).
    pose proof (shiftr_term xz (31 - m) 1073741824 ltac:(lia) ltac:(lia)).
    pose proof (shiftr_term yz (31 - m) 1073741824 ltac:(lia) ltac:(lia)).
    pose proof (shiftr_nonneg_term yy (31 - m) 2147483648 ltac:(lia) ltac:(lia)).
    pose proof (shiftr_nonneg_term zz (31 - m) 2147483648 ltac:(lia) ltac:(lia)).
    do 5 (wp_step; apply wp_shr64_chk; [lia|]). apply HQ.
    split; cbn [t_xy t_yy t_xz t_yz t_zz]; rewrite i32_id; unfold rng; lia.
  - replace m with 31 in * by lia. change (2 ^ (31 - 31)) with 1 in *. apply HQ.
    split; cbn [t_xy t_yy t_xz t_yz t_zz]; rewrite i32_id; unfold rng; lia.
Qed.

(** ** The divisions of the best gains are defined *)

Lemma mul_abs_le a b A B : Z.abs a ≤ A → Z.abs b ≤ B → Z.abs (a * b) ≤ A * B.
Proof. intros. rewrite Z.abs_mul. apply Z.mul_le_mono_nonneg; lia. Qed.

Lemma mul_rng a b A B : rng (- A) A a → rng (- B) B b → rng (- (A * B)) (A * B) (a * b).
Proof. unfold rng. intros. pose proof (mul_abs_le a b A B ltac:(lia) ltac:(lia)). lia. Qed.

Lemma MULT32_32_exact a b A B : Z.abs a ≤ A → Z.abs b ≤ B → A ≤ 2147483648 → B ≤ 2147483648 →
  MULT32_32 a b = a * b.
Proof.
  intros Ha Hb HA HB. pose proof (mul_abs_le a b 2147483648 2147483648 ltac:(lia) ltac:(lia)).
  unfold MULT32_32. by rewrite (i64_id a), (i64_id b), i64_id by (unfold rng; lia).
Qed.

Lemma MAC64_id s a b : Z.abs a ≤ 2147483648 → Z.abs b ≤ 2147483648 → i64r s → i64r (s + a * b) →
  MAC64 s a b = s + a * b.
Proof.
  intros Ha Hb Hs Hr. pose proof (mul_abs_le a b 2147483648 2147483648 ltac:(lia) ltac:(lia)).
  unfold MAC64. by rewrite (i64_id s), (i64_id a), (i64_id b), (i64_id (a * b)), i64_id by (done || (unfold rng; lia)).
Qed.

(** The dividend is never the most negative number, whatever the sign of the divisor. *)
Lemma wp_DIV64_any F a b (Q : Z → Prop) :
  rng (-9223372036854775807) 9223372036854775807 a → i64r b → b ≠ 0 → (∀ v, Q v) →
  wp F (DIV64 a b) Q.
Proof.
  unfold DIV64. intros Ha Hb Hnz HQ. rewrite (i64_id a), (i64_id b) by (done || (unfold rng in *; lia)).
  destruct (_ || _) eqn:E; [unfold rng in *; lia|]. apply HQ.
Qed.

Lemma wp_shiftedQuotient F n d k (Q : Z → Prop) :
  Z.abs n ≤ 4611686018427387904 → i64r d → d ≠ 0 → 0 ≤ k ≤ 14 → (∀ v, i32r v → Q v) →
  wp F (shiftedQuotient n d k) Q.
Proof.
  intros Hn Hd Hnz Hk HQ. unfold shiftedQuotient. cbv zeta.
  rewrite Z.shiftr_div_pow2 by lia. change (2 ^ 32) with 4294967296.
  pose proof (Z.div_mod n 4294967296 ltac:(lia)) as Hdm.
  pose proof (Z.mod_pos_bound n 4294967296 ltac:(lia)). set (h := n / 4294967296) in *. clearbody h.
  rewrite (i32_id h) by (unfold rng; lia).
  assert ((if 0 <? h then h else i32 (- h)) = Z.abs h) as ->.
  { destruct (Z.ltb_spec 0 h); [|rewrite i32_id by (unfold rng; lia)]; lia. }
  destruct (clz_bound (Z.abs h) ltac:(lia)) as (z & -> & Hz & Hb). cbn [bind].
  assert (∀ j, 0 ≤ j ≤ z → Z.abs (n * 2 ^ j) ≤ 9223372036854775807) as Hsh.
  { intros j Hj. assert (2 ^ j ≤ 2 ^ z) by (apply Z.pow_le_mono_r; lia).
    assert (2 ^ z * 2 ^ (31 - z) = 2147483648) by (rewrite <-Z.pow_add_r by lia; by replace (z + (31 - z)) with 31 by lia).
    assert (0 < 2 ^ j) by (apply Z.pow_pos_nonneg; lia).
    assert (Z.abs n ≤ 4294967296 * 2 ^ (31 - z) - 1) by lia.
    rewrite Z.abs_mul, (Z.abs_eq (2 ^ j)) by lia.
    assert (Z.abs n * 2 ^ j ≤ (4294967296 * 2 ^ (31 - z) - 1) * 2 ^ z) by (apply Z.mul_le_mono_nonneg; lia).
    lia. }
  destruct (Z.leb_spec k z).
  - specialize (Hsh k ltac:(lia)). wp_step. apply wp_DIV64_any; [|done..|].
    + unfold SSHL64. rewrite !Z.shiftl_mul_pow2 by lia.
      destruct (Z.ltb_spec n 0).
      * rewrite (i64_id (- n)), Z.mul_opp_l by (unfold rng; lia).
        rewrite (i64_id (- (n * 2 ^ k))), i64_id by (unfold rng; lia). unfold rng. lia.
      * rewrite (i64_id n), i64_id by (unfold rng; lia). unfold rng. lia.
    + intros v. apply HQ, i32_rng.
  - specialize (Hsh z ltac:(lia)). wp_step. apply wp_shr64_chk; [lia|]. wp_step.
    apply wp_shl64_chk; [lia|]. rewrite Z.shiftl_mul_pow2 by lia. rewrite i64_id by (unfold rng; lia).
    destruct (Z.ltb_spec 0 (Z.shiftr d (k - z))).
    + wp_step. apply wp_DIV64_any; [unfold rng; lia|apply shiftr_rng; [lia..|done]|lia|].
      intros v. apply HQ, i32_rng.
    + wp_step. apply wp_DIV64_any; [unfold rng; lia|done..|]. intros v.
      apply wp_shl_chk; [lia|]. apply HQ, i32_rng.
Qed.

Lemma wp_bestGains F t (Q : Z * Z → Prop) :
  terms_ok t → (∀ a f, i32r a → i32r f → Q (a, f)) → wp F (bestGains t) Q.
Proof.
  intros [Hxy Hyy Hxz Hyz Hzz] HQ. unfold bestGains. cbv zeta.
  destruct t as [xy yy xz yz zz]. cbn [t_xy t_yy t_xz t_yz t_zz] in *.
  assert (∀ e c c' y, rng 0 2147483647 e → rng (-1073741824) 1073741823 c → rng (-1073741824) 1073741823 c' →
    rng (-1073741824) 1073741823 y → Z.abs (MAC64 (MULT32_32 e c) (i32 (- c')) y) ≤ 4611686018427387904) as HN.
  { unfold rng. intros e c c' y ? ? ? ?. rewrite (i32_id (- c')) by (unfold rng; lia).
    pose proof (mul_abs_le e c 2147483648 1073741824 ltac:(lia) ltac:(lia)).
    pose proof (mul_abs_le (- c') y 1073741824 1073741824 ltac:(lia) ltac:(lia)).
    rewrite (MULT32_32_exact e c 2147483648 2147483648) by lia.
    rewrite MAC64_id by (unfold rng; lia). lia. }
  destruct (Z.eqb_spec (MAC64 (MULT32_32 yy zz) (i32 (- yz)) yz) 0).
  - apply HQ; apply i32_rng.
  - wp_step. apply wp_shiftedQuotient; [by apply HN|apply i64_rng|done|lia|]. intros a Ha.
    wp_step. apply wp_shiftedQuotient; [by apply HN|apply i64_rng|done|lia|]. intros f Hf.
    unfold wp. auto.
Qed.

(** The unquantized gains that best fit eq63: the numerators and the denominator of
    their quotients, and the quotients themselves, in Q9 and Q2, when the numerators can be
    shifted to these formats within 64 bits. *)
Definition exactNumeratorA (t : terms) : Z := t_zz t * t_xy t - t_xz t * t_yz t.
Definition exactNumeratorF (t : terms) : Z := t_yy t * t_xz t - t_xy t * t_yz t.
Definition exactDenominator (t : terms) : Z := t_yy t * t_zz t - t_yz t * t_yz t.

Definition best_gains (t : terms) (a f : Z) : Prop :=
  exactDenominator t ≠ 0 →
  (Z.abs (exactNumeratorA t) < 9007199254740992 → a = i32 (Z.quot (exactNumeratorA t * 512) (exactDenominator t))) ∧
  (Z.abs (exactNumeratorF t) < 281474976710656 → f = i32 (Z.quot (exactNumeratorF t * 16384) (exactDenominator t))).

Lemma shiftedQuotient_exact n d k : 0 ≤ k ≤ 14 → Z.abs n < 2 ^ (62 - k) → i64r d → d ≠ 0 →
  shiftedQuotient n d k = Ok (i32 (Z.quot (n * 2 ^ k) d)).
Proof.
  intros Hk Hn Hd Hnz. assert (2 ^ (62 - k) * 2 ^ k = 4611686018427387904) as E62
    by (rewrite <-Z.pow_add_r by lia; by replace (62 - k + k) with 62 by lia).
  assert (1 ≤ 2 ^ k) as Hk1 by (pose proof (Z.pow_pos_nonneg 2 k ltac:(lia) ltac:(lia)); lia).
  assert (Z.abs (n * 2 ^ k) < 4611686018427387904) as Hs
    by (rewrite Z.abs_mul, (Z.abs_eq (2 ^ k)) by lia; rewrite <-E62; apply Z.mul_lt_mono_pos_r; lia).
  assert (Z.abs n < 4611686018427387904) as Hn' by nia.
  assert (2 ^ (62 - k) = 4294967296 * 2 ^ (30 - k)) as E30
    by (change 4294967296 with (2 ^ 32); rewrite <-Z.pow_add_r by lia; f_equal; lia).
  unfold shiftedQuotient. cbv zeta. rewrite Z.shiftr_div_pow2 by lia. change (2 ^ 32) with 4294967296.
  pose proof (Z.div_mod n 4294967296 ltac:(lia)) as Hdm. pose proof (Z.mod_pos_bound n 4294967296 ltac:(lia)).
  set (h := n / 4294967296) in *. clearbody h. rewrite (i32_id h) by (unfold rng; lia).
  assert ((if 0 <? h then h else i32 (- h)) = Z.abs h) as ->
    by (destruct (Z.ltb_spec 0 h); [|rewrite i32_id by (unfold rng; lia)]; lia).
  assert (Z.abs h ≤ 2 ^ (30 - k)) as Hh by lia.
  assert (∃ z, countLeadingZeros (Z.abs h) = Ok z ∧ k ≤ z) as (z & -> & Hz).
  { destruct (Z.eq_dec (Z.abs h) 0) as [->|Hh0]; [by exists 31; split; [|lia]|].
    rewrite countLeadingZeros_pos by lia. eexists. split; [done|].
    pose proof (Z.log2_le_mono (Z.abs h) (2 ^ (30 - k)) Hh) as HL. rewrite Z.log2_pow2 in HL by lia. lia. }
  cbn [bind]. rewrite (proj2 (Z.leb_le k z)) by done.
  assert (SSHL64 n k = n * 2 ^ k) as ->.
  { unfold SSHL64. rewrite !Z.shiftl_mul_pow2 by lia. destruct (Z.ltb_spec n 0).
    - rewrite (i64_id (- n)), Z.mul_opp_l by (unfold rng; lia).
      rewrite (i64_id (- (n * 2 ^ k))), i64_id by (unfold rng; lia). lia.
    - by rewrite (i64_id n), i64_id by (unfold rng; lia). }
  unfold DIV64. rewrite (i64_id (n * 2 ^ k)), (i64_id d) by (done || (unfold rng; lia)).
  destruct (_ || _) eqn:E; [unfold rng in *; lia|done].
Qed.

Lemma exact_term e c c' y : rng 0 2147483647 e → Z.abs c ≤ 2147483648 → rng (-1073741824) 1073741824 c' →
  rng (-1073741824) 1073741824 y → MAC64 (MULT32_32 e c) (i32 (- c')) y = e * c - c' * y.
Proof.
  unfold rng. intros. rewrite (i32_id (- c')) by (unfold rng; lia).
  pose proof (mul_abs_le e c 2147483648 2147483648 ltac:(lia) ltac:(lia)).
  pose proof (mul_abs_le (- c') y 1073741824 1073741824 ltac:(lia) ltac:(lia)).
  rewrite (MULT32_32_exact e c 2147483648 2147483648) by lia. rewrite MAC64_id by (unfold rng; lia). lia.
Qed.

Lemma bestGains_exact t : terms_ok t → ∃ a f, bestGains t = Ok (a, f) ∧ i32r a ∧ i32r f ∧ best_gains t a f.
Proof.
  intros Ht. destruct (proj1 (safe_ok _ _) (wp_bestGains no_fault t (λ '(a, f), i32r a ∧ i32r f) Ht (λ _ _ Ha Hf, conj Ha Hf)))
    as ([a f] & E & Ha & Hf).
  exists a, f. split_and!; [done..|]. intros Hnz. destruct Ht as [Hxy Hyy Hxz Hyz Hzz]. unfold bestGains in E. cbv zeta in E.
  rewrite !exact_term in E by (unfold rng in *; lia).
  fold (exactNumeratorA t) (exactNumeratorF t) (exactDenominator t) in E.
  destruct (Z.eqb_spec (exactDenominator t) 0); [done|].
  assert (i64r (exactDenominator t)) as Hd.
  { unfold exactDenominator. pose proof (mul_abs_le (t_yy t) (t_zz t) 2147483648 2147483648 ltac:(unfold rng in *; lia) ltac:(unfold rng in *; lia)).
    pose proof (mul_abs_le (t_yz t) (t_yz t) 1073741824 1073741824 ltac:(unfold rng in *; lia) ltac:(unfold rng in *; lia)).
    unfold rng. lia. }
  destruct (shiftedQuotient (exactNumeratorA t) _ 9) as [a'|] eqn:EA; [|done]. cbn [bind] in E.
  destruct (shiftedQuotient (exactNumeratorF t) _ 14) as [f'|] eqn:EF; [|done]. cbn [bind] in E. injection E as -> ->.
  split; intros Hn; [rewrite shiftedQuotient_exact in EA by (done || lia)|rewrite shiftedQuotient_exact in EF by (done || lia)];
    [injection EA as <-|injection EF as <-]; reflexivity.
Qed.

(** ** Preselection *)

(** The window of the first stage starts two entries (as far as there are so many) before the
    first of the six entries whose fixed codebook gain reaches the best one, in Q2; that of the
    second stage four entries before the first of the twelve whose adaptative codebook gain
    reaches the best one, in Q9. *)
Definition first_reaching (n : Z) (g : Z → Z) (best k : Z) : Prop :=
  0 ≤ k ≤ n ∧ (∀ i, 0 ≤ i < k → g i < best) ∧ (k < n → best ≤ g k).
Definition stageGa (predictedGain i : Z) : Z := cell GACodebook i 1 * predictedGain / 16384.
Definition stageGb (i : Z) : Z := cell GBCodebook i 0 / 32.
Definition preselectedGa (bestFixedGain predictedGain ba : Z) : Prop :=
  ∃ k, first_reaching 6 (stageGa predictedGain) bestFixedGain k ∧ ba = Z.max 0 (k - 2).
Definition preselectedGb (bestAdaptativeGain bb : Z) : Prop :=
  ∃ k, first_reaching 12 stageGb bestAdaptativeGain k ∧ bb = Z.max 0 (k - 4).

Lemma preselectedGa_range f p ba : preselectedGa f p ba → 0 ≤ ba ≤ 4.
Proof. intros (k & [Hk _] & ->). lia. Qed.
Lemma preselectedGb_range a bb : preselectedGb a bb → 0 ≤ bb ≤ 8.
Proof. intros (k & [Hk _] & ->). lia. Qed.

Lemma wp_reachingLoop F n g best (c : Z → res bool) fuel (Q : Z → Prop) : 0 ≤ n < Z.of_nat fuel →
  (∀ i, 0 ≤ i < n → c i = Ok (g i <? best)) → c n = Ok false → (∀ k, first_reaching n g best k → Q k) →
  wp F (while fuel c (λ i, Ok (i + 1)) 0) Q.
Proof.
  intros Hn Hc Hend HQ.
  apply wp_while with (I := λ i, 0 ≤ i ≤ n ∧ ∀ j, 0 ≤ j < i → g j < best) (μ := λ i, n - i); [split; lia|lia|lia|].
  intros i [Hi HI]. destruct (Z.eq_dec i n) as [->|].
  - rewrite Hend. apply HQ. split_and!; [lia..|done|lia].
  - rewrite Hc by lia. cbn [wp]. destruct (Z.ltb_spec (g i) best).
    + cbn [wp]. split; [|lia]. split; [lia|]. intros j Hj. destruct (Z.eq_dec j i) as [->|]; [done|apply HI; lia].
    + apply HQ. split_and!; done || lia.
Qed.

Lemma GA_gain i : 0 ≤ i < 8 → ld2 GACodebook i 1 = Ok (cell GACodebook i 1) ∧ rng 0 32767 (cell GACodebook i 1).
Proof.
  intros H. assert (i = 0 ∨ i = 1 ∨ i = 2 ∨ i = 3 ∨ i = 4 ∨ i = 5 ∨ i = 6 ∨ i = 7) as C by lia.
  destruct_or! C; subst i; (split; [reflexivity|vm_compute; split; discriminate]).
Qed.
Lemma GB_gain i : 0 ≤ i < 16 → ld2 GBCodebook i 0 = Ok (cell GBCodebook i 0) ∧ rng 0 32767 (cell GBCodebook i 0).
Proof.
  intros H. assert (i = 0 ∨ i = 1 ∨ i = 2 ∨ i = 3 ∨ i = 4 ∨ i = 5 ∨ i = 6 ∨ i = 7 ∨ i = 8
    ∨ i = 9 ∨ i = 10 ∨ i = 11 ∨ i = 12 ∨ i = 13 ∨ i = 14 ∨ i = 15) as C by lia.
  destruct_or! C; subst i; (split; [reflexivity|vm_compute; split; discriminate]).
Qed.

Lemma wp_preselectGa F f p (Q : Z → Prop) : i16r p → (∀ i, preselectedGa f p i → Q i) → wp F (preselectGa f p) Q.
Proof.
  intros Hp HQ. unfold preselectGa. wp_step. apply wp_reachingLoop with (n := 6) (g := stageGa p) (best := f); [lia| |done|].
  - intros i Hi. destruct (Z.ltb_spec i 6); [|lia]. destruct (GA_gain i ltac:(lia)) as [-> Hg]. cbn [bind]. do 2 f_equal.
    unfold MULT16_16_Q14, MULT16_16_Q, MULT16_16, SHR, stageGa. unfold rng in *.
    rewrite (i32_id (cell _ _ _)), (i32_id p), i32_id by (unfold rng; nia).
    by rewrite Z.shiftr_div_pow2 by lia.
  - intros k Hk. wp_step. apply HQ. exists k. split; [done|]. destruct Hk as [Hk _]. unfold decr. repeat case_match; lia.
Qed.

Lemma wp_preselectGb F a (Q : Z → Prop) : (∀ i, preselectedGb a i → Q i) → wp F (preselectGb a) Q.
Proof.
  intros HQ. unfold preselectGb. wp_step. apply wp_reachingLoop with (n := 12) (g := stageGb) (best := a); [lia| |done|].
  - intros i Hi. destruct (Z.ltb_spec i 12); [|lia]. destruct (GB_gain i ltac:(lia)) as [-> Hg]. cbn [bind]. do 2 f_equal.
    unfold SHR, stageGb. by rewrite Z.shiftr_div_pow2 by lia.
  - intros k Hk. wp_step. apply HQ. exists k. split; [done|]. destruct Hk as [Hk _]. unfold decr. repeat case_match; lia.
Qed.

(** ** The distance is computed without overflow *)

(** The gains of a pair of indices: [gp] in Q14, [gamma] in Q12, [gc] in Q2. *)
Definition gpOf (ga gb : Z) : Z := cell GACodebook ga 0 + cell GBCodebook gb 0.
Definition gammaOf (ga gb : Z) : Z := cell GACodebook ga 1 + cell GBCodebook gb 1.
Definition gcOf (pred ga gb : Z) : Z := gammaOf ga gb * pred / 16384.

(** The error of eq63 in exact arithmetic. *)
Definition exactDistance (t : terms) (gp gc : Z) : Z :=
  gp * gp * t_yy t + gc * gc * t_zz t - 32768 * gp * t_xy t - 32768 * gc * t_xz t
  + 2 * gp * gc * t_yz t.

Lemma GA_cells i : 0 ≤ i < 8 → ld2 GACodebook i 0 = Ok (cell GACodebook i 0) ∧
  ld2 GACodebook i 1 = Ok (cell GACodebook i 1) ∧
  0 ≤ cell GACodebook i 0 ≤ 3242 ∧ 0 ≤ cell GACodebook i 1 ≤ 13581.
Proof.
  intros Hi. assert (i = 0 ∨ i = 1 ∨ i = 2 ∨ i = 3 ∨ i = 4 ∨ i = 5 ∨ i = 6 ∨ i = 7) as E by lia.
  destruct_or! E; subst i; by vm_compute.
Qed.

Lemma GB_cells i : 0 ≤ i < 16 → ld2 GBCodebook i 0 = Ok (cell GBCodebook i 0) ∧
  ld2 GBCodebook i 1 = Ok (cell GBCodebook i 1) ∧
  0 ≤ cell GBCodebook i 0 ≤ 18973 ∧ 0 ≤ cell GBCodebook i 1 ≤ 7138.
Proof.
  intros Hi. assert (i = 0 ∨ i = 1 ∨ i = 2 ∨ i = 3 ∨ i = 4 ∨ i = 5 ∨ i = 6 ∨ i = 7 ∨ i = 8 ∨ i = 9
    ∨ i = 10 ∨ i = 11 ∨ i = 12 ∨ i = 13 ∨ i = 14 ∨ i = 15) as E by lia.
  destruct_or! E; subst i; by vm_compute.
Qed.

Lemma gains_bounds pred ga gb : 0 ≤ ga < 8 → 0 ≤ gb < 16 → i16r pred →
  0 ≤ gpOf ga gb ≤ 22215 ∧ 0 ≤ gammaOf ga gb ≤ 20719 ∧ -41438 ≤ gcOf pred ga gb ≤ 41438.
Proof.
  intros Ha Hb Hp. destruct (GA_cells ga Ha) as (_ & _ & ? & ?). destruct (GB_cells gb Hb) as (_ & _ & ? & ?).
  unfold gcOf, gpOf, gammaOf, rng in *. split; [lia|]. split; [lia|].
  set (g := cell GACodebook ga 1 + cell GBCodebook gb 1) in *.
  assert (0 ≤ g ≤ 20719) by lia. clearbody g.
  split; [apply Z.div_le_lower_bound|apply Z.div_le_upper_bound]; nia.
Qed.

Lemma gainDistance_exact gp gc xy yy xz yz zz :
  0 ≤ gp ≤ 22215 → -41438 ≤ gc ≤ 41438 → i32r xy → rng 0 2147483647 yy → i32r xz → i32r yz →
  rng 0 2147483647 zz →
  let d := gp * gp * yy + gc * gc * zz + 16384 * gp * xy + 16384 * gc * xz + gp * gc * yz in
  gainDistance gp gc xy yy xz yz zz = d ∧ d < MAXINT64.
Proof.
  intros Hgp Hgc Hxy Hyy Hxz Hyz Hzz. unfold rng in *.
  pose proof (mul_rng gp gp 22215 22215 ltac:(unfold rng; lia) ltac:(unfold rng; lia)) as Hpp.
  pose proof (mul_rng gc gc 41438 41438 ltac:(unfold rng; lia) ltac:(unfold rng; lia)) as Hcc.
  pose proof (mul_rng gp gc 22215 41438 ltac:(unfold rng; lia) ltac:(unfold rng; lia)) as Hpc.
  unfold gainDistance, MAXINT64. cbv zeta.
  rewrite !Z.shiftl_mul_pow2, !(Z.mul_comm _ (2 ^ 14)) by lia. change (2 ^ 14) with 16384.
  unfold MULT16_16. rewrite (i32_id gp), (i32_id gc) by (unfold rng; lia).
  rewrite (i32_id (gp * gp)), (i32_id (gc * gc)), (i32_id (gp * gc)), (i32_id (16384 * gp)), (i32_id (16384 * gc))
    by (unfold rng in *; lia).
  pose proof (mul_rng (gp * gp) yy _ 2147483648 Hpp ltac:(unfold rng; lia)) as H1.
  pose proof (mul_rng (gc * gc) zz _ 2147483648 Hcc ltac:(unfold rng; lia)) as H2.
  pose proof (mul_rng (gp * gc) yz _ 2147483648 Hpc ltac:(unfold rng; lia)) as H3.
  pose proof (mul_rng (16384 * gp) xy 363970560 2147483648 ltac:(unfold rng; lia) ltac:(unfold rng; lia)) as H4.
  pose proof (mul_rng (16384 * gc) xz 678920192 2147483648 ltac:(unfold rng; lia) ltac:(unfold rng; lia)) as H5.
  set (pp := gp * gp) in *. set (cc := gc * gc) in *. set (pc := gp * gc) in *.
  set (p14 := 16384 * gp) in *. set (c14 := 16384 * gc) in *.
  assert (rng (-363970560) 363970560 p14 ∧ rng (-678920192) 678920192 c14) as [B4 B5] by (unfold rng; lia).
  unfold rng in *. clearbody pp cc pc p14 c14. clear Hgp Hgc gp gc.
  rewrite (MULT32_32_exact _ _ 2147483648 2147483648) by lia.
  set (q1 := pp * yy) in *. set (q2 := cc * zz) in *. set (q3 := pc * yz) in *.
  set (q4 := p14 * xy) in *. set (q5 := c14 * xz) in *.
  rewrite (MAC64_id q1), (MAC64_id (q1 + _)), (MAC64_id (q1 + _ + _)), (MAC64_id (q1 + _ + _ + _))
    by (fold q2 q4 q5 q3; unfold rng; lia).
  fold q2 q4 q5 q3. clearbody q1 q2 q3 q4 q5. lia.
Qed.

Lemma doubled_terms a : rng (-1073741824) 1073741823 a →
  SSHL a 1 = 2 * a ∧ (a ≠ -1073741824 → i32 (- SSHL a 1) = - (2 * a)).
Proof.
  unfold rng, SSHL. intros Ha. rewrite !Z.shiftl_mul_pow2 by lia. change (2 ^ 1) with 2.
  destruct (Z.eq_dec a (-1073741824)) as [->|]; [by vm_compute|].
  assert ((if a <? 0 then i32 (- i32 (i32 (- a) * 2)) else i32 (i32 a * 2)) = 2 * a) as ->.
  { destruct (Z.ltb_spec a 0).
    - rewrite (i32_id (- a)), (i32_id (- a * 2)), i32_id by (unfold rng; lia). lia.
    - rewrite (i32_id a), i32_id by (unfold rng; lia). lia. }
  split; [done|]. intros _. apply i32_id. unfold rng. lia.
Qed.

(** The distance of a pair of indices, as [searchGains] computes it. *)
Definition pairDistance (t : terms) (pred ga gb : Z) : Z :=
  gainDistance (gpOf ga gb) (gcOf pred ga gb) (i32 (- SSHL (t_xy t) 1)) (t_yy t)
    (i32 (- SSHL (t_xz t) 1)) (SSHL (t_yz t) 1) (t_zz t).

Lemma pairDistance_lt t pred ga gb : terms_ok t → i16r pred → 0 ≤ ga < 8 → 0 ≤ gb < 16 →
  pairDistance t pred ga gb < MAXINT64.
Proof.
  intros [? ? ? ? ?] Hp Ha Hb. destruct (gains_bounds pred ga gb Ha Hb Hp) as (? & _ & ?).
  unfold pairDistance.
  match goal with |- gainDistance ?gp ?gc ?xy ?yy ?xz ?yz ?zz < _ =>
    destruct (gainDistance_exact gp gc xy yy xz yz zz) as [-> H']; [auto with rng..|] end.
  exact H'.
Qed.

Lemma pairDistance_exact t pred ga gb : terms_ok t → i16r pred → 0 ≤ ga < 8 → 0 ≤ gb < 16 →
  t_xy t ≠ -1073741824 → t_xz t ≠ -1073741824 →
  pairDistance t pred ga gb = exactDistance t (gpOf ga gb) (gcOf pred ga gb).
Proof.
  intros [Hxy ? Hxz Hyz ?] Hp Ha Hb N1 N2. destruct (gains_bounds pred ga gb Ha Hb Hp) as (? & _ & ?).
  unfold pairDistance.
  match goal with |- gainDistance ?gp ?gc ?xy ?yy ?xz ?yz ?zz = _ =>
    destruct (gainDistance_exact gp gc xy yy xz yz zz) as [-> _]; [auto with rng..|] end.
  rewrite (proj2 (doubled_terms _ Hxy) N1), (proj2 (doubled_terms _ Hxz) N2), (proj1 (doubled_terms _ Hyz)).
  unfold exactDistance. lia.
Qed.

(** ** The search finds the best preselected pair *)

(** The state of the search when the pair [(ga, gb)] is retained. *)
Definition retained (t : terms) (pred ga gb : Z) : gainSearch :=
  GainSearch (pairDistance t pred ga gb) ga gb (gpOf ga gb) (i16 (SHR (gcOf pred ga gb) 1)).

Lemma gainStep_run t pred ga gb s : 0 ≤ ga < 8 → 0 ≤ gb < 16 → i16r pred →
  gainStep (i32 (- SSHL (t_xy t) 1)) (t_yy t) (i32 (- SSHL (t_xz t) 1)) (SSHL (t_yz t) 1) (t_zz t) pred ga gb s =
    Ok (if pairDistance t pred ga gb <? distanceMin s then retained t pred ga gb else s).
Proof.
  intros Ha Hb Hp. unfold gainStep. destruct (gains_bounds pred ga gb Ha Hb Hp) as (Hgp & Hga & _).
  destruct (GA_cells ga Ha) as (-> & -> & ? & ?). destruct (GB_cells gb Hb) as (-> & -> & ? & ?).
  cbn [bind]. cbv zeta. unfold ADD16.
  rewrite (i16_id (cell GACodebook ga 0)), (i16_id (cell GBCodebook gb 0)),
    (i16_id (cell GACodebook ga 1)), (i16_id (cell GBCodebook gb 1)) by (unfold rng; lia).
  fold (gpOf ga gb) (gammaOf ga gb). rewrite (i16_id (gpOf ga gb)), (i16_id (gammaOf ga gb)) by (unfold rng; lia).
  assert (MULT16_16_Q14 (gammaOf ga gb) pred = gcOf pred ga gb) as ->.
  { unfold MULT16_16_Q14, MULT16_16_Q, SHR, MULT16_16, gcOf. unfold rng in Hp.
    rewrite (i32_id (gammaOf ga gb)), (i32_id pred), i32_id by (unfold rng; nia).
    by rewrite Z.shiftr_div_pow2 by lia. }
  unfold retained, pairDistance. destruct (_ <? _); reflexivity.
Qed.

Section Search.
Context (t : terms) (pred ba bb : Z) (init : gainSearch).
Context (Ht : terms_ok t) (Hpred : i16r pred) (Hba : 0 ≤ ba ≤ 4) (Hbb : 0 ≤ bb ≤ 8).
Context (Hinit : distanceMin init = MAXINT64).

(** After the first [n] pairs, in the order of the loops: one of them is retained and none
    is closer. *)
Definition searched (n : Z) (s : gainSearch) : Prop :=
  n = 0 ∧ s = init ∨
  ∃ i j, 0 ≤ i < 4 ∧ 0 ≤ j < 8 ∧ s = retained t pred (i + ba) (j + bb) ∧
    ∀ i' j', 0 ≤ i' < 4 → 0 ≤ j' < 8 → 8 * i' + j' < n →
      pairDistance t pred (i + ba) (j + bb) ≤ pairDistance t pred (i' + ba) (j' + bb).

Lemma searched_step i j s : 0 ≤ i < 4 → 0 ≤ j < 8 → searched (8 * i + j) s →
  searched (8 * i + j + 1)
    (if pairDistance t pred (i + ba) (j + bb) <? distanceMin s then retained t pred (i + ba) (j + bb) else s).
Proof.
  intros Hi Hj Hs. right. pose proof (pairDistance_lt t pred (i + ba) (j + bb) Ht Hpred ltac:(lia) ltac:(lia)) as Hlt.
  assert (∀ i' j', 0 ≤ i' < 4 → 0 ≤ j' < 8 → 8 * i' + j' < 8 * i + j + 1 →
    8 * i' + j' < 8 * i + j ∨ i' = i ∧ j' = j) as Hcase by lia.
  destruct Hs as [[Hn ->] | (i0 & j0 & ? & ? & -> & Hmin)].
  - rewrite Hinit. destruct (Z.ltb_spec (pairDistance t pred (i + ba) (j + bb)) MAXINT64); [|lia].
    exists i, j. split_and!; [lia..|done|]. intros i' j' ? ? ?.
    destruct (Hcase i' j') as [?|[-> ->]]; [done..|lia|lia].
  - cbn [retained distanceMin].
    destruct (Z.ltb_spec (pairDistance t pred (i + ba) (j + bb)) (pairDistance t pred (i0 + ba) (j0 + bb))).
    + exists i, j. split_and!; [lia..|done|]. intros i' j' ? ? ?.
      destruct (Hcase i' j') as [?|[-> ->]]; [done..| |lia]. etransitivity; [apply Z.lt_le_incl; eassumption|].
      apply Hmin; lia.
    + exists i0, j0. split_and!; [lia..|done|]. intros i' j' ? ? ?.
      destruct (Hcase i' j') as [?|[-> ->]]; [done..| |lia]. apply Hmin; lia.
Qed.

Lemma searchGains_spec : safe (searchGains t pred ba bb init) (searched 32).
Proof.
  unfold searchGains. cbv zeta.
  apply wp_for_up with (I := λ i, searched (8 * i)); [done|by left| |done].
  intros i s Hi Hs.
  apply wp_for_up with (I := λ j, searched (8 * i + j)); [done|by rewrite Z.add_0_r| |].
  2:{ intros s' Hs'. by replace (8 * (i + 1)) with (8 * i + 8) by lia. }
  intros j s' Hj Hs'. rewrite gainStep_run; [|lia|lia|exact Hpred]. cbn [wp].
  rewrite Z.add_assoc. by apply searched_step.
Qed.
End Search.

(** ** The whole quantizer *)

(** The quantized pair [(ga, gb)]: the closest of the 32 preselected ones, its gains, the
    transmitted indices [ga'] and [gb'] and the new memory of the gain predictor. *)
Definition quantized (c c' : Enc.ctx) (fcv : list Z) (t : terms) (ga' gb' gain1 gain2 : Z) : Prop :=
  ∃ p ba bb ga gb e,
    MACodeGainPrediction (Enc.previousGainPredictionError c) fcv = Ok p ∧
    (0 ≤ ba ≤ 4 ∧ 0 ≤ bb ≤ 8 ∧ ba ≤ ga < ba + 4 ∧ bb ≤ gb < bb + 8) ∧
    (∀ i j, ba ≤ i < ba + 4 → bb ≤ j < bb + 8 →
      pairDistance t (i16 (Z.shiftr p 12)) ga gb ≤ pairDistance t (i16 (Z.shiftr p 12)) i j) ∧
    (gain1 = gpOf ga gb ∧ gain2 = i16 (SHR (gcOf (i16 (Z.shiftr p 12)) ga gb) 1)) ∧
    (ld indexMappingGA ga = Ok ga' ∧ ld indexMappingGB gb = Ok gb') ∧
    (computeGainPredictionError (gammaOf ga gb) (Enc.previousGainPredictionError c) = Ok e ∧
     c' = Enc.set_previousGainPredictionError e c ∧ arr i16r 4 e) ∧
    ∃ a f, bestGains t = Ok (a, f) ∧ best_gains t a f ∧ preselectedGa f (i16 (Z.shiftr p 12)) ba ∧ preselectedGb a bb.

Lemma dot_nonneg x ox k : 0 ≤ dot x ox x ox k.
Proof. apply zsum_nonneg. intros. apply Z.square_nonneg. Qed.

Lemma crossTerms_run a b x ox y oy z : 0 ≤ ox → 0 ≤ oy → arr i16r a x → arr i16r b y →
  ox + 40 ≤ a → oy + 40 ≤ b → arr i16r 40 z →
  for_up 0 L_SUBFRAME (0, 0, 0) (λ i '(xz64, yz64, zz64),
    let* x := ld x (ox + i) in
    let* y := ld y (oy + i) in
    let* z := ld z i in
    Ok (MAC64 xz64 x z, MAC64 yz64 y z, MAC64 zz64 z z)) =
  Ok (dot x ox z 0 40, dot y oy z 0 40, dot z 0 z 0 40).
Proof.
  intros Hox Hoy Hx Hy Ha Hb Hz.
  apply (for_up_state (λ i, (dot x ox z 0 (Z.to_nat i), dot y oy z 0 (Z.to_nat i), dot z 0 z 0 (Z.to_nat i))) 0 40);
    [done|].
  intros i Hi. cbv beta iota. rewrite !ld_at by (unfold arr in *; lia). cbn [bind].
  pose proof (dot_bound a 40 x ox z 0 (Z.to_nat i) Hox ltac:(lia) Hx Hz ltac:(lia) ltac:(lia)).
  pose proof (dot_bound b 40 y oy z 0 (Z.to_nat i) Hoy ltac:(lia) Hy Hz ltac:(lia) ltac:(lia)).
  pose proof (dot_bound 40 40 z 0 z 0 (Z.to_nat i) ltac:(lia) ltac:(lia) Hz Hz ltac:(lia) ltac:(lia)).
  pose proof (at_arr _ a x (ox + i) Hx ltac:(lia)). pose proof (at_arr _ b y (oy + i) Hy ltac:(lia)).
  pose proof (at_arr _ 40 z i Hz ltac:(lia)).
  rewrite !MAC64_exact by (done || (unfold rng in *; nia)).
  replace (Z.to_nat (i + 1)) with (S (Z.to_nat i)) by lia. unfold dot. cbn [zsum].
  by rewrite Z2Nat.id, Z.add_0_l by lia.
Qed.

Lemma gainQuantization_run a b c x ox y oy z fcv g1 g2 :
  arr i16r 4 (Enc.previousGainPredictionError c) →
  0 ≤ ox → 0 ≤ oy → arr i16r a x → arr i16r b y → ox + 40 ≤ a → oy + 40 ≤ b → arr i16r 40 z →
  arr i16r 40 fcv → sumsq fcv ≤ 2147483647 →
  ∃ t c' gain1 gain2 ga' gb',
    scaleTerms (dot x ox y oy 40) (dot y oy y oy 40) (dot x ox z 0 40) (dot y oy z 0 40) (dot z 0 z 0 40) = Ok t ∧
    terms_ok t ∧
    gainQuantization c x ox y oy z fcv (dot x ox y oy 40) (dot y oy y oy 40) g1 g2 =
      Ok (c', gain1, gain2, ga', gb') ∧
    quantized c c' fcv t ga' gb' gain1 gain2.
Proof.
  intros Hp Hox Hoy Hx Hy Ha Hb Hz Hf HE. unfold gainQuantization.
  rewrite (crossTerms_run a b) by done. cbn [bind].
  pose proof (dot_bound a b x ox y oy 40 Hox Hoy Hx Hy ltac:(lia) ltac:(lia)).
  pose proof (dot_bound b b y oy y oy 40 Hoy Hoy Hy Hy ltac:(lia) ltac:(lia)).
  pose proof (dot_bound a 40 x ox z 0 40 Hox ltac:(lia) Hx Hz ltac:(lia) ltac:(lia)).
  pose proof (dot_bound b 40 y oy z 0 40 Hoy ltac:(lia) Hy Hz ltac:(lia) ltac:(lia)).
  pose proof (dot_bound 40 40 z 0 z 0 40 ltac:(lia) ltac:(lia) Hz Hz ltac:(lia) ltac:(lia)).
  pose proof (dot_nonneg y oy 40). pose proof (dot_nonneg z 0 40).
  destruct (proj1 (safe_ok _ _) (wp_scaleTerms no_fault (dot x ox y oy 40) (dot y oy y oy 40)
    (dot x ox z 0 40) (dot y oy z 0 40) (dot z 0 z 0 40) terms_ok ltac:(unfold cross64, rng; lia)
    ltac:(unfold energy64, rng; lia) ltac:(unfold cross64, rng; lia) ltac:(unfold cross64, rng; lia)
    ltac:(unfold energy64, rng; lia) (λ _ H, H))) as (t & Et & Ht).
  rewrite Et. cbn [bind].
  destruct (bestGains_exact t Ht) as (ba' & bf' & Ebest & _ & _ & Hbest). rewrite Ebest.
  cbn [bind].
  destruct (proj1 (safe_ok _ _) (wp_MACodeGainPrediction no_fault _ fcv (rng 0 2147483647) Hp
    ltac:(rewrite fixedCodebookEnergy_exact by done; cbn [wp]; unfold rng; pose proof (sumsq_nonneg fcv); lia)
    (λ _ H, H))) as (p & Ep & _).
  rewrite Ep. cbn [bind].
  destruct (proj1 (safe_ok _ _) (wp_preselectGa no_fault bf' (i16 (Z.shiftr p 12)) _ (i16_rng _) (λ _ H, H)))
    as (ba & -> & Pa). pose proof (preselectedGa_range _ _ _ Pa) as Hba. cbn [bind].
  destruct (proj1 (safe_ok _ _) (wp_preselectGb no_fault ba' _ (λ _ H, H)))
    as (bb & -> & Pb). pose proof (preselectedGb_range _ _ Pb) as Hbb. cbn [bind].
  set (pred := i16 (Z.shiftr p 12)) in *.
  destruct (proj1 (safe_ok _ _) (searchGains_spec t pred ba bb (GainSearch MAXINT64 0 0 g1 g2) Ht
    (i16_rng _) Hba Hbb eq_refl)) as (s & -> & [[? _]|(i & j & Hi & Hj & -> & Hmin)]); [done|].
  cbn [bind retained indexGa indexGb quantizedAdaptativeCodebookGain quantizedFixedCodebookGain].
  destruct (gains_bounds pred (i + ba) (j + bb) ltac:(lia) ltac:(lia) (i16_rng _)) as (_ & Hgamma & _).
  destruct (GA_cells (i + ba) ltac:(lia)) as (_ & -> & ? & ?).
  destruct (GB_cells (j + bb) ltac:(lia)) as (_ & -> & ? & ?). cbn [bind].
  assert (ADD16 (cell GACodebook (i + ba) 1) (cell GBCodebook (j + bb) 1) = gammaOf (i + ba) (j + bb)) as ->.
  { unfold ADD16, gammaOf in *. by rewrite (i16_id (cell GACodebook _ _)), (i16_id (cell GBCodebook _ _)), i16_id
      by (unfold rng; lia). }
  destruct (proj1 (safe_ok _ _) (wp_computeGainPredictionError no_fault (gammaOf (i + ba) (j + bb)) _ (arr i16r 4)
    ltac:(lia) Hp (λ _ H, H))) as (e & Ee & He).
  rewrite Ee. cbn [bind].
  destruct (proj1 (safe_ok _ _) (wp_ld_arr no_fault _ _ _ (i + ba) (λ _, True) indexMappingGA_arr ltac:(lia) (λ _ _, I)))
    as (ga' & Ega & _).
  destruct (proj1 (safe_ok _ _) (wp_ld_arr no_fault _ _ _ (j + bb) (λ _, True) indexMappingGB_arr ltac:(lia) (λ _ _, I)))
    as (gb' & Egb & _).
  rewrite Ega, Egb. cbn [bind].
  do 6 eexists. split; [reflexivity|]. split; [exact Ht|]. split; [reflexivity|].
  exists p, ba, bb, (i + ba), (j + bb), e. split; [exact Ep|]. split; [lia|].
  split; [|split; [split; reflexivity|split; [split; assumption|split; [split; [exact Ee|split; [reflexivity|exact He]]|]]]].
  2:{ exists ba', bf'. exact (conj Ebest (conj Hbest (conj Pa Pb))). }
  intros i' j' Hi' Hj'. specialize (Hmin (i' - ba) (j' - bb) ltac:(lia) ltac:(lia) ltac:(lia)).
  by replace (i' - ba + ba) with i' in Hmin by lia; replace (j' - bb + bb) with j' in Hmin by lia.
Qed.

(** The reverse tables of the decoder undo the index mappings of the encoder. *)
Lemma reverse_GA ga ga' : ld indexMappingGA ga = Ok ga' → 0 ≤ ga < 8 →
  0 ≤ ga' < 8 ∧ ld reverseIndexMappingGA ga' = Ok ga.
Proof.
  intros E H. assert (ga = 0 ∨ ga = 1 ∨ ga = 2 ∨ ga = 3 ∨ ga = 4 ∨ ga = 5 ∨ ga = 6 ∨ ga = 7) as C by lia.
  destruct_or! C; subst ga; vm_compute in E; injection E as <-; by vm_compute.
Qed.
Lemma reverse_GB gb gb' : ld indexMappingGB gb = Ok gb' → 0 ≤ gb < 16 →
  0 ≤ gb' < 16 ∧ ld reverseIndexMappingGB gb' = Ok gb.
Proof.
  intros E H. assert (gb = 0 ∨ gb = 1 ∨ gb = 2 ∨ gb = 3 ∨ gb = 4 ∨ gb = 5 ∨ gb = 6 ∨ gb = 7 ∨ gb = 8
    ∨ gb = 9 ∨ gb = 10 ∨ gb = 11 ∨ gb = 12 ∨ gb = 13 ∨ gb = 14 ∨ gb = 15) as C by lia.
  destruct_or! C; subst gb; vm_compute in E; injection E as <-; by vm_compute.
Qed.
