(* ===== verification/EncLP.v ===== *)
(** Linear prediction analysis of the encoder: windowing, autocorrelation and the
    Levinson-Durbin recursion ([computeLP.c]), and the weighted speech signal
    ([computeWeightedSpeech.c]). *)

From S2P Require Import Prelude FixedPoint Sums Codebooks Math Utils.

(** ** autoCorrelation2LP *)

(** One Levinson-Durbin iteration on [(LPCoefficients, reflectionCoefficients, E)]; the local
    [previousIterationLPCoefficients] is a copy of the cells [1 .. i-1]. *)
Definition levinsonStep (r : list Z) (i : Z) (s : list Z * list Z * Z) : res (list Z * list Z * Z) :=
  let '(LP, k, E) := s in
  let* prev := for_up 1 i (zeros (NB_LSP_COEFF + 1)) (λ j p,
    let* a := ld LP j in st p j a) in
  let* sum := for_up 1 i 0 (λ j sum,
    let* a := ld LP j in
    let* c := ld r (i - j) in
    Ok (MAC32_32_Q31 sum a c)) in
  let* ri := ld r i in
  let sum := ADD32 (SSHL sum 4) ri in
  let* q := DIV32_32_Q31 sum E in
  let ai := i32 (- q) in
  let* LP := st LP i ai in
  let* k := st k (i - 1) ai in
  let* LP := for_up 1 i LP (λ j LP,
    let* aj := ld LP j in
    let* p := ld prev (i - j) in
    st LP j (MAC32_32_Q31 aj ai p)) in
  let E := MULT32_32_Q31 E (SUB32 ONE_IN_Q31 (MULT32_32_Q31 ai ai)) in
  let* LP := st LP i (SHR ai 4) in
  Ok (LP, k, E).

(** [(LPCoefficientsQ12, reflectionCoefficients, residualEnergy)] *)
Definition autoCorrelation2LP (r LPQ12 k : list Z) : res (list Z * list Z * Z) :=
  let* LP := st (zeros (NB_LSP_COEFF + 1)) 0 ONE_IN_Q27 in
  let* r1 := ld r 1 in
  let* r0 := ld r 0 in
  let* q := DIV32_32_Q27 r1 r0 in
  let a1 := i32 (- q) in
  let* LP := st LP 1 a1 in
  let* k := st k 0 (SSHL a1 4) in
  let E := MULT32_32_Q31 r0 (SUB32 ONE_IN_Q31 (MULT32_32_Q23 a1 a1)) in
  let* (LP, k, E) := for_up 2 (NB_LSP_COEFF + 1) (LP, k, E) (levinsonStep r) in
  let* LPQ12 := for_up 0 NB_LSP_COEFF LPQ12 (λ i o,
    let* a := ld LP (i + 1) in
    st o i (i16 (SATURATE (PSHR a 15) MAXINT16))) in
  Ok (LPQ12, k, E).

(** ** computeLP *)

Definition windowSignal (signal : list Z) : res (list Z) :=
  for_up 0 L_LP_ANALYSIS_WINDOW (zeros L_LP_ANALYSIS_WINDOW) (λ i w,
    let* s := ld signal i in
    let* c := ld wlp i in
    st w i (i16 (MULT16_16_P15 s c))).

(** [r(0)] on 64 bits, at least 1 *)
Definition windowEnergy (w : list Z) : res Z :=
  let* acc64 := for_up 0 L_LP_ANALYSIS_WINDOW 0 (λ i acc64,
    let* x := ld w i in Ok (MAC64 acc64 x x)) in
  Ok (if acc64 =? 0 then 1 else acc64).

(** [(autoCorrelationCoefficients[0], rightShiftToNormalise)]: the [do ... while] is entered
    with its condition true, so it is the [while] below. A 64-bit value is below 2^31 after
    33 shifts. *)
Definition normaliseEnergy (acc64 : Z) : res (Z * Z) :=
  if MAXINT32 <? acc64 then
    let* (acc64, n) := while 40 (λ '(acc64, _), Ok (MAXINT32 <? acc64))
      (λ '(acc64, n), Ok (SHR acc64 1, n + 1)) (acc64, 0) in
    Ok (i32 acc64, n)
  else
    let* lz := countLeadingZeros (i32 acc64) in
    let rightShiftToNormalise := - lz in
    let* r0 := sshl_chk (i32 acc64) (- rightShiftToNormalise) in
    Ok (r0, rightShiftToNormalise).

(** The coefficients 1 .. [number - 1]: on 64 bits when [r(0)] does not fit 32 bits. *)
Definition lagProduct64 (w : list Z) (i : Z) : res Z :=
  for_up i L_LP_ANALYSIS_WINDOW 0 (λ j acc64,
    let* x := ld w j in
    let* y := ld w (j - i) in
    Ok (ADD64_32 acc64 (MULT16_16 x y))).
Definition lagProduct32 (w : list Z) (i : Z) : res Z :=
  for_up i L_LP_ANALYSIS_WINDOW 0 (λ j acc32,
    let* x := ld w j in
    let* y := ld w (j - i) in
    Ok (MAC16_16 acc32 x y)).

Definition lagCoefficients (w : list Z) (rightShiftToNormalise number : Z) (r : list Z) : res (list Z) :=
  if 0 <? rightShiftToNormalise then
    for_up 1 number r (λ i r,
      let* acc64 := lagProduct64 w i in
      let* v := shr64_chk acc64 rightShiftToNormalise in
      st r i (i32 v))
  else
    for_up 1 number r (λ i r,
      let* acc32 := lagProduct32 w i in
      let* v := sshl_chk acc32 (- rightShiftToNormalise) in
      st r i v).

(** [(LPCoefficientsQ12, reflectionCoefficients, autoCorrelationCoefficients,
     noLagAutocorrelationCoefficients, autoCorrelationCoefficientsScale)] *)
Definition computeLP (signal LPQ12 k r noLag : list Z) (number : Z)
    : res (list Z * list Z * list Z * list Z * Z) :=
  let* w := windowSignal signal in
  let* acc64 := windowEnergy w in
  let* (r0, rightShiftToNormalise) := normaliseEnergy acc64 in
  let* r := st r 0 r0 in
  let scale := i8 (- rightShiftToNormalise) in
  let* r := lagCoefficients w rightShiftToNormalise number r in
  let* noLag := for_up 0 number noLag (λ i o, let* v := ld r i in st o i v) in
  let number := if NB_LSP_COEFF + 3 <? number then NB_LSP_COEFF + 3 else number in
  let* r := for_up 1 number r (λ i r,
    let* c := ld wlag i in
    let* v := ld r i in
    st r i (MULT16_32_P15 c v)) in
  let* (LPQ12, k, _) := autoCorrelation2LP r LPQ12 k in
  Ok (LPQ12, k, r, noLag, scale).

(** ** computeWeightedSpeech *)

(** The residual of a subframe with the ten coefficients from [lp]. *)
Definition residualSubframe (inputSignal : list Z) (off : Z) (qLP : list Z) (lp first last : Z)
    (residual : list Z) (roff : Z) : res (list Z) :=
  for_up first last residual (λ i residual,
    let* s := ld inputSignal (off + i) in
    let* acc := for_up 0 NB_LSP_COEFF (SSHL s 12) (λ j acc,
      let* c := ld qLP (lp + j) in
      let* x := ld inputSignal (off + (i - j - 1)) in
      Ok (MAC16_16 acc c x)) in
    st residual (roff + i) (i16 (SATURATE (PSHR acc 12) MAXINT16))).

(** [weightedqLP[i] - 0.7 weightedqLP[i-1]], with [weightedqLP[-1] = 1] *)
Definition lowPassCoefficients (wqLP : list Z) (lp : Z) : res (list Z) :=
  let* a := ld wqLP lp in
  let* l := st (zeros NB_LSP_COEFF) 0 (i16 (SUB16 a O7_IN_Q12)) in
  for_up 1 NB_LSP_COEFF l (λ i l,
    let* a := ld wqLP (lp + i) in
    let* b := ld wqLP (lp + i - 1) in
    st l i (i16 (SUB16 a (MULT16_16_Q12 b O7_IN_Q12)))).

(** [(weightedInputSignal, LPResidualSignal)]; each signal is an array and the offset the
    pointer has in it. *)
Definition computeWeightedSpeech (inputSignal : list Z) (off : Z) (qLP wqLP : list Z)
    (weighted : list Z) (woff : Z) (residual : list Z) (roff : Z) : res (list Z * list Z) :=
  let* residual := residualSubframe inputSignal off qLP 0 0 L_SUBFRAME residual roff in
  let* residual := residualSubframe inputSignal off qLP NB_LSP_COEFF L_SUBFRAME L_FRAME residual roff in
  let* l := lowPassCoefficients wqLP 0 in
  let* v := read_block residual roff L_SUBFRAME in
  let* weighted := synthesisFilter v l weighted woff in
  let* l := lowPassCoefficients wqLP NB_LSP_COEFF in
  let* v := read_block residual (roff + L_SUBFRAME) L_SUBFRAME in
  let* weighted := synthesisFilter v l weighted (woff + L_SUBFRAME) in
  Ok (weighted, residual).

(** ** Autocorrelation *)

Definition autocorrelation (w : list Z) (i : Z) : Z :=
  zsum (Z.to_nat (240 - i)) (λ j, at_ w (i + j) * at_ w j).

Lemma autocorrelation_sum w i : autocorrelation w i =
  zsum (Z.to_nat (240 - i)) (λ j, at_ w (i + j) * at_ w j).
Proof. reflexivity. Qed.

(** No coefficient exceeds the energy of the windowed signal. *)
Lemma autocorrelation_le w i : 0 ≤ i ≤ 240 → Z.abs (autocorrelation w i) ≤ autocorrelation w 0.
Proof.
  intros Hi. unfold autocorrelation.
  pose proof (zsum_mul_le (Z.to_nat (240 - i)) (λ j, at_ w (i + j)) (at_ w)) as H. cbv beta in H.
  set (f := λ j, at_ w j * at_ w j).
  assert (∀ j, 0 ≤ f j) as Hf by (intros; apply Z.square_nonneg).
  pose proof (zsum_window (Z.to_nat (240 - 0)) (Z.to_nat i) (Z.to_nat (240 - i)) f
    ltac:(intros; apply Hf) ltac:(lia)) as H1.
  pose proof (zsum_window (Z.to_nat (240 - 0)) 0 (Z.to_nat (240 - i)) f
    ltac:(intros; apply Hf) ltac:(lia)) as H2.
  rewrite Z2Nat.id in H1 by lia. unfold f in H1, H2. change (Z.of_nat 0) with 0 in H2.
  rewrite (zsum_ext _ (λ i, at_ w (0 + i) * at_ w (0 + i)) (λ j, at_ w j * at_ w j)) in H2
    by (intros; by rewrite Z.add_0_l).
  rewrite (zsum_ext (Z.to_nat (240 - 0)) (λ j, at_ w (0 + j) * at_ w j) (λ j, at_ w j * at_ w j))
    by (intros; by rewrite Z.add_0_l).
  lia.
Qed.

Lemma partial_bound w i k : arr i16r 240 w → 0 ≤ i → 0 ≤ k ≤ 240 - i →
  - (1073741824 * k) ≤ zsum (Z.to_nat k) (λ j, at_ w (i + j) * at_ w j) ≤ 1073741824 * k.
Proof.
  intros Hw Hi Hk.
  assert (∀ j, 0 ≤ j < k → -1073741824 ≤ at_ w (i + j) * at_ w j ≤ 1073741824) as Hp.
  { intros j Hj. pose proof (at_arr _ 240 w (i + j) Hw ltac:(lia)).
    pose proof (at_arr _ 240 w j Hw ltac:(lia)). unfold rng in *. nia. }
  pose proof (zsum_le (Z.to_nat k) (λ _, -1073741824) (λ j, at_ w (i + j) * at_ w j)
    ltac:(intros; apply Hp; lia)) as H1.
  pose proof (zsum_le (Z.to_nat k) (λ j, at_ w (i + j) * at_ w j) (λ _, 1073741824)
    ltac:(intros; apply Hp; lia)) as H2.
  rewrite zsum_const in H1, H2. lia.
Qed.

Lemma lagProduct32_run w i : arr i16r 240 w → 0 ≤ i ≤ 240 →
  lagProduct32 w i = Ok (i32 (autocorrelation w i)).
Proof.
  intros Hw Hi. unfold lagProduct32, L_LP_ANALYSIS_WINDOW.
  apply (for_up_zsum i32); [lia|]. intros j t Hj _. destruct Hw as [Hl Hw].
  rewrite !ld_at by lia. cbn [bind]. replace (i + j - i) with j by lia.
  by rewrite MAC16_16_wrapped by (apply (at_arr _ 240); [done|lia]).
Qed.

Lemma lagProduct64_run w i : arr i16r 240 w → 0 ≤ i ≤ 240 →
  lagProduct64 w i = Ok (autocorrelation w i).
Proof.
  intros Hw Hi. unfold lagProduct64, L_LP_ANALYSIS_WINDOW.
  apply (for_up_zsum (λ z, z)); [lia|]. intros j t Hj ->. 
  rewrite !ld_at by (destruct Hw; lia). cbn [bind]. replace (i + j - i) with j by lia.
  pose proof (partial_bound w i j Hw ltac:(lia) ltac:(lia)).
  pose proof (at_arr _ 240 w (i + j) Hw ltac:(lia)) as H1. pose proof (at_arr _ 240 w j Hw ltac:(lia)) as H2.
  rewrite MULT16_16_exact by done. unfold ADD64_32. set (e := zsum _ _) in *. clearbody e.
  set (x := at_ w (i + j)) in *. set (y := at_ w j) in *. clearbody x y. unfold rng in *.
  assert (-1073741824 ≤ x * y ≤ 1073741824) by nia.
  by rewrite (i64_id e), (i32_id (x * y)), i64_id by (unfold rng; lia).
Qed.

Lemma energyLoop_run w n : arr i16r 240 w → 0 ≤ n ≤ 240 →
  for_up 0 n 0 (λ i acc64, let* x := ld w i in Ok (MAC64 acc64 x x)) =
    Ok (zsum (Z.to_nat n) (λ j, at_ w (0 + j) * at_ w j)).
Proof.
  intros Hw Hn. apply (for_up_zsum (λ z, z)); [lia|]. intros j t Hj ->.
  rewrite ld_at by (destruct Hw; lia). cbn [bind].
  pose proof (partial_bound w 0 j Hw ltac:(lia) ltac:(lia)).
  pose proof (at_arr _ 240 w (0 + j) Hw ltac:(lia)). rewrite Z.add_0_l in *.
  set (e := zsum _ _) in *. clearbody e.
  rewrite MAC64_exact by (done || (unfold rng in *; nia)). done.
Qed.

Lemma autocorrelation_0 w : arr i16r 240 w → 0 ≤ autocorrelation w 0 ≤ 257698037760.
Proof.
  intros Hw. pose proof (partial_bound w 0 (240 - 0) Hw ltac:(lia) ltac:(lia)) as H.
  rewrite <-autocorrelation_sum in H. pose proof (autocorrelation_le w 0 ltac:(lia)). lia.
Qed.

Lemma windowEnergy_run w : arr i16r 240 w →
  windowEnergy w = Ok (if autocorrelation w 0 =? 0 then 1 else autocorrelation w 0).
Proof.
  intros Hw. unfold windowEnergy, L_LP_ANALYSIS_WINDOW.
  pose proof (energyLoop_run w (240 - 0) Hw ltac:(lia)) as E. rewrite <-autocorrelation_sum in E.
  rewrite Z.sub_0_r in E at 1. rewrite E. reflexivity.
Qed.

(** ** Normalisation *)

(** A coefficient at the scale of [r(0)]: shifted right when [r(0)] has more than 31 bits,
    left otherwise. *)
Definition rescale (v sh : Z) : Z := if 0 <? sh then v / 2 ^ sh else v * 2 ^ (- sh).

Lemma halving_loop m a n fuel : 0 ≤ n → 2147483647 < a < 2 ^ (31 + Z.of_nat m) → (m < fuel)%nat →
  ∃ k, 1 ≤ k ≤ Z.of_nat m ∧ 1073741824 ≤ a / 2 ^ k < 2147483648 ∧
  while fuel (λ '(acc64, _), Ok (MAXINT32 <? acc64)) (λ '(acc64, n), Ok (SHR acc64 1, n + 1)) (a, n)
  = Ok (a / 2 ^ k, n + k).
Proof.
  revert a n fuel. induction m as [|m IH]; intros a n fuel Hn Ha Hf; [change (2 ^ (31 + Z.of_nat 0)) with 2147483648 in Ha; lia|].
  destruct fuel as [|fuel]; [lia|]. cbn [while]. unfold MAXINT32 at 1.
  destruct (Z.ltb_spec 2147483647 a); [|lia]. cbn [bind]. unfold SHR at 2.
  rewrite Z.shiftr_div_pow2 by lia. change (2 ^ 1) with 2.
  assert (a / 2 < 2 ^ (31 + Z.of_nat m)).
  { apply Z.div_lt_upper_bound; [lia|]. rewrite <-Z.pow_succ_r by lia.
    replace (Z.succ (31 + Z.of_nat m)) with (31 + Z.of_nat (S m)) by lia. apply Ha. }
  destruct (Z.lt_ge_cases 2147483647 (a / 2)) as [Hlt|Hge].
  - destruct (IH (a / 2) (n + 1) fuel ltac:(lia) ltac:(lia) ltac:(lia)) as (k & Hk & Hb & ->).
    exists (k + 1). assert (a / 2 ^ (k + 1) = a / 2 / 2 ^ k) as ->.
    { assert (0 < 2 ^ k) by (apply Z.pow_pos_nonneg; lia).
      rewrite Z.div_div, <-Z.pow_succ_r by lia. by rewrite Z.add_1_r. }
    split; [lia|]. split; [done|]. do 2 f_equal. lia.
  - exists 1. change (2 ^ 1) with 2. split; [lia|].
    assert (1073741824 ≤ a / 2) by (apply Z.div_le_lower_bound; lia). split; [lia|].
    destruct fuel as [|fuel]; [lia|]. cbn [while]. unfold MAXINT32.
    destruct (Z.ltb_spec 2147483647 (a / 2)); [lia|]. done.
Qed.

Lemma normaliseEnergy_run a : 1 ≤ a ≤ 257698037760 →
  ∃ sh, normaliseEnergy a = Ok (rescale a sh, sh) ∧ -31 < sh ≤ 8 ∧
    1073741824 ≤ rescale a sh < 2147483648 ∧ (0 < sh ↔ 2147483647 < a).
Proof.
  intros Ha. unfold normaliseEnergy, MAXINT32 at 1, rescale.
  destruct (Z.ltb_spec 2147483647 a).
  - destruct (halving_loop 8 a 0 40) as (k & Hk & Hb & ->); [lia|change (2 ^ (31 + Z.of_nat 8)) with 549755813888; lia|lia|].
    cbn [bind]. exists k. destruct (Z.ltb_spec 0 k); [|lia].
    rewrite i32_id by (unfold rng; lia). split; [done|]. split; [lia|]. split; [done|lia].
  - rewrite i32_id by (unfold rng; lia). rewrite countLeadingZeros_pos by lia. cbn [bind].
    pose proof (Z.log2_spec a ltac:(lia)) as Hl. pose proof (Z.log2_nonneg a).
    assert (Z.log2 a < 31) by (apply Z.log2_lt_pow2; lia).
    set (l := Z.log2 a) in *. clearbody l. exists (- (30 - l)).
    destruct (Z.ltb_spec 0 (- (30 - l))); [lia|]. rewrite Z.opp_involutive.
    assert (2 ^ l * 2 ^ (30 - l) = 1073741824) as Hp
      by (rewrite <-Z.pow_add_r by lia; by replace (l + (30 - l)) with 30 by lia).
    rewrite Z.pow_succ_r in Hl by lia.
    assert (0 < 2 ^ (30 - l)) by (apply Z.pow_pos_nonneg; lia).
    assert (1073741824 ≤ a * 2 ^ (30 - l) < 2147483648) as Hb by nia.
    unfold sshl_chk. destruct (_ && _) eqn:E; [|lia]. cbn [bind]. unfold SSHL.
    destruct (Z.ltb_spec a 0); [lia|]. rewrite Z.shiftl_mul_pow2 by lia.
    rewrite (i32_id a), i32_id by (unfold rng; lia). split; [done|]. split; [lia|]. split; [done|lia].
Qed.

(** The normalised coefficients are exact: neither the 32-bit accumulator nor the shift
    overflows, because of [autocorrelation_le]. *)
Lemma rescale_bounds v a sh : Z.abs v ≤ a → 1 ≤ a → -31 < sh ≤ 8 →
  1073741824 ≤ rescale a sh < 2147483648 → -2147483648 ≤ rescale v sh < 2147483648.
Proof.
  unfold rescale. intros Hv Ha Hsh Hr. destruct (Z.ltb_spec 0 sh).
  - assert (0 < 2 ^ sh) by (apply Z.pow_pos_nonneg; lia).
    assert (a < 2147483648 * 2 ^ sh).
    { pose proof (Z.div_mod a (2 ^ sh) ltac:(lia)). pose proof (Z.mod_pos_bound a (2 ^ sh) ltac:(lia)). nia. }
    split; [apply Z.div_le_lower_bound|apply Z.div_lt_upper_bound]; nia.
  - assert (0 < 2 ^ (- sh)) by (apply Z.pow_pos_nonneg; lia). nia.
Qed.

Lemma sshl_exact v n : 0 ≤ n < 32 → i32r v → rng (-2147483647) 2147483647 (v * 2 ^ n) →
  sshl_chk v n = Ok (v * 2 ^ n).
Proof.
  intros Hn Hv Hr. unfold sshl_chk. destruct (_ && _) eqn:E; [|lia]. f_equal. unfold SSHL.
  assert (0 < 2 ^ n) by (apply Z.pow_pos_nonneg; lia). unfold rng in *.
  rewrite !Z.shiftl_mul_pow2 by lia. destruct (Z.ltb_spec v 0).
  - rewrite (i32_id (- v)), Z.mul_opp_l by (unfold rng; nia).
    rewrite (i32_id (- (v * 2 ^ n))), i32_id by (unfold rng; lia). lia.
  - rewrite (i32_id v), i32_id by (unfold rng; lia). done.
Qed.

Section Lags.
Context (w : list Z) (a sh n number : Z).
Context (Hw : arr i16r 240 w) (Ha : autocorrelation w 0 ≤ a) (Ha1 : 1 ≤ a) (Hsh : -31 < sh ≤ 8).
Context (Hr : 1073741824 ≤ rescale a sh < 2147483648) (Hfit : 0 < sh ↔ 2147483647 < a).
Context (Hnum : 1 ≤ number ≤ 240) (Hn : number ≤ n).

Lemma lagCoefficient64 i : 0 < sh → 0 ≤ i ≤ 240 →
  (let* acc64 := lagProduct64 w i in shr64_chk acc64 sh) = Ok (rescale (autocorrelation w i) sh).
Proof.
  intros Hpos Hi. rewrite lagProduct64_run by done. cbn [bind]. unfold shr64_chk, rescale.
  destruct (_ && _) eqn:E; [|lia]. destruct (Z.ltb_spec 0 sh); [|lia].
  by rewrite Z.shiftr_div_pow2 by lia.
Qed.

Lemma lagCoefficient32 i : sh ≤ 0 → 0 ≤ i ≤ 240 →
  (let* acc32 := lagProduct32 w i in sshl_chk acc32 (- sh)) = Ok (rescale (autocorrelation w i) sh).
Proof.
  intros Hneg Hi. rewrite lagProduct32_run by done. cbn [bind].
  pose proof (autocorrelation_le w i Hi) as Hle.
  rewrite i32_id by (unfold rng; lia). unfold rescale in *. destruct (Z.ltb_spec 0 sh); [lia|].
  apply sshl_exact; [lia|unfold rng; lia|].
  assert (0 < 2 ^ (- sh)) by (apply Z.pow_pos_nonneg; lia). unfold rng. nia.
Qed.

(** Both branches write the rescaled coefficients. *)
Lemma lagCoefficients_run r : arr i32r n r →
  safe (lagCoefficients w sh number r) (λ r', arr i32r n r' ∧ at_ r' 0 = at_ r 0 ∧
    ∀ i, 1 ≤ i < number → at_ r' i = rescale (autocorrelation w i) sh).
Proof.
  intros Hr0.
  assert (∀ i, 0 ≤ i ≤ 240 → i32r (rescale (autocorrelation w i) sh)) as Hb.
  { intros i Hi. pose proof (autocorrelation_le w i Hi).
    pose proof (rescale_bounds (autocorrelation w i) a sh ltac:(lia) Ha1 Hsh Hr). unfold rng. lia. }
  assert (∀ f, (∀ i r, 1 ≤ i < number → zlen r = n → f i r = Ok (<[Z.to_nat i := rescale (autocorrelation w i) sh]> r)) →
    safe (for_up 1 number r f) (λ r', arr i32r n r' ∧ at_ r' 0 = at_ r 0 ∧
      ∀ i, 1 ≤ i < number → at_ r' i = rescale (autocorrelation w i) sh)) as Hloop.
  { intros f Hf. apply wp_for_up with (I := λ i r', arr i32r n r' ∧ at_ r' 0 = at_ r 0 ∧
      ∀ j, 1 ≤ j < i → at_ r' j = rescale (autocorrelation w j) sh); [lia| | |done].
    { split; [done|]. split; [done|]. lia. }
    intros i r' Hi ([Hl HF] & H0 & Hj). rewrite Hf by done. cbn [wp].
    split; [split; [by rewrite zlen_insert|apply Forall_insert; [done|apply Hb; lia]]|].
    split; [rewrite at_insert by lia; destruct (Z.eqb_spec i 0); [lia|done]|].
    intros j Hj'. rewrite at_insert by lia. destruct (Z.eqb_spec i j) as [->|]; [done|]. apply Hj. lia. }
  unfold lagCoefficients. destruct (Z.ltb_spec 0 sh) as [Hp|Hp]; apply Hloop; intros i r' Hi Hl.
  - pose proof (lagCoefficient64 i Hp ltac:(lia)) as E. destruct (lagProduct64 w i) as [v|]; [|done].
    cbn [bind] in *. rewrite E. cbn [bind]. rewrite i32_id by (apply Hb; lia).
    unfold st. destruct (_ && _) eqn:E'; [done|lia].
  - pose proof (lagCoefficient32 i Hp ltac:(lia)) as E. destruct (lagProduct32 w i) as [v|]; [|done].
    cbn [bind] in *. rewrite E. cbn [bind].
    unfold st. destruct (_ && _) eqn:E'; [done|lia].
Qed.
End Lags.

(** ** Safety *)

Lemma wp_DIV64_div (F : fault → Prop) a b (Q : Z → Prop) :
  F DivError → (∀ v, Q v) → wp F (DIV64 a b) Q.
Proof. intros HF HQ. unfold DIV64. cbv zeta. case_match; simpl; auto. Qed.

Lemma MULT32_32_Q31_rng a b : i32r (MULT32_32_Q31 a b). Proof. apply i32_rng. Qed.
Lemma MAC32_32_Q31_rng c a b : i32r (MAC32_32_Q31 c a b). Proof. apply i32_rng. Qed.
#[export] Hint Resolve MULT32_32_Q31_rng MAC32_32_Q31_rng : rng.

Lemma wp_windowSignal F s (Q : list Z → Prop) :
  arr i16r 240 s → (∀ w, arr i16r 240 w → Q w) → wp F (windowSignal s) Q.
Proof.
  intros Hs HQ. unfold windowSignal, L_LP_ANALYSIS_WINDOW.
  apply wp_for_inv with (I := arr i16r 240); [by apply arr_zeros| |done].
  intros i w Hi Hw. wp_go. done.
Qed.

Lemma wp_levinsonStep (F : fault → Prop) n r i LP k E (Q : list Z * list Z * Z → Prop) :
  F DivError → arr i32r n r → 11 ≤ n → arr i32r 11 LP → arr i32r 10 k → 2 ≤ i ≤ 10 →
  (∀ LP k E, arr i32r 11 LP → arr i32r 10 k → i32r E → Q (LP, k, E)) →
  wp F (levinsonStep r i (LP, k, E)) Q.
Proof.
  intros HF Hr Hn HLP Hk Hi HQ. unfold levinsonStep, NB_LSP_COEFF. change (10 + 1) with 11. wp_step.
  apply wp_for_inv with (I := arr i32r 11); [by apply arr_zeros| |].
  { intros j p Hj Hp. wp_go. done. }
  intros prev Hprev. wp_step. apply wp_for_inv with (I := i32r); [by unfold rng| |].
  { intros j p Hj Hp. wp_go. auto with rng. }
  intros sum _. wp_step. eapply wp_ld_arr; [done|lia|]. intros ri Hri. cbv zeta. wp_step.
  unfold DIV32_32_Q31. apply wp_DIV64_div; [done|]. intros q. wp_step.
  eapply wp_st_arr; [done|lia|auto with rng|]. intros LP1 H1. wp_step.
  eapply wp_st_arr; [done|lia|auto with rng|]. intros k1 Hk1. wp_step.
  apply wp_for_inv with (I := arr i32r 11); [done| |].
  { intros j p Hj Hp. wp_go. done. }
  intros LP2 H2. wp_step. eapply wp_st_arr; [done|lia|apply shiftr_rng; [lia..|auto with rng]|].
  intros LP3 H3. wp_step. auto with rng.
Qed.

Lemma wp_autoCorrelation2LP (F : fault → Prop) n r o k (Q : list Z * list Z * Z → Prop) :
  F DivError → arr i32r n r → 11 ≤ n → arr i16r 10 o → arr i32r 10 k →
  (∀ o k E, arr i16r 10 o → arr i32r 10 k → i32r E → Q (o, k, E)) →
  wp F (autoCorrelation2LP r o k) Q.
Proof.
  intros HF Hr Hn Ho Hk HQ. unfold autoCorrelation2LP, NB_LSP_COEFF, ONE_IN_Q27. change (10 + 1) with 11.
  wp_step. eapply wp_st_arr; [by apply (arr_zeros i32r 11)|lia|by unfold rng|]. intros LP HLP.
  wp_step. eapply wp_ld_arr; [done|lia|]. intros r1 _. wp_step.
  eapply wp_ld_arr; [done|lia|]. intros r0 _. wp_step.
  unfold DIV32_32_Q27. apply wp_DIV64_div; [done|]. intros q. cbv zeta. wp_step.
  eapply wp_st_arr; [done|lia|auto with rng|]. intros LP1 H1. wp_step.
  eapply wp_st_arr; [done|lia|auto with rng|]. intros k1 Hk1. wp_step.
  apply wp_for_inv with (I := λ '(LP, k, E), arr i32r 11 LP ∧ arr i32r 10 k ∧ i32r E);
    [split_and!; [done..|auto with rng]| |].
  { intros i [[LP2 k2] E2] Hi (? & ? & ?). eapply wp_levinsonStep; [done..|lia|]. auto. }
  intros [[LP2 k2] E2] (? & ? & ?). wp_step.
  apply wp_for_inv with (I := arr i16r 10); [done| |].
  { intros i p Hi Hp. wp_go. done. }
  intros o' Ho'. wp_step. auto.
Qed.

(** The coefficients handed to the VAD and the DTX: the autocorrelation of the windowed
    signal at a scale that puts [r(0)] in [2^30, 2^31[. *)
Definition normalised (w noLag : list Z) (scale number : Z) : Prop :=
  -8 ≤ scale < 31 ∧ 1073741824 ≤ at_ noLag 0 < 2147483648 ∧
  at_ noLag 0 = rescale (Z.max 1 (autocorrelation w 0)) (- scale) ∧
  ∀ i, 1 ≤ i < number → at_ noLag i = rescale (autocorrelation w i) (- scale).

Lemma wp_copy_prefix F n number src dst (Q : list Z → Prop) :
  arr i32r n src → arr i32r n dst → 0 ≤ number ≤ n →
  (∀ d, arr i32r n d → (∀ i, 0 ≤ i < number → at_ d i = at_ src i) → Q d) →
  wp F (for_up 0 number dst (λ i o, let* v := ld src i in st o i v)) Q.
Proof.
  intros Hs Hd Hn HQ.
  apply wp_for_up with (I := λ i d, arr i32r n d ∧ ∀ j, 0 ≤ j < i → at_ d j = at_ src j); [lia| | |].
  - split; [done|]. lia.
  - intros i d Hi [[Hl HF] Hj]. assert (zlen src = n) by apply Hs. rewrite ld_at by lia. cbn [bind].
    apply wp_st; [lia|]. split.
    + split; [by rewrite zlen_insert|]. apply Forall_insert; [done|]. apply (at_arr _ n); [done|lia].
    + intros j Hj'. rewrite at_insert by lia. destruct (Z.eqb_spec i j) as [->|]; [done|]. apply Hj. lia.
  - intros d [? ?]. auto.
Qed.

Lemma wp_computeLP (F : fault → Prop) n s o k r noLag number (Q : list Z * list Z * list Z * list Z * Z → Prop) :
  F DivError → arr i16r 240 s → arr i16r 10 o → arr i32r 10 k → arr i32r n r → arr i32r n noLag →
  11 ≤ number ≤ 13 → number ≤ n →
  (∀ w o k r noLag scale, windowSignal s = Ok w → arr i16r 240 w → arr i16r 10 o → arr i32r 10 k →
    arr i32r n r → arr i32r n noLag → normalised w noLag scale number → Q (o, k, r, noLag, scale)) →
  wp F (computeLP s o k r noLag number) Q.
Proof.
  intros HF Hs Ho Hk Hr HN Hnum Hn HQ. unfold computeLP.
  destruct (proj1 (safe_ok _ _) (wp_windowSignal no_fault s (arr i16r 240) Hs (λ _ H, H))) as (w & Ew & Hw).
  rewrite Ew. cbn [bind]. rewrite windowEnergy_run by done. cbn [bind].
  pose proof (autocorrelation_0 w Hw) as H0.
  assert ((if autocorrelation w 0 =? 0 then 1 else autocorrelation w 0) = Z.max 1 (autocorrelation w 0)) as ->
    by (destruct (Z.eqb_spec (autocorrelation w 0) 0); lia).
  destruct (normaliseEnergy_run (Z.max 1 (autocorrelation w 0))) as (sh & -> & Hsh & Hb & Hfit); [lia|].
  cbn [bind]. assert (zlen r = n) as Hl by apply Hr. wp_step.
  apply wp_st; [lia|]. set (r0 := <[_ := _]> r).
  assert (arr i32r n r0) as Hr0.
  { split; [by unfold r0; rewrite zlen_insert|]. apply Forall_insert; [apply Hr|unfold rng; lia]. }
  assert (at_ r0 0 = rescale (Z.max 1 (autocorrelation w 0)) sh) as Hat
    by (unfold r0; by rewrite at_insert by lia).
  clearbody r0. cbv zeta. wp_step.
  eapply wp_of_safe; [by apply (lagCoefficients_run w (Z.max 1 (autocorrelation w 0)) sh n number); [done|lia..|]|].
  intros r1 (Hr1 & Hr1_0 & Hr1_i). cbv beta. wp_step.
  apply (wp_copy_prefix F n number r1 noLag); [done..|lia|]. intros N1 HN1 HNeq.
  unfold NB_LSP_COEFF. destruct (Z.ltb_spec (10 + 3) number); [lia|]. wp_step.
  apply wp_for_inv with (I := arr i32r n); [done| |].
  { intros i r2 Hi Hr2. wp_go. done. }
  intros r2 Hr2. wp_step. eapply wp_autoCorrelation2LP; [done|done|lia|done..|].
  intros o1 k1 E1 Ho1 Hk1 _. wp_step. apply (HQ w); try done.
  assert (i8 (- sh) = - sh) as -> by (unfold i8; destruct (_ && _) eqn:E; [done|lia]).
  unfold normalised. rewrite Z.opp_involutive. rewrite HNeq by lia.
  split; [lia|]. split; [by rewrite Hr1_0, Hat|]. split; [by rewrite Hr1_0|].
  intros i Hi. rewrite HNeq by lia. by apply Hr1_i.
Qed.

(** ** Weighted speech *)

Lemma wp_residualSubframe F n s off q lp first last m res roff (Q : list Z → Prop) :
  arr i16r n s → 10 ≤ off → off + 80 ≤ n → arr i16r 20 q → 0 ≤ lp ≤ 10 → 0 ≤ first → last ≤ 80 →
  arr i16r m res → 0 ≤ roff → roff + 80 ≤ m → (∀ r, arr i16r m r → Q r) →
  wp F (residualSubframe s off q lp first last res roff) Q.
Proof.
  intros Hs ? ? Hq ? ? ? Hres ? ? HQ. unfold residualSubframe, NB_LSP_COEFF.
  apply wp_for_inv with (I := arr i16r m); [done| |done].
  intros i z Hi Hz. wp_go. apply wp_for_inv with (I := i32r); [auto with rng| |].
  - intros j acc Hj Hacc. wp_go. auto with rng.
  - intros acc Hacc. wp_go. done.
Qed.

Lemma wp_lowPassCoefficients F q lp (Q : list Z → Prop) :
  arr i16r 20 q → 0 ≤ lp ≤ 10 → (∀ l, arr i16r 10 l → Q l) → wp F (lowPassCoefficients q lp) Q.
Proof.
  intros Hq Hlp HQ. unfold lowPassCoefficients, NB_LSP_COEFF.
  assert (arr i16r 10 (zeros 10)) by by apply arr_zeros. wp_go.
  apply wp_for_inv with (I := arr i16r 10); [done| |done].
  intros i l Hi Hl. wp_go. done.
Qed.

Lemma wp_computeWeightedSpeech F n s off q wq a wt woff b res roff (Q : list Z * list Z → Prop) :
  arr i16r n s → 10 ≤ off → off + 80 ≤ n → arr i16r 20 q → arr i16r 20 wq →
  arr i16r a wt → 10 ≤ woff → woff + 80 ≤ a → arr i16r b res → 0 ≤ roff → roff + 80 ≤ b →
  (∀ wt res, arr i16r a wt → arr i16r b res → Q (wt, res)) →
  wp F (computeWeightedSpeech s off q wq wt woff res roff) Q.
Proof.
  intros Hs ? ? Hq Hwq Hwt ? ? Hres ? ? HQ. unfold computeWeightedSpeech, L_SUBFRAME, L_FRAME, NB_LSP_COEFF.
  wp_step. apply (wp_residualSubframe _ n _ _ _ _ _ _ b); try done; try lia. intros r1 Hr1.
  wp_step. apply (wp_residualSubframe _ n _ _ _ _ _ _ b); try done; try lia. intros r2 Hr2.
  wp_step. apply wp_lowPassCoefficients; [done|lia|]. intros l1 Hl1.
  wp_step. eapply wp_read_block; [done|lia..|]. intros v1 Hv1.
  wp_step. apply (wp_synthesisFilter _ a); [done..|lia|lia|]. intros w1 Hw1.
  wp_step. apply wp_lowPassCoefficients; [done|lia|]. intros l2 Hl2.
  wp_step. eapply wp_read_block; [done|lia..|]. intros v2 Hv2.
  wp_step. apply (wp_synthesisFilter _ a); [done..|lia|lia|]. intros w2 Hw2. wp_step. auto.
Qed.
