(* ===== verification/EncAdaptative.v ===== *)
(** The closed loop pitch search of the encoder ([adaptativeCodebookSearch.c]). *)

From S2P Require Import Prelude FixedPoint Codebooks Utils Context DecodeExcitation.

(** [excitationVector] is the array [exc] seen from [off]. *)
Definition generateAdaptativeCodebookVector (exc : list Z) (off intPitchDelay fracPitchDelay : Z)
    : res (list Z) :=
  let fracPitchDelay := i16 (- fracPitchDelay) in
  let '(intPitchDelay, fracPitchDelay) :=
    if fracPitchDelay <? 0 then (i16 (intPitchDelay + 1), 2) else (intPitchDelay, fracPitchDelay) in
  for_up 0 L_SUBFRAME exc (λ n exc,
    let* acc := for_up 0 10 0 (λ i acc,
      let* u := ld exc (off - intPitchDelay + (n - i)) in
      let* b := ld b30 (fracPitchDelay + 3 * i) in
      let acc := MAC16_16 acc u b in
      let* u := ld exc (off - intPitchDelay + (n + 1 + i)) in
      let* b := ld b30 (3 - fracPitchDelay + 3 * i) in
      Ok (MAC16_16 acc u b)) in
    st exc (off + n) (i16 (SATURATE (PSHR acc 15) MAXINT16))).

(** The sum of eq A.7 for the signal that starts at [pos]. *)
Definition filteredCorrelation (exc : list Z) (pos : Z) (backward : list Z) : res Z :=
  for_up 0 L_SUBFRAME 0 (λ j correlation,
    let* u := ld exc (pos + j) in
    let* b := ld backward j in
    Ok (MAC16_32_Q12 correlation u b)).

(** The integer delay with the greatest sum; [intPitchDelay] is the caller's value, [None] when
    the caller leaves it uninitialised. *)
Definition searchIntDelay (exc : list Z) (off : Z) (backward : list Z) (delayMin delayMax : Z)
    (intPitchDelay : option Z) : res (option Z) :=
  let* (_, d) := for_up delayMin (delayMax + 1) (MININT32, intPitchDelay) (λ i '(correlationMax, d),
    let* correlation := filteredCorrelation exc (off - i) backward in
    Ok (if correlationMax <? correlation then (correlation, Some (i16 i)) else (correlationMax, d))) in
  Ok d.

(** The fraction: the vectors of the three fractions are built in place, the best one is kept.
    [(excitationVector, fracPitchDelay)] *)
Definition searchFraction (exc : list Z) (off : Z) (backward : list Z) (intPitchDelay : Z) : res (list Z * Z) :=
  let* correlationMax := filteredCorrelation exc off backward in
  let* backup := read_block exc off L_SUBFRAME in
  let* exc := generateAdaptativeCodebookVector exc off intPitchDelay (-1) in
  let* correlation := filteredCorrelation exc off backward in
  let* (fracPitchDelay, correlationMax, backup) :=
    (if correlationMax <? correlation then
       let* backup := read_block exc off L_SUBFRAME in
       Ok (-1, correlation, backup)
     else Ok (0, correlationMax, backup)) in
  let* exc := generateAdaptativeCodebookVector exc off intPitchDelay 1 in
  let* correlation := filteredCorrelation exc off backward in
  if correlationMax <? correlation then Ok (exc, 1)
  else
    let* exc := write_block exc off backup in
    Ok (exc, fracPitchDelay).

(** The window of the second subframe: [(intPitchDelayMin, intPitchDelayMax)] *)
Definition secondWindow (intPitchDelay : Z) : Z * Z :=
  let delayMin := i16 (intPitchDelay - 5) in
  let delayMin := if delayMin <? 20 then 20 else delayMin in
  let delayMax := i16 (delayMin + 9) in
  if MAXIMUM_INT_PITCH_DELAY <? delayMax then (MAXIMUM_INT_PITCH_DELAY - 9, MAXIMUM_INT_PITCH_DELAY)
  else (delayMin, delayMax).

Definition pitchDelayCodeword (subFrameIndex delayMin intPitchDelay fracPitchDelay : Z) : Z :=
  if subFrameIndex =? 0 then
    if intPitchDelay <=? 85 then u16 (3 * intPitchDelay - 58 + fracPitchDelay)
    else u16 (intPitchDelay + 112)
  else u16 (3 * (intPitchDelay - delayMin) + fracPitchDelay + 2).

(** [(excitationVector, intPitchDelayMin, intPitchDelayMax, intPitchDelay, fracPitchDelay,
     pitchDelayCodeword)] *)
Definition adaptativeCodebookSearch (exc : list Z) (off delayMin delayMax : Z)
    (impulseResponse targetSignal : list Z) (intPitchDelay : option Z) (subFrameIndex : Z)
    : res (list Z * Z * Z * Z * Z * Z) :=
  let* backward := correlateVectors targetSignal impulseResponse (zeros L_SUBFRAME) in
  let* intPitchDelay := searchIntDelay exc off backward delayMin delayMax intPitchDelay in
  let* intPitchDelay := initialised intPitchDelay in
  let* exc := generateAdaptativeCodebookVector exc off intPitchDelay 0 in
  let* (exc, fracPitchDelay) :=
    (if negb ((subFrameIndex =? 0) && (85 <=? intPitchDelay))
     then searchFraction exc off backward intPitchDelay
     else Ok (exc, 0)) in
  let codeword := pitchDelayCodeword subFrameIndex delayMin intPitchDelay fracPitchDelay in
  let '(delayMin, delayMax) :=
    if subFrameIndex =? 0 then secondWindow intPitchDelay else (delayMin, delayMax) in
  Ok (exc, delayMin, delayMax, intPitchDelay, fracPitchDelay, codeword).

(** ** The vector of the encoder is the vector of the decoder *)

Lemma generate_is_compute exc off T f : -1 ≤ f ≤ 1 → 0 ≤ T ≤ 1000 →
  generateAdaptativeCodebookVector exc off T f = computeAdaptativeCodebookVector exc off f T.
Proof.
  intros Hf HT. unfold generateAdaptativeCodebookVector, computeAdaptativeCodebookVector. cbv zeta.
  rewrite (i16_id (- f)) by (unfold rng; lia).
  assert (∀ T' f' mk, mk = off - T' →
    for_up 0 L_SUBFRAME exc (λ n exc,
      let* acc := for_up 0 10 0 (λ i acc,
        let* u := ld exc (off - T' + (n - i)) in
        let* b := ld b30 (f' + 3 * i) in
        let* u0 := ld exc (off - T' + (n + 1 + i)) in
        let* b0 := ld b30 (3 - f' + 3 * i) in
        Ok (MAC16_16 (MAC16_16 acc u b) u0 b0)) in
      st exc (off + n) (i16 (SATURATE (PSHR acc 15) MAXINT16))) =
    for_up 0 L_SUBFRAME exc (λ n exc,
      let* acc := for_up 0 10 0 (λ i acc,
        let* u := ld exc (mk + n - i) in
        let* b := ld b30 (f' + 3 * i) in
        let* u0 := ld exc (mk + (n + 1) + i) in
        let* b0 := ld b30 (3 - f' + 3 * i) in
        Ok (MAC16_16 (MAC16_16 acc u b) u0 b0)) in
      st exc (off + n) (i16 (SATURATE (PSHR acc 15) MAXINT16)))) as H.
  { intros T' f' mk ->. apply for_up_ext. intros n e _. f_equal. apply for_up_ext. intros i acc _.
    by replace (off - T' + (n - i)) with (off - T' + n - i) by lia;
       replace (off - T' + (n + 1 + i)) with (off - T' + (n + 1) + i) by lia. }
  destruct (Z.eqb_spec f 1) as [->|Hf1].
  - change (- (1) <? 0) with true. cbv iota. rewrite (i16_id (T + 1)) by (unfold rng; lia).
    apply H. done.
  - destruct (Z.ltb_spec (- f) 0); [lia|]. apply H. done.
Qed.

(** ** The vector depends on the past excitation only *)

Section Vector.
Context (n off f T : Z).
Context (Hoff : 154 ≤ off) (Hn : off + 40 ≤ n) (Hf : -1 ≤ f ≤ 1) (HT : 20 ≤ T ≤ 143).

(** Equal before the sample [k] of the subframe, and from the cell [top] on. *)
Definition agreeTo (top k : Z) (e e' : list Z) : Prop :=
  arr i16r n e ∧ arr i16r n e' ∧
  ∀ j, 0 ≤ j < n → j < off + k ∨ top ≤ j → at_ e j = at_ e' j.

(** Equal outside the samples [k .. 39] of the subframe. *)
Definition agree : Z → list Z → list Z → Prop := agreeTo (off + 40).

Definition minusK : Z := if f =? 1 then off - (T + 1) else off - T.
Definition fracIndex : Z := if f =? 1 then 2 else i16 (- f).

Lemma minusK_bounds : off - 144 ≤ minusK ≤ off - 20 ∧ 0 ≤ fracIndex ≤ 2.
Proof.
  unfold minusK, fracIndex. destruct (Z.eqb_spec f 1); [lia|]. rewrite i16_id by (unfold rng; lia). lia.
Qed.

Definition interpolate (e : list Z) (k : Z) : res Z :=
  for_up 0 10 0 (λ i acc,
    let* u := ld e (minusK + k - i) in
    let* b := ld b30 (fracIndex + 3 * i) in
    let acc := MAC16_16 acc u b in
    let* u := ld e (minusK + (k + 1) + i) in
    let* b := ld b30 (3 - fracIndex + 3 * i) in
    Ok (MAC16_16 acc u b)).

Lemma interpolate_agree top e e' k : 0 ≤ k < 40 → agreeTo top k e e' →
  ∃ acc, interpolate e k = Ok acc ∧ interpolate e' k = Ok acc.
Proof.
  intros Hk (He & He' & Hag). destruct minusK_bounds as [Hm Hfr]. unfold interpolate.
  assert (safe (for_up 0 10 0 (λ i acc,
    let* u := ld e (minusK + k - i) in
    let* b := ld b30 (fracIndex + 3 * i) in
    let acc := MAC16_16 acc u b in
    let* u := ld e (minusK + (k + 1) + i) in
    let* b := ld b30 (3 - fracIndex + 3 * i) in
    Ok (MAC16_16 acc u b))) i32r) as HS.
  { apply wp_for_inv with (I := i32r); [by unfold rng| |done].
    intros i acc Hi Hacc. wp_go. auto with rng. }
  destruct (proj1 (safe_ok _ _) HS) as (acc & E & _). exists acc. split; [exact E|]. rewrite <-E.
  apply for_up_ext. intros i a Hi. assert (zlen e = n ∧ zlen e' = n) as [L L'] by (split; [apply He|apply He']).
  rewrite (ld_at e (minusK + k - i)), (ld_at e' (minusK + k - i)), (ld_at e (minusK + (k + 1) + i)),
    (ld_at e' (minusK + (k + 1) + i)) by lia.
  by rewrite (Hag (minusK + k - i)), (Hag (minusK + (k + 1) + i)) by lia.
Qed.

Lemma compute_unfold e : computeAdaptativeCodebookVector e off f T =
  for_up 0 40 e (λ k e, let* acc := interpolate e k in
    st e (off + k) (i16 (SATURATE (PSHR acc 15) MAXINT16))).
Proof. reflexivity. Qed.

Lemma st_agree top e e' k v : 0 ≤ k < 40 → agreeTo top k e e' → i16r v →
  ∃ t t', st e (off + k) v = Ok t ∧ st e' (off + k) v = Ok t' ∧ agreeTo top (k + 1) t t' ∧
    ∀ j, 0 ≤ j < n → j < off ∨ off + 40 ≤ j → at_ t j = at_ e j.
Proof.
  intros Hk (He & He' & Hag) Hv. destruct He as [L HF], He' as [L' HF']. unfold st.
  destruct (_ && _) eqn:E1; [|lia]. destruct (_ && (_ <? zlen e')) eqn:E2; [|lia].
  do 2 eexists. split; [reflexivity|]. split; [reflexivity|]. split.
  - split; [split; [by rewrite zlen_insert|by apply Forall_insert]|].
    split; [split; [by rewrite zlen_insert|by apply Forall_insert]|].
    intros j Hj Ho. rewrite !at_insert by lia. destruct (Z.eqb_spec (off + k) j); [done|]. apply Hag; lia.
  - intros j Hj Ho. rewrite at_insert by lia. destruct (Z.eqb_spec (off + k) j); [lia|done].
Qed.

(** Two excitations that agree before the subframe give the same vector, and nothing outside
    the subframe changes. *)
Lemma compute_agreeTo top e e' : agreeTo top 0 e e' →
  ∃ t t', computeAdaptativeCodebookVector e off f T = Ok t ∧
    computeAdaptativeCodebookVector e' off f T = Ok t' ∧ agreeTo top 40 t t' ∧
    ∀ j, 0 ≤ j < n → j < off ∨ off + 40 ≤ j → at_ t j = at_ e j.
Proof.
  intros Hag. rewrite !compute_unfold.
  destruct (for_up_rel (λ k t t', agreeTo top k t t' ∧ ∀ j, 0 ≤ j < n → j < off ∨ off + 40 ≤ j → at_ t j = at_ e j)
    0 40 e e' (λ k e, let* acc := interpolate e k in
      st e (off + k) (i16 (SATURATE (PSHR acc 15) MAXINT16)))) as (t & t' & E & E' & Ht & Hout).
  - lia.
  - split; [done|]. done.
  - intros k u u' Hk [Hu Hout]. destruct (interpolate_agree top u u' k Hk Hu) as (acc & -> & ->). cbn [bind].
    destruct (st_agree top u u' k (i16 (SATURATE (PSHR acc 15) MAXINT16)) Hk Hu (i16_rng _)) as (t & t' & -> & -> & Hag' & Ho).
    exists t, t'. split; [done|]. split; [done|]. split; [done|]. intros j Hj Hj'. rewrite Ho by done. by apply Hout.
  - by exists t, t'.
Qed.

(** When they also agree after it, the whole arrays are equal. *)
Lemma compute_agree e e' : agree 0 e e' →
  ∃ t, computeAdaptativeCodebookVector e off f T = Ok t ∧
    computeAdaptativeCodebookVector e' off f T = Ok t ∧ agree 0 e t.
Proof.
  intros Hag. destruct (compute_agreeTo (off + 40) e e' Hag) as (t & t' & E & E' & (Ht & Ht' & Hag') & Hout).
  assert (t = t') as <-.
  { destruct Ht as [L _], Ht' as [L' _]. apply at_ext; [lia|]. intros j Hj. apply Hag'; lia. }
  exists t. split; [done|]. split; [done|]. split; [apply Hag|]. split; [done|].
  intros j Hj Hj'. symmetry. apply Hout; lia.
Qed.
End Vector.

(** Restoring the saved subframe. *)
Lemma restore_agree n off a b : 0 ≤ off → off + 40 ≤ n → agree n off 0 a b →
  ∃ v, read_block b off L_SUBFRAME = Ok v ∧ write_block a off v = Ok b.
Proof.
  intros Ho Hn ([L _] & [L' _] & Hag). unfold read_block, write_block, L_SUBFRAME.
  destruct (_ && _) eqn:E1; [|lia]. eexists. split; [reflexivity|].
  set (v := take (Z.to_nat 40) (drop (Z.to_nat off) b)).
  assert (length v = 40%nat) as Lv by (unfold v; rewrite length_take, length_drop; unfold zlen in *; lia).
  destruct (_ && (_ <=? zlen a)) eqn:E2; [|exfalso; unfold zlen in *; rewrite Lv in E2; change (Z.of_nat 40) with 40 in E2; lia]. f_equal.
  apply at_ext; unfold zlen in *; [rewrite length_inserts; lia|]. rewrite length_inserts. intros j Hj.
  unfold at_. rewrite !nth_lookup.
  destruct (decide (off ≤ j < off + 40)) as [Hin|Hout].
  - rewrite list_lookup_inserts by (rewrite ?Lv; lia). unfold v.
    rewrite lookup_take_lt by lia. rewrite lookup_drop.
    by replace (Z.to_nat off + (Z.to_nat j - Z.to_nat off))%nat with (Z.to_nat j) by lia.
  - assert (list_inserts (Z.to_nat off) v a !! Z.to_nat j = a !! Z.to_nat j) as ->.
    { destruct (decide (j < off)); [apply list_lookup_inserts_lt|apply list_lookup_inserts_ge; rewrite Lv]; lia. }
    specialize (Hag j ltac:(lia) ltac:(lia)). unfold at_ in Hag. by rewrite !nth_lookup in Hag.
Qed.

Lemma wp_correlateVectors F x y c (Q : list Z → Prop) :
  arr i16r 40 x → arr i16r 40 y → arr i32r 40 c → (∀ c, arr i32r 40 c → Q c) →
  wp F (correlateVectors x y c) Q.
Proof.
  intros Hx Hy Hc HQ. unfold correlateVectors, L_SUBFRAME.
  apply wp_for_inv with (I := arr i32r 40); [done| |done].
  intros i c1 Hi Hc1. wp_step. eapply wp_st_arr; [done|lia|by unfold rng|]. intros c2 Hc2.
  apply wp_for_inv with (I := arr i32r 40); [done| |done].
  intros j c3 Hj Hc3. wp_go. done.
Qed.

Lemma filteredCorrelation_ok n e pos b : arr i16r n e → arr i32r 40 b → 0 ≤ pos → pos + 40 ≤ n →
  ∃ c, filteredCorrelation e pos b = Ok c ∧ i32r c.
Proof.
  intros He Hb Hp Hn. apply safe_ok. unfold filteredCorrelation, L_SUBFRAME.
  apply wp_for_inv with (I := i32r); [by unfold rng| |done].
  intros j c Hj Hc. wp_go. apply i32_rng.
Qed.

(** A delay of the window is found, unless every sum is the most negative number. *)
Lemma searchIntDelay_ok n e off b lo hi T0 :
  arr i16r n e → arr i32r 40 b → 143 ≤ off → off + 40 ≤ n → 20 ≤ lo → hi ≤ 143 → lo ≤ hi →
  safe (searchIntDelay e off b lo hi T0) (λ o, (∃ d, o = Some d ∧ lo ≤ d ≤ hi) ∨
    o = T0 ∧ ∀ i, lo ≤ i ≤ hi → filteredCorrelation e (off - i) b = Ok MININT32).
Proof.
  intros He Hb Ho Hn Hlo Hhi Hle. unfold searchIntDelay. wp_step.
  apply wp_for_up with (I := λ i '(c, o), (∃ d, o = Some d ∧ lo ≤ d ≤ hi) ∨
    (c = MININT32 ∧ o = T0 ∧ ∀ j, lo ≤ j < i → filteredCorrelation e (off - j) b = Ok MININT32));
    [lia|right; split_and!; [done..|lia]| |].
  - intros i [c d] Hi HI. destruct (filteredCorrelation_ok n e (off - i) b) as (v & E & Hv); [done|done|lia|lia|].
    rewrite E. cbn [bind wp]. rewrite i16_id by (unfold rng; lia).
    destruct (Z.ltb_spec c v); [left; exists i; split; [done|lia]|].
    destruct HI as [|(-> & -> & HI)]; [by left|]. right. split; [done|]. split; [done|].
    intros j Hj. destruct (Z.eq_dec j i) as [->|]; [|apply HI; lia].
    rewrite E. unfold rng, MININT32 in *. f_equal. lia.
  - intros [c d] HI. cbn [wp]. destruct HI as [|(_ & -> & HI)]; [by left|]. right. split; [done|]. intros i Hi. apply HI. lia.
Qed.

Section SearchFraction.
Context (n off T : Z) (e b : list Z).
Context (Hoff : 154 ≤ off) (Hn : off + 40 ≤ n) (HT : 20 ≤ T ≤ 143).
Context (He : arr i16r n e) (Hb : arr i32r 40 b).

(** The vector of fraction [f], built from any state of the subframe. *)
Lemma generate_ok f e' : -1 ≤ f ≤ 1 → agree n off 0 e e' →
  ∃ t, computeAdaptativeCodebookVector e off f T = Ok t ∧
    generateAdaptativeCodebookVector e' off T f = Ok t ∧ agree n off 0 e t ∧ agree n off 0 t e.
Proof.
  intros Hf Hag. rewrite generate_is_compute by lia.
  destruct (compute_agree n off f T Hoff Hn Hf HT e e' Hag) as (t & E & E' & Ht).
  exists t. split; [done|]. split; [done|]. split; [done|].
  destruct Ht as (H1 & H2 & H3). split; [done|]. split; [done|]. intros j Hj Hj'. symmetry. by apply H3.
Qed.

Lemma agree_trans e1 e2 : agree n off 0 e1 e → agree n off 0 e e2 → agree n off 0 e1 e2.
Proof.
  intros (H1 & _ & H2) (_ & H3 & H4). split; [done|]. split; [done|]. intros j Hj Hj'.
  rewrite H2 by done. by apply H4.
Qed.

Lemma searchFraction_ok e0 : computeAdaptativeCodebookVector e off 0 T = Ok e0 → agree n off 0 e e0 →
  ∃ e' f, searchFraction e0 off b T = Ok (e', f) ∧ -1 ≤ f ≤ 1 ∧
    computeAdaptativeCodebookVector e off f T = Ok e'.
Proof.
  intros E0 H0. assert (arr i16r n e0) as He0 by apply H0.
  destruct (generate_ok (-1) e0 ltac:(lia) H0) as (em & Em & Gm & Hm & Hm').
  destruct (generate_ok 1 em ltac:(lia) Hm) as (ep & Ep & Gp & Hp & Hp').
  assert (arr i16r n em ∧ arr i16r n ep) as [Hem Hep] by (split; [apply Hm|apply Hp]).
  destruct (filteredCorrelation_ok n e0 off b) as (c0 & C0 & _); [done|done|lia|lia|].
  destruct (filteredCorrelation_ok n em off b) as (cm & Cm & _); [done|done|lia|lia|].
  destruct (filteredCorrelation_ok n ep off b) as (cp & Cp & _); [done|done|lia|lia|].
  destruct (restore_agree n off ep e0 ltac:(lia) Hn (agree_trans ep e0 Hp' H0)) as (v0 & R0 & W0).
  destruct (restore_agree n off ep em ltac:(lia) Hn (agree_trans ep em Hp' Hm)) as (vm & Rm & Wm).
  unfold searchFraction. rewrite C0. cbn [bind]. rewrite R0. cbn [bind]. rewrite Gm. cbn [bind]. rewrite Cm. cbn [bind].
  destruct (c0 <? cm); [rewrite Rm|]; cbn [bind]; rewrite Gp; cbn [bind]; rewrite Cp; cbn [bind].
  - destruct (cm <? cp); [exists ep, 1; split; [done|]; split; [lia|done]|].
    rewrite Wm. cbn [bind]. exists em, (-1). split; [done|]. split; [lia|done].
  - destruct (c0 <? cp); [exists ep, 1; split; [done|]; split; [lia|done]|].
    rewrite W0. cbn [bind]. exists e0, 0. split; [done|]. split; [lia|done].
Qed.
End SearchFraction.

(** ** The codeword *)

Lemma secondWindow_spec T : 20 ≤ T ≤ 143 → secondWindow T = (tMin_of T, tMin_of T + 9).
Proof.
  intros HT. unfold secondWindow, tMin_of, MAXIMUM_INT_PITCH_DELAY. rewrite (i16_id (T - 5)) by (unfold rng; lia).
  destruct (Z.ltb_spec (T - 5) 20).
  - change (i16 (20 + 9)) with 29. simpl. f_equal; lia.
  - rewrite i16_id by (unfold rng; lia). destruct (Z.ltb_spec 143 (T - 5 + 9)); f_equal; lia.
Qed.

Lemma codeword_first prev lo T f T' : 20 ≤ T ≤ 143 → -1 ≤ f ≤ 1 → (85 ≤ T → f = 0) →
  decodePitchDelay prev 0 (pitchDelayCodeword 0 lo T f) 0 0 T' = (T, T, f).
Proof.
  intros HT Hf H85. unfold pitchDelayCodeword. change (0 =? 0) with true. cbv iota.
  destruct (Z.leb_spec T 85).
  - rewrite u16_id by (unfold rng; lia). destruct (Z.eq_dec T 85) as [->|].
    + rewrite H85 by lia. rewrite pitch_first_int by lia. done.
    + destruct (pitch_first_fine prev (3 * T - 58 + f) T') as (t & g & -> & E & Hg & _); [lia|].
      assert (t = T ∧ g = f) as [-> ->] by lia. done.
  - rewrite H85 by lia. rewrite u16_id by (unfold rng; lia). rewrite pitch_first_int by lia.
    by replace (T + 112 - 112) with T by lia.
Qed.

Lemma codeword_second prev par T1 T f : 20 ≤ T1 ≤ 143 → tMin_of T1 ≤ T ≤ tMin_of T1 + 9 → -1 ≤ f ≤ 1 →
  decodePitchDelay prev 40 (pitchDelayCodeword 40 (tMin_of T1) T f) par 0 T1 = (T, T, f).
Proof.
  intros HT1 HT Hf. unfold pitchDelayCodeword. change (40 =? 0) with false. cbv iota.
  rewrite u16_id by (unfold rng; lia).
  destruct (pitch_second prev (3 * (T - tMin_of T1) + f + 2) T1 par) as (t & g & -> & E & Hg & _); [lia|lia|].
  assert (t = T ∧ g = f) as [-> ->] by lia. done.
Qed.

(** ** The whole search *)

(** Every delay of the window has the most negative sum: none is above the value the search
    starts from, so that it retains no delay. *)
Definition nothing_found (exc : list Z) (off lo hi : Z) (h target : list Z) : Prop :=
  ∃ b, correlateVectors target h (zeros L_SUBFRAME) = Ok b ∧
    ∀ i, lo ≤ i ≤ hi → filteredCorrelation exc (off - i) b = Ok MININT32.

Lemma backward_ok h target : arr i16r 40 h → arr i16r 40 target →
  ∃ b, correlateVectors target h (zeros L_SUBFRAME) = Ok b ∧ arr i32r 40 b.
Proof.
  intros Hh Ht. apply safe_ok. apply wp_correlateVectors; [done|done|by apply arr_zeros; unfold rng|done].
Qed.

(** What the search returns once an integer delay is found. *)
Definition search_result (exc : list Z) (off lo hi sub : Z) (r : list Z * Z * Z * Z * Z * Z) : Prop :=
  ∃ exc' T f, lo ≤ T ≤ hi ∧ -1 ≤ f ≤ 1 ∧ (sub = 0 → 85 ≤ T → f = 0) ∧
    computeAdaptativeCodebookVector exc off f T = Ok exc' ∧
    r = (exc', if sub =? 0 then tMin_of T else lo, if sub =? 0 then tMin_of T + 9 else hi, T, f,
         pitchDelayCodeword sub lo T f).

Lemma adaptativeCodebookSearch_found n exc off lo hi h target T0 sub b T :
  arr i16r n exc → 154 ≤ off → off + 40 ≤ n → 20 ≤ lo → hi ≤ 143 → arr i32r 40 b →
  correlateVectors target h (zeros L_SUBFRAME) = Ok b →
  searchIntDelay exc off b lo hi T0 = Ok (Some T) → lo ≤ T ≤ hi →
  safe (adaptativeCodebookSearch exc off lo hi h target T0 sub) (search_result exc off lo hi sub).
Proof.
  intros He Hoff Hn Hlo Hhi Hb Eb ET HT. unfold adaptativeCodebookSearch.
  rewrite Eb. cbn [bind]. rewrite ET. cbn [bind initialised].
  assert (agree n off 0 exc exc) as Hrefl by done.
  destruct (generate_ok n off T exc Hoff Hn ltac:(lia) 0 exc ltac:(lia) Hrefl) as (e0 & E0 & G0 & H0 & _).
  rewrite G0. cbn [bind].
  assert (∃ exc' f, (if negb ((sub =? 0) && (85 <=? T)) then searchFraction e0 off b T else Ok (e0, 0)) = Ok (exc', f) ∧
    -1 ≤ f ≤ 1 ∧ (sub = 0 → 85 ≤ T → f = 0) ∧ computeAdaptativeCodebookVector exc off f T = Ok exc')
    as (exc' & f & -> & Hf & H85 & Ev).
  { destruct (negb _) eqn:E; [|exists e0, 0; split; [done|]; split; [lia|]; by split].
    destruct (searchFraction_ok n off T exc b Hoff Hn ltac:(lia) Hb e0 E0 H0) as (e' & f & Ef & Hf & Ev).
    exists e', f. split; [done|]. split; [done|]. split; [lia|done]. }
  cbn [bind]. rewrite secondWindow_spec by lia.
  destruct (sub =? 0) eqn:Es; (exists exc', T, f; rewrite Es; split_and!; done || lia).
Qed.

(** Either the search finds a delay, or it uses the one it was given. *)
Lemma adaptativeCodebookSearch_cases n exc off lo hi h target T0 sub :
  arr i16r n exc → 154 ≤ off → off + 40 ≤ n → 20 ≤ lo → lo ≤ hi → hi ≤ 143 →
  arr i16r 40 h → arr i16r 40 target →
  safe (adaptativeCodebookSearch exc off lo hi h target T0 sub) (search_result exc off lo hi sub) ∨
  nothing_found exc off lo hi h target ∧
    (T0 = None → adaptativeCodebookSearch exc off lo hi h target T0 sub = Err Uninit).
Proof.
  intros He Hoff Hn Hlo Hle Hhi Hh Ht. destruct (backward_ok h target Hh Ht) as (b & Eb & Hb).
  destruct (proj1 (safe_ok _ _) (searchIntDelay_ok n exc off b lo hi T0 He Hb ltac:(lia) Hn Hlo Hhi Hle))
    as (o & Eo & [(T & -> & HT)|[-> Hall]]).
  - left. by eapply adaptativeCodebookSearch_found.
  - right. split; [by exists b|]. intros ->. unfold adaptativeCodebookSearch. rewrite Eb. cbn [bind]. rewrite Eo. by cbn.
Qed.

(** With an uninitialised delay the search still stays inside its arrays; its only fault is the
    use of that delay, when every sum is the most negative number. *)
Lemma wp_adaptativeCodebookSearch (F : fault → Prop) n exc off lo hi h target sub
    (Q : list Z * Z * Z * Z * Z * Z → Prop) :
  F Uninit → arr i16r n exc → 154 ≤ off → off + 40 ≤ n → 20 ≤ lo → lo ≤ hi → hi ≤ 143 →
  arr i16r 40 h → arr i16r 40 target → (∀ r, search_result exc off lo hi sub r → Q r) →
  wp F (adaptativeCodebookSearch exc off lo hi h target None sub) Q.
Proof.
  intros HF He Hoff Hn Hlo Hle Hhi Hh Ht HQ.
  destruct (adaptativeCodebookSearch_cases n exc off lo hi h target None sub He Hoff Hn Hlo Hle Hhi Hh Ht) as [H|[_ H]].
  - eapply wp_of_safe; [exact H|done].
  - by rewrite (H eq_refl).
Qed.
