(* ===== verification/EncLSP.v ===== *)
(** Quantization of the line spectral frequencies by the encoder ([LSPQuantization.c]): the
    active frame quantizer [LSPQuantization] and the comfort noise quantizer
    [noiseLSPQuantization].  The code the two functions share is written once, with the tables
    and the codebook rows as arguments.  The indices of the nearest codewords are C locals that
    are only written when a candidate is below [MAXINT32]. *)

From S2P Require Import Prelude FixedPoint Sums Codebooks Math Utils Context DecodeLSP EncContext EncChannel.

(** ** Frequencies and weights *)

Definition LSPtoLSF (LSPCoefficients : list Z) : res (list Z) :=
  for_up 0 NB_LSP_COEFF (zeros NB_LSP_COEFF) (λ i LSF,
    let* v := ld LSPCoefficients i in
    let* a := g729Acos_Q15Q13 v in
    st LSF i a).

Definition weightsThreshold (LSF : list Z) : res (list Z) :=
  let* b := ld LSF 1 in
  let* t := st (zeros NB_LSP_COEFF) 0 (i16 (SUB16 b OO4PIPLUS1_IN_Q13)) in
  let* t := for_up 1 (NB_LSP_COEFF - 1) t (λ i t,
    let* b := ld LSF (i + 1) in
    let* a := ld LSF (i - 1) in
    st t i (i16 (SUB16 (SUB16 b a) ONE_IN_Q13))) in
  let* a := ld LSF (NB_LSP_COEFF - 2) in
  st t (NB_LSP_COEFF - 1) (i16 (SUB16 O92PIMINUS1_IN_Q13 a)).

Definition LSFweights (LSF : list Z) : res (list Z) :=
  let* threshold := weightsThreshold LSF in
  let* w := for_up 0 NB_LSP_COEFF (zeros NB_LSP_COEFF) (λ i w,
    let* t := ld threshold i in
    st w i (if 0 <? t then ONE_IN_Q11
            else u16 (i16 (SATURATE (ADD32 (PSHR (MULT16_16 (MULT16_16_Q13 t t) 10) 2) ONE_IN_Q11) MAXINT16)))) in
  let* w4 := ld w 4 in
  let* w := st w 4 (u16 (MULT16_16_Q14 w4 ONE_POINT_2_IN_Q14)) in
  let* w5 := ld w 5 in
  st w 5 (u16 (MULT16_16_Q14 w5 ONE_POINT_2_IN_Q14)).

(** ** The search of one predictor *)

Definition targetVector (previousqLSF : list (list Z)) (LSF : list Z) (predictor : list (list (list Z)))
    (invPredictorSum : list (list Z)) (L0 : Z) : res (list Z) :=
  for_up 0 NB_LSP_COEFF (zeros NB_LSP_COEFF) (λ i target,
    let* l := ld LSF i in
    let* acc := for_up 0 MA_MAX_K (SHL l 15) (λ j acc,
      let* p := ld2 previousqLSF j i in
      let* rows := ld predictor L0 in
      let* m := ld2 rows j i in
      Ok (MSU16_16 acc p m)) in
    let* inv := ld2 invPredictorSum L0 i in
    st target i (i16 (MULT16_16_Q12 (i16 (PSHR acc 15)) inv))).

(** The loops that keep the first candidate with the least [distance]. *)
Definition minIndex (range : Z) (distance : Z → res Z) : res Z :=
  let* (_, index) := for_up 0 range (MAXINT32, None) (λ i '(meanSquareDiff, index),
    let* acc := distance i in
    Ok (if acc <? meanSquareDiff then (acc, Some i) else (meanSquareDiff, index))) in
  initialised index.

(** The squared distance of the target to the row [r1] of [L1]. *)
Definition distanceL1 (target : list Z) (r1 : Z) : res Z :=
  for_up 0 NB_LSP_COEFF 0 (λ j acc,
    let* t := ld target j in
    let* l := ld2 L1 r1 j in
    let difftargetVectorL1 := i16 (SATURATE (SUB32 t l) MAXINT16) in
    Ok (MAC16_16 acc difftargetVectorL1 difftargetVectorL1)).

(** The weighted distance to [L1[r1] + L2L3[r2]] on the coefficients [lo .. hi-1]. *)
Definition distanceL2L3 (target : list Z) (predictorSum : list (list Z)) (weights : list Z) (L0 r1 r2 lo hi acc : Z)
    : res Z :=
  for_up lo hi acc (λ j acc,
    let* t := ld target j in
    let* l := ld2 L1 r1 j in
    let* m := ld2 L2L3 r2 j in
    let* s := ld2 predictorSum L0 j in
    let diff := i16 (SATURATE (MULT16_16_Q15 (SUB32 (SUB32 t l) m) s) MAXINT16) in
    let* w := ld weights j in
    Ok (MAC16_16 acc diff (MULT16_16_Q11 diff w))).

(** The rearrangement of the candidate: a distance of [gap] between the coefficients
    [lo - 1 .. hi - 1]; the second average uses the first one. *)
Definition spreadCoefficients (quantizedVector : list Z) (lo hi gap : Z) : res (list Z) :=
  for_up lo hi quantizedVector (λ i q,
    let* a := ld q (i - 1) in
    let* b := ld q i in
    if SUB16 b gap <? a then
      let* q := st q (i - 1) (i16 (PSHR (SUB16 (ADD16 b a) gap) 1)) in
      let* b := ld q i in
      let* a := ld q (i - 1) in
      st q i (i16 (PSHR (ADD16 (ADD16 b a) gap) 1))
    else Ok q).

Definition rearrangeCandidate (quantizedVector : list Z) : res (list Z) :=
  let* q := spreadCoefficients quantizedVector 1 (NB_LSP_COEFF / 2) GAP1 in
  let* q := spreadCoefficients q (NB_LSP_COEFF / 2 + 1) NB_LSP_COEFF GAP1 in
  spreadCoefficients q 1 NB_LSP_COEFF GAP2.

Definition weightedMeanSquareError (target quantizedVector weights : list Z) (predictorSum : list (list Z)) (L0 : Z)
    : res Z :=
  for_up 0 NB_LSP_COEFF 0 (λ i err,
    let* t := ld target i in
    let* q := ld quantizedVector i in
    let* s := ld2 predictorSum L0 i in
    let diff := u16 (USATURATE (ABS (MULT16_16_Q15 (SUB32 t q) s)) MAXUINT16) in
    let* w := ld weights i in
    Ok (UMAC16_16 err diff (MULT16_16_Q11 diff w))).

(** The candidate of the predictor [L0] for an active frame: its error and [(L1, L2, L3)]. *)
Definition activeCandidate (previousqLSF : list (list Z)) (LSF weights : list Z) (L0 : Z) : res (Z * (Z * Z * Z)) :=
  let* target := targetVector previousqLSF LSF MAPredictor invMAPredictorSum L0 in
  let* i1 := minIndex L1_RANGE (distanceL1 target) in
  let* i2 := minIndex L2_RANGE (λ i, distanceL2L3 target MAPredictorSum weights L0 i1 i 0 (NB_LSP_COEFF / 2) 0) in
  let* i3 := minIndex L2_RANGE (λ i, distanceL2L3 target MAPredictorSum weights L0 i1 i (NB_LSP_COEFF / 2) NB_LSP_COEFF 0) in
  let* q := codebookSum i1 i2 0 (NB_LSP_COEFF / 2) (zeros NB_LSP_COEFF) in
  let* q := codebookSum i1 i3 (NB_LSP_COEFF / 2) NB_LSP_COEFF q in
  let* q := rearrangeCandidate q in
  let* err := weightedMeanSquareError target q weights MAPredictorSum L0 in
  Ok (err, (i1, i2, i3)).

(** The same for a noise frame, in the subset codebooks: its error and [(L1, L2)]. The second
    half of the candidate is read at the row [L1index] of [L1], not at the row of the subset. *)
Definition noiseDistance (target weights : list Z) (L0 r1 i : Z) : res Z :=
  let* r2 := ld L2SubsetIndex i in
  let* acc := distanceL2L3 target noiseMAPredictorSum weights L0 r1 r2 0 (NB_LSP_COEFF / 2) 0 in
  let* r3 := ld L3SubsetIndex i in
  distanceL2L3 target noiseMAPredictorSum weights L0 r1 r3 (NB_LSP_COEFF / 2) NB_LSP_COEFF acc.

Definition noiseCandidate (previousqLSF : list (list Z)) (LSF weights : list Z) (L0 : Z) : res (Z * (Z * Z)) :=
  let* target := targetVector previousqLSF LSF noiseMAPredictor invNoiseMAPredictorSum L0 in
  let* i1 := minIndex NOISE_L1_RANGE (λ i, let* r1 := ld L1SubsetIndex i in distanceL1 target r1) in
  let* r1 := ld L1SubsetIndex i1 in
  let* i2 := minIndex NOISE_L2_RANGE (noiseDistance target weights L0 r1) in
  let* r2 := ld L2SubsetIndex i2 in
  let* r3 := ld L3SubsetIndex i2 in
  let* q := codebookSum r1 r2 0 (NB_LSP_COEFF / 2) (zeros NB_LSP_COEFF) in
  let* q := codebookSum i1 r3 (NB_LSP_COEFF / 2) NB_LSP_COEFF q in
  let* q := rearrangeCandidate q in
  let* err := weightedMeanSquareError target q weights noiseMAPredictorSum L0 in
  Ok (err, (i1, i2)).

(** ** Reconstruction of the quantized frequencies *)

Definition quantizerOutput (r1 r2 r3 : Z) : res (list Z) :=
  let* q := codebookSum r1 r2 0 (NB_LSP_COEFF / 2) (zeros NB_LSP_COEFF) in
  let* q := codebookSum r1 r3 (NB_LSP_COEFF / 2) NB_LSP_COEFF q in
  let* q := rearrangeCoefficients q GAP1 in
  rearrangeCoefficients q GAP2.

Definition qLSFprediction (quantizerOutput : list Z) (previousqLSF : list (list Z)) (L0 : Z)
    (predictor : list (list (list Z))) (predictorSum : list (list Z)) : res (list Z) :=
  for_up 0 NB_LSP_COEFF (zeros NB_LSP_COEFF) (λ i qLSF,
    let* s := ld2 predictorSum L0 i in
    let* q := ld quantizerOutput i in
    let* acc := for_up 0 MA_MAX_K (MULT16_16 s q) (λ j acc,
      let* rows := ld predictor L0 in
      let* m := ld2 rows j i in
      let* p := ld2 previousqLSF j i in
      Ok (MAC16_16 acc m p)) in
    st qLSF i (i16 (PSHR acc 15))).

Definition pushqLSF (previousqLSF : list (list Z)) (quantizerOutput : list Z) : res (list (list Z)) :=
  let* m := for_down (MA_MAX_K - 1) 1 previousqLSF (λ i m,
    let* src := ld m (i - 1) in
    let* dst := ld m i in
    let* r := copy_block dst 0 src 0 NB_LSP_COEFF in
    st m i r) in
  let* dst := ld m 0 in
  let* r := copy_block dst 0 quantizerOutput 0 NB_LSP_COEFF in
  st m 0 r.

(** The stability check: the lower limit is tested on the second frequency. *)
Definition checkqLSF (qLSF : list Z) : res (list Z) :=
  let* q := insertionSort qLSF NB_LSP_COEFF in
  let* q1 := ld q 1 in
  let* q := (if q1 <? qLSF_MIN then st q 1 qLSF_MIN else Ok q) in
  let* q := for_up 0 (NB_LSP_COEFF - 1) q (λ i q,
    let* b := ld q (i + 1) in
    let* a := ld q i in
    if SUB16 b a <? MIN_qLSF_DISTANCE then st q (i + 1) (i16 (a + MIN_qLSF_DISTANCE)) else Ok q) in
  let* q9 := ld q (NB_LSP_COEFF - 1) in
  if qLSF_MAX <? q9 then st q (NB_LSP_COEFF - 1) qLSF_MAX else Ok q.

(** From the codebook rows to the history, [qLSF] and [qLSP]: [(previousqLSF, qLSPCoefficients)] *)
Definition reconstructLSP (previousqLSF : list (list Z)) (predictor : list (list (list Z)))
    (predictorSum : list (list Z)) (L0 r1 r2 r3 : Z) (qLSP : list Z) : res (list (list Z) * list Z) :=
  let* output := quantizerOutput r1 r2 r3 in
  let* qLSF := qLSFprediction output previousqLSF L0 predictor predictorSum in
  let* previousqLSF := pushqLSF previousqLSF output in
  let* qLSF := checkqLSF qLSF in
  let* qLSP := for_up 0 NB_LSP_COEFF qLSP (λ i qLSP,
    let* v := ld qLSF i in
    st qLSP i (g729Cos_Q13Q15 v)) in
  Ok (previousqLSF, qLSP).

(** ** The two quantizers *)

(** [(context, qLSPCoefficients, parameters)] *)
Definition LSPQuantization (c : Enc.ctx) (LSPCoefficients qLSP parameters : list Z)
    : res (Enc.ctx * list Z * list Z) :=
  let* LSF := LSPtoLSF LSPCoefficients in
  let* weights := LSFweights LSF in
  let* (err0, index0) := activeCandidate (Enc.previousqLSF c) LSF weights 0 in
  let* (err1, index1) := activeCandidate (Enc.previousqLSF c) LSF weights 1 in
  let L0 := if err0 <? err1 then 0 else 1 in
  let '(i1, i2, i3) := if err0 <? err1 then index0 else index1 in
  let* parameters := st parameters 0 L0 in
  let* parameters := st parameters 1 (u16 i1) in
  let* parameters := st parameters 2 (u16 i2) in
  let* parameters := st parameters 3 (u16 i3) in
  let* (m, qLSP) := reconstructLSP (Enc.previousqLSF c) MAPredictor MAPredictorSum L0 (u16 i1) (u16 i2) (u16 i3) qLSP in
  Ok (Enc.set_previousqLSF m c, qLSP, parameters).

(** [(previousqLSF, qLSPCoefficients, parameters)] *)
Definition noiseLSPQuantization (previousqLSF : list (list Z)) (LSPCoefficients qLSP parameters : list Z)
    : res (list (list Z) * list Z * list Z) :=
  let* LSF := LSPtoLSF LSPCoefficients in
  let* weights := LSFweights LSF in
  let* (err0, index0) := noiseCandidate previousqLSF LSF weights 0 in
  let* (err1, index1) := noiseCandidate previousqLSF LSF weights 1 in
  let L0 := if err0 <? err1 then 0 else 1 in
  let '(i1, i2) := if err0 <? err1 then index0 else index1 in
  let* parameters := st parameters 0 L0 in
  let* parameters := st parameters 1 (u8 i1) in
  let* parameters := st parameters 2 (u8 i2) in
  let* r1 := ld L1SubsetIndex (u8 i1) in
  let* r2 := ld L2SubsetIndex (u8 i2) in
  let* r3 := ld L3SubsetIndex (u8 i2) in
  let* (m, qLSP) := reconstructLSP previousqLSF noiseMAPredictor noiseMAPredictorSum L0 r1 r2 r3 qLSP in
  Ok (m, qLSP, parameters).

(** ** Safety *)

Lemma wp_LSPtoLSF (F : fault → Prop) LSP (Q : list Z → Prop) :
  F DivError → arr i16r 10 LSP → (∀ l, arr i16r 10 l → Q l) → wp F (LSPtoLSF LSP) Q.
Proof.
  intros HF HL HQ. unfold LSPtoLSF, NB_LSP_COEFF.
  apply wp_for_inv with (I := arr i16r 10); [by apply arr_zeros| |done]. intros i l Hi Hl.
  wp_step. eapply wp_ld_arr; [done|lia|]. intros v Hv. wp_step.
  apply wp_mono with (P := i16r); [|intros a Ha; by wp_step].
  destruct (Z.eq_dec v (-32768)) as [->|]; [by vm_compute|].
  apply wp_g729Acos; [unfold rng in *; lia|done].
Qed.

Lemma wp_weightsThreshold F LSF (Q : list Z → Prop) :
  arr i16r 10 LSF → (∀ t, arr i16r 10 t → Q t) → wp F (weightsThreshold LSF) Q.
Proof.
  intros HL HQ. unfold weightsThreshold, NB_LSP_COEFF. wp_step. wp_step. wp_step.
  eapply wp_st_arr; [by apply (arr_zeros i16r 10)|lia|auto with rng|]. intros t Ht. wp_step.
  apply wp_for_inv with (I := arr i16r 10); [done| |].
  - intros i t' Hi Ht'. wp_go. done.
  - intros t' Ht'. wp_go. auto.
Qed.

Lemma wp_LSFweights F LSF (Q : list Z → Prop) :
  arr i16r 10 LSF → (∀ w, arr u16r 10 w → Q w) → wp F (LSFweights LSF) Q.
Proof.
  intros HL HQ. unfold LSFweights, NB_LSP_COEFF. wp_step. apply wp_weightsThreshold; [done|]. intros t Ht.
  wp_step. apply wp_for_inv with (I := arr u16r 10); [by apply arr_zeros| |].
  - intros i w Hi Hw. wp_step. eapply wp_ld_arr; [done|lia|]. intros x Hx.
    eapply wp_st_arr; [done|lia| |done]. unfold ONE_IN_Q11. destruct (0 <? x); [by unfold rng|apply u16_rng].
  - intros w Hw. wp_go. auto.
Qed.

Lemma wp_targetVector F m LSF pred inv L0 (Q : list Z → Prop) :
  arr (arr i16r 10) 4 m → arr i16r 10 LSF → 0 ≤ L0 < 2 →
  arr (arr (arr (rng 0 32767) 10) 4) 2 pred → arr (arr i16r 10) 2 inv →
  (∀ t, arr i16r 10 t → Q t) → wp F (targetVector m LSF pred inv L0) Q.
Proof.
  intros Hm HL H0 Hp Hinv HQ. unfold targetVector, NB_LSP_COEFF, MA_MAX_K.
  apply wp_for_inv with (I := arr i16r 10); [by apply arr_zeros| |done]. intros i t Hi Ht.
  wp_step. eapply wp_ld_arr; [done|lia|]. intros l Hl. wp_step.
  apply wp_for_inv with (I := i32r); [auto with rng| |].
  - intros j acc Hj Hacc. wp_go. auto with rng.
  - intros acc Hacc. wp_go. done.
Qed.

(** [k] is the first index of the least distance. *)
Definition nearest (range : Z) (distance : Z → res Z) (k : Z) : Prop :=
  0 ≤ k < range ∧ ∃ v, distance k = Ok v ∧ v < MAXINT32 ∧
    ∀ i w, 0 ≤ i < range → distance i = Ok w → v ≤ w ∧ (i < k → v < w).

Lemma wp_minIndex (F : fault → Prop) range distance (Q : Z → Prop) :
  F Uninit → 0 ≤ range → (∀ i, 0 ≤ i < range → ∃ v, distance i = Ok v ∧ i32r v) →
  (∀ k, nearest range distance k → Q k) → wp F (minIndex range distance) Q.
Proof.
  intros HF Hr Hd HQ. unfold minIndex. wp_step.
  apply wp_for_up with (I := λ n '(m, o), match o with
    | None => m = MAXINT32 ∧ ∀ i w, 0 ≤ i < n → distance i = Ok w → m ≤ w
    | Some k => 0 ≤ k < n ∧ distance k = Ok m ∧ m < MAXINT32 ∧
        ∀ i w, 0 ≤ i < n → distance i = Ok w → m ≤ w ∧ (i < k → m < w)
    end); [done|split; [done|lia]| |].
  - intros n [m o] Hn HI. destruct (Hd n ltac:(lia)) as (v & Ev & Hv). rewrite Ev. cbn [bind wp].
    destruct (Z.ltb_spec v m) as [Hlt|Hge].
    + assert (m ≤ MAXINT32 ∧ ∀ i w, 0 ≤ i < n → distance i = Ok w → m ≤ w) as [Hm Hall].
      { destruct o as [k|]; [|by destruct HI as [-> HI]; split].
        destruct HI as (_ & _ & ? & HI). split; [lia|]. intros i w Hi Hw. by apply (HI i w Hi Hw). }
      split_and!; [lia|lia|done|lia|]. intros i w Hi Hw. destruct (Z.eq_dec i n) as [->|].
      * rewrite Ev in Hw. injection Hw as <-. lia.
      * specialize (Hall i w ltac:(lia) Hw). lia.
    + assert (∀ i w, 0 ≤ i < n + 1 → distance i = Ok w → i = n ∧ w = v ∨ 0 ≤ i < n) as Hcase.
      { intros i w Hi Hw. destruct (Z.eq_dec i n) as [->|]; [|right; lia]. rewrite Ev in Hw. left. by injection Hw. }
      destruct o as [k|].
      * destruct HI as (Hk & Ek & Hm & HI). split_and!; [lia|lia|done|done|]. intros i w Hi Hw.
        destruct (Hcase i w Hi Hw) as [[-> ->]|Hi']; [lia|]. by apply HI.
      * destruct HI as [-> HI]. split; [done|]. intros i w Hi Hw.
        destruct (Hcase i w Hi Hw) as [[-> ->]|Hi']; [lia|]. by apply (HI i).
  - intros [m [k|]] HI; [|done]. cbn [initialised wp]. apply HQ.
    destruct HI as (Hk & Ek & Hm & HI). split; [done|]. by exists m.
Qed.

Lemma distanceL1_ok t r : arr i16r 10 t → 0 ≤ r < 128 → ∃ v, distanceL1 t r = Ok v ∧ i32r v.
Proof.
  intros Ht Hr. apply safe_ok. unfold distanceL1, NB_LSP_COEFF.
  apply wp_for_inv with (I := i32r); [by unfold rng| |done]. intros j acc Hj Hacc. wp_go. auto with rng.
Qed.

Lemma distanceL2L3_ok t s w L0 r1 r2 lo hi acc : arr i16r 10 t → arr (arr (rng 0 32767) 10) 2 s →
  arr u16r 10 w → 0 ≤ L0 < 2 → 0 ≤ r1 < 128 → 0 ≤ r2 < 32 → 0 ≤ lo → hi ≤ 10 → i32r acc →
  ∃ v, distanceL2L3 t s w L0 r1 r2 lo hi acc = Ok v ∧ i32r v.
Proof.
  intros Ht Hs Hw H0 H1 H2 Hlo Hhi Hacc. apply safe_ok. unfold distanceL2L3.
  apply wp_for_inv with (I := i32r); [done| |done]. intros j a Hj Ha. wp_go. auto with rng.
Qed.

Lemma wp_spreadCoefficients F q lo hi gap (Q : list Z → Prop) :
  arr i16r 10 q → 1 ≤ lo → hi ≤ 10 → (∀ q, arr i16r 10 q → Q q) →
  wp F (spreadCoefficients q lo hi gap) Q.
Proof.
  intros Hq Hlo Hhi HQ. unfold spreadCoefficients.
  apply wp_for_inv with (I := arr i16r 10); [done| |done]. intros i x Hi Hx. wp_go; done.
Qed.

Lemma wp_rearrangeCandidate F q (Q : list Z → Prop) :
  arr i16r 10 q → (∀ q, arr i16r 10 q → Q q) → wp F (rearrangeCandidate q) Q.
Proof.
  intros Hq HQ. unfold rearrangeCandidate. wp_step. apply wp_spreadCoefficients; [done|lia|by vm_compute|].
  intros q1 H1. wp_step. apply wp_spreadCoefficients; [done|by vm_compute|by vm_compute|].
  intros q2 H2. apply wp_spreadCoefficients; [done|lia|by vm_compute|done].
Qed.

Lemma wp_weightedMeanSquareError F t q w s L0 (Q : Z → Prop) :
  arr i16r 10 t → arr i16r 10 q → arr u16r 10 w → arr (arr (rng 0 32767) 10) 2 s → 0 ≤ L0 < 2 →
  (∀ e, u32r e → Q e) → wp F (weightedMeanSquareError t q w s L0) Q.
Proof.
  intros Ht Hq Hw Hs H0 HQ. unfold weightedMeanSquareError, NB_LSP_COEFF.
  apply wp_for_inv with (I := u32r); [by unfold rng| |done]. intros i e Hi He. wp_go. apply u32_rng.
Qed.

Lemma wp_activeCandidate (F : fault → Prop) m LSF w L0 (Q : Z * (Z * Z * Z) → Prop) :
  F Uninit → arr (arr i16r 10) 4 m → arr i16r 10 LSF → arr u16r 10 w → 0 ≤ L0 < 2 →
  (∀ e t i1 i2 i3, targetVector m LSF MAPredictor invMAPredictorSum L0 = Ok t →
     nearest 128 (distanceL1 t) i1 →
     nearest 32 (λ i, distanceL2L3 t MAPredictorSum w L0 i1 i 0 5 0) i2 →
     nearest 32 (λ i, distanceL2L3 t MAPredictorSum w L0 i1 i 5 10 0) i3 → Q (e, (i1, i2, i3))) →
  wp F (activeCandidate m LSF w L0) Q.
Proof.
  intros HF Hm HL Hw H0 HQ. unfold activeCandidate.
  destruct (proj1 (safe_ok _ _) (wp_targetVector no_fault m LSF MAPredictor invMAPredictorSum L0 (arr i16r 10) Hm HL H0
    MAPredictor_arr invMAPredictorSum_arr (λ _ H, H))) as (t & Et & Ht).
  rewrite Et. cbn [bind]. change (NB_LSP_COEFF / 2) with 5. change NB_LSP_COEFF with 10. wp_step.
  apply wp_minIndex; [done|by vm_compute|intros; by apply distanceL1_ok|]. intros i1 N1. pose proof N1 as [H1 _]. wp_step.
  apply wp_minIndex; [done|by vm_compute|intros; apply distanceL2L3_ok; eauto with csafe; try lia; by unfold rng|].
  intros i2 N2. pose proof N2 as [H2 _]. wp_step.
  apply wp_minIndex; [done|by vm_compute|intros; apply distanceL2L3_ok; eauto with csafe; try lia; by unfold rng|].
  intros i3 N3. pose proof N3 as [H3 _]. wp_step.
  apply wp_codebookSum; [done|done|lia|lia|by apply arr_zeros|]. intros q1 Hq1. wp_step.
  apply wp_codebookSum; [done|done|lia|lia|done|]. intros q2 Hq2. wp_step.
  apply wp_rearrangeCandidate; [done|]. intros q3 Hq3. wp_step.
  apply wp_weightedMeanSquareError; eauto with csafe. intros e _. unfold wp. by eapply HQ.
Qed.

Lemma wp_noiseCandidate (F : fault → Prop) m LSF w L0 (Q : Z * (Z * Z) → Prop) :
  F Uninit → arr (arr i16r 10) 4 m → arr i16r 10 LSF → arr u16r 10 w → 0 ≤ L0 < 2 →
  (∀ e i1 i2, 0 ≤ i1 < 32 → 0 ≤ i2 < 16 → Q (e, (i1, i2))) → wp F (noiseCandidate m LSF w L0) Q.
Proof.
  intros HF Hm HL Hw H0 HQ. unfold noiseCandidate. wp_step.
  apply wp_targetVector; eauto with csafe. intros t Ht.
  change (NB_LSP_COEFF / 2) with 5. change NB_LSP_COEFF with 10. wp_step.
  apply wp_minIndex; [done|by vm_compute| |].
  { intros i Hi. apply safe_ok. wp_step. eapply wp_ld_arr; [apply L1SubsetIndex_arr|done|].
    intros r Hr. destruct (distanceL1_ok t r Ht ltac:(unfold rng in *; lia)) as (v & -> & Hv). done. }
  intros i1 [H1 _]. change NOISE_L1_RANGE with 32 in H1. wp_step.
  eapply wp_ld_arr; [apply L1SubsetIndex_arr|done|]. intros r1 Hr1. unfold rng in Hr1. wp_step.
  apply wp_minIndex; [done|by vm_compute| |].
  { intros i Hi. change NOISE_L2_RANGE with 16 in Hi. apply safe_ok. unfold noiseDistance.
    change (NB_LSP_COEFF / 2) with 5. change NB_LSP_COEFF with 10. wp_step.
    eapply wp_ld_arr; [apply L2SubsetIndex_arr|done|]. intros r2 Hr2. unfold rng in Hr2. wp_step.
    destruct (distanceL2L3_ok t noiseMAPredictorSum w L0 r1 r2 0 5 0) as (v & -> & Hv); eauto with csafe; try lia; [by unfold rng|].
    cbn [wp]. wp_step. eapply wp_ld_arr; [apply L3SubsetIndex_arr|done|]. intros r3 Hr3. unfold rng in Hr3.
    destruct (distanceL2L3_ok t noiseMAPredictorSum w L0 r1 r3 5 10 v) as (v' & -> & Hv'); eauto with csafe; lia. }
  intros i2 [H2 _]. change NOISE_L2_RANGE with 16 in H2. wp_step.
  eapply wp_ld_arr; [apply L2SubsetIndex_arr|done|]. intros r2 Hr2. unfold rng in Hr2. wp_step.
  eapply wp_ld_arr; [apply L3SubsetIndex_arr|done|]. intros r3 Hr3. unfold rng in Hr3. wp_step.
  apply wp_codebookSum; [lia|lia|lia|lia|by apply arr_zeros|]. intros q1 Hq1. wp_step.
  apply wp_codebookSum; [lia|lia|lia|lia|done|]. intros q2 Hq2. wp_step.
  apply wp_rearrangeCandidate; [done|]. intros q3 Hq3. wp_step.
  apply wp_weightedMeanSquareError; eauto with csafe. intros e _. unfold wp. by apply HQ.
Qed.

Lemma wp_quantizerOutput F r1 r2 r3 (Q : list Z → Prop) :
  0 ≤ r1 < 128 → 0 ≤ r2 < 32 → 0 ≤ r3 < 32 → (∀ q, arr i16r 10 q → Q q) → wp F (quantizerOutput r1 r2 r3) Q.
Proof.
  intros H1 H2 H3 HQ. unfold quantizerOutput. wp_step.
  apply wp_codebookSum; [done|done|done|by vm_compute|by apply arr_zeros|]. intros q1 Hq1. wp_step.
  apply wp_codebookSum; [done|done|by vm_compute|by vm_compute|done|]. intros q2 Hq2. wp_step.
  apply wp_rearrangeCoefficients; [done|]. intros q3 Hq3. by apply wp_rearrangeCoefficients.
Qed.

Lemma wp_checkqLSF F q (Q : list Z → Prop) :
  arr i16r 10 q → (∀ q', arr i16r 10 q' → Q q') → wp F (checkqLSF q) Q.
Proof.
  intros Hq HQ. unfold checkqLSF, NB_LSP_COEFF. wp_step.
  eapply wp_insertionSort; [done|]. intros y Hy _ _. wp_step. wp_step.
  wp_step. apply wp_mono with (P := arr i16r 10).
  { destruct (_ <? _); [|done]. unfold qLSF_MIN. wp_go. done. }
  intros z Hz. wp_step. apply wp_for_inv with (I := arr i16r 10); [done| |].
  - intros i w Hi Hw. wp_go; done.
  - intros w Hw. unfold qLSF_MAX. wp_go; auto.
Qed.

(** ** The decoder rebuilds the same frequencies *)

Lemma MAC16_16_add c a b : MAC16_16 c a b = i32 (c + MULT16_16 a b).
Proof. unfold MAC16_16, ADD32. apply i32_add. Qed.

Lemma i32_add_l a b : i32 (i32 a + b) = i32 (a + b).
Proof. rewrite <-(i32_add (i32 a) b), i32_idem. apply i32_add. Qed.

(** The four products of the prediction may be added in any order. *)
Lemma MAC4_rev c a0 b0 a1 b1 a2 b2 a3 b3 :
  MAC16_16 (MAC16_16 (MAC16_16 (MAC16_16 c a3 b3) a2 b2) a1 b1) a0 b0 =
  MAC16_16 (MAC16_16 (MAC16_16 (MAC16_16 c a0 b0) a1 b1) a2 b2) a3 b3.
Proof. rewrite !MAC16_16_add. repeat (rewrite i32_add_l || rewrite <-Z.add_assoc). f_equal. lia. Qed.

(** A predictor table the decoder and the encoder can both use. *)
Definition predictor_tables (pred : list (list (list Z))) (psum : list (list Z)) : Prop :=
  pred = MAPredictor ∧ psum = MAPredictorSum ∨ pred = noiseMAPredictor ∧ psum = noiseMAPredictorSum.

Lemma predict_agree q m L0 pred psum :
  arr i16r 10 q → arr (arr i16r 10) 4 m → 0 ≤ L0 < 2 → predictor_tables pred psum →
  ∃ q' m', predictqLSF q m L0 pred psum = Ok (q', m') ∧ qLSFprediction q m L0 pred psum = Ok q' ∧
    pushqLSF m q = Ok m' ∧ m' = q :: take 3 m.
Proof.
  intros [Hq _] [Hm Hr] H0 Ht. explode m Hm. explode q Hq.
  repeat match goal with H : Forall _ (_ :: _) |- _ => inversion H; clear H; subst end.
  repeat match goal with H : arr _ 10 ?r |- _ => destruct H as [H _]; explode r H end.
  assert (L0 = 0 ∨ L0 = 1) as [-> | ->] by lia; (destruct Ht as [[-> ->]|[-> ->]]);
    (do 2 eexists; split; [cbv -[MULT16_16 MAC16_16 PSHR i16]; reflexivity|split;
      [cbv -[MULT16_16 MAC16_16 PSHR i16]; apply (f_equal Ok);
       repeat (apply (f_equal2 cons); [apply (f_equal (λ x, i16 (PSHR x 15))), MAC4_rev|]); reflexivity
      |split; reflexivity]]).
Qed.

(** Every predicted frequency is above the lower limit: then testing the second one instead of
    the first one makes no difference. *)
Definition aboveMin (m : list (list Z)) (pred : list (list (list Z))) (psum : list (list Z)) (L0 r1 r2 r3 : Z) : bool :=
  match (let* output := quantizerOutput r1 r2 r3 in qLSFprediction output m L0 pred psum) with
  | Ok l => forallb (λ v, qLSF_MIN <=? v) l
  | Err _ => false
  end.

Lemma check_agree q : arr i16r 10 q → Forall (λ v, qLSF_MIN ≤ v) q → checkqLSF q = stabiliseqLSF q.
Proof.
  intros Hq Hmin. unfold checkqLSF, stabiliseqLSF.
  destruct (proj1 (safe_ok _ _) (wp_insertionSort no_fault i16r 10 q
    (λ y, arr i16r 10 y ∧ Permutation q y) Hq (λ y Hy _ Hp, conj Hy Hp))) as (y & Ey & [Hy _] & Hp).
  change NB_LSP_COEFF with 10. rewrite Ey. cbn [bind].
  assert (arr (λ v, qLSF_MIN ≤ v) 10 y) as Hm by (split; [done|by rewrite <-Hp]).
  rewrite (ld_at y 0), (ld_at y 1) by lia. cbn [bind].
  pose proof (at_arr _ _ y 0 Hm ltac:(lia)) as H0. pose proof (at_arr _ _ y 1 Hm ltac:(lia)) as H1.
  cbv beta in H0, H1. destruct (Z.ltb_spec (at_ y 1) qLSF_MIN); [lia|].
  by destruct (Z.ltb_spec (at_ y 0) qLSF_MIN); [lia|].
Qed.

(** The reconstruction, as the decoder's: same history, and the same frequencies when none is
    below the lower limit. *)
Lemma reconstructLSP_run m pred psum L0 r1 r2 r3 qLSP :
  arr (arr i16r 10) 4 m → 0 ≤ L0 < 2 → 0 ≤ r1 < 128 → 0 ≤ r2 < 32 → 0 ≤ r3 < 32 →
  predictor_tables pred psum → arr i16r 10 qLSP →
  ∃ output l l', arr i16r 10 output ∧ arr i16r 10 l ∧ arr i16r 10 l' ∧
    quantizerOutput r1 r2 r3 = Ok output ∧ predictqLSF output m L0 pred psum = Ok (l, output :: take 3 m) ∧
    qLSFprediction output m L0 pred psum = Ok l ∧ checkqLSF l = Ok l' ∧
    arr (arr i16r 10) 4 (output :: take 3 m) ∧
    ∃ q, reconstructLSP m pred psum L0 r1 r2 r3 qLSP = Ok (output :: take 3 m, q) ∧ arr i16r 10 q ∧
      for_up 0 NB_LSP_COEFF qLSP (λ i qLSP, let* v := ld l' i in st qLSP i (g729Cos_Q13Q15 v)) = Ok q.
Proof.
  intros Hm H0 H1 H2 H3 Ht Hq.
  destruct (proj1 (safe_ok _ _) (wp_quantizerOutput no_fault r1 r2 r3 _ H1 H2 H3 (λ _ H, H))) as (out & Eo & Ho).
  destruct (predict_agree out m L0 pred psum Ho Hm H0 Ht) as (l & m' & Ep & El & Em & ->).
  assert (arr (arr (arr (rng 0 32767) 10) 4) 2 pred ∧ arr (arr (rng 0 32767) 10) 2 psum) as [Hp Hs].
  { destruct Ht as [[-> ->]|[-> ->]]; eauto with csafe. }
  assert (arr i16r 10 l ∧ arr (arr i16r 10) 4 (out :: take 3 m)) as [Hl Hm'].
  { pose proof (wp_predictqLSF no_fault out m L0 pred psum (λ '(a, b), arr i16r 10 a ∧ arr (arr i16r 10) 4 b)
      Ho Hm H0 Hp Hs (λ a b Ha Hb, conj Ha Hb)) as HW. by rewrite Ep in HW. }
  destruct (proj1 (safe_ok _ _) (wp_checkqLSF no_fault l _ Hl (λ _ H, H))) as (l' & Ec & Hl').
  destruct (proj1 (safe_ok _ _) (wp_copy10 no_fault i16r 10 l' qLSP g729Cos_Q13Q15 _ Hl' Hq ltac:(lia)
    (λ v _, g729Cos_rng v) (λ _ H, H))) as (q & Eq & Hq').
  exists out, l, l'. split_and!; try done. exists q. split_and!; [|done|done].
  unfold reconstructLSP. rewrite Eo. cbn [bind]. rewrite El. cbn [bind]. rewrite Em. cbn [bind].
  rewrite Ec. cbn [bind]. by rewrite Eq.
Qed.

(** Every cell of the output array is written: its previous content does not matter. *)
Lemma cosLoop_any l a b : arr i16r 10 l → zlen a = 10 → zlen b = 10 →
  for_up 0 NB_LSP_COEFF a (λ i q, let* v := ld l i in st q i (g729Cos_Q13Q15 v)) =
  for_up 0 NB_LSP_COEFF b (λ i q, let* v := ld l i in st q i (g729Cos_Q13Q15 v)).
Proof.
  intros [Hl _]. assert (∀ a, zlen a = 10 →
    safe (for_up 0 NB_LSP_COEFF a (λ i q, let* v := ld l i in st q i (g729Cos_Q13Q15 v))) (λ q, q = map g729Cos_Q13Q15 l)) as H.
  { intros q Hq. apply wp_for_up with (I := λ i q, zlen q = 10 ∧ ∀ j, 0 ≤ j < i → at_ q j = g729Cos_Q13Q15 (at_ l j));
      unfold NB_LSP_COEFF; [lia|split; [done|lia]| |].
    - intros i r Hi [Hr Ha]. rewrite ld_at by lia. cbn [bind]. rewrite st_ok by lia. cbn [wp].
      split; [by rewrite zlen_insert|]. intros j Hj. rewrite at_insert by lia. destruct (Z.eqb_spec i j) as [->|]; [done|].
      apply Ha. lia.
    - intros r [Hr Ha]. apply at_ext; [unfold zlen in *; rewrite length_map; lia|]. intros i Hi. rewrite Ha by lia.
      symmetry. unfold at_. rewrite (nth_indep _ 0 (g729Cos_Q13Q15 0)) by (rewrite length_map; unfold zlen in *; lia).
      apply map_nth. }
  intros Ha Hb. destruct (proj1 (safe_ok _ _) (H a Ha)) as (x & -> & ->).
  by destruct (proj1 (safe_ok _ _) (H b Hb)) as (y & -> & ->).
Qed.

Lemma reconstructLSP_any m pred psum L0 r1 r2 r3 a b :
  arr (arr i16r 10) 4 m → 0 ≤ L0 < 2 → 0 ≤ r1 < 128 → 0 ≤ r2 < 32 → 0 ≤ r3 < 32 →
  predictor_tables pred psum → arr i16r 10 a → arr i16r 10 b →
  reconstructLSP m pred psum L0 r1 r2 r3 a = reconstructLSP m pred psum L0 r1 r2 r3 b.
Proof.
  intros Hm H0 H1 H2 H3 Ht Ha Hb.
  destruct (reconstructLSP_run m pred psum L0 r1 r2 r3 a Hm H0 H1 H2 H3 Ht Ha)
    as (o & l & l' & _ & _ & Hl' & Eo & _ & El & Ec & _ & q & -> & _ & Eq).
  destruct (reconstructLSP_run m pred psum L0 r1 r2 r3 b Hm H0 H1 H2 H3 Ht Hb)
    as (o2 & l2 & l2' & _ & _ & _ & Eo2 & _ & El2 & Ec2 & _ & q2 & -> & _ & Eq2).
  rewrite Eo in Eo2. injection Eo2 as <-. rewrite El in El2. injection El2 as <-. rewrite Ec in Ec2. injection Ec2 as <-.
  rewrite (cosLoop_any l' a b) in Eq by (apply Ha || apply Hb || done). rewrite Eq in Eq2. by injection Eq2 as <-.
Qed.

(** The decoder on the four transmitted indices. *)
Lemma decodeLSP_reconstructs d L L0 r1 r2 r3 qLSP m q :
  Dec.wf d → ld L 0 = Ok L0 → ld L 1 = Ok r1 → ld L 2 = Ok r2 → ld L 3 = Ok r3 →
  0 ≤ L0 < 2 → 0 ≤ r1 < 128 → 0 ≤ r2 < 32 → 0 ≤ r3 < 32 → arr i16r 10 qLSP →
  reconstructLSP (Dec.previousLCodeWord d) MAPredictor MAPredictorSum L0 r1 r2 r3 qLSP = Ok (m, q) →
  ∃ d' q', decodeLSP d L qLSP 0 = Ok (d', q') ∧ Dec.wf d' ∧ Dec.previousLCodeWord d' = m ∧
    (aboveMin (Dec.previousLCodeWord d) MAPredictor MAPredictorSum L0 r1 r2 r3 = true → q' = q).
Proof.
  intros Hd E0 E1 E2 E3 H0 H1 H2 H3 Hq ER.
  destruct (proj1 (safe_ok _ _) (wp_decodeLSP no_fault d L qLSP 0 (λ '(d', q'), Dec.wf d') Hd
    (λ _, ex_intro _ L0 (ex_intro _ r1 (ex_intro _ r2 (ex_intro _ r3
      (conj E0 (conj E1 (conj E2 (conj E3 (conj H0 (conj H1 (conj H2 H3))))))))))) Hq (λ c q Hc _, Hc)))
    as ([d' q'] & ED & Hd').
  exists d', q'. split; [done|]. split; [done|].
  destruct (reconstructLSP_run (Dec.previousLCodeWord d) MAPredictor MAPredictorSum L0 r1 r2 r3 qLSP)
    as (out & l & l' & Ho & Hl & Hl' & Eo & Ep & El & Ec & _ & q0 & ER' & Hq0 & Eq);
    [eauto with csafe|done..|by left|done|].
  rewrite ER in ER'. injection ER' as -> ->. clear ER.
  unfold decodeLSP in ED. change (0 =? 0) with true in ED. cbv iota in ED.
  unfold decodeLSP_received in ED. rewrite E0, E1, E2, E3 in ED. cbn [bind] in ED.
  pose proof Eo as Eo'. unfold quantizerOutput in Eo.
  destruct (codebookSum r1 r2 _ _ _) as [q1|] in ED, Eo; [|done]. cbn [bind] in ED, Eo.
  destruct (codebookSum r1 r3 _ _ q1) as [q2|] in ED, Eo; [|done]. cbn [bind] in ED, Eo.
  unfold computeqLSF in ED. destruct (rearrangeCoefficients q2 GAP1) as [q3|] in ED, Eo; [|done].
  cbn [bind] in ED, Eo. rewrite Eo in ED. cbn [bind] in ED. rewrite (u8_id L0) in ED by (unfold rng; lia).
  rewrite Ep in ED. cbn [bind] in ED. destruct (stabiliseqLSF l) as [l2|] eqn:Es; [|done]. cbn [bind] in ED.
  destruct (for_up 0 NB_LSP_COEFF (Dec.lastqLSF d) _) as [lq|] eqn:Elq; [|done]. cbn [bind] in ED.
  destruct (for_up 0 NB_LSP_COEFF qLSP _) as [qq|] eqn:Eqq in ED; [|done]. cbn [bind] in ED.
  injection ED as <- <-. split; [done|]. intros Ha. unfold aboveMin in Ha. rewrite Eo' in Ha. cbn [bind] in Ha.
  rewrite El in Ha. rewrite check_agree in Ec; [|done|].
  - rewrite Es in Ec. injection Ec as ->. rewrite Eqq in Eq. by injection Eq.
  - apply List.Forall_forall. intros v Hv. by apply Z.leb_le, (proj1 (forallb_forall _ _) Ha v Hv).
Qed.

Lemma st_seq4 (p : list Z) n a b c d : zlen p = n → 4 ≤ n →
  (let* p := st p 0 a in let* p := st p 1 b in let* p := st p 2 c in st p 3 d) =
    Ok (a :: b :: c :: d :: drop 4 p).
Proof.
  intros Hn H4.
  rewrite st_ok by lia. cbn [bind]. rewrite st_ok by (rewrite zlen_insert; lia). cbn [bind].
  rewrite st_ok by (rewrite !zlen_insert; lia). cbn [bind]. rewrite st_ok by (rewrite !zlen_insert; lia).
  unfold zlen in Hn. by destruct p as [|x0 [|x1 [|x2 [|x3 p]]]]; cbn [length] in Hn; try lia.
Qed.

(** What the quantizer does: the frequencies are matched for both predictors, the better
    predictor is transmitted, and history and spectrum are rebuilt from the transmitted indices. *)
Definition active_quantized (c : Enc.ctx) (LSP qLSP params : list Z) (r : Enc.ctx * list Z * list Z) : Prop :=
  ∃ m q L0 i1 i2 i3 LSF w t,
    r = (Enc.set_previousqLSF m c, q, L0 :: i1 :: i2 :: i3 :: drop 4 params) ∧
    arr (arr i16r 10) 4 m ∧ arr i16r 10 q ∧ 0 ≤ L0 < 2 ∧ 0 ≤ i1 < 128 ∧ 0 ≤ i2 < 32 ∧ 0 ≤ i3 < 32 ∧
    LSPtoLSF LSP = Ok LSF ∧ LSFweights LSF = Ok w ∧
    targetVector (Enc.previousqLSF c) LSF MAPredictor invMAPredictorSum L0 = Ok t ∧
    nearest 128 (distanceL1 t) i1 ∧
    nearest 32 (λ i, distanceL2L3 t MAPredictorSum w L0 i1 i 0 5 0) i2 ∧
    nearest 32 (λ i, distanceL2L3 t MAPredictorSum w L0 i1 i 5 10 0) i3 ∧
    (∃ e e' i', activeCandidate (Enc.previousqLSF c) LSF w L0 = Ok (e, (i1, i2, i3)) ∧
       activeCandidate (Enc.previousqLSF c) LSF w (1 - L0) = Ok (e', i') ∧ e ≤ e') ∧
    reconstructLSP (Enc.previousqLSF c) MAPredictor MAPredictorSum L0 i1 i2 i3 qLSP = Ok (m, q).

Lemma wp_LSPQuantization (F : fault → Prop) c LSP qLSP params n (Q : Enc.ctx * list Z * list Z → Prop) :
  F DivError → F Uninit → arr (arr i16r 10) 4 (Enc.previousqLSF c) → arr i16r 10 LSP → arr i16r 10 qLSP →
  zlen params = n → 4 ≤ n → (∀ r, active_quantized c LSP qLSP params r → Q r) →
  wp F (LSPQuantization c LSP qLSP params) Q.
Proof.
  intros HD HU Hm HL Hq Hn H4 HQ. unfold LSPQuantization.
  destruct (LSPtoLSF LSP) as [LSF|f] eqn:EL; cbn [bind].
  2:{ pose proof (wp_LSPtoLSF F LSP (λ _, True) HD HL (λ _ _, I)) as HW. by rewrite EL in HW. }
  assert (arr i16r 10 LSF) as HLSF.
  { pose proof (wp_LSPtoLSF (λ _, True) LSP (arr i16r 10) I HL (λ _ H, H)) as HW. by rewrite EL in HW. }
  destruct (proj1 (safe_ok _ _) (wp_LSFweights no_fault LSF _ HLSF (λ _ H, H))) as (w & Ew & Hw).
  rewrite Ew. cbn [bind].
  destruct (activeCandidate _ LSF w 0) as [[e0 [[a0 b0] c0]]|f] eqn:C0; cbn [bind].
  2:{ pose proof (wp_activeCandidate F _ LSF w 0 (λ _, True) HU Hm HLSF Hw ltac:(lia) (λ _ _ _ _ _ _ _ _ _, I)) as HW.
      by rewrite C0 in HW. }
  destruct (activeCandidate _ LSF w 1) as [[e1 [[a1 b1] c1]]|f] eqn:C1; cbn [bind].
  2:{ pose proof (wp_activeCandidate F _ LSF w 1 (λ _, True) HU Hm HLSF Hw ltac:(lia) (λ _ _ _ _ _ _ _ _ _, I)) as HW.
      by rewrite C1 in HW. }
  assert (∃ L0 i1 i2 i3 e e' i', (if e0 <? e1 then 0 else 1) = L0 ∧
    (if e0 <? e1 then (a0, b0, c0) else (a1, b1, c1)) = (i1, i2, i3) ∧ 0 ≤ L0 < 2 ∧
    activeCandidate (Enc.previousqLSF c) LSF w L0 = Ok (e, (i1, i2, i3)) ∧
    activeCandidate (Enc.previousqLSF c) LSF w (1 - L0) = Ok (e', i') ∧ e ≤ e')
    as (L0 & i1 & i2 & i3 & e & e' & i' & -> & -> & H0 & EC & EC' & Hle).
  { destruct (Z.ltb_spec e0 e1).
    - exists 0, a0, b0, c0, e0, e1, (a1, b1, c1). split_and!; done || lia.
    - exists 1, a1, b1, c1, e1, e0, (a0, b0, c0). split_and!; done || lia. }
  pose proof (wp_activeCandidate (λ _, True) (Enc.previousqLSF c) LSF w L0 (λ '(_, (i1, i2, i3)), ∃ t,
    targetVector (Enc.previousqLSF c) LSF MAPredictor invMAPredictorSum L0 = Ok t ∧ nearest 128 (distanceL1 t) i1 ∧
    nearest 32 (λ i, distanceL2L3 t MAPredictorSum w L0 i1 i 0 5 0) i2 ∧
    nearest 32 (λ i, distanceL2L3 t MAPredictorSum w L0 i1 i 5 10 0) i3) I Hm HLSF Hw H0
    (λ _ t _ _ _ Ht N1 N2 N3, ex_intro _ t (conj Ht (conj N1 (conj N2 N3))))) as HW.
  rewrite EC in HW. destruct HW as (t & Et & N1 & N2 & N3).
  pose proof N1 as [R1 _]. pose proof N2 as [R2 _]. pose proof N3 as [R3 _].
  rewrite !u16_id by (unfold rng; lia).
  assert (∀ B (k : list Z → res B), (let* p := st params 0 L0 in let* p := st p 1 i1 in let* p := st p 2 i2 in
    let* p := st p 3 i3 in k p) = (let* p := (let* p := st params 0 L0 in let* p := st p 1 i1 in
    let* p := st p 2 i2 in st p 3 i3) in k p)) as ->.
  { intros. repeat (destruct (st _ _ _); cbn [bind]; try done). }
  rewrite (st_seq4 params n L0 i1 i2 i3 Hn H4). cbn [bind].
  destruct (reconstructLSP_run (Enc.previousqLSF c) MAPredictor MAPredictorSum L0 i1 i2 i3 qLSP)
    as (out & l & l' & _ & _ & _ & _ & _ & _ & _ & Hm' & q & ER & Hq' & _); [done..|by left|done|].
  rewrite ER. cbn [bind wp]. apply HQ. exists (out :: take 3 (Enc.previousqLSF c)), q, L0, i1, i2, i3, LSF, w, t.
  split_and!; try done; try lia. by exists e, e', i'.
Qed.

Lemma wp_noiseLSPQuantization (F : fault → Prop) m LSP qLSP params (Q : list (list Z) * list Z * list Z → Prop) :
  F DivError → F Uninit → arr (arr i16r 10) 4 m → arr i16r 10 LSP → arr i16r 10 qLSP → arr u8r 3 params →
  (∀ m' q L0 i1 i2 r1 r2 r3, arr (arr i16r 10) 4 m' → arr i16r 10 q → 0 ≤ L0 < 2 → 0 ≤ i1 < 32 → 0 ≤ i2 < 16 →
    ld L1SubsetIndex i1 = Ok r1 → ld L2SubsetIndex i2 = Ok r2 → ld L3SubsetIndex i2 = Ok r3 →
    reconstructLSP m noiseMAPredictor noiseMAPredictorSum L0 r1 r2 r3 qLSP = Ok (m', q) →
    Q (m', q, [L0; i1; i2])) →
  wp F (noiseLSPQuantization m LSP qLSP params) Q.
Proof.
  intros HD HU Hm HL Hq Hp HQ. unfold noiseLSPQuantization. wp_step.
  apply wp_LSPtoLSF; [done|done|]. intros LSF HLSF. wp_step. apply wp_LSFweights; [done|]. intros w Hw. wp_step.
  apply wp_noiseCandidate; [done|done|done|done|lia|]. intros e0 a0 b0 Ha0 Hb0. wp_step.
  apply wp_noiseCandidate; [done|done|done|done|lia|]. intros e1 a1 b1 Ha1 Hb1.
  assert (∃ L0 i1 i2, (if e0 <? e1 then 0 else 1) = L0 ∧ (if e0 <? e1 then (a0, b0) else (a1, b1)) = (i1, i2) ∧
    0 ≤ L0 < 2 ∧ 0 ≤ i1 < 32 ∧ 0 ≤ i2 < 16) as (L0 & i1 & i2 & -> & -> & H0 & H1 & H2).
  { destruct (e0 <? e1); do 3 eexists; split_and!; done || lia. }
  rewrite !u8_id by (unfold rng; lia). destruct Hp as [Hp _]. explode params Hp.
  change (st [?x; ?y; ?z] 0 L0) with (Ok [L0; y; z]). cbn [bind].
  change (st [L0; ?y; ?z] 1 i1) with (Ok [L0; i1; z]). cbn [bind].
  change (st [L0; i1; ?z] 2 i2) with (Ok [L0; i1; i2]). cbn [bind].
  destruct (proj1 (safe_ok _ _) (wp_ld_arr no_fault _ _ _ i1 (rng 0 127) L1SubsetIndex_arr H1 (λ _ H, H))) as (r1 & E1 & R1).
  destruct (proj1 (safe_ok _ _) (wp_ld_arr no_fault _ _ _ i2 (rng 0 31) L2SubsetIndex_arr H2 (λ _ H, H))) as (r2 & E2 & R2).
  destruct (proj1 (safe_ok _ _) (wp_ld_arr no_fault _ _ _ i2 (rng 0 31) L3SubsetIndex_arr H2 (λ _ H, H))) as (r3 & E3 & R3).
  rewrite E1, E2, E3. cbn [bind].
  destruct (reconstructLSP_run m noiseMAPredictor noiseMAPredictorSum L0 r1 r2 r3 qLSP)
    as (out & l & l' & _ & _ & _ & _ & _ & _ & _ & Hm' & q & ER & Hq' & _);
    [done|done|unfold rng in *; lia..|by right|done|].
  rewrite ER. cbn [bind wp]. by eapply HQ.
Qed.
