(* ===== verification/EncFixed.v ===== *)
(** The fixed codebook search of the encoder ([fixedCodebookSearch.c]): target and correlation,
    the matrix of impulse response correlations, the depth first search of four pulses, the
    codeword, and the codebook vector with its convolution. *)

From S2P Require Import Prelude FixedPoint Sums Math Utils Context DecodeExcitation.

(** ** computePhiDiagonal, computeImpulseResponseCorrelationMatrix *)

(** The diagonal from [Phi(39, j)] down to [Phi(39 - j, 0)]; [k] is [iComp]. *)
Definition computePhiDiagonal (j : Z) (h : list Z) (Phi : list (list Z)) (PhiScaling : Z) : res (list (list Z)) :=
  let* (_, Phi) := for_up 0 (j + 1) (0, Phi) (λ k '(acc, Phi),
    let* a := ld h k in
    let* b := ld h (L_SUBFRAME - 1 - j + k) in
    let acc := MAC16_16 acc a b in
    let* v := (if PhiScaling =? 0 then Ok acc else shr_chk acc PhiScaling) in
    let* Phi := st2 Phi (L_SUBFRAME - 1 - k) (j - k) v in
    Ok (acc, Phi)) in
  Ok Phi.

(** The main diagonal, halved, and the scaling it asks for. *)
Definition mainDiagonal (h : list Z) (Phi : list (list Z)) : res (list (list Z) * Z) :=
  let* (_, Phi) := for_up 0 L_SUBFRAME (0, Phi) (λ i '(acc, Phi),
    let* a := ld h i in
    let acc := MAC16_16 acc a a in
    let* Phi := st2 Phi (L_SUBFRAME - 1 - i) (L_SUBFRAME - 1 - i) (SHR acc 1) in
    Ok (acc, Phi)) in
  let* p := ld2 Phi 0 0 in
  if 107374182 <? p then
    let* lz := countLeadingZeros (i32 (i32 (Z.shiftl p 1) + 53687091)) in
    let PhiScaling := u16 (3 - lz) in
    let* Phi := for_up 0 L_SUBFRAME Phi (λ i Phi,
      let* v := ld2 Phi i i in
      let* v := shr_chk v PhiScaling in
      st2 Phi i i v) in
    Ok (Phi, PhiScaling)
  else Ok (Phi, 0).

(** Absolute values and signs: [(correlationSignal, correlationSignalSign, correlationSignalSignInv)] *)
Definition splitSigns (correlationSignal sign : list Z) : res (list Z * list Z * list Z) :=
  for_up 0 L_SUBFRAME (correlationSignal, sign, zeros L_SUBFRAME) (λ i '(c, s, inv),
    let* v := ld c i in
    if 0 <=? v then
      let* s := st s i 1 in
      let* inv := st inv i (-1) in
      Ok (c, s, inv)
    else
      let* s := st s i (-1) in
      let* inv := st inv i 1 in
      let* c := st c i (i16 (- v)) in
      Ok (c, s, inv)).

Definition applySigns (sign inv : list Z) (Phi : list (list Z)) : res (list (list Z)) :=
  for_up 0 L_SUBFRAME Phi (λ i Phi,
    let* si := ld sign i in
    let signOfCorrelationSignalJ := if 0 <? si then sign else inv in
    for_up 0 (i + 1) Phi (λ j Phi,
      let* v := ld2 Phi i j in
      let* s := ld signOfCorrelationSignalJ j in
      st2 Phi i j (i32 (v * s)))).

Definition duplicateDiagonals (Phi : list (list Z)) : res (list (list Z)) :=
  for_up 0 8 Phi (λ i Phi, for_up 0 4 Phi (λ j Phi,
    let startIndex := 5 * i + j in
    for_up 0 (startIndex + 1) Phi (λ k Phi,
      let* v := ld2 Phi (L_SUBFRAME - 1 - k) (startIndex - k) in
      st2 Phi (startIndex - k) (L_SUBFRAME - 1 - k) v))).

(** [(correlationSignal, correlationSignalSign, Phi)] *)
Definition computeImpulseResponseCorrelationMatrix (h correlationSignal sign : list Z) (Phi : list (list Z))
    : res (list Z * list Z * list (list Z)) :=
  let* (Phi, PhiScaling) := mainDiagonal h Phi in
  let* Phi := for_up 0 8 Phi (λ i Phi, for_up 0 4 Phi (λ j Phi,
    computePhiDiagonal (5 * i + j) h Phi PhiScaling)) in
  let* (correlationSignal, sign, inv) := splitSigns correlationSignal sign in
  let* Phi := applySigns sign inv Phi in
  let* Phi := duplicateDiagonals Phi in
  Ok (correlationSignal, sign, Phi).

(** ** Target, impulse response and correlation *)

Definition fixedCodebookTarget (targetSignal filtered : list Z) (adaptativeCodebookGain : Z) : res (list Z) :=
  for_up 0 L_SUBFRAME (zeros L_SUBFRAME) (λ i t,
    let* x := ld targetSignal i in
    let* y := ld filtered i in
    st t i (i16 (MSU16_16_Q14 x y adaptativeCodebookGain))).

(** [v[n] = v[n] + gain v[n - T]], the pitch sharpening of eq48 and eq49 *)
Definition pitchSharpening (v : list Z) (intPitchDelay gain : Z) : res (list Z) :=
  for_up intPitchDelay L_SUBFRAME v (λ i v,
    let* a := ld v i in
    let* b := ld v (i - intPitchDelay) in
    st v i (i16 (MAC16_16_Q14 a b gain))).

(** [(correlationSignal32, correlationSignalMax)] *)
Definition correlationSignal32 (target h : list Z) : res (list Z * Z) :=
  for_up 0 L_SUBFRAME (zeros L_SUBFRAME, 0) (λ n '(c, max),
    let* acc := for_up n L_SUBFRAME 0 (λ i acc,
      let* t := ld target i in
      let* x := ld h (i - n) in
      Ok (MAC16_16 acc t x)) in
    let* c := st c n acc in
    let abs := if 0 <=? acc then acc else i32 (- acc) in
    Ok (c, if max <? abs then abs else max)).

Definition normaliseCorrelationSignal (c32 : list Z) (max : Z) : res (list Z) :=
  let* norm := countLeadingZeros max in
  if norm <? 18 then
    for_up 0 L_SUBFRAME (zeros L_SUBFRAME) (λ i c,
      let* v := ld c32 i in
      let* v := shr_chk v (18 - norm) in
      st c i (i16 v))
  else
    for_up 0 L_SUBFRAME (zeros L_SUBFRAME) (λ i c,
      let* v := ld c32 i in
      st c i (i16 v)).

(** ** The search *)

Section Search.
Context (c : list Z) (Phi : list (list Z)).

(** The greatest correlation of a track, [first] excluded: [(correlationM2, currentM2)] *)
Definition trackMaximum (track first : Z) : res (Z * Z) :=
  for_step track L_SUBFRAME 5 (-1, 0) (λ j '(correlationM2, currentM2),
    let* v := ld c j in
    Ok (if (correlationM2 <? v) && negb (j =? first) then (v, j) else (correlationM2, currentM2))).

(** The best pair so far: its squared correlation, energy, correlation and positions. *)
Record pair : Type := Pair {
  p_square : Z;
  p_energy : Z;
  p_correlation : Z;
  p_m2 : Z;
  p_m3 : Z
}.

Definition pairStep (correlationM2 energyM2 currentM2 j : Z) (p : pair) : res pair :=
  let* v := ld c j in
  let* f := ld2 Phi currentM2 j in
  let* g := ld2 Phi j j in
  let correlationM2M3 := ADD16 correlationM2 v in
  let energyM2M3 := ADD32 energyM2 (ADD32 f g) in
  let square := MULT16_16 correlationM2M3 correlationM2M3 in
  if MULT32_32 energyM2M3 (p_square p) <? MULT32_32 (p_energy p) square
  then Ok (Pair square energyM2M3 correlationM2M3 currentM2 j) else Ok p.

Definition searchPair (track2 track3 m2 m3 : Z) : res pair :=
  let* (p, _) := for_up 0 2 (Pair (-1) 1 0 m2 m3, 0) (λ i '(p, firstM2),
    let* (correlationM2, currentM2) := trackMaximum track2 firstM2 in
    let* energyM2 := ld2 Phi currentM2 currentM2 in
    let* p := for_step track3 L_SUBFRAME 5 p (pairStep correlationM2 energyM2 currentM2) in
    Ok (p, currentM2)) in
  Ok p.

(** The best completion of a pair: its squared correlation, energy and positions. *)
Record quad : Type := Quad {
  q_square : Z;
  q_energy : Z;
  q_m0 : Z;
  q_m1 : Z
}.

Definition quadStep (p : pair) (i correlationM2M3M0 energyM2M3M0 j : Z) (q : quad) : res quad :=
  let* v := ld c j in
  let* a := ld2 Phi j i in
  let* b := ld2 Phi j j in
  let* d := ld2 Phi j (p_m2 p) in
  let* e := ld2 Phi j (p_m3 p) in
  let correlation := ADD16 correlationM2M3M0 v in
  let energy := ADD32 energyM2M3M0 (ADD32 a (ADD32 b (ADD32 d e))) in
  let square := MULT16_16 correlation correlation in
  if MULT32_32 energy (q_square q) <? MULT32_32 (q_energy q) square
  then Ok (Quad square energy i j) else Ok q.

Definition searchQuad (p : pair) (track0 track1 m0 m1 : Z) : res quad :=
  for_step track0 L_SUBFRAME 5 (Quad (-1) 1 m0 m1) (λ i q,
    let* v := ld c i in
    let* a := ld2 Phi i i in
    let* b := ld2 Phi i (p_m2 p) in
    let* d := ld2 Phi i (p_m3 p) in
    let correlationM2M3M0 := ADD16 (p_correlation p) v in
    let energyM2M3M0 := ADD32 (p_energy p) (ADD32 a (ADD32 b d)) in
    for_step track1 L_SUBFRAME 5 q (quadStep p i correlationM2M3M0 energyM2M3M0)).

(** The state of the outer loops: the last positions of each search, the best pulses, and the
    track table [mSwitch]. *)
Record pulseSearch : Type := PulseSearch {
  s_m0 : Z; s_m1 : Z; s_m2 : Z; s_m3 : Z;
  s_i0 : Z; s_i1 : Z; s_i2 : Z; s_i3 : Z;
  s_square : Z;
  s_energy : Z;
  s_jx : Z
}.

Definition pulseStep (mSwitch : list (list Z)) (m3Base mIndex : Z) (s : pulseSearch) : res pulseSearch :=
  let* t0 := ld2 mSwitch mIndex 0 in
  let* t1 := ld2 mSwitch mIndex 1 in
  let* p := searchPair t0 t1 (s_m2 s) (s_m3 s) in
  let* t2 := ld2 mSwitch mIndex 2 in
  let* t3 := ld2 mSwitch mIndex 3 in
  let* q := searchQuad p t2 t3 (s_m0 s) (s_m1 s) in
  let m0 := q_m0 q in
  let m1 := q_m1 q in
  let m2 := p_m2 p in
  let m3 := p_m3 p in
  if MULT32_32 (q_energy q) (s_square s) <? MULT32_32 (s_energy s) (q_square q) then
    if mIndex =? 0
    then Ok (PulseSearch m0 m1 m2 m3 m0 m1 m2 m3 (q_square q) (q_energy q) (m3Base - 3))
    else Ok (PulseSearch m0 m1 m2 m3 m3 m0 m1 m2 (q_square q) (q_energy q) (m3Base - 3))
  else Ok (PulseSearch m0 m1 m2 m3 (s_i0 s) (s_i1 s) (s_i2 s) (s_i3 s) (s_square s) (s_energy s) (s_jx s)).

Definition searchPulses : res pulseSearch :=
  let* (s, _) := for_up 3 5 (PulseSearch 0 0 0 0 0 0 0 0 (-1) 1 0, [[2; 3; 0; 1]; [3; 0; 1; 2]])
    (λ m3Base '(s, mSwitch),
      let* s := for_up 0 2 s (pulseStep mSwitch m3Base) in
      let* a := ld2 mSwitch 0 1 in
      let* mSwitch := st2 mSwitch 0 1 (a + 1) in
      let* b := ld2 mSwitch 1 0 in
      let* mSwitch := st2 mSwitch 1 0 (b + 1) in
      Ok (s, mSwitch)) in
  Ok s.

End Search.

(** ** Vector, codeword and convolution *)

Definition setPulses (sign : list Z) (s : pulseSearch) (v : list Z) : res (list Z) :=
  let* v := for_up 0 L_SUBFRAME v (λ i v, st v i 0) in
  let* s0 := ld sign (s_i0 s) in
  let* v := st v (s_i0 s) (i16 (SSHL (i16 s0) 13)) in
  let* s1 := ld sign (s_i1 s) in
  let* v := st v (s_i1 s) (i16 (SSHL (i16 s1) 13)) in
  let* s2 := ld sign (s_i2 s) in
  let* v := st v (s_i2 s) (i16 (SSHL (i16 s2) 13)) in
  let* s3 := ld sign (s_i3 s) in
  st v (s_i3 s) (i16 (SSHL (i16 s3) 13)).

Definition fixedCodebookParameter (s : pulseSearch) : Z :=
  let fifth i := MULT16_16_Q15 (i16 i) O2_IN_Q15 in
  u16 (fifth (s_i0 s) + Z.shiftl (fifth (s_i1 s)) 3 + Z.shiftl (fifth (s_i2 s)) 6 +
       Z.shiftl (Z.shiftl (fifth (s_i3 s)) 1 + s_jx s) 9).

Definition fixedCodebookPulsesSigns (sign : list Z) (s : pulseSearch) : res Z :=
  let* s0 := ld sign (s_i0 s) in
  let* s1 := ld sign (s_i1 s) in
  let* s2 := ld sign (s_i2 s) in
  let* s3 := ld sign (s_i3 s) in
  Ok (Z.lor (Z.lor (Z.lor (u16 (Z.shiftr (s0 + 1) 1)) (u16 (Z.shiftl (Z.shiftr (s1 + 1) 1) 1)))
        (u16 (Z.shiftl (Z.shiftr (s2 + 1) 1) 2))) (u16 (Z.shiftl (Z.shiftr (s3 + 1) 1) 3))).

(** The contribution of a pulse at [pos]: the impulse response, shifted, with its sign. *)
Definition addPulse (h : list Z) (sign pos : Z) (v : list Z) : res (list Z) :=
  if 0 <? sign then
    for_up pos L_SUBFRAME v (λ i v,
      let* x := ld v i in
      let* y := ld h (i - pos) in
      st v i (ADD16 x y))
  else
    for_up pos L_SUBFRAME v (λ i v,
      let* x := ld v i in
      let* y := ld h (i - pos) in
      st v i (i16 (SUB16 x y))).

Definition convolvePulses (h sign : list Z) (s : pulseSearch) (v : list Z) : res (list Z) :=
  let* v := for_up 0 (s_i0 s) v (λ i v, st v i 0) in
  let* s0 := ld sign (s_i0 s) in
  let* v := (if 0 <? s0 then
      for_up (s_i0 s) L_SUBFRAME v (λ i v, let* y := ld h (i - s_i0 s) in st v i y)
    else
      for_up (s_i0 s) L_SUBFRAME v (λ i v, let* y := ld h (i - s_i0 s) in st v i (i16 (- y)))) in
  let* s1 := ld sign (s_i1 s) in
  let* v := addPulse h s1 (s_i1 s) v in
  let* s2 := ld sign (s_i2 s) in
  let* v := addPulse h s2 (s_i2 s) v in
  let* s3 := ld sign (s_i3 s) in
  addPulse h s3 (s_i3 s) v.

(** The arrays are those the pointers designate; [uninit] is the content of the three output or
    local arrays the function only writes. Result: [(impulseResponse, fixedCodebookParameter,
    fixedCodebookPulsesSigns, fixedCodebookVector, fixedCodebookVectorConvolved)] *)
Definition fixedCodebookSearch (targetSignal impulseResponse : list Z) (intPitchDelay lastGain : Z)
    (filtered : list Z) (adaptativeCodebookGain : Z) (sign vector convolved : list Z)
    : res (list Z * Z * Z * list Z * list Z) :=
  let* t := fixedCodebookTarget targetSignal filtered adaptativeCodebookGain in
  let* h := pitchSharpening impulseResponse intPitchDelay lastGain in
  let* (c32, max) := correlationSignal32 t h in
  let* c := normaliseCorrelationSignal c32 max in
  let* (c, sign, Phi) := computeImpulseResponseCorrelationMatrix h c sign (replicate 40 (zeros L_SUBFRAME)) in
  let* s := searchPulses c Phi in
  let* v := setPulses sign s vector in
  let* v := pitchSharpening v intPitchDelay lastGain in
  let* signs := fixedCodebookPulsesSigns sign s in
  let* w := convolvePulses h sign s convolved in
  Ok (h, fixedCodebookParameter s, signs, v, w).

(** ** Safety *)

Lemma arr_at (P : Z → Prop) n a : zlen a = n → (∀ i, 0 ≤ i < n → P (at_ a i)) → arr P n a.
Proof.
  intros Hn H. split; [done|]. apply Forall_lookup_2. intros i v Hv.
  pose proof (lookup_lt_Some _ _ _ Hv). specialize (H (Z.of_nat i) ltac:(unfold zlen in *; lia)).
  unfold at_ in H. by rewrite Nat2Z.id, (nth_lookup_Some a _ 0 v Hv) in H.
Qed.

(** The rule of [for (j = lo; j < hi; j += step)]. *)
Lemma wp_for_step {S} F (I : S → Prop) lo hi step s f (Q : S → Prop) :
  0 < step → I s →
  (∀ k s, 0 ≤ k → lo + k * step < hi → I s → wp F (f (lo + k * step) s) I) →
  (∀ s, I s → Q s) → wp F (for_step lo hi step s f) Q.
Proof.
  intros Hstep H0 Hf HQ. unfold for_step. eapply wp_mono.
  - apply (wp_forN F (λ _, I)); [done|]. intros j t (k & Hk & ->) Hj. apply Hf; [lia| |done].
    assert (Z.of_nat k < (hi - lo + step - 1) / step) as Hlt by lia.
    pose proof (Z.div_mod (hi - lo + step - 1) step ltac:(lia)).
    pose proof (Z.mod_pos_bound (hi - lo + step - 1) step Hstep). nia.
  - done.
Qed.

Abbreviation matrix := (arr (arr i32r 40) 40).

Lemma zero_matrix : matrix (replicate 40 (zeros L_SUBFRAME)).
Proof. apply arr_rng2_by. reflexivity. Qed.

Lemma wp_shr_any (F : fault → Prop) a n (Q : Z → Prop) :
  F BadShift → i32r a → (∀ v, i32r v → Q v) → wp F (shr_chk a n) Q.
Proof.
  intros HF Ha HQ. unfold shr_chk. destruct (_ && _) eqn:E; [|done]. apply HQ. apply shiftr_rng; [lia..|done].
Qed.

Lemma wp_computePhiDiagonal (F : fault → Prop) j h Phi s (Q : list (list Z) → Prop) :
  F BadShift → 0 ≤ j < 40 → arr i16r 40 h → matrix Phi → (∀ m, matrix m → Q m) →
  wp F (computePhiDiagonal j h Phi s) Q.
Proof.
  intros HF Hj Hh HP HQ. unfold computePhiDiagonal, L_SUBFRAME. wp_step.
  apply wp_for_inv with (I := λ '(acc, m), i32r acc ∧ matrix m); [by split; [unfold rng|]| |].
  2:{ intros [acc m] [_ Hm]. by apply HQ. }
  intros k [acc m] Hk [Hacc Hm]. wp_step. eapply wp_ld_arr; [done|lia|]. intros a Ha. wp_step.
  eapply wp_ld_arr; [done|lia|]. intros b Hb. cbv zeta. wp_step. apply wp_mono with (P := i32r).
  - destruct (s =? 0); [apply MAC16_16_rng|]. apply wp_shr_any; [done|apply MAC16_16_rng|done].
  - intros v Hv. wp_step. eapply wp_st2_arr; [done|lia|lia|done|]. intros m' Hm'. by split; [apply MAC16_16_rng|].
Qed.

Lemma while_step {S} fuel c b (s : S) : while (Datatypes.S fuel) c b s =
  let* t := c s in if t then let* s' := b s in while fuel c b s' else Ok s.
Proof. reflexivity. Qed.

(** On the overflow of the scaling estimate the loop of [countLeadingZeros] still ends, since the
    estimate is odd. *)
Lemma clz_wrapped x : -2147483648 ≤ x < -2080374784 → x mod 2 = 1 →
  ∃ lz, countLeadingZeros x = Ok lz ∧ 5 ≤ lz ≤ 30.
Proof.
  intros Hx Hodd. set (y := x + 2147483648).
  assert (0 < y < 67108864) as Hy.
  { unfold y. split; [|lia]. destruct (Z.eq_dec x (-2147483648)) as [->|]; [by vm_compute in Hodd|lia]. }
  exists (30 - Z.log2 y). pose proof (Z.log2_nonneg y).
  assert (Z.log2 y ≤ 25) by (pose proof (Z.log2_lt_pow2 y 26 ltac:(lia)) as Hl; lia).
  split; [|lia]. unfold countLeadingZeros. destruct (Z.eqb_spec x 0); [lia|].
  rewrite (while_step 63). cbn [bind]. destruct (Z.ltb_spec x 1073741824); [|lia].
  assert (i32 (Z.shiftl x 1) = 2 * y) as ->.
  { rewrite Z.shiftl_mul_pow2 by lia. change (2 ^ 1) with 2. rewrite <-(i32_id (2 * y)) by (unfold rng; lia).
    apply i32_congr. unfold y. replace (2 * (x + 2147483648)) with (x * 2 + 1 * 4294967296) by lia.
    by rewrite Z.mod_add. }
  assert (Z.log2 (2 * y) = 1 + Z.log2 y) by (rewrite Z.log2_double; lia).
  change (u16 (0 + 1)) with 1. rewrite (clz_loop (Z.to_nat (29 - Z.log2 y))) by lia. cbn [bind]. f_equal. lia.
Qed.

(** The scaling of the matrix: none, one to three bits, or, when the estimate overflows, a shift
    count no shift accepts. *)
Lemma PhiScaling_cases p : 107374182 < p < 1073741824 →
  ∃ lz, countLeadingZeros (i32 (i32 (Z.shiftl p 1) + 53687091)) = Ok lz ∧
    if 2 * p + 53687091 <? 2147483648
    then 1 ≤ u16 (3 - lz) ≤ 3 ∧ 2 * p + 53687091 < 2 ^ (28 + u16 (3 - lz)) ∧ 2 ^ (27 + u16 (3 - lz)) ≤ 2 * p + 53687091
    else 65500 ≤ u16 (3 - lz).
Proof.
  intros Hp. rewrite Z.shiftl_mul_pow2 by lia. change (2 ^ 1) with 2.
  rewrite (i32_id (p * 2)) by (unfold rng; lia). destruct (Z.ltb_spec (2 * p + 53687091) 2147483648) as [Hs|Hs].
  - rewrite (i32_id (p * 2 + 53687091)) by (unfold rng; lia). rewrite countLeadingZeros_pos by lia.
    eexists. split; [done|]. set (x := p * 2 + 53687091) in *.
    pose proof (Z.log2_spec x ltac:(lia)) as Hlog.
    assert (28 ≤ Z.log2 x ≤ 30).
    { split; [apply Z.log2_le_pow2; lia|]. pose proof (Z.log2_lt_pow2 x 31 ltac:(lia)). lia. }
    rewrite u16_id by (unfold rng; lia). replace (28 + (3 - (30 - Z.log2 x))) with (Z.succ (Z.log2 x)) by lia.
    replace (27 + (3 - (30 - Z.log2 x))) with (Z.log2 x) by lia. subst x. lia.
  - assert (i32 (p * 2 + 53687091) = p * 2 + 53687091 - 4294967296) as ->.
    { rewrite <-(i32_id (p * 2 + 53687091 - 4294967296)) by (unfold rng; lia). apply i32_congr.
      replace (p * 2 + 53687091 - 4294967296) with (p * 2 + 53687091 + (-1) * 4294967296) by lia. by rewrite Z.mod_add. }
    destruct (clz_wrapped (p * 2 + 53687091 - 4294967296)) as (lz & -> & Hlz); [lia| |].
    { replace (p * 2 + 53687091 - 4294967296) with (1 + (p - 2120640103) * 2) by lia. by rewrite Z.mod_add. }
    eexists. split; [done|]. unfold u16.
    assert ((3 - lz) mod 65536 = 65536 + (3 - lz)) as ->; [|lia].
    symmetry. apply (Z.mod_unique_pos _ _ (-1)); lia.
Qed.

Abbreviation halved := (rng (-1073741824) 1073741823).

Lemma shiftr1_halved a : i32r a → halved (Z.shiftr a 1).
Proof.
  unfold rng. intros Ha. rewrite Z.shiftr_div_pow2 by lia. change (2 ^ 1) with 2. Z.div_mod_to_equations. lia.
Qed.

Lemma halved_matrix m : arr (arr halved 40) 40 m → matrix m.
Proof. intros H. eapply arr_mono; [done|]. intros r Hr. eapply arr_mono; [done|]. unfold rng. lia. Qed.

Lemma wp_mainDiagonal (F : fault → Prop) h Phi (Q : list (list Z) * Z → Prop) :
  F BadShift → arr i16r 40 h → arr (arr halved 40) 40 Phi → (∀ m s, matrix m → Q (m, s)) →
  wp F (mainDiagonal h Phi) Q.
Proof.
  intros HF Hh HP HQ. unfold mainDiagonal, L_SUBFRAME. wp_step.
  apply wp_for_inv with (I := λ '(acc, m), i32r acc ∧ arr (arr halved 40) 40 m); [by split; [unfold rng|]| |].
  - intros i [acc m] Hi [Hacc Hm]. wp_step. eapply wp_ld_arr; [done|lia|]. intros a Ha. cbv zeta. wp_step.
    eapply wp_st2_arr; [done|lia|lia|apply shiftr1_halved, MAC16_16_rng|]. intros m' Hm'.
    by split; [apply MAC16_16_rng|].
  - intros [acc m] [_ Hm]. wp_step. eapply (wp_ld2_arr _ halved); [done|lia|lia|]. intros p Hp. unfold rng in Hp.
    apply halved_matrix in Hm. destruct (Z.ltb_spec 107374182 p) as [Hbig|]; [|by apply HQ].
    destruct (PhiScaling_cases p ltac:(lia)) as (lz & -> & _). cbn [bind]. cbv zeta. wp_step.
    apply wp_for_inv with (I := matrix); [done| |by intros; apply HQ]. intros i m' Hi Hm'. wp_step.
    eapply (wp_ld2_arr _ i32r); [done|lia|lia|]. intros v Hv. wp_step. apply wp_shr_any; [done|done|].
    intros v' Hv'. eapply wp_st2_arr; [done|lia|lia|done|done].
Qed.

Abbreviation unit_sign := (λ s, s = 1 ∨ s = -1).

(** Signs of all forty samples. *)
Lemma wp_splitSigns F c s (Q : list Z * list Z * list Z → Prop) :
  arr i16r 40 c → zlen s = 40 →
  (∀ c' s' v, arr i16r 40 c' → arr unit_sign 40 s' → arr unit_sign 40 v →
    (∀ i, 0 ≤ i < 40 → at_ v i = - at_ s' i ∧ at_ c' i = i16 (Z.abs (at_ c i))) → Q (c', s', v)) →
  wp F (splitSigns c s) Q.
Proof.
  intros Hc Hs HQ. unfold splitSigns, L_SUBFRAME.
  apply wp_for_up with (I := λ i '(c', s', v), arr i16r 40 c' ∧ zlen s' = 40 ∧ zlen v = 40 ∧
    (∀ j, 0 ≤ j < i → unit_sign (at_ s' j) ∧ at_ v j = - at_ s' j ∧ at_ c' j = i16 (Z.abs (at_ c j))) ∧
    (∀ j, i ≤ j < 40 → at_ c' j = at_ c j)); [lia|split_and!; [apply Hc..|done|done|lia|done]| |].
  - intros i [[c' s'] v] Hi (Hc' & Hs' & Hv & Hlo & Hhi).
    pose proof (at_arr _ _ _ i Hc' ltac:(lia)) as Hx. unfold rng in Hx.
    wp_step. rewrite ld_at by (destruct Hc' as [-> _]; lia). cbn [wp].
    rewrite Hhi in Hx |- * by lia. destruct (Z.leb_spec 0 (at_ c i)) as [Hp|Hp].
    + rewrite !st_ok by lia. cbn [bind wp]. split_and!; [apply Hc'..|by rewrite zlen_insert|by rewrite zlen_insert| |].
      * intros j Hj. rewrite !at_insert by lia. destruct (Z.eqb_spec i j) as [->|]; [|apply Hlo; lia].
        rewrite Hhi by lia. rewrite Z.abs_eq by lia. rewrite i16_id by (unfold rng; lia). auto.
      * intros j Hj. apply Hhi. lia.
    + destruct Hc' as [Hl HF']. rewrite !st_ok by lia. cbn [bind wp].
      split_and!; [split; [by rewrite zlen_insert|by apply Forall_insert; [|apply i16_rng]]|by rewrite zlen_insert|by rewrite zlen_insert| |].
      * intros j Hj. rewrite !at_insert by lia. destruct (Z.eqb_spec i j) as [->|]; [|apply Hlo; lia].
        rewrite Z.abs_neq by lia. auto.
      * intros j Hj. rewrite at_insert by lia. destruct (Z.eqb_spec i j); [lia|]. apply Hhi. lia.
  - intros [[c' s'] v] (Hc' & Hs' & Hv & Hlo & _). apply HQ; [done| | |intros i Hi; by apply Hlo].
    + apply arr_at; [done|]. intros i Hi. by apply Hlo.
    + apply arr_at; [done|]. intros i Hi. destruct (Hlo i Hi) as ([-> | ->] & -> & _); auto.
Qed.

Lemma wp_applySigns F s v Phi (Q : list (list Z) → Prop) :
  arr unit_sign 40 s → arr unit_sign 40 v → matrix Phi → (∀ m, matrix m → Q m) → wp F (applySigns s v Phi) Q.
Proof.
  intros Hs Hv HP HQ. unfold applySigns, L_SUBFRAME. apply wp_for_inv with (I := matrix); [done| |done].
  intros i m Hi Hm. wp_step. eapply wp_ld_arr; [exact Hs|lia|]. intros si _. cbv zeta.
  apply wp_for_inv with (I := matrix); [done| |done]. intros j m' Hj Hm'. wp_step.
  eapply wp_ld2_arr; [done|lia|lia|]. intros x Hx. wp_step. apply wp_mono with (P := unit_sign).
  - destruct (0 <? si); (eapply wp_ld_arr; [done|lia|done]).
  - intros y Hy. eapply wp_st2_arr; [done|lia|lia|apply i32_rng|done].
Qed.

Lemma wp_duplicateDiagonals F Phi (Q : list (list Z) → Prop) :
  matrix Phi → (∀ m, matrix m → Q m) → wp F (duplicateDiagonals Phi) Q.
Proof.
  intros HP HQ. unfold duplicateDiagonals, L_SUBFRAME. apply wp_for_inv with (I := matrix); [done| |done].
  intros i m Hi Hm. apply wp_for_inv with (I := matrix); [done| |done]. intros j m1 Hj Hm1. cbv zeta.
  apply wp_for_inv with (I := matrix); [done| |done]. intros k m2 Hk Hm2. wp_step.
  eapply (wp_ld2_arr _ i32r); [done|lia|lia|]. intros x Hx. eapply wp_st2_arr; [done|lia|lia|done|done].
Qed.

Lemma wp_correlationMatrix (F : fault → Prop) h c s Phi (Q : list Z * list Z * list (list Z) → Prop) :
  F BadShift → arr i16r 40 h → arr i16r 40 c → zlen s = 40 → arr (arr halved 40) 40 Phi →
  (∀ c' s' m, arr i16r 40 c' → arr unit_sign 40 s' → matrix m → Q (c', s', m)) →
  wp F (computeImpulseResponseCorrelationMatrix h c s Phi) Q.
Proof.
  intros HF Hh Hc Hs HP HQ. unfold computeImpulseResponseCorrelationMatrix. wp_step.
  apply wp_mainDiagonal; [done..|]. intros m1 sc Hm1. wp_step.
  apply wp_for_inv with (I := matrix); [done| |].
  - intros i m Hi Hm. apply wp_for_inv with (I := matrix); [done| |done]. intros j m' Hj Hm'.
    apply wp_computePhiDiagonal; [done|lia|done|done|done].
  - intros m2 Hm2. wp_step. apply wp_splitSigns; [done|done|]. intros c' s' v Hc' Hs' Hv _. wp_step.
    apply (wp_applySigns F s' v m2); [done|done|done|]. intros m3 Hm3. wp_step.
    apply wp_duplicateDiagonals; [done|]. intros m4 Hm4. unfold wp. by apply HQ.
Qed.

Lemma wp_fixedCodebookTarget F x y g (Q : list Z → Prop) :
  arr i16r 40 x → arr i16r 40 y → (∀ t, arr i16r 40 t → Q t) → wp F (fixedCodebookTarget x y g) Q.
Proof.
  intros Hx Hy HQ. unfold fixedCodebookTarget, L_SUBFRAME.
  apply wp_for_inv with (I := arr i16r 40); [by apply arr_zeros| |done]. intros i t Hi Ht. wp_go. done.
Qed.

(** The sharpened vector is a function of the vector before it, because the delay is at least
    half a subframe. *)
Definition sharpenedAt (v : list Z) (T g j : Z) : Z :=
  if j <? T then at_ v j else i16 (MAC16_16_Q14 (at_ v j) (at_ v (j - T)) g).

Lemma sharpening_run v T (f : Z → Z → Z) : zlen v = 40 → 20 ≤ T →
  ∃ w, for_up T 40 v (λ i v, let* a := ld v i in let* b := ld v (i - T) in st v i (f a b)) = Ok w ∧ zlen w = 40 ∧
    ∀ j, 0 ≤ j < 40 → at_ w j = if j <? T then at_ v j else f (at_ v j) (at_ v (j - T)).
Proof.
  intros Hl HT. apply safe_ok. destruct (Z.le_gt_cases T 40).
  2:{ unfold for_up. replace (Z.to_nat (40 - T)) with 0%nat by lia. cbn [forN wp]. split; [done|].
      intros j Hj. by destruct (Z.ltb_spec j T); [|lia]. }
  set (g j := if j <? T then at_ v j else f (at_ v j) (at_ v (j - T))).
  apply wp_for_up with (I := λ i w, zlen w = 40 ∧ (∀ j, 0 ≤ j < i → at_ w j = g j) ∧
    ∀ j, i ≤ j < 40 → at_ w j = at_ v j); [lia| | |].
  - split; [done|]. split; [|done]. intros j Hj. unfold g. by destruct (Z.ltb_spec j T); [|lia].
  - intros i w Hi (Hw & Hlo & Hhi). rewrite !ld_at by lia. cbn [bind]. rewrite st_ok by lia. cbn [wp].
    split; [by rewrite zlen_insert|]. split; intros j Hj; rewrite at_insert by lia.
    + destruct (Z.eqb_spec i j) as [<-|]; [|apply Hlo; lia]. rewrite Hhi by lia. rewrite (Hlo (i - T)) by lia.
      unfold g. destruct (Z.ltb_spec (i - T) T); [|lia]. by destruct (Z.ltb_spec i T); [lia|].
    + destruct (Z.eqb_spec i j); [lia|]. apply Hhi. lia.
  - intros w (Hw & Hlo & _). by split.
Qed.

Lemma pitchSharpening_run v T g : arr i16r 40 v → 20 ≤ T →
  ∃ w, pitchSharpening v T g = Ok w ∧ arr i16r 40 w ∧ ∀ j, 0 ≤ j < 40 → at_ w j = sharpenedAt v T g j.
Proof.
  intros [Hl HF] HT. destruct (sharpening_run v T (λ a b, i16 (MAC16_16_Q14 a b g)) Hl HT) as (w & E & Hw & Hat).
  exists w. split; [exact E|]. split; [|exact Hat].
  apply arr_at; [done|]. intros i Hi. rewrite Hat by done. destruct (i <? T); [|apply i16_rng].
  apply (at_arr _ 40); [by split|done].
Qed.

Lemma wp_correlationSignal32 F t h (Q : list Z * Z → Prop) :
  arr i16r 40 t → arr i16r 40 h → (∀ c m, arr i32r 40 c → rng 0 2147483647 m → Q (c, m)) →
  wp F (correlationSignal32 t h) Q.
Proof.
  intros Ht Hh HQ. unfold correlationSignal32, L_SUBFRAME.
  apply wp_for_inv with (I := λ '(c, m), arr i32r 40 c ∧ rng 0 2147483647 m); [by split; [apply arr_zeros|]| |].
  2:{ intros [c m] [? ?]. by apply HQ. }
  intros n [c m] Hn [Hc Hm]. wp_step. apply wp_for_inv with (I := i32r); [by unfold rng| |].
  - intros i acc Hi Hacc. wp_go. auto with rng.
  - intros acc Hacc. wp_step. eapply wp_st_arr; [done|lia|done|]. intros c' Hc'. cbv zeta. unfold wp. split; [done|].
    destruct (Z.leb_spec 0 acc).
    + destruct (m <? acc); [unfold rng in *; lia|done].
    + destruct (Z.ltb_spec m (i32 (- acc))); [|done]. pose proof (i32_rng (- acc)). unfold rng in *. lia.
Qed.

Lemma wp_normaliseCorrelationSignal F c m (Q : list Z → Prop) :
  arr i32r 40 c → rng 0 2147483647 m → (∀ v, arr i16r 40 v → Q v) → wp F (normaliseCorrelationSignal c m) Q.
Proof.
  intros Hc Hm HQ. unfold normaliseCorrelationSignal, L_SUBFRAME. unfold rng in Hm.
  assert (∃ n, countLeadingZeros m = Ok n ∧ 0 ≤ n ≤ 31) as (n & -> & Hn).
  { destruct (Z.eq_dec m 0) as [->|]; [by exists 31; split; [|lia]|].
    rewrite countLeadingZeros_pos by lia. eexists. split; [done|].
    pose proof (Z.log2_nonneg m). pose proof (Z.log2_lt_pow2 m 31 ltac:(lia)). lia. }
  cbn [bind]. destruct (Z.ltb_spec n 18);
    (apply wp_for_inv with (I := arr i16r 40); [by apply arr_zeros| |done]); intros i v Hi Hv; wp_step;
    (eapply wp_ld_arr; [done|lia|]); intros x Hx.
  - wp_step. apply wp_shr_chk; [lia|]. eapply wp_st_arr; [done|lia|apply i16_rng|done].
  - eapply wp_st_arr; [done|lia|apply i16_rng|done].
Qed.

(** *** The search stays inside the subframe *)

Section SearchSafety.
Context (c : list Z) (Phi : list (list Z)) (Hc : arr i16r 40 c) (HPhi : matrix Phi).

Abbreviation pos := (rng 0 39).

Lemma wp_trackMaximum F t first (Q : Z * Z → Prop) :
  0 ≤ t → (∀ v j, i16r v → pos j → Q (v, j)) → wp F (trackMaximum c t first) Q.
Proof.
  intros Ht HQ. unfold trackMaximum, L_SUBFRAME.
  apply wp_for_step with (I := λ '(v, j), i16r v ∧ pos j); [lia|by unfold rng| |].
  - intros k [v j] Hk Hj [Hv Hp]. wp_step. eapply wp_ld_arr; [done|lia|]. intros x Hx. unfold wp.
    destruct (_ && _); [|done]. split; [done|]. unfold rng. lia.
  - intros [v j] [? ?]. by apply HQ.
Qed.

Lemma wp_searchPair F t2 t3 m2 m3 (Q : pair → Prop) :
  0 ≤ t2 → 0 ≤ t3 → pos m2 → pos m3 → (∀ p, pos (p_m2 p) → pos (p_m3 p) → Q p) →
  wp F (searchPair c Phi t2 t3 m2 m3) Q.
Proof.
  intros H2 H3 Hm2 Hm3 HQ. unfold searchPair. wp_step.
  apply wp_for_inv with (I := λ '(p, _), pos (p_m2 p) ∧ pos (p_m3 p)); [done| |].
  2:{ intros [p f] [? ?]. unfold wp. by apply HQ. }
  intros i [p first] Hi Hp. wp_step. apply wp_trackMaximum; [done|]. intros v cur Hv Hcur. unfold rng in Hcur. wp_step.
  eapply (wp_ld2_arr _ i32r); [done|lia|lia|]. intros e He. wp_step.
  apply wp_for_step with (I := λ p, pos (p_m2 p) ∧ pos (p_m3 p)); [lia|done| |done].
  intros k p' Hk Hj Hp'. unfold L_SUBFRAME in Hj. unfold pairStep. wp_go; [|done]. split; unfold rng; cbn; lia.
Qed.

Lemma wp_searchQuad F p t0 t1 m0 m1 (Q : quad → Prop) :
  0 ≤ t0 → 0 ≤ t1 → pos m0 → pos m1 → pos (p_m2 p) → pos (p_m3 p) →
  (∀ q, pos (q_m0 q) → pos (q_m1 q) → Q q) → wp F (searchQuad c Phi p t0 t1 m0 m1) Q.
Proof.
  intros H0 H1 Hm0 Hm1 Hp2 Hp3 HQ. unfold searchQuad. unfold rng in Hp2, Hp3.
  apply wp_for_step with (I := λ q, pos (q_m0 q) ∧ pos (q_m1 q)); [lia|done| |by intros q [? ?]; apply HQ].
  intros k q Hk Hi Hq. unfold L_SUBFRAME in Hi. wp_go.
  apply wp_for_step with (I := λ q, pos (q_m0 q) ∧ pos (q_m1 q)); [lia|done| |done].
  intros k' q' Hk' Hj Hq'. unfold L_SUBFRAME in Hj. unfold quadStep. wp_go; [|done]. split; unfold rng; cbn; lia.
Qed.

Definition pulses_inside (s : pulseSearch) : Prop :=
  pos (s_m0 s) ∧ pos (s_m1 s) ∧ pos (s_m2 s) ∧ pos (s_m3 s) ∧
  pos (s_i0 s) ∧ pos (s_i1 s) ∧ pos (s_i2 s) ∧ pos (s_i3 s) ∧ rng 0 1 (s_jx s).

Lemma wp_pulseStep F mSwitch m3Base mIndex s (Q : pulseSearch → Prop) :
  arr (arr (rng 0 5) 4) 2 mSwitch → 3 ≤ m3Base ≤ 4 → 0 ≤ mIndex < 2 → pulses_inside s →
  (∀ s, pulses_inside s → Q s) → wp F (pulseStep c Phi mSwitch m3Base mIndex s) Q.
Proof.
  intros HS HB HI (H0 & H1 & H2 & H3 & H4 & H5 & H6 & H7 & H8) HQ. unfold pulseStep. wp_step.
  eapply (wp_ld2_arr _ (rng 0 5)); [done|done|lia|]. intros t0 T0. unfold rng in T0. wp_step.
  eapply (wp_ld2_arr _ (rng 0 5)); [done|done|lia|]. intros t1 T1. unfold rng in T1. wp_step.
  apply wp_searchPair; [lia|lia|done|done|]. intros p Hp2 Hp3. wp_step.
  eapply (wp_ld2_arr _ (rng 0 5)); [done|done|lia|]. intros t2 T2. unfold rng in T2. wp_step.
  eapply (wp_ld2_arr _ (rng 0 5)); [done|done|lia|]. intros t3 T3. unfold rng in T3. wp_step.
  apply wp_searchQuad; [lia|lia|done..|]. intros q Hq0 Hq1. cbv zeta.
  assert (rng 0 1 (m3Base - 3)) by (unfold rng; lia).
  destruct (_ <? _); [destruct (mIndex =? 0)|]; unfold wp; apply HQ; unfold pulses_inside; cbn; split_and!; done.
Qed.

Lemma wp_searchPulses F (Q : pulseSearch → Prop) :
  (∀ s, pulses_inside s → Q s) → wp F (searchPulses c Phi) Q.
Proof.
  intros HQ. unfold searchPulses. wp_step.
  apply wp_for_up with (I := λ m '(s, sw), pulses_inside s ∧ sw = [[2; m; 0; 1]; [m; 0; 1; 2]]); [lia| | |].
  - split; [|done]. unfold pulses_inside, rng. cbn. lia.
  - intros m [s sw] Hm [Hs ->]. wp_step. apply wp_for_inv with (I := pulses_inside); [done| |].
    + intros k s' Hk Hs'. apply wp_pulseStep; [|lia|done|done|done].
      split; [done|]. repeat constructor; unfold rng; lia.
    + intros s' Hs'. cbn. done.
  - intros [s sw] [Hs _]. unfold wp. by apply HQ.
Qed.

End SearchSafety.

(** *** Vector and codeword *)

Lemma sumsq_zsum l : sumsq l = zsum (length l) (λ j, at_ l j * at_ l j).
Proof.
  assert (∀ n, (n ≤ length l)%nat → sumsq (take n l) = zsum n (λ j, at_ l j * at_ l j)) as H.
  { induction n as [|n IH]; intros Hn; [done|].
    destruct (lookup_lt_is_Some_2 l n) as [v Hv]; [lia|]. rewrite (sumsq_take_S _ _ _ Hv), IH by lia.
    cbn [zsum]. assert (at_ l (Z.of_nat n) = v) as ->; [|done].
    unfold at_. by rewrite Nat2Z.id, (nth_lookup_Some l n 0 v Hv). }
  rewrite <-H by lia. by rewrite take_ge.
Qed.

Lemma wp_setPulses F s p v (Q : list Z → Prop) :
  arr unit_sign 40 s → pulses_inside p → arr i16r 40 v →
  (∀ x, arr pulse 40 x → sumsq x ≤ 268435456 → Q x) → wp F (setPulses s p v) Q.
Proof.
  intros Hs (_ & _ & _ & _ & H0 & H1 & H2 & H3 & _) Hv HQ. unfold setPulses. wp_step.
  apply clear_loop; [done|].
  assert (∀ x i k, arr pulse 40 x ∧ sumsq x ≤ k → rng 0 39 i → ∀ R : list Z → Prop,
    (∀ x', arr pulse 40 x' ∧ sumsq x' ≤ k + 67108864 → R x') →
    wp F (let* a := ld s i in st x i (i16 (SSHL (i16 a) 13))) R) as Hstep.
  { intros x i k [[Hl HF] Hk] Hi R HR. unfold rng in Hi. wp_step. eapply wp_ld_arr; [exact Hs|lia|]. intros a Ha.
    assert (∃ y, i16 (SSHL (i16 a) 13) = y ∧ (y = 8192 ∨ y = -8192)) as (y & -> & Hy).
    { destruct Ha as [-> | ->]; eexists; (split; [reflexivity|]); [left|right]; reflexivity. }
    rewrite st_ok by lia. cbn [wp]. apply HR. split.
    - split; [by rewrite zlen_insert|]. apply Forall_insert; [done|]. unfold pulse. tauto.
    - etrans; [apply sumsq_insert|]. destruct Hy; subst y; lia. }
  assert (∀ x i (k : list Z → res (list Z)) R, wp F (let* a := ld s i in st x i (i16 (SSHL (i16 a) 13))) (λ x, wp F (k x) R) →
    wp F (let* a := ld s i in let* v := st x i (i16 (SSHL (i16 a) 13)) in k v) R) as Hassoc.
  { intros x i k R H. destruct (ld s i); cbn [bind] in *; [|done]. by apply wp_bind. }
  apply Hassoc. eapply (Hstep _ _ 0); [split; [split; [done|by repeat constructor]|by vm_compute]|done|]. intros x0 X0.
  apply Hassoc. eapply Hstep; [exact X0|done|]. intros x1 X1.
  apply Hassoc. eapply Hstep; [exact X1|done|]. intros x2 X2.
  eapply Hstep; [exact X2|done|]. intros x3 [X3 Hk]. apply HQ; [done|lia].
Qed.

(** A sharpened pulse vector fits 16 bits and its energy 32 bits, for the gains the encoder
    keeps, 0.2 to 1.2. *)
Lemma sharpened_pulse a b g : pulse a → pulse b → rng 3277 19661 g →
  let v := i16 (MAC16_16_Q14 a b g) in v * v ≤ 3 * (a * a) + 3 * (b * b).
Proof.
  intros Ha Hb Hg. unfold rng in Hg. cbv zeta. unfold MAC16_16_Q14, MULT16_16_Q14, MULT16_16_Q, SHR, ADD32, MULT16_16.
  assert (-8192 ≤ a ≤ 8192 ∧ -8192 ≤ b ≤ 8192) as [Ra Rb] by (destruct Ha as [|[|]], Hb as [|[|]]; lia).
  rewrite (i32_id a), (i32_id b), (i32_id g), (i32_id (b * g)) by (unfold rng; nia).
  rewrite Z.shiftr_div_pow2 by lia. change (2 ^ 14) with 16384.
  assert (-9831 ≤ b * g / 16384 ≤ 9831 ∧ (b = 0 → b * g / 16384 = 0)) as [Hq Hz].
  { split; [split; [apply Z.div_le_lower_bound|apply Z.div_le_upper_bound]; nia|by intros ->]. }
  rewrite (i32_id (b * g / 16384)), (i32_id (a + b * g / 16384)), i16_id by (unfold rng; lia).
  destruct Hb as [->|[->| ->]]; [rewrite Hz by done|..]; destruct Ha as [->|[->| ->]]; nia.
Qed.

Lemma sharpened_pulses_energy x w T g : arr pulse 40 x → sumsq x ≤ 268435456 → 20 ≤ T → rng 3277 19661 g →
  zlen w = 40 → (∀ j, 0 ≤ j < 40 → at_ w j = sharpenedAt x T g j) → sumsq w ≤ 2147483647.
Proof.
  intros Hx HE HT Hg Hw Hat. rewrite sumsq_zsum in *. unfold zlen in Hw.
  assert (length x = 40%nat) as Lx by (destruct Hx as [Hx _]; unfold zlen in Hx; lia).
  replace (length w) with 40%nat by lia. rewrite Lx in HE.
  set (f := λ j, at_ x j * at_ x j) in *. set (n := Z.to_nat (Z.min T 40)).
  assert (∀ j, 0 ≤ j → 0 ≤ f j) as Hf by (intros; apply Z.square_nonneg).
  assert (zsum 40 (λ j, at_ w j * at_ w j) ≤ 3 * zsum 40 f + 3 * zsum 40 (λ j, if j <? T then 0 else f (j - T))) as Hle.
  { rewrite <-!zsum_scal, <-zsum_add. apply zsum_le. intros j Hj. change (Z.of_nat 40) with 40 in Hj. rewrite Hat by done.
    pose proof (at_arr _ _ _ j Hx Hj) as Pj. unfold sharpenedAt, f. destruct (Z.ltb_spec j T).
    - pose proof (Z.square_nonneg (at_ x j)). lia.
    - apply sharpened_pulse; [done|apply (at_arr _ 40); [done|lia]|done]. }
  assert (zsum 40 (λ j, if j <? T then 0 else f (j - T)) ≤ zsum 40 f) as Hshift; [|lia].
  replace 40%nat with (n + (40 - n))%nat at 1 by (unfold n; lia). rewrite zsum_split.
  rewrite (zsum_ext n _ (λ _, 0)). 2:{ intros j Hj. destruct (Z.ltb_spec j T); [done|unfold n in *; lia]. }
  rewrite zsum_const. rewrite Z.mul_0_l, Z.add_0_l.
  rewrite (zsum_ext (40 - n) _ (λ j, f (Z.of_nat 0 + j))).
  2:{ intros j Hj. unfold n in *. destruct (Z.ltb_spec (Z.of_nat (Z.to_nat (Z.min T 40)) + j) T); [lia|]. f_equal. lia. }
  apply zsum_window; [|unfold n; lia]. intros i Hi. apply Hf. lia.
Qed.

Lemma fifth i : 0 ≤ i ≤ 39 → MULT16_16_Q15 (i16 i) O2_IN_Q15 = i / 5.
Proof.
  intros Hi. exhaust 6%nat 0 64 (λ i, MULT16_16_Q15 (i16 i) O2_IN_Q15 =? i / 5) i as H. lia.
Qed.

Lemma fixedCodebookParameter_value s : pulses_inside s →
  fixedCodebookParameter s = s_i0 s / 5 + 8 * (s_i1 s / 5) + 64 * (s_i2 s / 5) + 512 * (2 * (s_i3 s / 5) + s_jx s) ∧
  0 ≤ fixedCodebookParameter s < 8192.
Proof.
  intros (_ & _ & _ & _ & H0 & H1 & H2 & H3 & HJ). unfold rng in *. unfold fixedCodebookParameter.
  rewrite !fifth by lia. rewrite !Z.shiftl_mul_pow2 by lia.
  change (2 ^ 3) with 8. change (2 ^ 6) with 64. change (2 ^ 1) with 2. change (2 ^ 9) with 512.
  assert (∀ i, 0 ≤ i ≤ 39 → 0 ≤ i / 5 ≤ 7) as Hd by (intros; Z.div_mod_to_equations; lia).
  pose proof (Hd _ H0). pose proof (Hd _ H1). pose proof (Hd _ H2). pose proof (Hd _ H3).
  rewrite u16_id by (unfold rng; lia). split; lia.
Qed.

Definition signBit (s : Z) : Z := if 0 <? s then 1 else 0.

Lemma fixedCodebookPulsesSigns_value s p : arr unit_sign 40 s → pulses_inside p →
  fixedCodebookPulsesSigns s p = Ok (signBit (at_ s (s_i0 p)) + 2 * signBit (at_ s (s_i1 p)) +
    4 * signBit (at_ s (s_i2 p)) + 8 * signBit (at_ s (s_i3 p))).
Proof.
  intros Hs (_ & _ & _ & _ & H0 & H1 & H2 & H3 & _). unfold rng in *. unfold fixedCodebookPulsesSigns.
  pose proof (proj1 Hs) as Hl. rewrite !ld_at by lia. cbn [bind].
  destruct (at_arr _ _ _ (s_i0 p) Hs ltac:(lia)) as [-> | ->], (at_arr _ _ _ (s_i1 p) Hs ltac:(lia)) as [-> | ->],
    (at_arr _ _ _ (s_i2 p) Hs ltac:(lia)) as [-> | ->], (at_arr _ _ _ (s_i3 p) Hs ltac:(lia)) as [-> | ->]; reflexivity.
Qed.

(** *** Convolution *)

(** The impulse response delayed by [p]. *)
Definition delayed (h : list Z) (p n : Z) : Z := if n <? p then 0 else at_ h (n - p).

Lemma i16_mod_eq z : i16 z mod 65536 = z mod 65536.
Proof.
  unfold i16. destruct (_ && _); [done|]. pose proof (Z.div_mod (z + 32768) 65536 ltac:(lia)) as E.
  replace ((z + 32768) mod 65536 - 32768) with (z + (- ((z + 32768) / 65536)) * 65536) by lia. by apply Z.mod_add.
Qed.

Lemma i16_congr a b : a mod 65536 = b mod 65536 → i16 a = i16 b.
Proof.
  intros E. apply (f_equal (λ z, (z + 32768) mod 65536 - 32768)) in E.
  assert (∀ z, i16 z = (z mod 65536 + 32768) mod 65536 - 32768) as H; [|by rewrite !H].
  intros z. rewrite Zplus_mod_idemp_l. unfold i16. destruct (_ && _) eqn:Ez; [|done].
  rewrite Z.mod_small; lia.
Qed.

Lemma i16_add_l a b : i16 (i16 a + b) = i16 (a + b).
Proof. apply i16_congr. by rewrite Z.add_mod, i16_mod_eq, <-Z.add_mod. Qed.

(** A loop that rewrites the cells from [p] on. *)
Lemma rewrite_from v p (f : Z → Z) body : zlen v = 40 → 0 ≤ p ≤ 40 →
  (∀ i w, p ≤ i < 40 → zlen w = 40 → at_ w i = at_ v i → body i w = Ok (<[Z.to_nat i := f i]> w)) →
  ∃ w, for_up p 40 v body = Ok w ∧ zlen w = 40 ∧ ∀ n, 0 ≤ n < 40 → at_ w n = if n <? p then at_ v n else f n.
Proof.
  intros Hv Hp Hb. apply safe_ok.
  apply wp_for_up with (I := λ i w, zlen w = 40 ∧ (∀ n, 0 ≤ n < i → at_ w n = if n <? p then at_ v n else f n) ∧
    ∀ n, i ≤ n < 40 → at_ w n = at_ v n); [lia| | |].
  - split; [done|]. split; [|done]. intros n Hn. by destruct (Z.ltb_spec n p); [|lia].
  - intros i w Hi (Hw & Hlo & Hhi). rewrite Hb; [|lia|done|apply Hhi; lia]. cbn [wp]. split; [by rewrite zlen_insert|].
    split; intros n Hn; rewrite at_insert by lia; (destruct (Z.eqb_spec i n) as [<-|]).
    + by destruct (Z.ltb_spec i p); [lia|].
    + apply Hlo. lia.
    + lia.
    + apply Hhi. lia.
  - intros w (Hw & Hlo & _). by split.
Qed.

Lemma addPulse_run h s p v : arr i16r 40 h → zlen v = 40 → unit_sign s → 0 ≤ p ≤ 39 →
  (∀ n, 0 ≤ n < 40 → i16r (at_ v n)) →
  ∃ w, addPulse h s p v = Ok w ∧ zlen w = 40 ∧ ∀ n, 0 ≤ n < 40 → at_ w n = i16 (at_ v n + s * delayed h p n).
Proof.
  intros Hh Hv Hs Hp Hr. pose proof (proj1 Hh) as Hl.
  destruct (rewrite_from v p (λ i, i16 (at_ v i + s * at_ h (i - p)))
    (if 0 <? s then λ i v, let* x := ld v i in let* y := ld h (i - p) in st v i (ADD16 x y)
     else λ i v, let* x := ld v i in let* y := ld h (i - p) in st v i (i16 (SUB16 x y))))
    as (w & Ew & Hw & Hat); [done|lia| |].
  - intros i w Hi Hw Ei. pose proof (at_arr _ _ _ (i - p) Hh ltac:(lia)) as Hy.
    destruct Hs as [-> | ->]; cbn [Z.ltb Z.compare]; rewrite !ld_at by lia; cbn [bind]; rewrite st_ok by lia; rewrite Ei.
    + unfold ADD16. rewrite (i16_id (at_ v i)), (i16_id (at_ h (i - p))) by (auto; apply Hr; lia). by rewrite Z.mul_1_l.
    + unfold SUB16. rewrite (i16_id (at_ v i)), (i16_id (at_ h (i - p))) by (auto; apply Hr; lia).
      by replace (at_ v i + -1 * at_ h (i - p)) with (at_ v i - at_ h (i - p)) by lia.
  - exists w. split; [|split; [done|]].
    + unfold addPulse. by destruct (0 <? s).
    + intros n Hn. rewrite Hat by done. unfold delayed. destruct (n <? p); [|done].
      rewrite Z.mul_0_r, Z.add_0_r, i16_id; [done|by apply Hr].
Qed.

(** The sum of the four delayed responses, wrapped to 16 bits. *)
Definition convolvedAt (h s : list Z) (p : pulseSearch) (n : Z) : Z :=
  i16 (at_ s (s_i0 p) * delayed h (s_i0 p) n + at_ s (s_i1 p) * delayed h (s_i1 p) n +
       at_ s (s_i2 p) * delayed h (s_i2 p) n + at_ s (s_i3 p) * delayed h (s_i3 p) n).

Lemma convolvePulses_run h s p v : arr i16r 40 h → arr unit_sign 40 s → pulses_inside p → arr i16r 40 v →
  ∃ w, convolvePulses h s p v = Ok w ∧ arr i16r 40 w ∧ ∀ n, 0 ≤ n < 40 → at_ w n = convolvedAt h s p n.
Proof.
  intros Hh Hs (_ & _ & _ & _ & H0 & H1 & H2 & H3 & _) [Hv Hr]. unfold rng in H0, H1, H2, H3.
  pose proof (proj1 Hs) as Hl. pose proof (proj1 Hh) as Hlh. unfold convolvePulses.
  assert (safe (for_up 0 (s_i0 p) v (λ i v, st v i 0)) (λ w, zlen w = 40 ∧ ∀ n, 0 ≤ n < s_i0 p → at_ w n = 0)) as HZ.
  { apply wp_for_up with (I := λ i w, zlen w = 40 ∧ ∀ n, 0 ≤ n < i → at_ w n = 0); [lia|by split; [|lia]| |done].
    intros i w Hi [Hw Hz]. rewrite st_ok by lia. cbn [wp]. split; [by rewrite zlen_insert|].
    intros n Hn. rewrite at_insert by lia. destruct (Z.eqb_spec i n); [done|]. apply Hz. lia. }
  destruct (proj1 (safe_ok _ _) HZ) as (v1 & -> & Hv1 & Hz). cbn [bind]. rewrite (ld_at s (s_i0 p)) by lia. cbn [bind].
  pose proof (at_arr _ _ _ (s_i0 p) Hs ltac:(lia)) as S0. pose proof (at_arr _ _ _ (s_i1 p) Hs ltac:(lia)) as S1.
  pose proof (at_arr _ _ _ (s_i2 p) Hs ltac:(lia)) as S2. pose proof (at_arr _ _ _ (s_i3 p) Hs ltac:(lia)) as S3.
  cbv beta in S0, S1, S2, S3. set (s0 := at_ s (s_i0 p)) in *. set (s1 := at_ s (s_i1 p)) in *.
  set (s2 := at_ s (s_i2 p)) in *. set (s3 := at_ s (s_i3 p)) in *.
  destruct (rewrite_from v1 (s_i0 p) (λ i, i16 (s0 * at_ h (i - s_i0 p)))
    (if 0 <? s0 then λ i v, let* y := ld h (i - s_i0 p) in st v i y
     else λ i v, let* y := ld h (i - s_i0 p) in st v i (i16 (- y)))) as (w & Ew & Hw & Hat); [done|lia| |].
  { intros i w Hi Hw _. pose proof (at_arr _ _ _ (i - s_i0 p) Hh ltac:(lia)) as Hy.
    destruct S0 as [E|E]; rewrite E; cbn [Z.ltb Z.compare]; rewrite ld_at by lia; cbn [bind]; rewrite st_ok by lia.
    - by rewrite Z.mul_1_l, i16_id.
    - by replace (-1 * at_ h (i - s_i0 p)) with (- at_ h (i - s_i0 p)) by lia. }
  assert ((if 0 <? s0 then for_up (s_i0 p) L_SUBFRAME v1 (λ i v, let* y := ld h (i - s_i0 p) in st v i y)
    else for_up (s_i0 p) L_SUBFRAME v1 (λ i v, let* y := ld h (i - s_i0 p) in st v i (i16 (- y)))) = Ok w) as ->.
  { by destruct (0 <? s0). }
  cbn [bind]. assert (∀ n, 0 ≤ n < 40 → at_ w n = i16 (s0 * delayed h (s_i0 p) n)) as Hw0.
  { intros n Hn. rewrite Hat by done. unfold delayed. destruct (Z.ltb_spec n (s_i0 p)); [|done].
    rewrite Hz by lia. by rewrite Z.mul_0_r. }
  rewrite (ld_at s (s_i1 p)) by lia. cbn [bind]. fold s1.
  destruct (addPulse_run h s1 (s_i1 p) w) as (w1 & -> & L1 & W1); [done|done|done|lia|intros; rewrite Hw0 by done; apply i16_rng|].
  cbn [bind]. rewrite (ld_at s (s_i2 p)) by lia. cbn [bind]. fold s2.
  destruct (addPulse_run h s2 (s_i2 p) w1) as (w2 & -> & L2 & W2); [done|done|done|lia|intros; rewrite W1 by done; apply i16_rng|].
  cbn [bind]. rewrite (ld_at s (s_i3 p)) by lia. cbn [bind]. fold s3.
  destruct (addPulse_run h s3 (s_i3 p) w2) as (w3 & -> & L3 & W3); [done|done|done|lia|intros; rewrite W2 by done; apply i16_rng|].
  exists w3. split; [done|]. assert (∀ n, 0 ≤ n < 40 → at_ w3 n = convolvedAt h s p n) as HW.
  { intros n Hn. rewrite W3, W2, W1, Hw0 by done. unfold convolvedAt. fold s0 s1 s2 s3. by rewrite i16_add_l, <-Z.add_assoc, i16_add_l, Z.add_assoc, <-!Z.add_assoc, i16_add_l. }
  split; [|done]. apply arr_at; [done|]. intros n Hn. rewrite HW by done. apply i16_rng.
Qed.

(** *** The whole search *)

(** What the search returns: the pulses [p] and signs [s] it transmits are those of the vector
    and of its convolution. *)
Definition fixed_result (T g : Z) (h' : list Z) (r : list Z * Z * Z * list Z * list Z) : Prop :=
  ∃ s p x v w, arr unit_sign 40 s ∧ pulses_inside p ∧ setPulses s p (zeros 40) = Ok x ∧ arr pulse 40 x ∧
    pitchSharpening x T g = Ok v ∧ arr i16r 40 v ∧ sumsq v ≤ 2147483647 ∧ arr i16r 40 w ∧
    (∀ n, 0 ≤ n < 40 → at_ w n = convolvedAt h' s p n) ∧
    ∃ signs, fixedCodebookPulsesSigns s p = Ok signs ∧ 0 ≤ signs < 16 ∧
    r = (h', fixedCodebookParameter p, signs, v, w).

Lemma setPulses_overwrites s p v : arr i16r 40 v → setPulses s p v = setPulses s p (zeros 40).
Proof.
  intros Hv. unfold setPulses. assert (∀ v, arr i16r 40 v → for_up 0 L_SUBFRAME v (λ i v, st v i 0) = Ok (replicate 40 0)) as H.
  { intros u Hu. destruct (proj1 (safe_ok _ _) (clear_loop no_fault u (λ x, x = replicate 40 0) Hu eq_refl)) as (x & -> & ->). done. }
  rewrite !H; [done|by apply arr_zeros|done].
Qed.

(** The outputs, from the pulses. *)
Definition fixed_result_of (T g : Z) (h' s : list Z) (p : pulseSearch) (r : list Z * Z * Z * list Z * list Z) : Prop :=
  ∃ x v w, setPulses s p (zeros 40) = Ok x ∧ arr pulse 40 x ∧
    pitchSharpening x T g = Ok v ∧ arr i16r 40 v ∧ sumsq v ≤ 2147483647 ∧ arr i16r 40 w ∧
    (∀ n, 0 ≤ n < 40 → at_ w n = convolvedAt h' s p n) ∧
    ∃ signs, fixedCodebookPulsesSigns s p = Ok signs ∧ 0 ≤ signs < 16 ∧
    r = (h', fixedCodebookParameter p, signs, v, w).

Lemma fixed_outputs h' s p T g v w : arr i16r 40 h' → arr unit_sign 40 s → pulses_inside p → 20 ≤ T → rng 3277 19661 g →
  arr i16r 40 v → arr i16r 40 w →
  safe (let* v := setPulses s p v in
    let* v := pitchSharpening v T g in
    let* signs := fixedCodebookPulsesSigns s p in
    let* w := convolvePulses h' s p w in
    Ok (h', fixedCodebookParameter p, signs, v, w)) (fixed_result_of T g h' s p).
Proof.
  intros Hh' Hs' Hp HT Hg Hv Hw. rewrite setPulses_overwrites by done.
  destruct (proj1 (safe_ok _ _) (wp_setPulses no_fault s p (zeros 40) (λ x, arr pulse 40 x ∧ sumsq x ≤ 268435456) Hs' Hp
    ltac:(by apply arr_zeros) (λ _ A B, conj A B))) as (px & Epx & Hpx & HE).
  rewrite Epx. cbn [bind].
  assert (arr i16r 40 px) as Hpx' by (eapply arr_mono; [done|]; intros z [|[|]]; unfold rng; lia).
  destruct (pitchSharpening_run px T g Hpx' HT) as (fv & Ev & Hfv & Hat). rewrite Ev. cbn [bind].
  pose proof (fixedCodebookPulsesSigns_value s p Hs' Hp) as ES. rewrite ES. cbn [bind].
  destruct (convolvePulses_run h' s p w Hh' Hs' Hp Hw) as (cw & -> & Hcw & HC). cbn [bind wp].
  exists px, fv, cw. split_and!; try done.
  - apply (sharpened_pulses_energy px fv T g); try done. apply Hfv.
  - eexists. split; [done|]. split; [|done].
    assert (∀ z, 0 ≤ signBit z ≤ 1) as Hb by (intros; unfold signBit; destruct (_ <? _); lia).
    pose proof (Hb (at_ s (s_i0 p))). pose proof (Hb (at_ s (s_i1 p))).
    pose proof (Hb (at_ s (s_i2 p))). pose proof (Hb (at_ s (s_i3 p))). lia.
Qed.

Lemma wp_fixedCodebookSearch (F : fault → Prop) x h T g y ga s v w (Q : list Z * Z * Z * list Z * list Z → Prop) :
  F BadShift → arr i16r 40 x → arr i16r 40 h → 20 ≤ T → rng 3277 19661 g → arr i16r 40 y →
  zlen s = 40 → arr i16r 40 v → arr i16r 40 w →
  (∀ h' r, pitchSharpening h T g = Ok h' → arr i16r 40 h' → fixed_result T g h' r → Q r) →
  wp F (fixedCodebookSearch x h T g y ga s v w) Q.
Proof.
  intros HF Hx Hh HT Hg Hy Hs Hv Hw HQ. unfold fixedCodebookSearch. wp_step.
  apply wp_fixedCodebookTarget; [done|done|]. intros t Ht.
  destruct (pitchSharpening_run h T g Hh HT) as (h' & Eh & Hh' & _). rewrite Eh. cbn [bind]. wp_step.
  apply wp_correlationSignal32; [done|done|]. intros c32 m Hc32 Hm. wp_step.
  apply wp_normaliseCorrelationSignal; [done|done|]. intros c Hc. wp_step.
  apply wp_correlationMatrix; [done|done|done|done|apply arr_rng2_by; reflexivity|]. intros c' s' Phi Hc' Hs' HP. wp_step.
  apply wp_searchPulses; [done|done|]. intros p Hp.
  destruct (proj1 (safe_ok _ _) (fixed_outputs h' s' p T g v w Hh' Hs' Hp HT Hg Hv Hw)) as (r & -> & x0 & v0 & w0 & Hr).
  apply (HQ h'); [done|done|]. exists s', p, x0, v0, w0. destruct Hr as (R1 & R2 & R3 & R4 & R5 & R6 & R7 & R8). by split_and!.
Qed.
