(* ===== verification/EncPhi.v ===== *)
(** The fixed codebook search computes what it means to: the matrix of [fixedCodebookSearch.c]
    holds the correlations of the delayed impulse responses, the energies of the candidate
    pulses are positive, so that the pulses selected lie on their tracks and the decoder reads
    them back from the codeword. *)

From S2P Require Import Prelude FixedPoint Sums Math Utils Context DecodeExcitation EncFixed.

(** ** The correlations of the delayed responses, spec 3.8.1 eq51 *)

Definition phi (h : list Z) (i j : Z) : Z := zsum 40 (λ n, delayed h i n * delayed h j n).

Lemma phi_sym h i j : phi h i j = phi h j i.
Proof. apply zsum_ext. intros. lia. Qed.

(** The form the code accumulates along a diagonal. *)
Lemma phi_diagonal h i j : 0 ≤ j ≤ i → i < 40 →
  phi h i j = zsum (Z.to_nat (40 - i)) (λ n, at_ h n * at_ h (i - j + n)).
Proof.
  intros Hj Hi. unfold phi. replace 40%nat with (Z.to_nat i + Z.to_nat (40 - i))%nat by lia.
  rewrite zsum_split, (zsum_ext (Z.to_nat i) _ (λ _, 0)).
  - rewrite zsum_const, Z.mul_0_l, Z.add_0_l. apply zsum_ext. intros n Hn. unfold delayed.
    destruct (Z.ltb_spec (Z.of_nat (Z.to_nat i) + n) i); [lia|]. destruct (Z.ltb_spec (Z.of_nat (Z.to_nat i) + n) j); [lia|].
    f_equal; f_equal; lia.
  - intros n Hn. unfold delayed. by destruct (Z.ltb_spec n i); [|lia].
Qed.

(** The energy of the impulse response bounds every partial sum. *)
Definition energy (h : list Z) : Z := zsum 40 (λ n, at_ h n * at_ h n).

Lemma lagged_bound h k d : 0 ≤ d → Z.of_nat k + d ≤ 40 →
  Z.abs (zsum k (λ n, at_ h n * at_ h (d + n))) ≤ energy h.
Proof.
  intros Hd Hk. pose proof (zsum_mul_le k (at_ h) (λ n, at_ h (d + n))) as H.
  pose proof (zsum_window 40 0 k (λ n, at_ h n * at_ h n) (λ _ _, Z.square_nonneg _) ltac:(lia)) as H0.
  pose proof (zsum_window 40 (Z.to_nat d) k (λ n, at_ h n * at_ h n) (λ _ _, Z.square_nonneg _) ltac:(lia)) as H1.
  cbv beta in H, H0, H1. rewrite (zsum_ext k _ (λ n, at_ h n * at_ h n)) in H0 by (intros; f_equal; f_equal; lia).
  rewrite (zsum_ext k _ (λ n, at_ h (d + n) * at_ h (d + n))) in H1 by (intros; f_equal; f_equal; lia).
  unfold energy. lia.
Qed.

Lemma phi_bound h i j : 0 ≤ i < 40 → 0 ≤ j < 40 → Z.abs (phi h i j) ≤ energy h.
Proof.
  intros Hi Hj. destruct (Z.le_ge_cases j i).
  - rewrite phi_diagonal by lia. apply lagged_bound; lia.
  - rewrite phi_sym, phi_diagonal by lia. apply lagged_bound; lia.
Qed.

Lemma phi_diag_nonneg h i : 0 ≤ phi h i i.
Proof. apply zsum_nonneg. intros. apply Z.square_nonneg. Qed.

Section Matrix.
Context (h : list Z) (Hh : arr i16r 40 h) (HE : energy h < 2147483648).

Lemma MAC_partial k d : 0 ≤ k → 0 ≤ d → k + d < 40 →
  MAC16_16 (zsum (Z.to_nat k) (λ n, at_ h n * at_ h (d + n))) (at_ h k) (at_ h (d + k)) =
  zsum (Z.to_nat (k + 1)) (λ n, at_ h n * at_ h (d + n)).
Proof.
  intros H0 Hd Hk. pose proof (lagged_bound h (Z.to_nat k) d Hd ltac:(lia)) as H1.
  pose proof (lagged_bound h (Z.to_nat (k + 1)) d Hd ltac:(lia)) as H2.
  replace (Z.to_nat (k + 1)) with (S (Z.to_nat k)) in H2 |- * by lia. cbn [zsum] in H2 |- *.
  replace (Z.of_nat (Z.to_nat k)) with k in H2 |- * by lia.
  set (x := zsum _ _) in *. assert (MAC16_16 (i32 x) (at_ h k) (at_ h (d + k)) = i32 (x + at_ h k * at_ h (d + k))) as E.
  { apply MAC16_16_wrapped; (apply (at_arr _ 40); [done|lia]). }
  by rewrite !i32_id in E by (unfold rng; lia).
Qed.

(** One diagonal. *)
Lemma computePhiDiagonal_run j s Phi : 0 ≤ j < 40 → 0 ≤ s ≤ 3 → grid 40 Phi →
  safe (computePhiDiagonal j h Phi s) (λ m, grid 40 m ∧ ∀ a b, 0 ≤ a < 40 → 0 ≤ b < 40 →
    cell m a b = if a - b =? 39 - j then Z.shiftr (phi h a b) s else cell Phi a b).
Proof.
  intros Hj Hs HP. unfold computePhiDiagonal, L_SUBFRAME. pose proof (proj1 Hh) as Hl. wp_step.
  apply wp_for_up with (I := λ k '(acc, m), acc = zsum (Z.to_nat k) (λ n, at_ h n * at_ h (39 - j + n)) ∧ grid 40 m ∧
    ∀ a b, 0 ≤ a < 40 → 0 ≤ b < 40 →
      cell m a b = if (a - b =? 39 - j) && (39 - k <? a) then Z.shiftr (phi h a b) s else cell Phi a b); [lia| | |].
  - split; [done|]. split; [done|]. intros a b Ha Hb. by destruct (Z.ltb_spec (39 - 0) a); [lia|rewrite andb_false_r].
  - intros k [acc m] Hk (-> & Hm & Hc). rewrite !ld_at by lia. cbn [bind]. cbv zeta.
    replace (40 - 1 - j + k) with (39 - j + k) by lia. rewrite MAC_partial by lia.
    set (v := zsum _ _). assert (v = phi h (39 - k) (j - k)) as Ev.
    { rewrite phi_diagonal by lia. unfold v. replace (40 - (39 - k)) with (k + 1) by lia.
      apply zsum_ext. intros. f_equal. f_equal. lia. }
    assert ((if s =? 0 then Ok v else shr_chk v s) = Ok (Z.shiftr v s)) as ->.
    { destruct (Z.eqb_spec s 0) as [->|]; [by rewrite Z.shiftr_0_r|]. unfold shr_chk. by destruct (_ && _) eqn:E; [|lia]. }
    cbn [bind]. destruct (st2_cell 40 m (40 - 1 - k) (j - k) (Z.shiftr v s)) as (m' & -> & Hm' & Hc'); [done|lia|lia|].
    cbn [bind wp]. split; [done|]. split; [done|]. intros a b Ha Hb. rewrite Hc', Hc by lia.
    destruct (Z.eqb_spec (40 - 1 - k) a), (Z.eqb_spec (j - k) b), (Z.eqb_spec (a - b) (39 - j)), (Z.ltb_spec (39 - k) a),
      (Z.ltb_spec (39 - (k + 1)) a); cbn [andb]; try lia; try done.
    rewrite Ev. f_equal. f_equal; lia.
  - intros [acc m] (_ & Hm & Hc). cbn [wp]. split; [done|]. intros a b Ha Hb. rewrite Hc by done.
    destruct (Z.eqb_spec (a - b) (39 - j)), (Z.ltb_spec (39 - (j + 1)) a); cbn [andb]; try lia; done.
Qed.

(** The diagonals between different tracks. *)
Definition crossTracks (n a b : Z) : bool := (39 - (a - b) <? n) && negb ((39 - (a - b)) mod 5 =? 4).

Lemma diagonals_run s Phi : 0 ≤ s ≤ 3 → grid 40 Phi →
  safe (for_up 0 8 Phi (λ i Phi, for_up 0 4 Phi (λ j Phi, computePhiDiagonal (5 * i + j) h Phi s))) (λ m,
    grid 40 m ∧ ∀ a b, 0 ≤ b ≤ a → a < 40 →
      cell m a b = if crossTracks 39 a b then Z.shiftr (phi h a b) s else cell Phi a b).
Proof.
  intros Hs HP.
  apply wp_for_up with (I := λ i m, grid 40 m ∧ ∀ a b, 0 ≤ b ≤ a → a < 40 →
      cell m a b = if crossTracks (5 * i) a b then Z.shiftr (phi h a b) s else cell Phi a b); [lia| | |].
  - split; [done|]. intros a b Hb Ha. unfold crossTracks. by destruct (Z.ltb_spec (39 - (a - b)) (5 * 0)); [lia|].
  - intros i m Hi [Hm Hc].
    apply wp_for_up with (I := λ j m, grid 40 m ∧ ∀ a b, 0 ≤ b ≤ a → a < 40 →
      cell m a b = if crossTracks (5 * i + j) a b then Z.shiftr (phi h a b) s else cell Phi a b); [lia| | |].
    + by rewrite Z.add_0_r.
    + intros j m1 Hj [Hm1 Hc1]. eapply wp_mono; [apply computePhiDiagonal_run; [lia|done|done]|].
      intros m2 [Hm2 Hc2]. split; [done|]. intros a b Hb Ha. rewrite Hc2, Hc1 by lia. unfold crossTracks.
      pose proof (Z.div_mod (39 - (a - b)) 5 ltac:(lia)). pose proof (Z.mod_pos_bound (39 - (a - b)) 5 ltac:(lia)).
      destruct (Z.eqb_spec (a - b) (39 - (5 * i + j))), (Z.ltb_spec (39 - (a - b)) (5 * i + j)),
        (Z.ltb_spec (39 - (a - b)) (5 * i + (j + 1))), (Z.eqb_spec ((39 - (a - b)) mod 5) 4); cbn [andb negb]; try lia; done.
    + intros m1 [Hm1 Hc1]. split; [done|]. intros a b Hb Ha. rewrite Hc1 by lia. unfold crossTracks.
      pose proof (Z.div_mod (39 - (a - b)) 5 ltac:(lia)). pose proof (Z.mod_pos_bound (39 - (a - b)) 5 ltac:(lia)).
      destruct (Z.ltb_spec (39 - (a - b)) (5 * i + 4)), (Z.ltb_spec (39 - (a - b)) (5 * (i + 1))),
        (Z.eqb_spec ((39 - (a - b)) mod 5) 4); cbn [andb negb]; try lia; done.
  - intros m [Hm Hc]. split; [done|]. intros a b Hb Ha. rewrite Hc by lia. unfold crossTracks.
    pose proof (Z.div_mod (39 - (a - b)) 5 ltac:(lia)). pose proof (Z.mod_pos_bound (39 - (a - b)) 5 ltac:(lia)).
    destruct (Z.ltb_spec (39 - (a - b)) (5 * 8)), (Z.ltb_spec (39 - (a - b)) 39),
      (Z.eqb_spec ((39 - (a - b)) mod 5) 4); cbn [andb negb]; try lia; done.
Qed.

(** The main diagonal and the scaling: the energy, scaled, fits 28 bits. *)
Definition scaling_fits (s : Z) : Prop := 0 ≤ s ≤ 3 ∧ energy h < 2 ^ (28 + s).

Lemma energy_phi : energy h = phi h 0 0.
Proof. rewrite phi_diagonal by lia. apply zsum_ext. intros. by rewrite Z.add_0_l. Qed.

Lemma halvedDiagonal_run Phi : grid 40 Phi →
  safe (for_up 0 40 (0, Phi) (λ i '(acc, Phi),
    let* a := ld h i in
    let acc := MAC16_16 acc a a in
    let* Phi := st2 Phi (40 - 1 - i) (40 - 1 - i) (SHR acc 1) in
    Ok (acc, Phi))) (λ '(_, m), grid 40 m ∧ ∀ a b, 0 ≤ a < 40 → 0 ≤ b < 40 →
      cell m a b = if a =? b then Z.shiftr (phi h a a) 1 else cell Phi a b).
Proof.
  intros HP. pose proof (proj1 Hh) as Hl.
  apply wp_for_up with (I := λ k '(acc, m), acc = zsum (Z.to_nat k) (λ n, at_ h n * at_ h (0 + n)) ∧ grid 40 m ∧
    ∀ a b, 0 ≤ a < 40 → 0 ≤ b < 40 →
      cell m a b = if (a =? b) && (39 - k <? a) then Z.shiftr (phi h a a) 1 else cell Phi a b); [lia| | |].
  - split; [done|]. split; [done|]. intros a b Ha Hb. by destruct (Z.ltb_spec (39 - 0) a); [lia|rewrite andb_false_r].
  - intros k [acc m] Hk (-> & Hm & Hc). rewrite ld_at by lia. cbn [bind]. cbv zeta.
    pose proof (MAC_partial k 0 ltac:(lia) ltac:(lia) ltac:(lia)) as Ev. rewrite Z.add_0_l in Ev. rewrite Ev.
    set (v := zsum _ _). assert (v = phi h (39 - k) (39 - k)) as Evk.
    { rewrite phi_diagonal by lia. unfold v. replace (40 - (39 - k)) with (k + 1) by lia.
      apply zsum_ext. intros. f_equal. f_equal. lia. }
    destruct (st2_cell 40 m (40 - 1 - k) (40 - 1 - k) (SHR v 1)) as (m' & -> & Hm' & Hc'); [done|lia|lia|].
    cbn [bind wp]. split; [done|]. split; [done|]. intros a b Ha Hb. rewrite Hc', Hc by lia.
    destruct (Z.eqb_spec (40 - 1 - k) a), (Z.eqb_spec (40 - 1 - k) b), (Z.eqb_spec a b), (Z.ltb_spec (39 - k) a),
      (Z.ltb_spec (39 - (k + 1)) a); cbn [andb]; try lia; try done.
    unfold SHR. rewrite Evk. f_equal. f_equal; lia.
  - intros [acc m] (_ & Hm & Hc). split; [done|]. intros a b Ha Hb. rewrite Hc by done.
    destruct (Z.eqb_spec a b), (Z.ltb_spec (39 - 40) a); cbn [andb]; try lia; done.
Qed.

Lemma mainDiagonal_run Phi : energy h < 2093796557 → grid 40 Phi →
  safe (mainDiagonal h Phi) (λ '(m, s), grid 40 m ∧ scaling_fits s ∧ ∀ a b, 0 ≤ a < 40 → 0 ≤ b < 40 →
      cell m a b = if a =? b then Z.shiftr (phi h a a) (1 + s) else cell Phi a b).
Proof.
  intros HM HP. unfold mainDiagonal, L_SUBFRAME. wp_step.
  eapply wp_mono; [apply halvedDiagonal_run, HP|]. intros [acc m] [Hm Hc].
  rewrite (ld2_cell 40) by (done || lia). cbn [bind]. rewrite (Hc 0 0) by lia. cbn [Z.eqb]. rewrite <-energy_phi.
  pose proof (phi_diag_nonneg h 0) as H0. rewrite <-energy_phi in H0.
  set (p := Z.shiftr (energy h) 1). assert (2 * p ≤ energy h ≤ 2 * p + 1) as Hp.
  { unfold p. rewrite Z.shiftr_div_pow2 by lia. change (2 ^ 1) with 2. Z.div_mod_to_equations. lia. }
  destruct (Z.ltb_spec 107374182 p) as [Hbig|Hsmall].
  2:{ cbn [wp]. split; [done|]. split; [unfold scaling_fits; change (2 ^ (28 + 0)) with 268435456; lia|].
      intros a b Ha Hb. by rewrite Z.add_0_r, Hc. }
  destruct (PhiScaling_cases p ltac:(lia)) as (lz & -> & Hs). cbn [bind]. cbv zeta.
  destruct (Z.ltb_spec (2 * p + 53687091) 2147483648); [|lia]. destruct Hs as (Hs & Hfit & _).
  set (s := u16 (3 - lz)) in *. wp_step.
  apply wp_for_up with (I := λ i m', grid 40 m' ∧ ∀ a b, 0 ≤ a < 40 → 0 ≤ b < 40 →
    cell m' a b = if (a =? b) && (a <? i) then Z.shiftr (phi h a a) (1 + s) else cell m a b); [lia| | |].
  - split; [done|]. intros a b Ha Hb. by destruct (Z.ltb_spec a 0); [lia|rewrite andb_false_r].
  - intros i m' Hi [Hm' Hc']. rewrite (ld2_cell 40) by (done || lia). cbn [bind].
    rewrite Hc', Hc, !Z.eqb_refl by lia. destruct (Z.ltb_spec i i); [lia|]. cbn [andb].
    unfold shr_chk. destruct ((0 <=? s) && (s <? 32)) eqn:E; [|lia]. cbn [bind]. rewrite Z.shiftr_shiftr by lia.
    destruct (st2_cell 40 m' i i (Z.shiftr (phi h i i) (1 + s))) as (m2 & -> & Hm2 & Hc2); [done|lia|lia|].
    cbn [wp]. split; [done|]. intros a b Ha Hb. rewrite Hc2, Hc' by lia.
    destruct (Z.eqb_spec i a), (Z.eqb_spec i b), (Z.eqb_spec a b), (Z.ltb_spec a i), (Z.ltb_spec a (i + 1)); cbn [andb];
      try lia; by subst.
  - intros m' [Hm' Hc']. cbn [wp]. split; [done|]. split; [split; [lia|lia]|]. intros a b Ha Hb. rewrite Hc', Hc by done.
    destruct (Z.eqb_spec a b), (Z.ltb_spec a 40); cbn [andb]; try lia; done.
Qed.

End Matrix.

(** ** Signs and symmetry *)

Lemma applySigns_run s inv Phi : arr unit_sign 40 s → zlen inv = 40 → (∀ i, 0 ≤ i < 40 → at_ inv i = - at_ s i) → grid 40 Phi →
  safe (applySigns s inv Phi) (λ m, grid 40 m ∧ ∀ a b, 0 ≤ b ≤ a → a < 40 →
    cell m a b = i32 (cell Phi a b * (at_ s a * at_ s b))).
Proof.
  intros Hs Hv Hinv HP. pose proof (proj1 Hs) as Hl. unfold applySigns, L_SUBFRAME.
  apply wp_for_up with (I := λ i m, grid 40 m ∧ ∀ a b, 0 ≤ b ≤ a → a < 40 →
    cell m a b = if a <? i then i32 (cell Phi a b * (at_ s a * at_ s b)) else cell Phi a b); [lia| | |].
  - split; [done|]. intros a b Hb Ha. by destruct (Z.ltb_spec a 0); [lia|].
  - intros i m Hi [Hm Hc]. rewrite (ld_at s i) by lia. cbn [bind]. cbv zeta.
    assert (∀ j, 0 ≤ j < 40 → ld (if 0 <? at_ s i then s else inv) j = Ok (at_ s i * at_ s j)) as Hld.
    { intros j Hj. destruct (at_arr _ _ _ i Hs Hi) as [E|E]; rewrite E; cbn [Z.ltb Z.compare]; rewrite ld_at by lia; f_equal.
      - lia.
      - rewrite Hinv by done. lia. }
    apply wp_for_up with (I := λ j m, grid 40 m ∧ ∀ a b, 0 ≤ b ≤ a → a < 40 →
      cell m a b = if (a <? i) || (a =? i) && (b <? j) then i32 (cell Phi a b * (at_ s a * at_ s b)) else cell Phi a b); [lia| | |].
    + split; [done|]. intros a b Hb Ha. rewrite Hc by done. destruct (Z.ltb_spec b 0); [lia|]. by rewrite andb_false_r, orb_false_r.
    + intros j m1 Hj [Hm1 Hc1]. rewrite (ld2_cell 40) by (done || lia). cbn [bind]. rewrite Hld by lia. cbn [bind].
      rewrite Hc1 by lia. rewrite Z.eqb_refl, !Z.ltb_irrefl. cbn [orb andb].
      destruct (st2_cell 40 m1 i j (i32 (cell Phi i j * (at_ s i * at_ s j)))) as (m2 & -> & Hm2 & Hc2); [done|lia|lia|].
      cbn [wp]. split; [done|]. intros a b Hb Ha. rewrite Hc2, Hc1 by lia.
      destruct (Z.eqb_spec i a), (Z.eqb_spec j b), (Z.ltb_spec a i), (Z.eqb_spec a i), (Z.ltb_spec b j), (Z.ltb_spec b (j + 1));
        cbn [andb orb]; try lia; by subst.
    + intros m1 [Hm1 Hc1]. split; [done|]. intros a b Hb Ha. rewrite Hc1 by lia.
      destruct (Z.ltb_spec a i), (Z.eqb_spec a i), (Z.ltb_spec b (i + 1)), (Z.ltb_spec a (i + 1)); cbn [andb orb]; try lia; done.
  - intros m [Hm Hc]. split; [done|]. intros a b Hb Ha. rewrite Hc by lia. by destruct (Z.ltb_spec a 40); [|lia].
Qed.

Definition lower_same (Phi m : list (list Z)) : Prop := ∀ a b, 0 ≤ b ≤ a → a < 40 → cell m a b = cell Phi a b.

Lemma duplicateDiagonals_run Phi : grid 40 Phi →
  safe (duplicateDiagonals Phi) (λ m, grid 40 m ∧ lower_same Phi m ∧
    ∀ a b, 0 ≤ b < a → a < 40 → crossTracks 39 a b = true → cell m b a = cell Phi a b).
Proof.
  intros HP. unfold duplicateDiagonals, L_SUBFRAME.
  set (I n m := grid 40 m ∧ lower_same Phi m ∧
    ∀ a b, 0 ≤ b < a → a < 40 → crossTracks n a b = true → cell m b a = cell Phi a b).
  assert (∀ n n' m, I n m → (∀ a b, 0 ≤ b < a → a < 40 → crossTracks n' a b = true → crossTracks n a b = true) → I n' m) as Hmono.
  { intros n n' m (? & ? & Hc) Hn. split; [done|]. split; [done|]. intros a b Hb Ha Ht. apply Hc; auto. }
  apply wp_for_up with (I := λ i, I (5 * i)); [lia| | |].
  - split; [done|]. split; [done|]. intros a b Hb Ha. unfold crossTracks. by destruct (Z.ltb_spec (39 - (a - b)) (5 * 0)); [lia|].
  - intros i m Hi Hm. apply wp_for_up with (I := λ j, I (5 * i + j)); [lia|by rewrite Z.add_0_r| |].
    + intros j m1 Hj (Hm1 & Hlow & Hc). cbv zeta. set (n := 5 * i + j) in *.
      apply wp_for_up with (I := λ k m, grid 40 m ∧ lower_same Phi m ∧
        ∀ a b, 0 ≤ b < a → a < 40 → crossTracks n a b || (39 - (a - b) =? n) && (39 - k <? a) = true → cell m b a = cell Phi a b);
        [lia| | |].
      * split; [done|]. split; [done|]. intros a b Hb Ha. destruct (Z.ltb_spec (39 - 0) a); [lia|].
        rewrite andb_false_r, orb_false_r. by apply Hc.
      * intros k m2 Hk (Hm2 & Hlow2 & Hc2). rewrite (ld2_cell 40) by (done || lia). cbn [bind].
        rewrite Hlow2 by lia. destruct (st2_cell 40 m2 (n - k) (40 - 1 - k) (cell Phi (40 - 1 - k) (n - k))) as (m3 & -> & Hm3 & Hc3); [done|lia|lia|].
        cbn [wp]. split; [done|]. split.
        -- intros a b Hb Ha. rewrite Hc3 by lia. destruct (Z.eqb_spec (n - k) a), (Z.eqb_spec (40 - 1 - k) b); cbn [andb]; try lia;
             by apply Hlow2.
        -- intros a b Hb Ha Ht. rewrite Hc3 by lia. destruct (Z.eqb_spec (n - k) b) as [Eb|], (Z.eqb_spec (40 - 1 - k) a) as [Ea|]; cbn [andb];
             [by rewrite Eb, Ea|apply Hc2; try done..]; destruct (crossTracks n a b); try done; cbn [orb] in Ht |- *; lia.
      * intros m2 (Hm2 & Hlow2 & Hc2). split; [done|]. split; [done|]. intros a b Hb Ha Ht. apply Hc2; [done|done|].
        unfold crossTracks in *. lia.
    + intros m1 Hm1. eapply Hmono; [exact Hm1|]. intros a b Hb Ha. unfold crossTracks.
      pose proof (Z.div_mod (39 - (a - b)) 5 ltac:(lia)). pose proof (Z.mod_pos_bound (39 - (a - b)) 5 ltac:(lia)). lia.
  - intros m Hm. eapply Hmono in Hm as H'; [exact H'|]. intros a b Hb Ha. unfold crossTracks.
    pose proof (Z.div_mod (39 - (a - b)) 5 ltac:(lia)). pose proof (Z.mod_pos_bound (39 - (a - b)) 5 ltac:(lia)). lia.
Qed.

(** ** The whole matrix *)

(** The cells the search reads: half the energies on the diagonal, and between two tracks the
    correlations with the signs of both pulses, all scaled by [2^S]. *)
Record signed_phi (h s : list Z) (S : Z) (m : list (list Z)) : Prop := {
  sp_grid : grid 40 m;
  sp_signs : arr unit_sign 40 s;
  sp_diagonal : ∀ a, 0 ≤ a < 40 → cell m a a = Z.shiftr (phi h a a) (1 + S);
  sp_cross : ∀ a b, 0 ≤ a < 40 → 0 ≤ b < 40 → (a - b) mod 5 ≠ 0 →
    cell m a b = at_ s a * at_ s b * Z.shiftr (phi h a b) S
}.

Lemma shiftr_bound x S B : 0 ≤ S → Z.abs x ≤ B * 2 ^ S → Z.abs (Z.shiftr x S) ≤ B.
Proof.
  intros HS Hx. rewrite Z.shiftr_div_pow2 by done. assert (0 < 2 ^ S) by lia.
  apply Z.abs_le. split; [apply Z.div_le_lower_bound|apply Z.div_le_upper_bound]; lia.
Qed.

Lemma scaled_phi h S a b : scaling_fits h S → 0 ≤ a < 40 → 0 ≤ b < 40 → Z.abs (Z.shiftr (phi h a b) S) ≤ 268435456.
Proof.
  intros [HS HE] Ha Hb. apply shiftr_bound; [lia|]. pose proof (phi_bound h a b Ha Hb).
  rewrite Z.pow_add_r in HE by lia. change (2 ^ 28) with 268435456 in HE. lia.
Qed.

Lemma unit_product s a b : arr unit_sign 40 s → 0 ≤ a < 40 → 0 ≤ b < 40 → unit_sign (at_ s a * at_ s b).
Proof. intros Hs Ha Hb. destruct (at_arr _ _ _ a Hs Ha) as [-> | ->], (at_arr _ _ _ b Hs Hb) as [-> | ->]; auto. Qed.

Lemma crossTracks_39 a b : 0 ≤ b < a → a < 40 → crossTracks 39 a b = negb ((a - b) mod 5 =? 0).
Proof. intros. unfold crossTracks. Z.div_mod_to_equations. lia. Qed.

Lemma correlationMatrix_run h c s Phi : arr i16r 40 h → energy h < 2093796557 → arr i16r 40 c → zlen s = 40 → grid 40 Phi →
  safe (computeImpulseResponseCorrelationMatrix h c s Phi) (λ '(c', s', m), arr i16r 40 c' ∧
    (∀ i, 0 ≤ i < 40 → at_ c' i = i16 (Z.abs (at_ c i))) ∧ ∃ S, scaling_fits h S ∧ signed_phi h s' S m).
Proof.
  intros Hh HE Hc Hs HP. unfold computeImpulseResponseCorrelationMatrix. wp_step.
  eapply wp_mono; [apply mainDiagonal_run; first [done|lia]|]. intros [m1 S] (G1 & HS & C1). wp_step.
  eapply wp_mono; [apply diagonals_run; [done|lia|apply HS|done]|]. intros m2 [G2 C2]. wp_step.
  apply wp_splitSigns; [done|done|]. intros c' s' v Hc' Hs' Hv Hcv. wp_step.
  eapply wp_mono; [apply applySigns_run; [done|apply Hv|by intros; apply Hcv|done]|]. intros m3 [G3 C3]. wp_step.
  eapply wp_mono; [by apply duplicateDiagonals_run|]. intros m4 (G4 & L4 & C4). cbn [wp].
  split; [done|]. split; [by intros; apply Hcv|]. exists S. split; [done|].
  assert (∀ a b, 0 ≤ b < a → a < 40 → (a - b) mod 5 ≠ 0 → cell m3 a b = at_ s' a * at_ s' b * Z.shiftr (phi h a b) S) as Hlow.
  { intros a b Hb Ha Hd. rewrite C3, C2 by lia. rewrite crossTracks_39 by lia. destruct (Z.eqb_spec ((a - b) mod 5) 0); [done|].
    cbn [negb]. pose proof (scaled_phi h S a b HS ltac:(lia) ltac:(lia)). rewrite Z.mul_comm, i32_id; [done|].
    destruct (unit_product s' a b Hs') as [-> | ->]; unfold rng; lia. }
  constructor; [done|done| |].
  - intros a Ha. rewrite L4, C3, C2 by lia. unfold crossTracks. destruct (Z.ltb_spec (39 - (a - a)) 39); [lia|]. cbn [andb].
    rewrite C1, Z.eqb_refl by lia.
    assert (Z.abs (Z.shiftr (phi h a a) (1 + S)) ≤ 268435456).
    { destruct HS as [HS HE']. apply shiftr_bound; [lia|]. pose proof (phi_bound h a a Ha Ha).
      replace (28 + S) with (27 + (1 + S)) in HE' by lia. rewrite Z.pow_add_r in HE' by lia. change (2 ^ 27) with 134217728 in HE'. lia. }
    destruct (at_arr _ _ _ a Hs' Ha) as [-> | ->]; rewrite i32_id; unfold rng; lia.
  - intros a b Ha Hb Hd. destruct (Z.lt_trichotomy a b) as [Hlt|[->|Hlt]]; [|by rewrite Z.sub_diag in Hd|].
    + assert ((b - a) mod 5 ≠ 0) by (Z.div_mod_to_equations; lia).
      rewrite C4; [|lia|lia|rewrite crossTracks_39 by lia; by destruct (Z.eqb_spec ((b - a) mod 5) 0)].
      rewrite Hlow, (phi_sym h b a) by (done || lia). lia.
    + rewrite L4 by lia. apply Hlow; first [done|lia].
Qed.

(** ** The energies of the candidates are positive *)

Lemma delayed_at h p : at_ h 0 = 4096 → delayed h p p = 4096.
Proof. intros H. unfold delayed. destruct (Z.ltb_spec p p); [lia|]. by rewrite Z.sub_diag. Qed.

Lemma delayed_before h p n : n < p → delayed h p n = 0.
Proof. intros H. unfold delayed. by destruct (Z.ltb_spec n p); [|lia]. Qed.

(** A sum of squares is at least any of its terms. *)
Lemma zsum_square_term (f : Z → Z) n : 0 ≤ n < 40 → f n * f n ≤ zsum 40 (λ i, f i * f i).
Proof.
  intros Hn. pose proof (zsum_window 40 (Z.to_nat n) 1 (λ i, f i * f i) (λ _ _, Z.square_nonneg _) ltac:(lia)) as H.
  rewrite zsum_1 in H. by replace (Z.of_nat (Z.to_nat n) + 0) with n in H by lia.
Qed.

Lemma square4 (f g u v : Z → Z) a b c d : unit_sign a → unit_sign b → unit_sign c → unit_sign d →
  zsum 40 (λ n, (a * f n + b * g n + c * u n + d * v n) * (a * f n + b * g n + c * u n + d * v n)) =
  zsum 40 (λ n, f n * f n) + zsum 40 (λ n, g n * g n) + zsum 40 (λ n, u n * u n) + zsum 40 (λ n, v n * v n) +
  2 * (a * b * zsum 40 (λ n, f n * g n) + a * c * zsum 40 (λ n, f n * u n) + a * d * zsum 40 (λ n, f n * v n) +
       b * c * zsum 40 (λ n, g n * u n) + b * d * zsum 40 (λ n, g n * v n) + c * d * zsum 40 (λ n, u n * v n)).
Proof.
  intros Ha Hb Hc Hd. rewrite <-!zsum_scal, <-!zsum_add, <-zsum_scal, <-zsum_add. apply zsum_ext. intros n _.
  assert (∀ x, unit_sign x → x * x = 1) as H1 by (intros x [-> | ->]; done).
  replace (f n * f n + g n * g n + u n * u n + v n * v n) with
    (a * a * (f n * f n) + b * b * (g n * g n) + c * c * (u n * u n) + d * d * (v n * v n)) by (rewrite (H1 a), (H1 b), (H1 c), (H1 d) by done; lia).
  ring.
Qed.

Section Energy.
Context (h : list Z) (H0 : at_ h 0 = 4096).

(** Four pulses at different positions: before the others start, the first one alone responds. *)
Lemma phi_quad_positive a b c d sa sb sc sd : 0 ≤ a < 40 → 0 ≤ b < 40 → 0 ≤ c < 40 → 0 ≤ d < 40 →
  a ≠ b → a ≠ c → a ≠ d → b ≠ c → b ≠ d → c ≠ d → unit_sign sa → unit_sign sb → unit_sign sc → unit_sign sd →
  16777216 ≤ phi h a a + phi h b b + phi h c c + phi h d d +
    2 * (sa * sb * phi h a b + sa * sc * phi h a c + sa * sd * phi h a d + sb * sc * phi h b c + sb * sd * phi h b d + sc * sd * phi h c d).
Proof.
  intros. unfold phi. rewrite <-square4 by done.
  set (f n := sa * delayed h a n + sb * delayed h b n + sc * delayed h c n + sd * delayed h d n).
  set (m := Z.min (Z.min a b) (Z.min c d)).
  assert (f m * f m = 16777216) as E.
  { assert (∃ s, unit_sign s ∧ f m = s * 4096) as (s & [-> | ->] & ->); [|done..].
    assert (m = a ∨ m = b ∨ m = c ∨ m = d) as [E|[E|[E|E]]] by lia; unfold f; rewrite E, delayed_at by done;
      rewrite !(delayed_before h) by lia; eexists; (split; [|by rewrite ?Z.mul_0_r, ?Z.add_0_l, ?Z.add_0_r]); done. }
  rewrite <-E. apply (zsum_square_term f). lia.
Qed.

Lemma phi_pair_positive a b sa sb : 0 ≤ a < 40 → 0 ≤ b < 40 → a ≠ b → unit_sign sa → unit_sign sb →
  16777216 ≤ phi h a a + phi h b b + 2 * (sa * sb * phi h a b).
Proof.
  intros Ha Hb Hne Hsa Hsb. set (f n := sa * delayed h a n + sb * delayed h b n).
  assert (16777216 ≤ zsum 40 (λ n, f n * f n)) as H.
  { set (m := Z.min a b). assert (f m * f m = 16777216) as E.
    { assert (∃ s, unit_sign s ∧ f m = s * 4096) as (s & [-> | ->] & ->); [|done..].
      assert (m = a ∨ m = b) as [E|E] by lia; unfold f; rewrite E, delayed_at by done;
        rewrite !(delayed_before h) by lia; eexists; (split; [|by rewrite ?Z.mul_0_r, ?Z.add_0_l, ?Z.add_0_r]); done. }
    rewrite <-E. apply (zsum_square_term f). lia. }
  etrans; [exact H|]. apply Z.eq_le_incl. unfold phi. rewrite <-!zsum_scal, <-!zsum_add. apply zsum_ext.
  intros n _. unfold f. destruct Hsa as [-> | ->], Hsb as [-> | ->]; ring.
Qed.

End Energy.

(** ** The search selects one pulse on each track *)

Definition on (t i : Z) : Prop := 0 ≤ i < 40 ∧ i mod 5 = t.

(** The rule of the loops along a track. *)
Lemma wp_track {A} F (I : Z → A → Prop) t x f (Q : A → Prop) : 0 ≤ t < 5 → I 0 x →
  (∀ k y, 0 ≤ k < 8 → on t (t + 5 * k) → I k y → wp F (f (t + 5 * k) y) (I (k + 1))) →
  (∀ y, I 8 y → Q y) → wp F (for_step t L_SUBFRAME 5 x f) Q.
Proof.
  intros Ht H0 Hf HQ. unfold for_step, L_SUBFRAME.
  replace (Z.to_nat ((40 - t + 5 - 1) / 5)) with 8%nat by (Z.div_mod_to_equations; lia).
  eapply wp_mono; [apply (wp_forN F (λ j y, ∃ k, j = t + 5 * k ∧ I k y))|].
  - exists 0. split; [lia|done].
  - intros j y (n & Hn & ->) (k & Ek & Hk). assert (k = Z.of_nat n) as -> by lia.
    replace (t + Z.of_nat n * 5) with (t + 5 * Z.of_nat n) in * by lia. eapply wp_mono; [apply Hf; [lia| |done]|].
    + split; [lia|]. rewrite Z.mul_comm, Z.mod_add, Z.mod_small by lia. done.
    + intros y' Hy. exists (Z.of_nat n + 1). split; [lia|done].
  - intros y (k & Ek & Hk). assert (k = 8) as -> by lia. by apply HQ.
Qed.

Lemma ADD32_exact a b : i32r (a + b) → i32r a → i32r b → ADD32 a b = a + b.
Proof. intros. unfold ADD32. by rewrite (i32_id a), (i32_id b), i32_id. Qed.

Lemma MULT32_32_i32 a b : i32r a → i32r b → MULT32_32 a b = a * b.
Proof. intros. unfold MULT32_32. rewrite (i64_id a), (i64_id b), i64_id by (unfold rng in *; nia). done. Qed.

Lemma square16 a b : rng 0 1073741824 (MULT16_16 (ADD16 a b) (ADD16 a b)).
Proof.
  assert (i16r (ADD16 a b)) as H by apply i16_rng. rewrite MULT16_16_exact by done. unfold rng in *. nia.
Qed.

Section Selection.
Context (h s c : list Z) (S : Z) (m : list (list Z)).
Context (Hc : arr (rng 0 32767) 40 c) (H0 : at_ h 0 = 4096) (HS : scaling_fits h S) (HM : signed_phi h s S m).

Lemma diagonal_bounds a : 0 ≤ a < 40 →
  0 ≤ cell m a a < 134217728 ∧ phi h a a - 2 * 2 ^ S ≤ 2 * 2 ^ S * cell m a a.
Proof.
  intros Ha. rewrite (sp_diagonal h s S m HM a Ha). destruct HS as [HS' HE]. pose proof (phi_bound h a a Ha Ha).
  pose proof (phi_diag_nonneg h a). rewrite Z.shiftr_div_pow2 by lia. rewrite Z.pow_add_r in HE |- * by lia.
  change (2 ^ 28) with 268435456 in HE. change (2 ^ 1) with 2. assert (0 < 2 ^ S) by lia. set (K := 2 ^ S) in *.
  pose proof (Z.div_mod (phi h a a) (2 * K) ltac:(lia)). pose proof (Z.mod_pos_bound (phi h a a) (2 * K) ltac:(lia)).
  split; [split; [apply Z.div_pos; lia|apply Z.div_lt_upper_bound; lia]|lia].
Qed.

Lemma cross_bounds a b : 0 ≤ a < 40 → 0 ≤ b < 40 → a mod 5 ≠ b mod 5 →
  Z.abs (cell m a b) ≤ 268435456 ∧ at_ s a * at_ s b * phi h a b - 2 ^ S ≤ 2 ^ S * cell m a b.
Proof.
  intros Ha Hb Hd. rewrite (sp_cross h s S m HM a b Ha Hb) by (Z.div_mod_to_equations; lia).
  pose proof (scaled_phi h S a b HS Ha Hb) as HB. destruct HS as [HS' _]. assert (0 < 2 ^ S) as HK by lia.
  rewrite Z.shiftr_div_pow2 in HB |- * by lia. set (K := 2 ^ S) in *.
  pose proof (Z.div_mod (phi h a b) K ltac:(lia)). pose proof (Z.mod_pos_bound (phi h a b) K HK).
  destruct (unit_product s a b (sp_signs h s S m HM) Ha Hb) as [-> | ->]; split; lia.
Qed.

Definition pairEnergy (a b : Z) : Z := cell m a a + (cell m a b + cell m b b).
Definition quadEnergy (a b i j : Z) : Z :=
  pairEnergy a b + (cell m i i + (cell m i a + cell m i b)) + (cell m j i + (cell m j j + (cell m j a + cell m j b))).

Lemma scale_small : 1 ≤ 2 ^ S ≤ 8.
Proof. destruct HS as [HS' _]. assert (S = 0 ∨ S = 1 ∨ S = 2 ∨ S = 3) as [-> | [-> | [-> | ->]]] by lia; vm_compute; split; congruence. Qed.

Lemma pairEnergy_positive a b : 0 ≤ a < 40 → 0 ≤ b < 40 → a mod 5 ≠ b mod 5 → 0 < pairEnergy a b < 536870912.
Proof.
  intros Ha Hb Hd. unfold pairEnergy. destruct (diagonal_bounds a Ha) as [? ?], (diagonal_bounds b Hb) as [? ?].
  destruct (cross_bounds a b Ha Hb Hd) as [? ?]. pose proof scale_small.
  pose proof (phi_pair_positive h H0 a b (at_ s a) (at_ s b) Ha Hb ltac:(by intros ->)
    (at_arr _ _ _ a (sp_signs h s S m HM) Ha) (at_arr _ _ _ b (sp_signs h s S m HM) Hb)). split; [|lia].
  set (K := 2 ^ S) in *. apply (Z.mul_pos_cancel_l (2 * K)); [lia|]. rewrite !Z.mul_add_distr_l. lia.
Qed.

Lemma quadEnergy_positive a b i j : 0 ≤ a < 40 → 0 ≤ b < 40 → 0 ≤ i < 40 → 0 ≤ j < 40 →
  a mod 5 ≠ b mod 5 → a mod 5 ≠ i mod 5 → a mod 5 ≠ j mod 5 → b mod 5 ≠ i mod 5 → b mod 5 ≠ j mod 5 → i mod 5 ≠ j mod 5 →
  0 < quadEnergy a b i j < 2147483648.
Proof.
  intros Ha Hb Hi Hj Dab Dai Daj Dbi Dbj Dij. unfold quadEnergy, pairEnergy. pose proof (sp_signs h s S m HM) as HG.
  pose proof (phi_quad_positive h H0 a b i j (at_ s a) (at_ s b) (at_ s i) (at_ s j) Ha Hb Hi Hj ltac:(by intros ->) ltac:(by intros ->)
    ltac:(by intros ->) ltac:(by intros ->) ltac:(by intros ->) ltac:(by intros ->)
    (at_arr _ _ _ a HG Ha) (at_arr _ _ _ b HG Hb) (at_arr _ _ _ i HG Hi) (at_arr _ _ _ j HG Hj)) as HQ.
  destruct (diagonal_bounds a Ha) as [Ba La], (diagonal_bounds b Hb) as [Bb Lb], (diagonal_bounds i Hi) as [Bi Li], (diagonal_bounds j Hj) as [Bj Lj].
  destruct (cross_bounds a b Ha Hb Dab) as [Bab Lab], (cross_bounds i a Hi Ha ltac:(auto)) as [Bia Lia], (cross_bounds i b Hi Hb ltac:(auto)) as [Bib Lib].
  destruct (cross_bounds j i Hj Hi ltac:(auto)) as [Bji Lji], (cross_bounds j a Hj Ha ltac:(auto)) as [Bja Lja], (cross_bounds j b Hj Hb ltac:(auto)) as [Bjb Ljb].
  rewrite (phi_sym h i a) in Lia. rewrite (phi_sym h i b) in Lib. rewrite (phi_sym h j a) in Lja.
  rewrite (phi_sym h j b) in Ljb. rewrite (phi_sym h j i) in Lji. pose proof scale_small as HK.
  split; [|clear - Ba Bb Bi Bj Bab Bia Bib Bji Bja Bjb; lia].
  rewrite (Z.mul_comm (at_ s i) (at_ s a)) in Lia. rewrite (Z.mul_comm (at_ s i) (at_ s b)) in Lib.
  rewrite (Z.mul_comm (at_ s j) (at_ s a)) in Lja. rewrite (Z.mul_comm (at_ s j) (at_ s b)) in Ljb.
  rewrite (Z.mul_comm (at_ s j) (at_ s i)) in Lji. set (K := 2 ^ S) in *.
  clear - HQ La Lb Li Lj Lab Lia Lib Lji Lja Ljb HK.
  apply (Z.mul_pos_cancel_l (2 * K)); [lia|]. rewrite !Z.mul_add_distr_l. lia.
Qed.

(** The strongest sample of a track: the excluded one is one of eight. *)
Lemma trackMaximum_run t first : 0 ≤ t < 5 → safe (trackMaximum c t first) (λ '(_, j), on t j).
Proof.
  intros Ht. unfold trackMaximum. pose proof (proj1 Hc) as Hl.
  apply wp_track with (I := λ k '(v, j), on t j ∨ v = -1 ∧ ∀ i, 0 ≤ i < k → t + 5 * i = first); [done| | |].
  - right. split; [done|lia].
  - intros k [v j] Hk Hon HI. rewrite ld_at by (destruct Hon; lia). cbn [bind wp].
    pose proof (at_arr _ _ _ (t + 5 * k) Hc ltac:(destruct Hon; lia)) as Hv. unfold rng in Hv.
    destruct HI as [HI|[-> HI]]; [destruct (_ && _); auto|].
    destruct (Z.ltb_spec (-1) (at_ c (t + 5 * k))); [|lia]. destruct (Z.eqb_spec (t + 5 * k) first) as [E|]; cbn [andb negb]; [|by left].
    right. split; [done|]. intros i Hi. destruct (Z.eq_dec i k) as [->|]; [done|]. apply HI. lia.
  - intros [v j] [?|[_ HI]]; [done|]. pose proof (HI 0 ltac:(lia)). pose proof (HI 1 ltac:(lia)). lia.
Qed.

(** Candidates: a comparison of ratios, the first one always kept. *)
Lemma first_kept E sq : 0 < E < 2147483648 → rng 0 1073741824 sq → (MULT32_32 E (-1) <? MULT32_32 1 sq) = true.
Proof. unfold rng. intros HE Hs. rewrite !MULT32_32_i32 by (unfold rng; lia). lia. Qed.

Definition pair_fresh (p : pair) : Prop := p_square p = -1 ∧ p_energy p = 1.
Definition pair_good (t2 t3 : Z) (p : pair) : Prop :=
  on t2 (p_m2 p) ∧ on t3 (p_m3 p) ∧ p_energy p = pairEnergy (p_m2 p) (p_m3 p).

Lemma pairStep_run t2 t3 v cur j p : t2 ≠ t3 → on t2 cur → on t3 j → pair_fresh p ∨ pair_good t2 t3 p →
  safe (pairStep c m v (cell m cur cur) cur j p) (pair_good t2 t3).
Proof.
  intros Ht [Hcur E2] [Hj E3] Hp. pose proof (proj1 Hc) as Hl. pose proof (sp_grid _ _ _ _ HM) as HG.
  assert (cur mod 5 ≠ j mod 5) as Hd by congruence.
  unfold pairStep. rewrite ld_at by lia. cbn [bind]. rewrite !(ld2_cell 40) by done. cbn [bind]. cbv zeta.
  pose proof (pairEnergy_positive cur j Hcur Hj Hd) as HE. destruct (diagonal_bounds cur Hcur) as [B1 _].
  destruct (diagonal_bounds j Hj) as [B2 _]. destruct (cross_bounds cur j Hcur Hj Hd) as [B3 _].
  rewrite (ADD32_exact (cell m cur j)), ADD32_exact by (unfold rng; lia). fold (pairEnergy cur j).
  destruct Hp as [[-> ->]|Hp].
  - rewrite first_kept by (lia || apply square16). cbn [wp]. by split_and!.
  - destruct (_ <? _); cbn [wp]; [by split_and!|done].
Qed.

Lemma searchPair_run t2 t3 m2 m3 : 0 ≤ t2 < 5 → 0 ≤ t3 < 5 → t2 ≠ t3 →
  safe (searchPair c m t2 t3 m2 m3) (pair_good t2 t3).
Proof.
  intros H2 H3 Ht. unfold searchPair. wp_step.
  apply wp_for_up with (I := λ i '(p, _), if i =? 0 then pair_fresh p else pair_good t2 t3 p); [lia|done| |].
  - intros i [p first] Hi Hp. wp_step. eapply wp_mono; [by apply trackMaximum_run|]. intros [v cur] Hcur. cbv beta iota zeta.
    rewrite (ld2_cell 40) by (apply HM || apply Hcur). cbn [bind]. wp_step.
    apply wp_track with (I := λ k p, pair_good t2 t3 p ∨ k = 0 ∧ pair_fresh p); [done| | |].
    + destruct (i =? 0); auto.
    + intros k q Hk Hj Hq. eapply wp_mono; [apply (pairStep_run t2 t3); tauto|]. auto.
    + intros q [Hq|[? _]]; [|lia]. cbn [wp]. destruct (Z.eqb_spec (i + 1) 0); [lia|done].
  - intros [p first] Hp. done.
Qed.

Definition quad_fresh (q : quad) : Prop := q_square q = -1 ∧ q_energy q = 1.
Definition quad_good (t0 t1 : Z) (q : quad) : Prop :=
  on t0 (q_m0 q) ∧ on t1 (q_m1 q) ∧ 0 < q_energy q < 2147483648 ∧ rng 0 1073741824 (q_square q).

Definition four_tracks (t0 t1 t2 t3 : Z) : Prop :=
  0 ≤ t0 < 5 ∧ 0 ≤ t1 < 5 ∧ 0 ≤ t2 < 5 ∧ 0 ≤ t3 < 5 ∧ t0 ≠ t1 ∧ t0 ≠ t2 ∧ t0 ≠ t3 ∧ t1 ≠ t2 ∧ t1 ≠ t3 ∧ t2 ≠ t3.

Lemma quadStep_run t0 t1 t2 t3 p i v j q : four_tracks t0 t1 t2 t3 → pair_good t2 t3 p → on t0 i → on t1 j →
  quad_fresh q ∨ quad_good t0 t1 q →
  safe (quadStep c m p i v (p_energy p + (cell m i i + (cell m i (p_m2 p) + cell m i (p_m3 p)))) j q) (quad_good t0 t1).
Proof.
  intros (_ & _ & _ & _ & D01 & D02 & D03 & D12 & D13 & D23) ([Ha Ea] & [Hb Eb] & EP) [Hi Ei] [Hj Ej] Hq.
  pose proof (proj1 Hc) as Hl. pose proof (sp_grid _ _ _ _ HM) as HG. rewrite EP. clear EP.
  set (a := p_m2 p) in *. set (b := p_m3 p) in *.
  pose proof (quadEnergy_positive a b i j Ha Hb Hi Hj ltac:(congruence) ltac:(congruence) ltac:(congruence) ltac:(congruence)
    ltac:(congruence) ltac:(congruence)) as HE.
  pose proof (pairEnergy_positive a b Ha Hb ltac:(congruence)) as HP.
  destruct (diagonal_bounds i Hi) as [Bi _], (diagonal_bounds j Hj) as [Bj _].
  destruct (cross_bounds i a Hi Ha ltac:(congruence)) as [Bia _], (cross_bounds i b Hi Hb ltac:(congruence)) as [Bib _].
  destruct (cross_bounds j i Hj Hi ltac:(congruence)) as [Bji _], (cross_bounds j a Hj Ha ltac:(congruence)) as [Bja _],
    (cross_bounds j b Hj Hb ltac:(congruence)) as [Bjb _].
  unfold quadStep. rewrite ld_at by lia. cbn [bind]. fold a b. rewrite !(ld2_cell 40) by done. cbn [bind]. cbv zeta.
  clear - Bi Bj Bia Bib Bji Bja Bjb HE HP Hq Hi Hj Ei Ej. unfold quadEnergy in HE.
  rewrite (ADD32_exact (cell m j a)), (ADD32_exact (cell m j j)), (ADD32_exact (cell m j i)), ADD32_exact by (unfold rng; lia).
  destruct Hq as [[-> ->]|Hq].
  - rewrite first_kept by (lia || apply square16). cbn [wp]. split_and!; [done|done|cbn [q_energy]; lia..|apply square16].
  - destruct (_ <? _); cbn [wp]; [|done]. split_and!; [done|done|cbn [q_energy]; lia..|apply square16].
Qed.

Lemma searchQuad_run t0 t1 t2 t3 p m0 m1 : four_tracks t0 t1 t2 t3 → pair_good t2 t3 p →
  safe (searchQuad c m p t0 t1 m0 m1) (quad_good t0 t1).
Proof.
  intros HT Hp. pose proof HT as (H0' & H1' & _ & _ & _ & D02 & D03 & _ & _ & D23). pose proof Hp as ([Ha Ea] & [Hb Eb] & EP).
  pose proof (proj1 Hc) as Hl. pose proof (sp_grid _ _ _ _ HM) as HG. unfold searchQuad.
  apply wp_track with (I := λ k q, quad_good t0 t1 q ∨ k = 0 ∧ quad_fresh q); [done|by right| |by intros q [?|[? _]]; [|lia]].
  intros k q Hk Hi Hq. set (i := t0 + 5 * k) in *. pose proof Hi as [Hi' Ei].
  rewrite ld_at by lia. cbn [bind]. rewrite !(ld2_cell 40) by done. cbn [bind]. cbv zeta.
  pose proof (pairEnergy_positive (p_m2 p) (p_m3 p) Ha Hb ltac:(congruence)) as HP. rewrite <-EP in HP.
  destruct (diagonal_bounds i Hi') as [Bi _]. destruct (cross_bounds i (p_m2 p) Hi' Ha ltac:(congruence)) as [Bia _],
    (cross_bounds i (p_m3 p) Hi' Hb ltac:(congruence)) as [Bib _].
  assert (ADD32 (p_energy p) (ADD32 (cell m i i) (ADD32 (cell m i (p_m2 p)) (cell m i (p_m3 p)))) =
    p_energy p + (cell m i i + (cell m i (p_m2 p) + cell m i (p_m3 p)))) as ->.
  { clear - Bi Bia Bib HP. by rewrite (ADD32_exact (cell m i (p_m2 p))), (ADD32_exact (cell m i i)), ADD32_exact by (unfold rng; lia). }
  apply wp_track with (I := λ k' q, quad_good t0 t1 q ∨ k' = 0 ∧ quad_fresh q); [done| | |].
  - destruct Hq as [?|[_ ?]]; auto.
  - intros k' q' Hk' Hj Hq'. eapply wp_mono; [apply (quadStep_run t0 t1 t2 t3); tauto|]. auto.
  - intros q' [?|[? _]]; [by left|lia].
Qed.

(** The pulses of the codebook of spec table 7: one on each of the tracks 0, 1 and 2, the last
    one on the track 3 or 4 that [jx] designates. *)
Definition on_tracks (s : pulseSearch) : Prop :=
  on 0 (s_i0 s) ∧ on 1 (s_i1 s) ∧ on 2 (s_i2 s) ∧ on (3 + s_jx s) (s_i3 s) ∧ (s_jx s = 0 ∨ s_jx s = 1).

Definition search_fresh (s : pulseSearch) : Prop := s_square s = -1 ∧ s_energy s = 1.
Definition search_good (s : pulseSearch) : Prop :=
  on_tracks s ∧ 0 < s_energy s < 2147483648 ∧ rng 0 1073741824 (s_square s).

Lemma pulseStep_run m3Base mIndex s0 : 3 ≤ m3Base ≤ 4 → 0 ≤ mIndex < 2 → search_fresh s0 ∨ search_good s0 →
  safe (pulseStep c m [[2; m3Base; 0; 1]; [m3Base; 0; 1; 2]] m3Base mIndex s0) search_good.
Proof.
  intros HB HI Hs. unfold pulseStep. set (x := if mIndex =? 0 then 2 else m3Base).
  set (y := if mIndex =? 0 then m3Base else 0). set (z := if mIndex =? 0 then 0 else 1). set (w := if mIndex =? 0 then 1 else 2).
  assert (four_tracks z w x y) as HT.
  { unfold four_tracks, x, y, z, w. destruct (mIndex =? 0); lia. }
  assert (mIndex = 0 ∨ mIndex = 1) as HI' by lia.
  assert (ld2 [[2; m3Base; 0; 1]; [m3Base; 0; 1; 2]] mIndex 0 = Ok x ∧ ld2 [[2; m3Base; 0; 1]; [m3Base; 0; 1; 2]] mIndex 1 = Ok y ∧
    ld2 [[2; m3Base; 0; 1]; [m3Base; 0; 1; 2]] mIndex 2 = Ok z ∧ ld2 [[2; m3Base; 0; 1]; [m3Base; 0; 1; 2]] mIndex 3 = Ok w)
    as (-> & -> & -> & ->) by (unfold x, y, z, w; destruct HI' as [-> | ->]; done).
  cbn [bind]. pose proof HT as (_ & _ & Hx & Hy & _ & _ & _ & _ & _ & Hxy). wp_step.
  eapply wp_mono; [by apply (searchPair_run x y)|]. intros p Hp. wp_step.
  eapply wp_mono; [by apply (searchQuad_run z w x y)|]. intros q ([Hq0 E0] & [Hq1 E1] & HE & HQ).
  destruct Hp as ([Hp2 E2] & [Hp3 E3] & _). cbv zeta.
  assert (safe (if mIndex =? 0
    then Ok (PulseSearch (q_m0 q) (q_m1 q) (p_m2 p) (p_m3 p) (q_m0 q) (q_m1 q) (p_m2 p) (p_m3 p) (q_square q) (q_energy q) (m3Base - 3))
    else Ok (PulseSearch (q_m0 q) (q_m1 q) (p_m2 p) (p_m3 p) (p_m3 p) (q_m0 q) (q_m1 q) (p_m2 p) (q_square q) (q_energy q) (m3Base - 3))) search_good) as Hnew.
  { unfold x, y, z, w in *.
    destruct (mIndex =? 0); cbn [wp]; (split; [|by cbn]); unfold on_tracks; cbn; replace (3 + (m3Base - 3)) with m3Base by lia;
      unfold on; (split_and!; [lia..|]); lia. }
  destruct Hs as [[-> ->]|Hs]; [by rewrite first_kept|]. destruct (_ <? _); [exact Hnew|].
  cbn [wp]. destruct Hs as (Hon & Hs). by split.
Qed.

Lemma searchPulses_run : matrix m → safe (searchPulses c m) (λ s, pulses_inside s ∧ on_tracks s).
Proof.
  intros Hm.
  assert (arr i16r 40 c) as Hc16 by (eapply arr_mono; [done|]; unfold rng; lia).
  assert (safe (searchPulses c m) on_tracks) as H.
  { unfold searchPulses. wp_step.
    apply wp_for_up with (I := λ b '(s, sw), sw = [[2; b; 0; 1]; [b; 0; 1; 2]] ∧ if b =? 3 then search_fresh s else search_good s);
      [lia|done| |].
    - intros b [s0 sw] Hb [-> Hs]. wp_step.
      apply wp_for_up with (I := λ i s, search_good s ∨ i = 0 ∧ search_fresh s); [lia|destruct (b =? 3); auto| |].
      + intros i s1 Hi Hs1. eapply wp_mono; [apply pulseStep_run; [lia|done|tauto]|]. auto.
      + intros s1 [Hs1|[? _]]; [|lia]. cbn. split; [done|]. destruct (Z.eqb_spec (b + 1) 3); [lia|done].
    - intros [s0 sw] [_ [Hs _]]. done. }
  destruct (proj1 (safe_ok _ _) H) as (p & Ep & Hp). rewrite Ep. cbn [wp]. split; [|done].
  pose proof (wp_searchPulses c m Hc16 Hm no_fault pulses_inside (λ _ H, H)) as HI. by rewrite Ep in HI.
Qed.

End Selection.

(** ** The correlation of the target is split into absolute values and signs *)

Definition correlationAt (t h : list Z) (n : Z) : Z := zsum (Z.to_nat (40 - n)) (λ i, at_ t (n + i) * at_ h i).

Lemma correlationSignal32_run t h : arr i16r 40 t → arr i16r 40 h →
  (∀ n, 0 ≤ n < 40 → Z.abs (correlationAt t h n) < 2147483648) →
  safe (correlationSignal32 t h) (λ '(c, max), zlen c = 40 ∧ 0 ≤ max < 2147483648 ∧
    ∀ n, 0 ≤ n < 40 → at_ c n = correlationAt t h n ∧ Z.abs (at_ c n) ≤ max).
Proof.
  intros Ht Hh HB. pose proof (proj1 Ht) as Lt. pose proof (proj1 Hh) as Lh. unfold correlationSignal32, L_SUBFRAME.
  apply wp_for_up with (I := λ n '(c, max), zlen c = 40 ∧ 0 ≤ max < 2147483648 ∧
    ∀ k, 0 ≤ k < n → at_ c k = correlationAt t h k ∧ Z.abs (at_ c k) ≤ max); [lia|by split_and!; [| |lia|lia]| |done].
  intros n [c max] Hn (Hc & Hm & HI).
  assert (for_up n 40 (i32 0) (λ i acc, let* a := ld t i in let* b := ld h (i - n) in Ok (MAC16_16 acc a b)) =
    Ok (i32 (correlationAt t h n))) as E.
  { apply for_up_zsum; [lia|]. intros i s Hi _. rewrite !ld_at by lia. cbn [bind]. replace (n + i - n) with i by lia.
    rewrite MAC16_16_wrapped; [done|apply (at_arr _ 40); [done|lia]..]. }
  change (i32 0) with 0 in E. rewrite E. cbn [bind]. specialize (HB n Hn).
  rewrite i32_id by (unfold rng; lia). rewrite st_ok by lia. cbn [bind wp]. cbv zeta.
  rewrite (i32_id (- correlationAt t h n)) by (unfold rng; lia).
  replace (if 0 <=? correlationAt t h n then correlationAt t h n else - correlationAt t h n) with (Z.abs (correlationAt t h n))
    by (destruct (Z.leb_spec 0 (correlationAt t h n)); lia).
  split; [by rewrite zlen_insert|]. split; [destruct (_ <? _); lia|]. intros k Hk. rewrite at_insert by lia.
  destruct (Z.eqb_spec n k) as [<-|].
  - split; [done|]. destruct (Z.ltb_spec max (Z.abs (correlationAt t h n))); lia.
  - destruct (HI k ltac:(lia)) as [-> ?]. split; [done|]. destruct (Z.ltb_spec max (Z.abs (correlationAt t h n))); lia.
Qed.

(** Normalised on 13 bits. *)
Lemma normaliseCorrelationSignal_run c max : zlen c = 40 → 0 ≤ max < 2147483648 → (∀ n, 0 ≤ n < 40 → Z.abs (at_ c n) ≤ max) →
  safe (normaliseCorrelationSignal c max) (arr (rng (-8192) 8192) 40).
Proof.
  intros Hc Hm HB. unfold normaliseCorrelationSignal, L_SUBFRAME. destruct (clz_bound max Hm) as (n & -> & Hn & Hlt). cbn [bind].
  destruct (Z.ltb_spec n 18) as [Hs|Hs];
    (apply wp_for_inv with (I := arr (rng (-8192) 8192) 40); [by apply arr_zeros| |done]); intros i v Hi Hv; rewrite ld_at by lia; cbn [bind].
  - unfold shr_chk. destruct ((0 <=? 18 - n) && (18 - n <? 32)) eqn:E; [|lia]. cbn [bind].
    assert (Z.abs (Z.shiftr (at_ c i) (18 - n)) ≤ 8192) as HS.
    { apply shiftr_bound; [lia|]. specialize (HB i Hi). replace (31 - n) with (13 + (18 - n)) in Hlt by lia.
      rewrite Z.pow_add_r in Hlt by lia. change (2 ^ 13) with 8192 in Hlt. lia. }
    eapply wp_st_arr; [done|lia| |done]. rewrite i16_id; unfold rng; lia.
  - assert (2 ^ (31 - n) ≤ 2 ^ 13) by (apply Z.pow_le_mono_r; lia). change (2 ^ 13) with 8192 in *. specialize (HB i Hi).
    eapply wp_st_arr; [done|lia| |done]. rewrite i16_id; unfold rng; lia.
Qed.

(** ** The decoder reads the pulses back *)

Lemma pulsePositions_codeword p : pulses_inside p → on_tracks p →
  pulsePositions (fixedCodebookParameter p) = [s_i0 p; s_i1 p; s_i2 p; s_i3 p].
Proof.
  intros Hp ([R0 E0] & [R1 E1] & [R2 E2] & [R3 E3] & HJ). destruct (fixedCodebookParameter_value p Hp) as [-> _].
  set (a := s_i0 p / 5). set (b := s_i1 p / 5). set (c := s_i2 p / 5). set (d := s_i3 p / 5).
  assert (s_i0 p = 5 * a ∧ s_i1 p = 5 * b + 1 ∧ s_i2 p = 5 * c + 2 ∧ s_i3 p = 5 * d + 3 + s_jx p) as (-> & -> & -> & ->)
    by (unfold a, b, c, d; Z.div_mod_to_equations; lia).
  assert (0 ≤ a < 8 ∧ 0 ≤ b < 8 ∧ 0 ≤ c < 8 ∧ 0 ≤ d < 8) as HR by (unfold a, b, c, d; Z.div_mod_to_equations; lia).
  clearbody a b c d. unfold pulsePositions, SHR. cbv zeta. rewrite !land_7, !land_1, !Z.shiftr_div_pow2 by lia.
  change (2 ^ 3) with 8. change (2 ^ 1) with 2. set (w := a + 8 * b + 64 * c + 512 * (2 * d + s_jx p)).
  assert (w mod 8 = a ∧ w / 8 = b + 8 * c + 64 * (2 * d + s_jx p)) as [-> ->] by (unfold w; split; Z.div_mod_to_equations; lia).
  rewrite (u16_id (b + 8 * c + _)) by (unfold rng; lia). set (w1 := b + 8 * c + 64 * (2 * d + s_jx p)).
  assert (w1 mod 8 = b ∧ w1 / 8 = c + 8 * (2 * d + s_jx p)) as [-> ->] by (unfold w1; split; Z.div_mod_to_equations; lia).
  rewrite (u16_id (c + _)) by (unfold rng; lia). set (w2 := c + 8 * (2 * d + s_jx p)).
  assert (w2 mod 8 = c ∧ w2 / 8 = 2 * d + s_jx p) as [-> ->] by (unfold w2; split; Z.div_mod_to_equations; lia).
  rewrite (u16_id (2 * d + _)) by (unfold rng; lia).
  assert ((2 * d + s_jx p) mod 2 = s_jx p ∧ (2 * d + s_jx p) / 2 = d) as [-> ->] by (split; Z.div_mod_to_equations; lia).
  rewrite (u16_id d) by (unfold rng; lia). rewrite (Z.mod_small d) by lia. rewrite !u16_id by (unfold rng; lia).
  f_equal; [lia|]. f_equal; [lia|]. f_equal; [lia|]. f_equal; lia.
Qed.

Lemma setPulses_inserts s p : arr unit_sign 40 s → pulses_inside p →
  setPulses s p (zeros 40) = Ok (<[Z.to_nat (s_i3 p) := 8192 * at_ s (s_i3 p)]> (<[Z.to_nat (s_i2 p) := 8192 * at_ s (s_i2 p)]>
    (<[Z.to_nat (s_i1 p) := 8192 * at_ s (s_i1 p)]> (<[Z.to_nat (s_i0 p) := 8192 * at_ s (s_i0 p)]> (zeros 40))))).
Proof.
  intros Hs (_ & _ & _ & _ & H0 & H1 & H2 & H3 & _). unfold rng in H0, H1, H2, H3. pose proof (proj1 Hs) as Hl.
  assert (∀ a, unit_sign a → i16 (SSHL (i16 a) 13) = 8192 * a) as HU by (intros a [-> | ->]; reflexivity).
  unfold setPulses. change (for_up 0 L_SUBFRAME (zeros 40) (λ i v, st v i 0)) with (Ok (zeros 40)). cbn [bind].
  rewrite !(ld_at s) by lia. cbn [bind]. rewrite !HU by (apply (at_arr unit_sign 40); [done|lia]).
  rewrite st_ok by (change (zlen (zeros 40)) with 40; lia). cbn [bind].
  rewrite st_ok by (rewrite !zlen_insert; change (zlen (zeros 40)) with 40; lia). cbn [bind].
  rewrite st_ok by (rewrite !zlen_insert; change (zlen (zeros 40)) with 40; lia). cbn [bind].
  rewrite st_ok by (rewrite !zlen_insert; change (zlen (zeros 40)) with 40; lia). done.
Qed.

Lemma signBits_read b0 b1 b2 b3 : (b0 = 0 ∨ b0 = 1) → (b1 = 0 ∨ b1 = 1) → (b2 = 0 ∨ b2 = 1) → (b3 = 0 ∨ b3 = 1) →
  let n := b0 + 2 * b1 + 4 * b2 + 8 * b3 in
  let n1 := u16 (SHR n 1) in let n2 := u16 (SHR n1 1) in let n3 := u16 (SHR n2 1) in
  Z.land n 1 = b0 ∧ Z.land n1 1 = b1 ∧ Z.land n2 1 = b2 ∧ Z.land n3 1 = b3.
Proof. intros [-> | ->] [-> | ->] [-> | ->] [-> | ->]; split_and!; reflexivity. Qed.

(** From the codeword and the signs of the encoder, the decoder sets the encoder's pulses, and
    then sharpens them. *)
Lemma decodeFixedCodeVector_pulses s p signs px T g u : arr unit_sign 40 s → pulses_inside p → on_tracks p →
  fixedCodebookPulsesSigns s p = Ok signs → setPulses s p (zeros 40) = Ok px → arr i16r 40 u →
  decodeFixedCodeVector signs (fixedCodebookParameter p) T g u =
  for_up T L_SUBFRAME px (λ i v, let* a := ld v i in let* b := ld v (i - T) in st v i (ADD16 a (MULT16_16_P14 b g))).
Proof.
  intros Hs Hp Ht ES EX Hu. unfold decodeFixedCodeVector. rewrite pulsePositions_codeword by done. cbv zeta.
  destruct (proj1 (safe_ok _ _) (clear_loop no_fault u (λ x, x = replicate 40 0) Hu eq_refl)) as (x & -> & ->). cbn [bind].
  rewrite setPulses_inserts in EX by done. injection EX as <-. change (replicate 40 0) with (zeros 40).
  rewrite fixedCodebookPulsesSigns_value in ES by done. injection ES as <-.
  destruct Hp as (_ & _ & _ & _ & H0 & H1 & H2 & H3 & _). unfold rng in H0, H1, H2, H3.
  assert (∀ i, 0 ≤ i ≤ 39 → (signBit (at_ s i) = 0 ∨ signBit (at_ s i) = 1) ∧
    (if negb (signBit (at_ s i) =? 0) then 8192 else -8192) = 8192 * at_ s i) as HB.
  { intros i Hi. destruct (at_arr _ _ _ i Hs ltac:(lia)) as [-> | ->]; auto. }
  destruct (HB _ H0) as [B0 E0], (HB _ H1) as [B1 E1], (HB _ H2) as [B2 E2], (HB _ H3) as [B3 E3].
  set (b0 := signBit (at_ s (s_i0 p))) in *. set (b1 := signBit (at_ s (s_i1 p))) in *.
  set (b2 := signBit (at_ s (s_i2 p))) in *. set (b3 := signBit (at_ s (s_i3 p))) in *.
  destruct (signBits_read b0 b1 b2 b3 B0 B1 B2 B3) as (L0 & L1 & L2 & L3). cbv zeta in L0, L1, L2, L3.
  unfold for_up at 1. change (Z.to_nat (4 - 0)) with 4%nat. cbn [forN].
  change (ld [s_i0 p; s_i1 p; s_i2 p; s_i3 p] 0) with (Ok (s_i0 p)). cbn [bind].
  rewrite st_ok by (change (zlen (zeros 40)) with 40; lia). cbn [bind].
  change (ld [s_i0 p; s_i1 p; s_i2 p; s_i3 p] (0 + 1)) with (Ok (s_i1 p)). cbn [bind].
  rewrite st_ok by (rewrite !zlen_insert; change (zlen (zeros 40)) with 40; lia). cbn [bind].
  change (ld [s_i0 p; s_i1 p; s_i2 p; s_i3 p] (0 + 1 + 1)) with (Ok (s_i2 p)). cbn [bind].
  rewrite st_ok by (rewrite !zlen_insert; change (zlen (zeros 40)) with 40; lia). cbn [bind].
  change (ld [s_i0 p; s_i1 p; s_i2 p; s_i3 p] (0 + 1 + 1 + 1)) with (Ok (s_i3 p)). cbn [bind].
  rewrite st_ok by (rewrite !zlen_insert; change (zlen (zeros 40)) with 40; lia). cbn [bind].
  by rewrite L0, L1, L2, L3, E0, E1, E2, E3.
Qed.

(** The two roundings of the sharpening. *)
Lemma sharpenings_close a b g : pulse a → pulse b → rng 3277 13107 g →
  Z.abs (ADD16 a (MULT16_16_P14 b g) - i16 (MAC16_16_Q14 a b g)) ≤ 1.
Proof.
  intros Ha Hb Hg. unfold rng in Hg.
  assert (∃ r, MULT16_16_P14 b g = r ∧ -6554 ≤ r ≤ 6554 ∧ 0 ≤ r - b * g / 16384 ≤ 1) as (r & -> & Hr & Hd).
  { eexists. split; [reflexivity|]. unfold MULT16_16_P14, MULT16_16_P, SHR, ADD32, MULT16_16.
    change (Z.shiftl 1 (14 - 1)) with 8192. assert (-8192 ≤ b ≤ 8192) by (destruct Hb as [|[|]]; lia).
    rewrite (i32_id b), (i32_id g), !(i32_id (b * g)), (i32_id 8192), (i32_id (8192 + b * g)) by (unfold rng; nia).
    rewrite Z.shiftr_div_pow2 by lia. change (2 ^ 14) with 16384.
    destruct Hb as [->|[->| ->]]; Z.div_mod_to_equations; lia. }
  unfold ADD16, MAC16_16_Q14, MULT16_16_Q14, MULT16_16_Q, SHR, ADD32, MULT16_16.
  assert (-8192 ≤ a ≤ 8192 ∧ -8192 ≤ b ≤ 8192) as [? ?] by (destruct Ha as [|[|]], Hb as [|[|]]; lia).
  rewrite (i32_id b), (i32_id g), (i32_id (b * g)) by (unfold rng; nia). rewrite Z.shiftr_div_pow2 by lia. change (2 ^ 14) with 16384.
  rewrite (i32_id a), (i32_id (b * g / 16384)), (i32_id (a + _)) by (unfold rng; lia).
  rewrite (i16_id a), (i16_id r), !i16_id by (unfold rng; lia). lia.
Qed.

(** ** The whole search *)

(** What the search needs of its input: the energy of the sharpened impulse response and the
    correlations with the target, as integers, fit the 32-bit accumulators (the energy with the
    margin of the scaling estimate). *)
Definition no_overflow (t h : list Z) : bool :=
  (energy h <? 2093796557) && forallb (λ n, Z.abs (correlationAt t h n) <? 2147483648) (seqZ 0 40).

Definition search_in_range (x h : list Z) (T g : Z) (y : list Z) (ga : Z) : bool :=
  match fixedCodebookTarget x y ga, pitchSharpening h T g with
  | Ok t, Ok h' => no_overflow t h'
  | _, _ => false
  end.

Lemma no_overflow_spec t h : no_overflow t h = true →
  energy h < 2093796557 ∧ ∀ n, 0 ≤ n < 40 → Z.abs (correlationAt t h n) < 2147483648.
Proof.
  unfold no_overflow. generalize (energy h) as e. intros e HR. apply andb_prop in HR as [HE HC].
  split; [by apply Z.ltb_lt|]. intros n Hn. rewrite forallb_forall in HC. apply Z.ltb_lt, HC.
  apply list_elem_of_In, elem_of_seqZ. lia.
Qed.

Lemma zero_grid : grid 40 (replicate 40 (zeros L_SUBFRAME)).
Proof. split; [reflexivity|]. apply Forall_replicate. reflexivity. Qed.

Lemma zero_halved : arr (arr halved 40) 40 (replicate 40 (zeros L_SUBFRAME)).
Proof. apply arr_rng2_by. reflexivity. Qed.

(** The matrix, built in a cleared table, and the absolute correlations. *)
Lemma matrix_from_zero h c sg : arr i16r 40 h → energy h < 2093796557 → arr (rng (-8192) 8192) 40 c → zlen sg = 40 →
  safe (computeImpulseResponseCorrelationMatrix h c sg (replicate 40 (zeros L_SUBFRAME))) (λ '(c', s, m),
    arr (rng 0 32767) 40 c' ∧ matrix m ∧ ∃ S, scaling_fits h S ∧ signed_phi h s S m).
Proof.
  intros Hh HE Hc Hs. assert (arr i16r 40 c) as Hci by (eapply arr_mono; [exact Hc|]; unfold rng; lia).
  destruct (proj1 (safe_ok _ _) (correlationMatrix_run h c sg _ Hh HE Hci Hs zero_grid)) as ([[c' s] m] & EM & Hc' & Habs & HM).
  pose proof (wp_correlationMatrix (λ f, f = BadShift) h c sg _ (λ '(_, _, m), matrix m) eq_refl Hh Hci Hs
    zero_halved (λ _ _ _ _ _ H, H)) as Hm. rewrite EM in Hm |- *. cbn [wp] in Hm |- *. split; [|by split].
  apply arr_at; [apply Hc'|]. intros i Hi. rewrite Habs by done. pose proof (at_arr _ _ _ i Hc Hi) as Hci'. unfold rng in Hci'.
  rewrite i16_id; unfold rng; lia.
Qed.

Lemma search_in_range_spec x h T g y ga t h' : fixedCodebookTarget x y ga = Ok t → pitchSharpening h T g = Ok h' →
  search_in_range x h T g y ga = true →
  energy h' < 2093796557 ∧ ∀ n, 0 ≤ n < 40 → Z.abs (correlationAt t h' n) < 2147483648.
Proof.
  intros Et Eh HR. unfold search_in_range in HR. rewrite Et, Eh in HR. by apply no_overflow_spec.
Qed.

Lemma fixedCodebookSearch_run x h T g y ga sg v w : arr i16r 40 x → arr i16r 40 h → at_ h 0 = 4096 → 20 ≤ T →
  rng 3277 19661 g → arr i16r 40 y → zlen sg = 40 → arr i16r 40 v → arr i16r 40 w → search_in_range x h T g y ga = true →
  safe (fixedCodebookSearch x h T g y ga sg v w) (λ r, ∃ h' s p, pitchSharpening h T g = Ok h' ∧
    arr unit_sign 40 s ∧ pulses_inside p ∧ on_tracks p ∧ fixed_result_of T g h' s p r).
Proof.
  intros Hx Hh H0 HT Hg Hy Hsg Hv Hw HR. unfold fixedCodebookSearch.
  destruct (proj1 (safe_ok _ _) (wp_fixedCodebookTarget no_fault x y ga (arr i16r 40) Hx Hy (λ _ H, H))) as (t & Et & Ht).
  destruct (pitchSharpening_run h T g Hh HT) as (h' & Eh & Hh' & Hat).
  destruct (search_in_range_spec x h T g y ga t h' Et Eh HR) as [HE' HC']. rewrite Et. cbn [bind]. rewrite Eh. cbn [bind].
  destruct (proj1 (safe_ok _ _) (correlationSignal32_run t h' Ht Hh' HC')) as ([c32 max] & -> & Lc & Hmax & Hc32). cbn [bind].
  destruct (proj1 (safe_ok _ _) (normaliseCorrelationSignal_run c32 max Lc Hmax (λ n Hn, proj2 (Hc32 n Hn)))) as (c & -> & Hc). cbn [bind].
  destruct (proj1 (safe_ok _ _) (matrix_from_zero h' c sg Hh' HE' Hc Hsg)) as ([[c' s] m] & -> & Hpos & Hm & S & HS & HM). cbn [bind].
  assert (at_ h' 0 = 4096) as H0'.
  { rewrite Hat by lia. unfold sharpenedAt. by destruct (Z.ltb_spec 0 T); [|lia]. }
  destruct (proj1 (safe_ok _ _) (searchPulses_run h' s c' S m Hpos H0' HS HM Hm)) as (p & -> & Hp & Ht'). cbn [bind].
  pose proof (sp_signs _ _ _ _ HM) as Hs.
  eapply wp_mono; [by apply fixed_outputs|]. intros r Hr. by exists h', s, p.
Qed.
