(* ===== verification/EncNearest.v ===== *)
(** The spectral quantizer against exact arithmetic: the target of eq23, the squared distances of
    the first stage, the weighted distances of the second and the weighted error of eq21 as sums
    of integers without a width, and what the 32-bit searches of [LSPQuantization.c] retain when
    these sums fit. *)

From S2P Require Import Prelude FixedPoint Sums Codebooks Math Utils Context DecodeLSP EncContext EncChannel EncLSP.

(** ** The exact quantities *)

Definition predictorOf (L0 : Z) : list (list Z) := nth (Z.to_nat L0) MAPredictor [].

(** What the predictor [L0] leaves of the frequency [i], in Q28: eq23 before its division. *)
Definition exactResidual (m : list (list Z)) (LSF : list Z) (L0 i : Z) : Z :=
  at_ LSF i * 32768 - zsum 4 (λ j, cell m j i * cell (predictorOf L0) j i).

(** The coefficient [i] of the target: the residual rounded to Q13, times the inverse of the sum
    of the predictor, in Q12. *)
Definition exactTarget (m : list (list Z)) (LSF : list Z) (L0 i : Z) : Z :=
  (exactResidual m LSF L0 i + 16384) / 32768 * cell invMAPredictorSum L0 i / 4096.

Definition exactTargetVector (m : list (list Z)) (LSF : list Z) (L0 : Z) : list Z := exactTarget m LSF L0 <$> seqZ 0 10.

(** The squared distance of the target to the row [r] of the first codebook. *)
Definition exactL1 (t : list Z) (r : Z) : Z := zsum 10 (λ j, (at_ t j - cell L1 r j) * (at_ t j - cell L1 r j)).

(** The error [x] of a coefficient, scaled by the sum of the predictor, and its weighted square. *)
Definition scaledError (L0 j x : Z) : Z := x * cell MAPredictorSum L0 j / 32768.
Definition weightedSquare (w : list Z) (j e : Z) : Z := e * (e * at_ w j / 2048).

(** The weighted distance of the target to the sum of the rows [r1] and [r2], on the five
    coefficients from [lo]. *)
Definition exactL2L3 (t : list Z) (w : list Z) (L0 r1 r2 lo : Z) : Z :=
  zsum 5 (λ j, weightedSquare w (lo + j) (scaledError L0 (lo + j) (at_ t (lo + j) - cell L1 r1 (lo + j) - cell L2L3 r2 (lo + j)))).

(** The weighted error of a candidate, eq21. *)
Definition exactError (t : list Z) (w : list Z) (L0 : Z) (q : list Z) : Z :=
  zsum 10 (λ j, weightedSquare w j (Z.abs (scaledError L0 j (at_ t j - at_ q j)))).

(** The candidate of three indices: the sum of the codebooks, rearranged. *)
Definition candidate (i1 i2 i3 : Z) : list Z :=
  match (let* q := codebookSum i1 i2 0 5 (zeros 10) in
         let* q := codebookSum i1 i3 5 10 q in rearrangeCandidate q) with
  | Ok q => q
  | Err _ => []
  end.

(** ** When they fit the integers of the code *)

Definition all_below (n : nat) (p : Z → bool) : bool := forallb p (seqZ 0 (Z.of_nat n)).

Definition fits16 (x : Z) : bool := (-32768 <=? x) && (x <=? 32767).
Definition fits32 (x : Z) : bool := (-2147483648 <=? x) && (x <=? 2147483647).

Definition target_fits (m : list (list Z)) (LSF : list Z) (L0 : Z) : bool :=
  all_below 10 (λ i, fits32 (exactResidual m LSF L0 i) && fits32 (exactResidual m LSF L0 i + 16384) &&
    fits16 ((exactResidual m LSF L0 i + 16384) / 32768) && fits16 (exactTarget m LSF L0 i)).

Definition stage1_fits (t : list Z) : bool :=
  all_below 128 (λ r, all_below 10 (λ j, fits16 (at_ t j - cell L1 r j)) && fits32 (exactL1 t r)).

Definition stage2_fits (t : list Z) (w : list Z) (L0 r1 lo : Z) : bool :=
  all_below 32 (λ r2, all_below 5 (λ j,
    let x := at_ t (lo + j) - cell L1 r1 (lo + j) - cell L2L3 r2 (lo + j) in
    let e := scaledError L0 (lo + j) x in
    fits32 (x * cell MAPredictorSum L0 (lo + j)) && fits16 e && fits32 (e * at_ w (lo + j))) &&
    fits32 (exactL2L3 t w L0 r1 r2 lo)).

Definition error_fits (t : list Z) (w : list Z) (L0 : Z) (q : list Z) : bool :=
  all_below 10 (λ j,
    let x := at_ t j - at_ q j in
    let e := Z.abs (scaledError L0 j x) in
    fits32 (x * cell MAPredictorSum L0 j) && (e <=? 65535) && fits32 (e * at_ w j)) &&
  (exactError t w L0 q <=? 4294967295).

Lemma all_below_spec n p i : all_below n p = true → 0 ≤ i < Z.of_nat n → p i = true.
Proof.
  unfold all_below. intros H Hi. apply (proj1 (forallb_forall _ _) H). apply list_elem_of_In, elem_of_seqZ. lia.
Qed.

Lemma fits16_rng x : fits16 x = true → i16r x.
Proof. unfold fits16, rng. lia. Qed.
Lemma fits32_rng x : fits32 x = true → i32r x.
Proof. unfold fits32, rng. lia. Qed.

(** ** The loops compute them *)

Lemma table_cell (P : Z → Prop) n m t i j : arr (arr P n) m t → 0 ≤ i < m → 0 ≤ j < n →
  ld2 t i j = Ok (cell t i j) ∧ P (cell t i j).
Proof.
  intros [Hl HF] Hi Hj. unfold zlen in Hl. destruct (lookup_lt_is_Some_2 t (Z.to_nat i)) as [r Hr]; [lia|].
  pose proof (Forall_lookup_1 _ _ _ _ HF Hr) as Hrow. unfold ld2, cell. rewrite (nth_lookup_Some t _ [] r Hr).
  unfold ld at 1. destruct (Z.leb_spec 0 i); [|lia]. rewrite Hr. cbn [bind].
  split; [apply ld_at; by rewrite (proj1 Hrow)|by apply (at_arr P n)].
Qed.

Lemma predictorOf_row L0 : 0 ≤ L0 < 2 → ld MAPredictor L0 = Ok (predictorOf L0) ∧ arr (arr (rng 0 32767) 10) 4 (predictorOf L0).
Proof.
  intros H. assert (L0 = 0 ∨ L0 = 1) as [-> | ->] by lia; (split; [reflexivity|apply arr_rng2_by; reflexivity]).
Qed.

Lemma MAC16_16_wrap32 s a b : i32r a → i32r b → MAC16_16 (i32 s) a b = i32 (s + a * b).
Proof. intros. unfold MAC16_16, ADD32, MULT16_16. by rewrite (i32_id a), (i32_id b), !i32_idem, i32_add by done. Qed.

Lemma MSU16_16_wrap32 s a b : i32r a → i32r b → MSU16_16 (i32 s) a b = i32 (s - a * b).
Proof.
  intros Ha Hb. unfold MSU16_16, SUB32, MULT16_16. rewrite (i32_id a), (i32_id b), !i32_idem by done.
  apply i32_congr. by rewrite Zminus_mod, !i32_mod, <-Zminus_mod.
Qed.

Lemma MULT16_16_Q_exact n a b : 0 ≤ n → i32r a → i32r b → i32r (a * b) → MULT16_16_Q n a b = a * b / 2 ^ n.
Proof.
  intros Hn Ha Hb Hab. unfold MULT16_16_Q, MULT16_16, SHR. rewrite (i32_id a), (i32_id b), (i32_id (a * b)) by done.
  by apply Z.shiftr_div_pow2.
Qed.

Lemma targetVector_run m LSF L0 : arr (arr i16r 10) 4 m → arr i16r 10 LSF → 0 ≤ L0 < 2 → target_fits m LSF L0 = true →
  ∃ t, targetVector m LSF MAPredictor invMAPredictorSum L0 = Ok t ∧ arr i16r 10 t ∧
    ∀ i, 0 ≤ i < 10 → at_ t i = exactTarget m LSF L0 i.
Proof.
  intros Hm HL H0 Hfit. apply safe_ok. unfold targetVector, NB_LSP_COEFF, MA_MAX_K.
  apply wp_for_up with (I := λ n t, arr i16r 10 t ∧ ∀ i, 0 ≤ i < n → at_ t i = exactTarget m LSF L0 i);
    [lia|split; [by apply arr_zeros|lia]| |done].
  intros i t Hi [Ht HI]. pose proof (all_below_spec _ _ i Hfit Hi) as Hf. cbv beta in Hf.
  apply andb_true_iff in Hf as [[[F1%fits32_rng F2%fits32_rng]%andb_true_iff F3%fits16_rng]%andb_true_iff F4%fits16_rng].
  rewrite ld_at by (rewrite (proj1 HL); lia). cbn [bind]. pose proof (at_arr _ _ _ i HL Hi) as Hl.
  destruct (predictorOf_row L0 H0) as [EP HP].
  assert (SHL (at_ LSF i) 15 = i32 (at_ LSF i * 32768 - 0)) as ->.
  { unfold SHL. rewrite (i32_id (at_ LSF i)) by (unfold rng in *; lia). f_equal. rewrite Z.shiftl_mul_pow2 by lia. lia. }
  rewrite (for_up_zsum (λ s, i32 (at_ LSF i * 32768 - s)) 4 0 4 (λ j, cell m j i * cell (predictorOf L0) j i)); [|done|].
  2:{ intros j s Hj _. rewrite Z.add_0_l. destruct (table_cell _ _ _ m j i Hm ltac:(lia) Hi) as [-> Hc]. cbn [bind].
      rewrite EP. cbn [bind]. destruct (table_cell _ _ _ (predictorOf L0) j i HP ltac:(lia) Hi) as [-> Hd]. cbn [bind].
      rewrite MSU16_16_wrap32 by (unfold rng in *; lia). do 2 f_equal. lia. }
  cbn [bind]. fold (exactResidual m LSF L0 i). destruct (table_cell _ _ _ _ L0 i invMAPredictorSum_arr H0 Hi) as [-> Hinv]. cbn [bind].
  assert (PSHR (i32 (exactResidual m LSF L0 i)) 15 = (exactResidual m LSF L0 i + 16384) / 32768) as ->.
  { unfold PSHR, SHR. change (Z.shiftr (Z.shiftl 1 15) 1) with 16384. rewrite (i32_id (exactResidual _ _ _ _)), i32_id by done.
    by rewrite Z.shiftr_div_pow2 by lia. }
  set (a := (exactResidual m LSF L0 i + 16384) / 32768) in *. rewrite (i16_id a) by done.
  unfold MULT16_16_Q12. rewrite MULT16_16_Q_exact by (unfold rng in *; nia). change (2 ^ 12) with 4096.
  change (a * cell invMAPredictorSum L0 i / 4096) with (exactTarget m LSF L0 i). rewrite (i16_id (exactTarget _ _ _ _)) by done.
  rewrite st_ok by (rewrite (proj1 Ht); lia). cbn [wp]. split.
  - pose proof (wp_st_arr no_fault i16r 10 t i (exactTarget m LSF L0 i) (arr i16r 10) Ht Hi F4 (λ _ H, H)) as HS.
    by rewrite st_ok in HS by (rewrite (proj1 Ht); lia).
  - intros k Hk. rewrite at_insert by (rewrite ?(proj1 Ht); lia). destruct (Z.eqb_spec i k) as [->|]; [done|apply HI; lia].
Qed.

Lemma exactTargetVector_at m LSF L0 i : 0 ≤ i < 10 → at_ (exactTargetVector m LSF L0) i = exactTarget m LSF L0 i.
Proof.
  intros Hi. unfold at_, exactTargetVector. apply nth_lookup_Some. rewrite list_lookup_fmap, (lookup_seqZ_lt 0 10) by lia.
  cbn. do 2 f_equal. lia.
Qed.

Lemma targetVector_exact m LSF L0 : arr (arr i16r 10) 4 m → arr i16r 10 LSF → 0 ≤ L0 < 2 → target_fits m LSF L0 = true →
  targetVector m LSF MAPredictor invMAPredictorSum L0 = Ok (exactTargetVector m LSF L0) ∧ arr i16r 10 (exactTargetVector m LSF L0).
Proof.
  intros Hm HL H0 Hfit. destruct (targetVector_run m LSF L0 Hm HL H0 Hfit) as (t & -> & Ht & HE).
  assert (t = exactTargetVector m LSF L0) as <-; [|done]. apply at_ext.
  - unfold exactTargetVector, zlen. rewrite length_fmap, length_seqZ. destruct Ht as [Lt _]. unfold zlen in Lt. lia.
  - intros i Hi. rewrite (proj1 Ht) in Hi. by rewrite HE, exactTargetVector_at.
Qed.

Lemma distanceL1_exact t r : arr i16r 10 t → stage1_fits t = true → 0 ≤ r < 128 → distanceL1 t r = Ok (exactL1 t r).
Proof.
  intros Ht Hfit Hr. pose proof (all_below_spec _ _ r Hfit Hr) as Hf. cbv beta in Hf.
  apply andb_true_iff in Hf as [Hd Hs%fits32_rng]. unfold distanceL1, NB_LSP_COEFF.
  rewrite (for_up_zsum i32 10 0 10 (λ j, (at_ t j - cell L1 r j) * (at_ t j - cell L1 r j))); [|done|].
  { fold (exactL1 t r). by rewrite i32_id. }
  intros j s Hj _. rewrite Z.add_0_l, ld_at by (rewrite (proj1 Ht); lia). cbn [bind].
  destruct (table_cell _ _ _ _ r j L1_arr Hr ltac:(lia)) as [-> Hc]. cbn [bind]. cbv zeta.
  pose proof (fits16_rng _ (all_below_spec _ _ j Hd Hj)) as Hx. pose proof (at_arr _ _ _ j Ht ltac:(lia)) as Hv.
  assert (i16 (SATURATE (SUB32 (at_ t j) (cell L1 r j)) MAXINT16) = at_ t j - cell L1 r j) as ->.
  { unfold SUB32. rewrite (i32_id (at_ t j)), (i32_id (cell L1 r j)), i32_id by (unfold rng in *; lia).
    unfold SATURATE, MAXINT16. destruct (Z.ltb_spec 32767 (at_ t j - cell L1 r j)); [unfold rng in *; lia|].
    destruct (Z.ltb_spec (at_ t j - cell L1 r j) (- (32767 + 1))); [unfold rng in *; lia|]. by apply i16_id. }
  by rewrite MAC16_16_wrap32 by (unfold rng in *; lia).
Qed.

(** The scaled error of the code. *)
Lemma scaledError_exact L0 j x : 0 ≤ L0 < 2 → 0 ≤ j < 10 → i32r x → i32r (x * cell MAPredictorSum L0 j) →
  MULT16_16_Q15 x (cell MAPredictorSum L0 j) = scaledError L0 j x.
Proof.
  intros H0 Hj Hx Hp. destruct (table_cell _ _ _ _ L0 j MAPredictorSum_arr H0 Hj) as [_ Hs]. unfold MULT16_16_Q15.
  by rewrite MULT16_16_Q_exact by (done || (unfold rng in *; lia)).
Qed.

Lemma distanceL2L3_exact t w L0 r1 r2 lo : arr i16r 10 t → arr u16r 10 w → 0 ≤ L0 < 2 → 0 ≤ r1 < 128 → 0 ≤ r2 < 32 →
  0 ≤ lo ≤ 5 → stage2_fits t w L0 r1 lo = true →
  distanceL2L3 t MAPredictorSum w L0 r1 r2 lo (lo + 5) 0 = Ok (exactL2L3 t w L0 r1 r2 lo).
Proof.
  intros Ht Hw H0 H1 H2 Hlo Hfit. pose proof (all_below_spec _ _ r2 Hfit H2) as Hf. cbv beta in Hf.
  apply andb_true_iff in Hf as [Hd Hs%fits32_rng]. unfold distanceL2L3.
  rewrite (for_up_zsum i32 5 lo (lo + 5) (λ j, weightedSquare w (lo + j)
    (scaledError L0 (lo + j) (at_ t (lo + j) - cell L1 r1 (lo + j) - cell L2L3 r2 (lo + j))))); [|lia|].
  { fold (exactL2L3 t w L0 r1 r2 lo). by rewrite i32_id. }
  intros j s Hj _. pose proof (all_below_spec _ _ j Hd Hj) as Hf. cbv beta zeta in Hf.
  apply andb_true_iff in Hf as [[F1%fits32_rng F2%fits16_rng]%andb_true_iff F3%fits32_rng].
  rewrite ld_at by (rewrite (proj1 Ht); lia). cbn [bind].
  destruct (table_cell _ _ _ _ r1 (lo + j) L1_arr H1 ltac:(lia)) as [-> Hc]. cbn [bind].
  destruct (table_cell _ _ _ _ r2 (lo + j) L2L3_arr H2 ltac:(lia)) as [-> Hc']. cbn [bind].
  destruct (table_cell _ _ _ _ L0 (lo + j) MAPredictorSum_arr H0 ltac:(lia)) as [-> _]. cbn [bind].
  rewrite (ld_at w) by (rewrite (proj1 Hw); lia). cbn [bind].
  pose proof (at_arr _ _ _ (lo + j) Ht ltac:(lia)) as Hv. pose proof (at_arr _ _ _ (lo + j) Hw ltac:(lia)) as Hwv.
  set (x := at_ t (lo + j) - cell L1 r1 (lo + j) - cell L2L3 r2 (lo + j)) in *.
  assert (SUB32 (SUB32 (at_ t (lo + j)) (cell L1 r1 (lo + j))) (cell L2L3 r2 (lo + j)) = x) as ->.
  { unfold SUB32, x. rewrite (i32_id (at_ t _)), (i32_id (cell L1 _ _)), (i32_id (cell L2L3 _ _)) by (unfold rng in *; lia).
    rewrite !(i32_id (at_ t _ - cell L1 _ _)), i32_id by (unfold rng in *; lia). done. }
  rewrite scaledError_exact by (done || (unfold x, rng in *; lia)). set (e := scaledError L0 (lo + j) x) in *.
  assert (i16 (SATURATE e MAXINT16) = e) as ->.
  { unfold SATURATE, MAXINT16. destruct (Z.ltb_spec 32767 e); [unfold rng in *; lia|].
    destruct (Z.ltb_spec e (- (32767 + 1))); [unfold rng in *; lia|]. by apply i16_id. }
  unfold MULT16_16_Q11. rewrite MULT16_16_Q_exact by (done || (unfold rng in *; lia)).
  rewrite MAC16_16_wrap32; [done|unfold rng in *; lia|]. change (2 ^ 11) with 2048. unfold rng in *.
  split; [apply Z.div_le_lower_bound|apply Z.div_le_upper_bound]; lia.
Qed.

Lemma UMAC16_16_wrap32 s a b : rng 0 2147483647 a → rng 0 2147483647 b → UMAC16_16 (u32 s) a b = u32 (s + a * b).
Proof.
  intros Ha Hb. unfold UMAC16_16, UADD32, UMULT16_16. rewrite (i32_id a), (i32_id b) by (unfold rng in *; lia).
  rewrite (u32_id a), (u32_id b) by (unfold rng in *; lia). unfold u32. rewrite !Zmod_mod. by rewrite <-Zplus_mod.
Qed.

Lemma weightedMeanSquareError_exact t q w L0 : arr i16r 10 t → arr i16r 10 q → arr u16r 10 w → 0 ≤ L0 < 2 →
  error_fits t w L0 q = true → weightedMeanSquareError t q w MAPredictorSum L0 = Ok (exactError t w L0 q).
Proof.
  intros Ht Hq Hw H0 Hfit. apply andb_true_iff in Hfit as [Hd Hs%Z.leb_le]. unfold weightedMeanSquareError, NB_LSP_COEFF.
  assert (0 ≤ exactError t w L0 q) as Hpos.
  { apply zsum_nonneg. intros j Hj. unfold weightedSquare. pose proof (at_arr _ _ _ j Hw Hj) as Hwv. unfold rng in Hwv.
    apply Z.mul_nonneg_nonneg; [lia|]. apply Z.div_pos; lia. }
  rewrite (for_up_zsum u32 10 0 10 (λ j, weightedSquare w j (Z.abs (scaledError L0 j (at_ t j - at_ q j))))); [|done|].
  { fold (exactError t w L0 q). by rewrite u32_id by (unfold rng; lia). }
  intros j s Hj _. pose proof (all_below_spec _ _ j Hd Hj) as Hf. cbv beta zeta in Hf.
  apply andb_true_iff in Hf as [[F1%fits32_rng F2%Z.leb_le]%andb_true_iff F3%fits32_rng].
  rewrite Z.add_0_l, (ld_at t), (ld_at q), (ld_at w) by (rewrite ?(proj1 Ht), ?(proj1 Hq), ?(proj1 Hw); lia). cbn [bind].
  destruct (table_cell _ _ _ _ L0 j MAPredictorSum_arr H0 ltac:(lia)) as [-> Hc]. cbn [bind]. cbv zeta.
  pose proof (at_arr _ _ _ j Ht Hj) as Hv. pose proof (at_arr _ _ _ j Hq Hj) as Hqv. pose proof (at_arr _ _ _ j Hw Hj) as Hwv.
  assert (SUB32 (at_ t j) (at_ q j) = at_ t j - at_ q j) as ->.
  { unfold SUB32. by rewrite (i32_id (at_ t j)), (i32_id (at_ q j)), i32_id by (unfold rng in *; lia). }
  rewrite scaledError_exact by (done || (unfold rng in *; lia)). set (e := scaledError L0 j (at_ t j - at_ q j)) in *.
  assert (u16 (USATURATE (ABS e) MAXUINT16) = Z.abs e) as ->.
  { assert (ABS e = Z.abs e) as ->.
    { unfold ABS. destruct (Z.ltb_spec 0 e); [lia|]. rewrite i32_id by (unfold rng; lia). lia. }
    unfold USATURATE, MAXUINT16. destruct (Z.ltb_spec 65535 (Z.abs e)); [lia|]. apply u16_id. unfold rng. lia. }
  unfold MULT16_16_Q11. unfold rng in *. rewrite MULT16_16_Q_exact by (unfold rng; lia). change (2 ^ 11) with 2048.
  rewrite UMAC16_16_wrap32; [done|unfold rng; lia|]. unfold rng. split; [apply Z.div_pos; lia|apply Z.div_le_upper_bound; lia].
Qed.

(** ** What the searches retain *)

(** [k] is the first index of the least value. *)
Definition first_least (n : Z) (f : Z → Z) (k : Z) : Prop :=
  0 ≤ k < n ∧ ∀ i, 0 ≤ i < n → f k ≤ f i ∧ (i < k → f k < f i).

Lemma nearest_exact n d f k : nearest n d k → (∀ i, 0 ≤ i < n → d i = Ok (f i)) → first_least n f k.
Proof.
  intros (Hk & v & Ev & _ & HN) Hd. split; [done|]. intros i Hi. rewrite Hd in Ev by done. injection Ev as <-.
  by apply (HN i (f i) Hi), Hd.
Qed.

(** The three indices found with the predictor [L0], when the target fits. *)
Definition matched (m : list (list Z)) (LSF w : list Z) (L0 i1 i2 i3 : Z) : Prop :=
  let t := exactTargetVector m LSF L0 in
  0 ≤ i1 < 128 ∧ 0 ≤ i2 < 32 ∧ 0 ≤ i3 < 32 ∧
  (stage1_fits t = true → first_least 128 (exactL1 t) i1) ∧
  (stage2_fits t w L0 i1 0 = true → first_least 32 (λ i, exactL2L3 t w L0 i1 i 0) i2) ∧
  (stage2_fits t w L0 i1 5 = true → first_least 32 (λ i, exactL2L3 t w L0 i1 i 5) i3).

(** The error of a candidate. *)
Lemma activeCandidate_error m LSF w L0 t e i1 i2 i3 : targetVector m LSF MAPredictor invMAPredictorSum L0 = Ok t →
  activeCandidate m LSF w L0 = Ok (e, (i1, i2, i3)) →
  ∃ q, (let* q := codebookSum i1 i2 0 5 (zeros 10) in let* q := codebookSum i1 i3 5 10 q in rearrangeCandidate q) = Ok q ∧
    weightedMeanSquareError t q w MAPredictorSum L0 = Ok e.
Proof.
  intros Et. unfold activeCandidate. rewrite Et. cbn [bind]. change (NB_LSP_COEFF / 2) with 5. change NB_LSP_COEFF with 10.
  generalize (minIndex L1_RANGE (distanceL1 t)). intros [k1|]; [|intros E; discriminate E]. cbn [bind].
  generalize (minIndex L2_RANGE (λ i, distanceL2L3 t MAPredictorSum w L0 k1 i 0 5 0)). intros [k2|]; [|intros E; discriminate E]. cbn [bind].
  generalize (minIndex L2_RANGE (λ i, distanceL2L3 t MAPredictorSum w L0 k1 i 5 10 0)). intros [k3|]; [|intros E; discriminate E]. cbn [bind].
  destruct (codebookSum k1 k2 0 5 (zeros 10)) as [q1|] eqn:E1; [|intros E; discriminate E]. cbn [bind].
  destruct (codebookSum k1 k3 5 10 q1) as [q2|] eqn:E2; [|intros E; discriminate E]. cbn [bind].
  destruct (rearrangeCandidate q2) as [q|] eqn:E3; [|intros E; discriminate E]. cbn [bind].
  destruct (weightedMeanSquareError t q w MAPredictorSum L0) as [e'|] eqn:E4; [|intros E; discriminate E]. cbn [bind].
  intros E. injection E as <- <- <- <-. exists q. rewrite E1. cbn [bind]. rewrite E2. cbn [bind]. exact (conj E3 E4).
Qed.

Lemma activeCandidate_exact m LSF w L0 e i1 i2 i3 : arr (arr i16r 10) 4 m → arr i16r 10 LSF → arr u16r 10 w → 0 ≤ L0 < 2 →
  target_fits m LSF L0 = true → activeCandidate m LSF w L0 = Ok (e, (i1, i2, i3)) →
  matched m LSF w L0 i1 i2 i3 ∧
  (error_fits (exactTargetVector m LSF L0) w L0 (candidate i1 i2 i3) = true →
   e = exactError (exactTargetVector m LSF L0) w L0 (candidate i1 i2 i3)).
Proof.
  intros Hm HL Hw H0 Hfit E. destruct (targetVector_exact m LSF L0 Hm HL H0 Hfit) as [Et Ht]. set (t := exactTargetVector m LSF L0) in *.
  pose proof (wp_activeCandidate (λ _, True) m LSF w L0 (λ '(_, (i1, i2, i3)), nearest 128 (distanceL1 t) i1 ∧
    nearest 32 (λ i, distanceL2L3 t MAPredictorSum w L0 i1 i 0 5 0) i2 ∧
    nearest 32 (λ i, distanceL2L3 t MAPredictorSum w L0 i1 i 5 10 0) i3) I Hm HL Hw H0) as HN.
  rewrite E in HN. cbn [wp] in HN. destruct HN as (N1 & N2 & N3).
  { intros e' t' a b c Et' N1 N2 N3. rewrite Et in Et'. injection Et' as <-. exact (conj N1 (conj N2 N3)). }
  pose proof N1 as [R1 _]. pose proof N2 as [R2 _]. pose proof N3 as [R3 _]. split.
  - unfold matched. fold t. refine (conj R1 (conj R2 (conj R3 (conj _ (conj _ _))))); intros Hs.
    + apply (nearest_exact _ _ _ _ N1). intros i Hi. exact (distanceL1_exact t i Ht Hs Hi).
    + apply (nearest_exact _ _ _ _ N2). intros i Hi.
      pose proof (distanceL2L3_exact t w L0 i1 i 0 Ht Hw H0 R1 Hi ltac:(lia) Hs) as H. change (0 + 5) with 5 in H. exact H.
    + apply (nearest_exact _ _ _ _ N3). intros i Hi.
      pose proof (distanceL2L3_exact t w L0 i1 i 5 Ht Hw H0 R1 Hi ltac:(lia) Hs) as H. change (5 + 5) with 10 in H. exact H.
  - clear N1 N2 N3. intros He. destruct (activeCandidate_error m LSF w L0 t e i1 i2 i3 Et E) as (q & Eq & Ee).
    assert (arr i16r 10 q) as Hq.
    { assert (safe (let* q := codebookSum i1 i2 0 5 (zeros 10) in let* q := codebookSum i1 i3 5 10 q in rearrangeCandidate q) (arr i16r 10)) as HS.
      { wp_step. apply wp_codebookSum; [lia|lia|lia|lia|by apply arr_zeros|]. intros q1 Hq1. wp_step.
        apply wp_codebookSum; [lia|lia|lia|lia|exact Hq1|]. intros q2 Hq2. apply wp_rearrangeCandidate; [exact Hq2|]. intros q3 Hq3. exact Hq3. }
      rewrite Eq in HS. exact HS. }
    unfold candidate in *. rewrite Eq in He |- *.
    rewrite (weightedMeanSquareError_exact t q w L0 Ht Hq Hw H0 He) in Ee. injection Ee as <-. reflexivity.
Qed.

(** The errors of the two predictors' candidates: both targets and both errors fit. *)
Definition errors_fit (m : list (list Z)) (LSF w : list Z) (L0 : Z) (q q' : list Z) : bool :=
  target_fits m LSF L0 && target_fits m LSF (1 - L0) &&
  error_fits (exactTargetVector m LSF L0) w L0 q && error_fits (exactTargetVector m LSF (1 - L0)) w (1 - L0) q'.

(** The indices are matched with both predictors, and the predictor transmitted has the lesser error. *)
Lemma active_exact m LSF w L0 e e' i1 i2 i3 k1 k2 k3 :
  arr (arr i16r 10) 4 m → arr i16r 10 LSF → arr u16r 10 w → 0 ≤ L0 < 2 →
  activeCandidate m LSF w L0 = Ok (e, (i1, i2, i3)) → activeCandidate m LSF w (1 - L0) = Ok (e', (k1, k2, k3)) → e ≤ e' →
  (target_fits m LSF L0 = true → matched m LSF w L0 i1 i2 i3) ∧
  (target_fits m LSF (1 - L0) = true → matched m LSF w (1 - L0) k1 k2 k3) ∧
  (errors_fit m LSF w L0 (candidate i1 i2 i3) (candidate k1 k2 k3) = true →
   exactError (exactTargetVector m LSF L0) w L0 (candidate i1 i2 i3) ≤
   exactError (exactTargetVector m LSF (1 - L0)) w (1 - L0) (candidate k1 k2 k3)).
Proof.
  intros Hm HL Hw H0 E E' Hle. assert (0 ≤ 1 - L0 < 2) as H1 by lia.
  pose proof (λ F, activeCandidate_exact m LSF w L0 e i1 i2 i3 Hm HL Hw H0 F E) as HA.
  pose proof (λ F, activeCandidate_exact m LSF w (1 - L0) e' k1 k2 k3 Hm HL Hw H1 F E') as HB.
  clear E E'. split; [exact (λ F, proj1 (HA F))|]. split; [exact (λ F, proj1 (HB F))|].
  unfold errors_fit. intros F. apply andb_true_iff in F as [F F4]. apply andb_true_iff in F as [F F3].
  apply andb_true_iff in F as [F1 F2]. rewrite <-(proj2 (HA F1) F3), <-(proj2 (HB F2) F4). exact Hle.
Qed.

(** What the quantizer leaves, measured in exact arithmetic. *)
Definition exact_quantized (c : Enc.ctx) (LSP qLSP params : list Z) (r : Enc.ctx * list Z * list Z) : Prop :=
  let m := Enc.previousqLSF c in
  ∃ L0 i1 i2 i3 k1 k2 k3 LSF w m' q,
    r = (Enc.set_previousqLSF m' c, q, L0 :: i1 :: i2 :: i3 :: drop 4 params) ∧
    0 ≤ L0 < 2 ∧ 0 ≤ i1 < 128 ∧ 0 ≤ i2 < 32 ∧ 0 ≤ i3 < 32 ∧
    LSPtoLSF LSP = Ok LSF ∧ LSFweights LSF = Ok w ∧
    reconstructLSP m MAPredictor MAPredictorSum L0 i1 i2 i3 qLSP = Ok (m', q) ∧
    (target_fits m LSF L0 = true → matched m LSF w L0 i1 i2 i3) ∧
    (target_fits m LSF (1 - L0) = true → matched m LSF w (1 - L0) k1 k2 k3) ∧
    (errors_fit m LSF w L0 (candidate i1 i2 i3) (candidate k1 k2 k3) = true →
     exactError (exactTargetVector m LSF L0) w L0 (candidate i1 i2 i3) ≤
     exactError (exactTargetVector m LSF (1 - L0)) w (1 - L0) (candidate k1 k2 k3)).

Lemma active_quantized_exact c LSP qLSP params r : arr (arr i16r 10) 4 (Enc.previousqLSF c) → arr i16r 10 LSP →
  active_quantized c LSP qLSP params r → exact_quantized c LSP qLSP params r.
Proof.
  intros Hm HL (m' & q & L0 & i1 & i2 & i3 & LSF & w & t & Er & _ & _ & H0 & H1 & H2 & H3 & EL & Ew & _ & _ & _ & _ &
    (e & e' & [[k1 k2] k3] & E & E' & Hle) & ER).
  assert (arr i16r 10 LSF) as HLSF.
  { pose proof (wp_LSPtoLSF (λ _, True) LSP (arr i16r 10) I HL (λ _ H, H)) as HW. rewrite EL in HW. exact HW. }
  assert (arr u16r 10 w) as Hw.
  { pose proof (wp_LSFweights no_fault LSF _ HLSF (λ _ H, H)) as HW. rewrite Ew in HW. exact HW. }
  exists L0, i1, i2, i3, k1, k2, k3, LSF, w, m', q.
  exact (conj Er (conj H0 (conj H1 (conj H2 (conj H3 (conj EL (conj Ew (conj ER
    (active_exact _ LSF w L0 e e' i1 i2 i3 k1 k2 k3 Hm HLSF Hw H0 E E' Hle))))))))).
Qed.
