(* ===== verification/EncVad.v ===== *)
(** Voice activity detection ([vad.c]): the initial decision on fourteen linear boundaries, the
    smoothing of the decision, and the running averages of the background noise. *)

From S2P Require Import Prelude FixedPoint Codebooks Math Utils EncContext EncChannel.

(** ** Initial decision *)

(** The conditions in the order of the code: the first that holds decides. *)
Definition multiBoundaryInitialVoiceActivityDecision (deltaS deltaEf deltaEl deltaZC : Z) : Z :=
  let deltaEf32 := MULT16_16 10 deltaEf in
  let deltaEl32 := MULT16_16 10 deltaEl in
  let deltaS := MULT16_32 830 deltaS in
  if ADD32 (MULT16_32_Q12 deltaZC 58720) 228170 <? deltaS then VOICE
  else if ADD32 (MULT16_32_Q12 deltaZC (-152520)) 311141 <? deltaS then VOICE
  else if deltaEf32 <? ADD32 (MULT16_32_Q15 deltaZC (-51200)) (-10240) then VOICE
  else if deltaEf32 <? ADD32 (MULT16_32_Q15 deltaZC 40960) (-12288) then VOICE
  else if deltaEf32 <? -9626 then VOICE
  else if deltaEf32 <? ADD32 (MULT16_32_Q12 275 deltaS) (-24986) then VOICE
  else if 241592 <? deltaS then VOICE
  else if deltaEf32 <? ADD32 (MULT16_32_Q15 deltaZC 51200) (-14336) then VOICE
  else if deltaEf32 <? ADD32 (MULT16_32_Q15 deltaZC (-59578)) (-9868) then VOICE
  else if deltaEf32 <? -10854 then VOICE
  else if deltaEl32 <? ADD32 (MULT16_32_Q13 875 deltaS) (-31744) then VOICE
  else if ADD32 (MULT16_32_Q15 30427 deltaEl32) 2341 <? deltaEl32 then VOICE
  else if deltaEl32 <? ADD32 (MULT16_32_Q14 (-24576) deltaEl32) (-18432) then VOICE
  else if deltaEl32 <? ADD32 (MULT16_32_Q15 23406 deltaEl32) (-4389) then VOICE
  else NOISE.

(** ** Parameter extraction *)

(** [log10(x * 2^-scale / 240)] in Q11, from the value [x] given to the logarithm. *)
Definition logEnergy (x scale : Z) : res Z :=
  let* l := g729Log2_Q0Q16 x in
  let acc := SUB32 l (i32 (Z.shiftl scale 16)) in
  let acc := SHR (SUB32 acc LOG2_240_Q16) 1 in
  let acc := MULT16_32_Q15 INV_LOG2_10_Q15 acc in
  Ok (i16 (PSHR acc 4)).

(** [Ef] *)
Definition fullBandEnergy (r : list Z) (scale : Z) : res Z :=
  let* r0 := ld r 0 in
  logEnergy (i32 (r0 + 1)) scale.

(** [El] *)
Definition lowBandEnergy (r : list Z) (scale : Z) : res Z :=
  let* f0 := ld lowBandFilter 0 in
  let* r0 := ld r 0 in
  let* acc := for_up 1 (NB_LSP_COEFF + 3) (MULT16_32_Q15 f0 r0) (λ i acc,
    let* f := ld lowBandFilter i in
    let* ri := ld r i in
    Ok (MAC16_32_Q14 acc f ri)) in
  logEnergy (if acc <=? 0 then 1 else acc) scale.

(** [ZC]; [off] is the offset of [signalCurrentFrame] in its buffer. *)
Definition zeroCrossingRate (signal : list Z) (off : Z) : res Z :=
  for_up 0 L_FRAME 0 (λ i ZC,
    let* a := ld signal (off + (i - 1)) in
    let* b := ld signal (off + i) in
    Ok (if MULT16_16 a b <? 0 then ADD16 ZC 410 else ZC)).

(** ** Initialisation period *)

(** B3.2 at frame [Ni]: the averages over the valid frames, or a new start. *)
Definition completeInitialisation (c : Vad.ctx) : res Vad.ctx :=
  if 0 <? Vad.nbValidInitFrame c then
    let n := Vad.nbValidInitFrame c in
    let* e := DIV32 (Vad.initEfSum c) n in
    let meanEn := i16 e in
    let* z := DIV32 (Vad.initZCSum c) n in
    let* m := for_up 0 NB_LSP_COEFF (Vad.meanLSF c) (λ i m,
      let* s := ld (Vad.initLSFSum c) i in
      let* q := DIV32 s n in
      st m i (i16 q)) in
    Ok (Vad.set_meanEl (i16 (SUB16 meanEn 2458)) (Vad.set_meanEf (i16 (SUB16 meanEn 2048))
          (Vad.set_meanLSF m (Vad.set_meanZC (i16 z) c))))
  else Ok (Vad.set_frameCount 0 c).

(** The updates at the end of both paths. *)
Definition closeFrame (Ef Ivd : Z) (c : Vad.ctx) : Vad.ctx :=
  let c := Vad.set_previousFrameEf Ef (Vad.set_frameCount (u32 (Vad.frameCount c + 1)) c) in
  Vad.set_SVDm1 Ivd (Vad.set_SVDm2 (Vad.SVDm1 c) c).

(** B3.2 during the first [Ni] frames. *)
Definition initialisationFrame (Ef ZC : Z) (LSF : list Z) (c : Vad.ctx) : res (Vad.ctx * Z) :=
  let* (c, Ivd) :=
    (if Ef <? 3072 then Ok (c, NOISE)
     else
       let c := Vad.set_nbValidInitFrame (u8 (Vad.nbValidInitFrame c + 1)) c in
       let c := Vad.set_initEfSum (ADD32 (Vad.initEfSum c) Ef) c in
       let c := Vad.set_initZCSum (ADD32 (Vad.initZCSum c) ZC) c in
       let* m := for_up 0 NB_LSP_COEFF (Vad.initLSFSum c) (λ i m,
         let* s := ld m i in
         let* l := ld LSF i in
         st m i (ADD32 s l)) in
       Ok (Vad.set_initLSFSum m c, VOICE)) in
  Ok (closeFrame Ef Ivd c, Ivd).

(** ** Spectral distorsion *)

Definition spectralDistorsion (LSF mean : list Z) : res Z :=
  for_up 0 NB_LSP_COEFF 0 (λ i deltaS,
    let* l := ld LSF i in
    let* m := ld mean i in
    let acc16 := i16 (SUB16 l m) in
    Ok (MAC16_16_Q13 deltaS acc16 acc16)).

(** ** Smoothing *)

(** Appendix II hysteresis and the first stage. *)
Definition hysteresis (Ef deltaEf Ivd : Z) (c : Vad.ctx) : Vad.ctx * Z :=
  let c := if Ivd =? VOICE then Vad.set_Count_inert 0 c else c in
  let '(c, Ivd) :=
    if (Ivd =? NOISE) && (Vad.Count_inert c <? 6)
    then (Vad.set_Count_inert (u32 (Vad.Count_inert c + 1)) c, VOICE) else (c, Ivd) in
  let Ivd :=
    if (Ivd =? NOISE) && negb (Vad.SVDm1 c =? 0) && (410 <? deltaEf) && (3072 <? Ef)
    then VOICE else Ivd in
  (c, Ivd).

Definition secondStage (Ef Ivd : Z) (c : Vad.ctx) : Vad.ctx * Z :=
  if (Vad.secondStageVADSmoothingFlag c =? 1) && (Ivd =? NOISE) && (Vad.SVDm1 c =? VOICE) &&
     (Vad.SVDm2 c =? VOICE) && (ABS (SUB16 Ef (Vad.previousFrameEf c)) <=? 614)
  then
    let c := Vad.set_smoothingCounter (u32 (Vad.smoothingCounter c + 1)) c in
    if Vad.smoothingCounter c <=? 4 then (Vad.set_secondStageVADSmoothingFlag 1 c, VOICE)
    else (Vad.set_smoothingCounter 0 (Vad.set_secondStageVADSmoothingFlag 0 c), VOICE)
  else (Vad.set_secondStageVADSmoothingFlag 1 c, Ivd).

Definition thirdStage (Ef Ivd : Z) (c : Vad.ctx) : Vad.ctx * Z :=
  let c := if Ivd =? NOISE
    then Vad.set_noiseContinuityCounter (i32 (Vad.noiseContinuityCounter c + 1)) c else c in
  let '(c, Ivd) :=
    if (Ivd =? VOICE) && (10 <? Vad.noiseContinuityCounter c) && (SUB16 Ef (Vad.previousFrameEf c) <=? 614)
    then (Vad.set_Count_inert 6 (Vad.set_noiseContinuityCounter 0 c), NOISE) else (c, Ivd) in
  (if Ivd =? VOICE then Vad.set_noiseContinuityCounter 0 c else c, Ivd).

(** B3.6 *)
Definition smoothDecision (Ef deltaEf Ivd : Z) (c : Vad.ctx) : Vad.ctx * Z :=
  let '(c, Ivd) := hysteresis Ef deltaEf Ivd c in
  let '(c, Ivd) := secondStage Ef Ivd c in
  thirdStage Ef Ivd c.

(** ** Running averages *)

(** [(betaE, betaEComplement, betaZC, betaZCComplement, betaLSF, betaLSFComplement)] *)
Definition averageCoefficients (updateCount : Z) : Z * Z * Z * Z * Z * Z :=
  if updateCount <? 20 then (24576, 8192, 26214, 6554, 19661, 13107)
  else if updateCount <? 30 then (31130, 1638, 30147, 2621, 21299, 11469)
  else if updateCount <? 40 then (31785, 983, 30802, 1966, 22938, 9830)
  else if updateCount <? 50 then (32440, 328, 31457, 1311, 24756, 8192)
  else if updateCount <? 60 then (32604, 164, 32440, 328, 24576, 8192)
  else (32702, 66, 32604, 164, 24576, 8192).

Definition average (mean beta v complement : Z) : Z :=
  ADD16 (MULT16_16_Q15 mean beta) (MULT16_16_Q15 v complement).

(** B3.7 *)
Definition updateAverages (reflectionCoefficient Ef El ZC : Z) (LSF : list Z) (c : Vad.ctx) : res Vad.ctx :=
  if (SUB16 Ef 614 <? Vad.meanEf c) && (reflectionCoefficient <? 1610612736) then
    let c := Vad.set_updateCount (u32 (Vad.updateCount c + 1)) c in
    let '(bE, bE', bZC, bZC', bLSF, bLSF') := averageCoefficients (Vad.updateCount c) in
    let c := Vad.set_meanEf (average (Vad.meanEf c) bE Ef bE') c in
    let c := Vad.set_meanEl (average (Vad.meanEl c) bE El bE') c in
    let c := Vad.set_meanZC (average (Vad.meanZC c) bZC ZC bZC') c in
    let* m := for_up 0 NB_LSP_COEFF (Vad.meanLSF c) (λ i m,
      let* x := ld m i in
      let* l := ld LSF i in
      st m i (average x bLSF l bLSF')) in
    Ok (Vad.set_meanLSF m c)
  else Ok c.

(** The further update of [meanEf] from the long term minimum. *)
Definition resetMeanEnergy (Emin deltaS : Z) (c : Vad.ctx) : Vad.ctx :=
  if (N0 <? Vad.frameCount c) &&
     (((Vad.meanEf c <? Emin) && (deltaS <? 819)) || (ADD16 Emin 2048 <? Vad.meanEf c))
  then Vad.set_updateCount 0 (Vad.set_meanEf Emin c) else c.

(** ** bcg729_vad *)

(** After the initialisation period. *)
Definition activityFrame (reflectionCoefficient Ef El ZC : Z) (LSF : list Z) (c : Vad.ctx)
    : res (Vad.ctx * Z) :=
  let* Emin := getMinInArray (Vad.EfBuffer c) N0 in
  let* deltaS := spectralDistorsion LSF (Vad.meanLSF c) in
  let deltaEf := i16 (SUB16 (Vad.meanEf c) Ef) in
  let deltaEl := i16 (SUB16 (Vad.meanEl c) El) in
  let deltaZC := i16 (SUB16 (Vad.meanZC c) ZC) in
  let Ivd := if Ef <? 3072 then NOISE
    else multiBoundaryInitialVoiceActivityDecision deltaS deltaEf deltaEl deltaZC in
  let '(c, Ivd) := smoothDecision Ef deltaEf Ivd c in
  let* c := updateAverages reflectionCoefficient Ef El ZC LSF c in
  Ok (closeFrame Ef Ivd (resetMeanEnergy Emin deltaS c), Ivd).

Definition bcg729_vad (c : Vad.ctx) (reflectionCoefficient : Z) (LSF r : list Z) (scale : Z)
    (signal : list Z) (off : Z) : res (Vad.ctx * Z) :=
  let* Ef := fullBandEnergy r scale in
  let* b := st (Vad.EfBuffer c) (Vad.frameCount c mod N0) Ef in
  let c := Vad.set_EfBuffer b c in
  let* El := lowBandEnergy r scale in
  let* ZC := zeroCrossingRate signal off in
  let* c := (if Vad.frameCount c =? Ni then completeInitialisation c else Ok c) in
  if Vad.frameCount c <? Ni then initialisationFrame Ef ZC LSF c
  else activityFrame reflectionCoefficient Ef El ZC LSF c.

(** ** Safety *)

Lemma decision_cases s ef el zc :
  multiBoundaryInitialVoiceActivityDecision s ef el zc = VOICE ∨
  multiBoundaryInitialVoiceActivityDecision s ef el zc = NOISE.
Proof. unfold multiBoundaryInitialVoiceActivityDecision. repeat case_match; auto. Qed.

(** The logarithm returns when its argument is not negative, or its failure is accepted. *)
Lemma wp_logEnergy (F : fault → Prop) x scale (Q : Z → Prop) :
  i32r x → 0 ≤ x ∨ F NoReturn → (∀ v, i16r v → Q v) → wp F (logEnergy x scale) Q.
Proof.
  intros Hx Hpos HQ. unfold logEnergy. wp_step.
  destruct Hpos as [Hpos|HF]; [apply wp_g729Log2|apply wp_g729Log2_any]; try done.
  all: try (unfold rng in *; lia).
  all: intros l Hl; apply HQ; apply i16_rng.
Qed.

Lemma wp_fullBandEnergy (F : fault → Prop) r scale (Q : Z → Prop) :
  arr i32r 13 r → 0 ≤ at_ r 0 < 2147483647 ∨ F NoReturn → (∀ v, i16r v → Q v) →
  wp F (fullBandEnergy r scale) Q.
Proof.
  intros Hr H0 HQ. unfold fullBandEnergy. rewrite ld_at by (pose proof (proj1 Hr); lia). cbn [bind].
  apply wp_logEnergy; [apply i32_rng| |done]. destruct H0 as [H0|]; [left|by right].
  rewrite i32_id by (unfold rng; lia). lia.
Qed.

Lemma wp_lowBandEnergy F r scale (Q : Z → Prop) :
  arr i32r 13 r → (∀ v, i16r v → Q v) → wp F (lowBandEnergy r scale) Q.
Proof.
  intros Hr HQ. unfold lowBandEnergy. wp_step. eapply wp_ld_arr; [apply lowBandFilter_arr|lia|]. intros f0 Hf0.
  wp_step. eapply wp_ld_arr; [done|lia|]. intros r0 Hr0. wp_step.
  apply wp_for_inv with (I := i32r); [apply MULT16_32_Q15_rng| |].
  - intros i acc Hi Hacc. change (NB_LSP_COEFF + 3) with 13 in Hi. wp_step.
    eapply wp_ld_arr; [apply lowBandFilter_arr|lia|]. intros f Hf. wp_step. eapply wp_ld_arr; [done|lia|].
    intros ri Hri. apply ADD32_rng.
  - intros acc Hacc. apply wp_logEnergy; [| |done]; destruct (Z.leb_spec acc 0); unfold rng in *; lia.
Qed.

Lemma wp_zeroCrossingRate F n s off (Q : Z → Prop) :
  arr i16r n s → 1 ≤ off → off + 80 ≤ n → (∀ v, i16r v → Q v) → wp F (zeroCrossingRate s off) Q.
Proof.
  intros Hs Ho Hn HQ. unfold zeroCrossingRate, L_FRAME.
  apply wp_for_inv with (I := i16r); [done| |done]. intros i zc Hi Hzc. wp_step.
  eapply wp_ld_arr; [done|lia|]. intros a Ha. wp_step. eapply wp_ld_arr; [done|lia|]. intros b Hb.
  cbn [wp]. case_match; [apply ADD16_rng|done].
Qed.

(** *** The fields the smoothing depends on *)

Definition smoothing (c : Vad.ctx) : Z * Z * Z * Z * Z :=
  (Vad.SVDm1 c, Vad.SVDm2 c, Vad.Count_inert c, Vad.secondStageVADSmoothingFlag c, Vad.smoothingCounter c).

Lemma wp_completeInitialisation F c (Q : Vad.ctx → Prop) :
  Vad.wf c → (∀ c', Vad.wf c' → smoothing c' = smoothing c → Q c') → wp F (completeInitialisation c) Q.
Proof.
  intros Hc HQ. unfold completeInitialisation. pose proof (Vad.wf_nbValidInitFrame _ Hc) as Hn. unfold rng in Hn.
  assert (i32r (Vad.nbValidInitFrame c)) as Hn' by (unfold rng; lia).
  destruct (Z.ltb_spec 0 (Vad.nbValidInitFrame c)).
  2:{ apply HQ; [|done]. apply Vad.vad_wf_set_frameCount; [done|]. unfold rng. lia. }
  wp_step. apply wp_DIV32; [eauto with csafe|done|lia|]. intros e He _. cbv zeta. wp_step.
  apply wp_DIV32; [eauto with csafe|done|lia|]. intros z Hz _. wp_step.
  apply wp_for_inv with (I := arr i16r 10); [eauto with csafe| |].
  - intros i m Hi Hm. unfold NB_LSP_COEFF in Hi. wp_step. eapply wp_ld_arr; [apply (Vad.wf_initLSFSum c Hc)|lia|].
    intros s Hs. wp_step. apply wp_DIV32; [done|done|lia|]. intros q Hq _.
    eapply wp_st_arr; [done|lia|apply i16_rng|done].
  - intros m Hm. apply HQ; [|done]. auto 6 with csafe rng.
Qed.

Lemma wp_spectralDistorsion F l m (Q : Z → Prop) :
  arr i16r 10 l → arr i16r 10 m → (∀ v, Q v) → wp F (spectralDistorsion l m) Q.
Proof.
  intros Hl Hm HQ. unfold spectralDistorsion, NB_LSP_COEFF.
  apply wp_for_inv with (I := λ _, True); [done| |auto]. intros i d Hi _. wp_step.
  eapply wp_ld_arr; [done|lia|]. intros a Ha. wp_step. eapply wp_ld_arr; [done|lia|]. done.
Qed.

Lemma wp_getMinInArray F n a (Q : Z → Prop) :
  arr i16r n a → (∀ v, i16r v → Q v) → wp F (getMinInArray a n) Q.
Proof.
  intros Ha HQ. unfold getMinInArray. apply wp_for_inv with (I := i16r); [done| |done].
  intros i m Hi Hm. wp_step. eapply wp_ld_arr; [done|lia|]. intros v Hv. cbn [wp]. by case_match.
Qed.

Lemma closeFrame_wf Ef Ivd c : Vad.wf c → i16r Ef → Ivd = VOICE ∨ Ivd = NOISE → Vad.wf (closeFrame Ef Ivd c).
Proof.
  intros Hc HE HI. unfold closeFrame. apply Vad.vad_wf_set_SVDm1.
  - apply Vad.vad_wf_set_SVDm2; [auto with csafe rng|]. apply (Vad.wf_SVDm1 _ Hc).
  - destruct HI as [-> | ->]; unfold rng, VOICE, NOISE; lia.
Qed.

Lemma wp_initialisationFrame F Ef ZC l c (Q : Vad.ctx * Z → Prop) :
  Vad.wf c → i16r Ef → arr i16r 10 l →
  (∀ c' Ivd, Vad.wf c' → Ivd = (if Ef <? 3072 then NOISE else VOICE) →
    smoothing c' = (Ivd, Vad.SVDm1 c, Vad.Count_inert c, Vad.secondStageVADSmoothingFlag c, Vad.smoothingCounter c) →
    Q (c', Ivd)) →
  wp F (initialisationFrame Ef ZC l c) Q.
Proof.
  intros Hc HE Hl HQ. unfold initialisationFrame. wp_step.
  destruct (Ef <? 3072).
  - cbn [wp]. apply HQ; [|done|done]. apply closeFrame_wf; auto.
  - cbv zeta. wp_step. apply wp_for_inv with (I := arr i32r 10); [apply (Vad.wf_initLSFSum c Hc)| |].
    + intros i m Hi Hm. unfold NB_LSP_COEFF in Hi. wp_step. eapply wp_ld_arr; [done|lia|]. intros s Hs.
      wp_step. eapply wp_ld_arr; [done|lia|]. intros v Hv. eapply wp_st_arr; [done|lia|apply ADD32_rng|done].
    + intros m Hm. cbn [wp]. apply HQ; [|done|done]. apply closeFrame_wf; [|done|auto]. auto 8 with csafe rng.
Qed.

Lemma wp_updateAverages F k Ef El ZC l c (Q : Vad.ctx → Prop) :
  Vad.wf c → arr i16r 10 l → (∀ c', Vad.wf c' → smoothing c' = smoothing c → Q c') →
  wp F (updateAverages k Ef El ZC l c) Q.
Proof.
  intros Hc Hl HQ. unfold updateAverages. destruct (_ && _); [|by apply HQ]. cbv zeta.
  destruct (averageCoefficients _) as [[[[[bE bE'] bZ] bZ'] bL] bL']. wp_step.
  apply wp_for_inv with (I := arr i16r 10); [apply (Vad.wf_meanLSF c Hc)| |].
  - intros i m Hi Hm. unfold NB_LSP_COEFF in Hi. wp_step. eapply wp_ld_arr; [done|lia|]. intros s Hs.
    wp_step. eapply wp_ld_arr; [done|lia|]. intros v Hv. eapply wp_st_arr; [done|lia|apply ADD16_rng|done].
  - intros m Hm. apply HQ; [|done]. unfold average. auto 8 with csafe rng.
Qed.

(** *** The smoothing keeps its counters inside their bounds *)

Record smoothing_ok (c : Vad.ctx) : Prop := {
  sm_SVDm1 : Vad.SVDm1 c = VOICE ∨ Vad.SVDm1 c = NOISE;
  sm_SVDm2 : Vad.SVDm2 c = VOICE ∨ Vad.SVDm2 c = NOISE;
  sm_Count_inert : rng 0 6 (Vad.Count_inert c);
  sm_smoothingCounter : rng 0 4 (Vad.smoothingCounter c);
  sm_flag : Vad.secondStageVADSmoothingFlag c = 1 ∨
            Vad.secondStageVADSmoothingFlag c = 0 ∧ Vad.Count_inert c = 6 ∧ Vad.smoothingCounter c = 0
}.

(** What remains of the hangover: how many more [VOICE] decisions silence can bring, plus one. *)
Definition hangover (c : Vad.ctx) : Z :=
  if (Vad.SVDm1 c =? NOISE) && (Vad.Count_inert c =? 6) then 0
  else 6 - Vad.Count_inert c +
       (if Vad.secondStageVADSmoothingFlag c =? 1 then 6 - Vad.smoothingCounter c else 1).

Lemma hangover_bounds c : smoothing_ok c → 0 ≤ hangover c ≤ 12.
Proof.
  intros [? ? Hi Hs Hf]. unfold hangover, rng in *. destruct (_ && _); [lia|].
  destruct (Z.eqb_spec (Vad.secondStageVADSmoothingFlag c) 1); lia.
Qed.

(** One decision on [Ef]: the next smoothing state and the answer. *)
Definition decided (Ef : Z) (c c' : Vad.ctx) (Ivd : Z) : Prop :=
  (Ivd = VOICE ∨ Ivd = NOISE) ∧ smoothing_ok c' ∧
  (Ef < 3072 → hangover c' ≤ hangover c ∧ (Ivd = VOICE → 1 ≤ hangover c' < hangover c)).

Lemma decided_init Ef c c' Ivd : smoothing_ok c → Ivd = (if Ef <? 3072 then NOISE else VOICE) →
  smoothing c' = (Ivd, Vad.SVDm1 c, Vad.Count_inert c, Vad.secondStageVADSmoothingFlag c, Vad.smoothingCounter c) →
  decided Ef c c' Ivd.
Proof.
  unfold smoothing. intros [H1 H2 H3 H4 H5] HI [= E1 E2 E3 E4 E5]. split; [destruct (Ef <? 3072); auto|].
  assert (smoothing_ok c') as Hok.
  { constructor; rewrite ?E1, ?E2, ?E3, ?E4, ?E5; [|done..]. destruct (Ef <? 3072); auto. }
  split; [done|]. intros HE. destruct (Z.ltb_spec Ef 3072); [|lia]. subst Ivd. unfold rng in *.
  split; [|done]. unfold hangover. rewrite E1, E3, E4, E5. cbn [NOISE Z.eqb andb].
  destruct (Z.eqb_spec (Vad.Count_inert c) 6), (Z.eqb_spec (Vad.SVDm1 c) NOISE),
    (Z.eqb_spec (Vad.secondStageVADSmoothingFlag c) 1); cbn [andb]; lia.
Qed.

(** What each stage does to the smoothing state. *)
Ltac stage_cases H :=
  repeat match type of H with context [if ?b then _ else _] => destruct b eqn:?; cbn in H end;
  simplify_eq; cbn; rewrite ?u32_id by (unfold rng; lia).

Lemma hysteresis_cases Ef d I c c' I' : rng 0 6 (Vad.Count_inert c) → I = VOICE ∨ I = NOISE →
  hysteresis Ef d I c = (c', I') →
  Vad.SVDm1 c' = Vad.SVDm1 c ∧ Vad.SVDm2 c' = Vad.SVDm2 c ∧ Vad.smoothingCounter c' = Vad.smoothingCounter c ∧
  Vad.secondStageVADSmoothingFlag c' = Vad.secondStageVADSmoothingFlag c ∧
  (I = VOICE ∧ I' = VOICE ∧ Vad.Count_inert c' = 0 ∨
   I = NOISE ∧ Vad.Count_inert c < 6 ∧ I' = VOICE ∧ Vad.Count_inert c' = Vad.Count_inert c + 1 ∨
   I = NOISE ∧ Vad.Count_inert c = 6 ∧ Vad.Count_inert c' = 6 ∧ (I' = NOISE ∨ I' = VOICE ∧ 3072 < Ef)).
Proof.
  intros Hc HI H. unfold hysteresis in H. unfold rng in Hc.
  destruct HI as [-> | ->]; cbn in H; stage_cases H; unfold VOICE, NOISE; split_and!; try done; lia.
Qed.

Lemma secondStage_cases Ef I c c' I' : rng 0 4 (Vad.smoothingCounter c) → secondStage Ef I c = (c', I') →
  Vad.SVDm1 c' = Vad.SVDm1 c ∧ Vad.SVDm2 c' = Vad.SVDm2 c ∧ Vad.Count_inert c' = Vad.Count_inert c ∧
  (I = NOISE ∧ Vad.SVDm1 c = VOICE ∧ Vad.secondStageVADSmoothingFlag c = 1 ∧ I' = VOICE ∧
     (Vad.smoothingCounter c < 4 ∧ Vad.secondStageVADSmoothingFlag c' = 1 ∧ Vad.smoothingCounter c' = Vad.smoothingCounter c + 1 ∨
      Vad.smoothingCounter c = 4 ∧ Vad.secondStageVADSmoothingFlag c' = 0 ∧ Vad.smoothingCounter c' = 0) ∨
   I' = I ∧ Vad.secondStageVADSmoothingFlag c' = 1 ∧ Vad.smoothingCounter c' = Vad.smoothingCounter c).
Proof.
  intros Hc H. unfold secondStage in H. unfold rng in Hc.
  assert (u32 (Vad.smoothingCounter c + 1) = Vad.smoothingCounter c + 1) as E by (apply u32_id; unfold rng; lia).
  cbn in H. rewrite E in H. stage_cases H; split_and!; try done; lia.
Qed.

Lemma thirdStage_cases Ef I c c' I' : I = VOICE ∨ I = NOISE → thirdStage Ef I c = (c', I') →
  Vad.SVDm1 c' = Vad.SVDm1 c ∧ Vad.SVDm2 c' = Vad.SVDm2 c ∧ Vad.smoothingCounter c' = Vad.smoothingCounter c ∧
  Vad.secondStageVADSmoothingFlag c' = Vad.secondStageVADSmoothingFlag c ∧
  (I' = I ∧ Vad.Count_inert c' = Vad.Count_inert c ∨ I = VOICE ∧ I' = NOISE ∧ Vad.Count_inert c' = 6).
Proof.
  intros HI H. unfold thirdStage in H. destruct HI as [-> | ->]; cbn in H; stage_cases H; auto 10.
Qed.

(** The smoothing of an initial decision, then the end of the frame. *)
Lemma decided_smooth Ef dEf I0 c c0 c1 Ivd c' : smoothing c0 = smoothing c →
  (I0 = VOICE ∨ I0 = NOISE) → (Ef < 3072 → I0 = NOISE) → smoothing_ok c →
  smoothDecision Ef dEf I0 c0 = (c1, Ivd) →
  smoothing c' = (Ivd, Vad.SVDm1 c1, Vad.Count_inert c1, Vad.secondStageVADSmoothingFlag c1, Vad.smoothingCounter c1) →
  decided Ef c c' Ivd.
Proof.
  unfold smoothing, decided. intros [= E1 E2 E3 E4 E5] HI0 HE [H1 H2 H3 H4 H5] Hsm [= F1 F2 F3 F4 F5].
  unfold smoothDecision in Hsm. destruct (hysteresis Ef dEf I0 c0) as [a Ia] eqn:Ha.
  destruct (secondStage Ef Ia a) as [b Ib] eqn:Hb.
  apply hysteresis_cases in Ha as (A1 & A2 & A3 & A4 & HA); [|by rewrite E3|done].
  apply secondStage_cases in Hb as (B1 & B2 & B3 & HB); [|by rewrite A3, E5].
  assert (Ib = VOICE ∨ Ib = NOISE) as HIb.
  { clear -HA HB. destruct HB as [(_ & _ & _ & -> & _)|(-> & _)]; [by left|].
    destruct HA as [(_ & -> & _)|[(_ & _ & -> & _)|(_ & _ & _ & [-> | [-> _]])]]; auto. }
  apply thirdStage_cases in Hsm as (C1 & C2 & C3 & C4 & HC); [|done].
  split; [by destruct HC as [[-> _]|(_ & -> & _)]; auto|].
  destruct c, c0, a, b, c1, c'. cbn in *. subst. unfold rng, VOICE, NOISE in *.
  destruct HA as [(-> & -> & ->)|[(-> & ? & -> & ->)|(-> & -> & -> & [-> | [-> ?]])]];
  destruct HB as [(? & ? & ? & -> & [(? & -> & ->)|(? & -> & ->)])|(-> & -> & ->)];
  destruct HC as [[-> ->]|(? & -> & ->)]; try done.
  all: split; [constructor; unfold rng, VOICE, NOISE; cbn; lia|]. all: intros HEf; try (specialize (HE HEf); done); try lia.
  all: unfold hangover, NOISE; cbn; destruct H1, H5 as [? | (? & ? & ?)]; simplify_eq; cbn; try done;
    repeat case_match; lia.
Qed.



Lemma smoothDecision_wf Ef d I c : Vad.wf c → Vad.wf (smoothDecision Ef d I c).1.
Proof.
  intros Hc. assert (∀ n, 0 ≤ n ≤ 6 → u32r n) as Hn by (unfold rng; lia).
  unfold smoothDecision. destruct (hysteresis Ef d I c) as [a Ia] eqn:Ha.
  assert (Vad.wf a) as Wa.
  { unfold hysteresis in Ha. repeat case_match; simplify_eq;
      repeat apply Vad.vad_wf_set_Count_inert; auto with rng; apply Hn; lia. }
  destruct (secondStage Ef Ia a) as [b Ib] eqn:Hb. assert (Vad.wf b) as Wb.
  { unfold secondStage in Hb. cbv zeta in Hb. repeat case_match; simplify_eq;
      repeat (apply Vad.vad_wf_set_smoothingCounter || apply Vad.vad_wf_set_secondStageVADSmoothingFlag);
      auto with rng; unfold rng; lia. }
  unfold thirdStage. cbv zeta. repeat case_match; simplify_eq; cbn [fst];
    repeat (apply Vad.vad_wf_set_Count_inert || apply Vad.vad_wf_set_noiseContinuityCounter);
    auto with rng; unfold rng; lia.
Qed.

Lemma wp_activityFrame F k Ef El ZC l c (Q : Vad.ctx * Z → Prop) :
  Vad.wf c → smoothing_ok c → i16r Ef → arr i16r 10 l →
  (∀ c' Ivd, Vad.wf c' → decided Ef c c' Ivd → Q (c', Ivd)) →
  wp F (activityFrame k Ef El ZC l c) Q.
Proof.
  intros Hc Hs HE Hl HQ. unfold activityFrame. wp_step.
  apply (wp_getMinInArray _ 128); [eauto with csafe|]. intros Emin Hmin. wp_step.
  apply wp_spectralDistorsion; [done|eauto with csafe|]. intros dS. cbv zeta.
  set (I0 := if Ef <? 3072 then _ else _). destruct (smoothDecision _ _ _ _) as [c1 Ivd] eqn:Hsm.
  assert (Vad.wf c1) as Hc1 by (replace c1 with (c1, Ivd).1 by done; rewrite <-Hsm; by apply smoothDecision_wf). wp_step.
  apply wp_updateAverages; [done|done|]. intros c2 Hc2 E2. cbn [wp].
  assert (decided Ef c (closeFrame Ef Ivd (resetMeanEnergy Emin dS c2)) Ivd) as Hd.
  { eapply decided_smooth; [done| | |done|exact Hsm|].
    - unfold I0. destruct (Ef <? 3072); [by right|]. apply decision_cases.
    - unfold I0. destruct (Z.ltb_spec Ef 3072); [done|lia].
    - revert E2. unfold closeFrame, resetMeanEnergy, smoothing. intros [= ? ? ? ? ?]. destruct (_ && _); cbn; congruence. }
  apply HQ; [|done]. apply closeFrame_wf; [|done|apply Hd]. unfold resetMeanEnergy. destruct (_ && _); [|done].
  apply Vad.vad_wf_set_updateCount; [auto with csafe|]. unfold rng. lia.
Qed.

Lemma wp_bcg729_vad (F : fault → Prop) c k l r scale n s off (Q : Vad.ctx * Z → Prop) :
  Vad.wf c → smoothing_ok c → arr i16r 10 l → arr i32r 13 r → 0 ≤ at_ r 0 < 2147483647 ∨ F NoReturn →
  arr i16r n s → 1 ≤ off → off + 80 ≤ n →
  (∀ Ef c' Ivd, fullBandEnergy r scale = Ok Ef → Vad.wf c' → decided Ef c c' Ivd → Q (c', Ivd)) →
  wp F (bcg729_vad c k l r scale s off) Q.
Proof.
  intros Hc Hs Hl Hr H0 Hsig Ho Hn HQ. unfold bcg729_vad. destruct (fullBandEnergy r scale) as [Ef|f] eqn:HEf.
  2:{ cbn. pose proof (wp_fullBandEnergy F r scale (λ _, True) Hr H0 ltac:(done)) as H. by rewrite HEf in H. }
  assert (i16r Ef) as HEr.
  { pose proof (wp_fullBandEnergy (λ f, f = NoReturn) r scale i16r Hr ltac:(by right) ltac:(done)) as H. by rewrite HEf in H. }
  cbn [bind]. wp_step. pose proof (Vad.wf_frameCount _ Hc) as Hf. unfold rng in Hf.
  eapply wp_st_arr; [apply (Vad.wf_EfBuffer _ Hc)|apply Z.mod_pos_bound; by vm_compute|done|]. intros b Hb. cbv zeta.
  wp_step. apply wp_lowBandEnergy; [done|]. intros El HEl. wp_step.
  apply (wp_zeroCrossingRate _ n); [done..|]. intros ZC HZC. wp_step.
  assert (Vad.wf (Vad.set_EfBuffer b c)) as Hc1 by auto with csafe.
  eapply (wp_mono _ _ (λ c', Vad.wf c' ∧ smoothing c' = smoothing c)).
  { destruct (_ =? Ni); [|done]. apply wp_completeInitialisation; [done|]. auto. }
  intros c2 [Hc2 E2]. assert (smoothing_ok c2) as Hs2.
  { revert E2. unfold smoothing. intros [= E1 E3 E4 E5 E6]. destruct Hs. constructor; congruence. }
  assert (hangover c2 = hangover c) as Eh.
  { revert E2. unfold smoothing, hangover. intros [= -> _ -> -> ->]. done. }
  destruct (_ <? Ni).
  - apply wp_initialisationFrame; [done..|]. intros c' Ivd Hc' HI Esm. apply (HQ Ef); [done..|].
    unfold decided. rewrite <-Eh. by apply decided_init.
  - apply wp_activityFrame; [done..|]. intros c' Ivd Hc' Hd. apply (HQ Ef); [done..|].
    unfold decided. by rewrite <-Eh.
Qed.
