(* ===== verification/EncDtx.v ===== *)
(** Discontinuous transmission ([dtx.c]): which noise frames are described by a silence
    insertion descriptor (SID), its content, and the comfort noise the encoder runs on. *)

From S2P Require Import Prelude FixedPoint Codebooks Math Utils EncContext EncChannel DecodeLSP LP2LSP ComfortNoise EncLP EncLSP.

Definition SID_FRAME : Z := 2.
Definition UNTRANSMITTED_FRAME : Z := 0.

(** ** sumAutocorrelationCoefficients *)

(** [ABS] on a 64-bit operand. *)
Definition ABS64 (a : Z) : Z := if 0 <? a then a else i64 (- a).

(** The rows and scales are read from the index [base]: the pointer the function gets. *)
Definition lowestScale (scales : list Z) (base n : Z) : res Z :=
  let* s0 := ld scales base in
  for_up 1 n s0 (λ i minScale,
    let* s := ld scales (base + i) in
    Ok (if s <? minScale then s else minScale)).

Definition rescaleRows (rows : list (list Z)) (scales : list Z) (base n minScale : Z) : res (list (list Z)) :=
  for_up 0 n (replicate 7 (zeros (NB_LSP_COEFF + 1))) (λ j rescaled,
    let* s := ld scales (base + j) in
    let rescaling := i8 (s - minScale) in
    for_up 0 (NB_LSP_COEFF + 1) rescaled (λ i rescaled,
      let* v := ld2 rows (base + j) i in
      let* v := shr_chk v rescaling in
      st2 rescaled j i v)).

(** [(autoCorrelationSumBuffer, max)] *)
Definition sumRows (rescaled : list (list Z)) (n : Z) : res (list Z * Z) :=
  for_up 0 (NB_LSP_COEFF + 1) (zeros (NB_LSP_COEFF + 1), 0) (λ i '(sums, max),
    let* v := ld2 rescaled 0 i in
    let* sums := st sums i v in
    let* sums := for_up 1 n sums (λ j sums,
      let* a := ld sums i in
      let* v := ld2 rescaled j i in
      st sums i (ADD64 a v)) in
    let* s := ld sums i in
    Ok (sums, if max <? ABS64 s then ABS64 s else max)).

(** The [do ... while] is entered with its condition true, so it is the [while] below; a
    64-bit value is below 2^31 after 33 shifts. *)
Definition normaliseSums (sums : list Z) (max : Z) (result : list Z) : res (list Z * Z) :=
  if MAXINT32 <? max then
    let* (_, n) := while 40 (λ '(max, _), Ok (MAXINT32 <? max))
      (λ '(max, n), Ok (SHR max 1, i8 (n + 1))) (max, 0) in
    let* r := for_up 0 (NB_LSP_COEFF + 1) result (λ i r,
      let* s := ld sums i in
      let* v := shr64_chk s n in
      st r i (i32 v)) in
    Ok (r, n)
  else
    let* r := for_up 0 (NB_LSP_COEFF + 1) result (λ i r,
      let* s := ld sums i in
      st r i (i32 s)) in
    Ok (r, 0).

Definition sumAutocorrelationCoefficients (rows : list (list Z)) (scales : list Z) (base nbElements : Z)
    (result : list Z) : res (list Z * Z) :=
  let* minScale := lowestScale scales base nbElements in
  let* rescaled := rescaleRows rows scales base nbElements minScale in
  let* (sums, max) := sumRows rescaled nbElements in
  let* (result, rightShiftToNormalise) := normaliseSums sums max result in
  Ok (result, i8 (minScale - rightShiftToNormalise)).

(** ** residualEnergyQuantization *)

(** [log10] of the energy per sample, in Q15. *)
Definition logResidualEnergy (residualEnergy residualEnergyScale : Z) : res Z :=
  let* l := g729Log2_Q0Q16 residualEnergy in
  let acc := SUB32 l (ADD32 479849 (i32 (Z.shiftl residualEnergyScale 16))) in
  Ok (MULT16_32_Q15 INV_LOG2_10_Q15 (SHR acc 1)).

(** [(index, decodedLogEnergy)] from the logarithm. *)
Definition quantizeLogEnergy (acc : Z) : Z * Z :=
  if acc <? -26214 then (0, -12)
  else if acc <? 45875 then
    let acc := i32 (acc + 19661) in
    let acc := if acc <? 0 then 0 else MULT16_32_Q13 20480 acc in
    let steps := u8 (SHR acc 15) in
    (u8 (1 + steps), i8 (-2 + 4 * steps))
  else if acc <? 216268 then
    let acc := i32 (acc - 49152) in
    let acc := if acc <? 0 then 0 else MULT16_32_Q12 20480 acc in
    let steps := u8 (SHR acc 15) in
    (u8 (6 + steps), i8 (16 + 2 * steps))
  else (31, 66).

Definition residualEnergyQuantization (residualEnergy residualEnergyScale : Z) : res (Z * Z) :=
  let* acc := logResidualEnergy residualEnergy residualEnergyScale in
  Ok (quantizeLogEnergy acc).

(** ** LP filters *)

Definition computeLPCoefficientAutocorrelation (LP out : list Z) : res (list Z) :=
  let* out := st out 0 (Z.shiftr (4096 * 4096) 4) in
  let* out := for_up 0 NB_LSP_COEFF out (λ k out,
    let* a := ld out 0 in
    let* x := ld LP k in
    st out 0 (MAC16_16_Q4 a x x)) in
  for_up 1 (NB_LSP_COEFF + 1) out (λ j out,
    let* x := ld LP (j - 1) in
    let* out := st out j (SHL x 9) in
    for_up 0 (10 - j) out (λ k out,
      let* a := ld out j in
      let* x := ld LP k in
      let* y := ld LP (k + j) in
      st out j (MAC16_16_Q3 a x y))).

Definition compareLPCFilters (LPAutocorrelation autocorrelation : list Z) (residualEnergy threshold : Z) : res Z :=
  let* acc := for_up 0 (NB_LSP_COEFF + 1) 0 (λ i acc,
    let* a := ld LPAutocorrelation i in
    let* b := ld autocorrelation i in
    Ok (MAC64 acc a b)) in
  Ok (if MULT32_32 residualEnergy threshold <=? acc then 1 else 0).

(** ** updateDTXContext *)

Definition moveRow (i : Z) (s : list (list Z) * list Z) : res (list (list Z) * list Z) :=
  let '(rows, scales) := s in
  let* r := ld rows (i - 1) in
  let* b := read_block r 0 (NB_LSP_COEFF + 1) in
  let* d := ld rows i in
  let* d := write_block d 0 b in
  let* rows := st rows i d in
  let* v := ld scales (i - 1) in
  let* scales := st scales i v in
  Ok (rows, scales).

Definition updateDTXContext (d : Dtx.ctx) (autocorrelationCoefficients : list Z) (scale : Z) : res Dtx.ctx :=
  let* s := moveRow 6 (Dtx.autocorrelationCoefficients d, Dtx.autocorrelationCoefficientsScale d) in
  let* s := moveRow 5 s in
  let* s := moveRow 4 s in
  let* s := moveRow 3 s in
  let* s := moveRow 2 s in
  let* (rows, scales) := moveRow 1 s in
  let* r := ld rows 0 in
  let* r := copy_block r 0 autocorrelationCoefficients 0 (NB_LSP_COEFF + 1) in
  let* rows := st rows 0 r in
  let* scales := st scales 0 scale in
  Ok (Dtx.set_autocorrelationCoefficientsScale scales (Dtx.set_autocorrelationCoefficients rows d)).

(** ** encodeSIDFrame *)

(** The arrays of the caller that the function writes. *)
Record sidFrame : Type := SidFrame {
  sf_dtx : Dtx.ctx;
  sf_previousLSP : list Z;
  sf_previousqLSP : list Z;
  sf_previousqLSF : list (list Z);
  sf_excitation : list Z;
  sf_qLP : list Z;
  sf_bitStream : list Z;
  sf_bitStreamLength : Z
}.

(** The mean energy of the current and previous noise frames, and its scale. *)
Definition meanEnergy (d : Dtx.ctx) (residualEnergy scale : Z) : res (Z * Z) :=
  let previous := Dtx.previousResidualEnergyScale d in
  if scale <? previous then
    let* p := VSHR32 (Dtx.previousResidualEnergy d) (previous - scale + 1) in
    Ok (ADD32 (SHR residualEnergy 1) p, scale)
  else
    let* p := VSHR32 residualEnergy (scale - previous + 1) in
    Ok (ADD32 p (SHR (Dtx.previousResidualEnergy d) 1), i8 previous).

(** The type of the frame: [(d, frameType, quantizedResidualEnergy, decodedLogEnergy)] *)
Definition chooseFrameType (d : Dtx.ctx) (summed : list Z) (scale residualEnergy : Z) : res (Dtx.ctx * Z * Z * Z) :=
  if Dtx.previousVADflag d =? 1 then
    let* (q, log) := residualEnergyQuantization residualEnergy scale in
    Ok (d, SID_FRAME, q, log)
  else
    let* (mean, meanScale) := meanEnergy d residualEnergy scale in
    let* (q, log) := residualEnergyQuantization mean meanScale in
    let* differ := compareLPCFilters (Dtx.SIDLPCoefficientAutocorrelation d) summed residualEnergy THRESHOLD1_IN_Q20 in
    let flag_chang := if negb (differ =? 0) then 1 else 0 in
    let flag_chang := if 2 <? ABS (Dtx.previousDecodedLogEnergy d - log) then 1 else flag_chang in
    let d := Dtx.set_count_fr (u8 (Dtx.count_fr d + 1)) d in
    if Dtx.count_fr d <? 3 then Ok (d, UNTRANSMITTED_FRAME, q, log)
    else Ok (Dtx.set_count_fr 3 d, if flag_chang =? 1 then SID_FRAME else UNTRANSMITTED_FRAME, q, log).

(** The spectrum described by the SID: the average filter of the six past frames, or the current
    one when they differ: [(d, LSPCoefficients)]. *)
Definition selectSpectrum (d : Dtx.ctx) (previousqLSP summed LP k : list Z) (residualEnergy log : Z)
    : res (Dtx.ctx * list Z) :=
  let* (average, _) := sumAutocorrelationCoefficients (Dtx.autocorrelationCoefficients d)
    (Dtx.autocorrelationCoefficientsScale d) 1 6 (zeros (NB_LSP_COEFF + 1)) in
  let* (pastLP, pastK, _) := autoCorrelation2LP average (zeros NB_LSP_COEFF) (zeros NB_LSP_COEFF) in
  let* a := computeLPCoefficientAutocorrelation pastLP (Dtx.SIDLPCoefficientAutocorrelation d) in
  let d := Dtx.set_decodedLogEnergy log (Dtx.set_SIDLPCoefficientAutocorrelation a d) in
  let* differ := compareLPCFilters a summed residualEnergy THRESHOLD3_IN_Q20 in
  let* (d, usedLP, usedK) :=
    (if differ =? 0 then Ok (d, pastLP, pastK)
     else
       let* a := computeLPCoefficientAutocorrelation LP a in
       Ok (Dtx.set_SIDLPCoefficientAutocorrelation a d, LP, k)) in
  let* (found, LSP) := LP2LSPConversion usedLP (zeros NB_LSP_COEFF) in
  let* LSP := (if found then Ok LSP else copy_block LSP 0 previousqLSP 0 NB_LSP_COEFF) in
  let* kd := copy_block (Dtx.reflectionCoefficients d) 0 usedK 0 NB_LSP_COEFF in
  Ok (Dtx.set_reflectionCoefficients kd d, LSP).

(** The content of a SID: [(d, previousLSP, previousqLSF, parameters)] *)
Definition generateSID (d : Dtx.ctx) (previousLSP previousqLSP : list Z) (previousqLSF : list (list Z))
    (summed LP k : list Z) (residualEnergy q log : Z) : res (Dtx.ctx * list Z * list (list Z) * list Z) :=
  let d := Dtx.set_count_fr 0 d in
  let* (d, LSP) := selectSpectrum d previousqLSP summed LP k residualEnergy log in
  let* previousLSP := copy_block previousLSP 0 LSP 0 NB_LSP_COEFF in
  let* (previousqLSF, qLSP, parameters) := noiseLSPQuantization previousqLSF LSP (Dtx.qLSPCoefficients d) (zeros 3) in
  let d := Dtx.set_previousDecodedLogEnergy log (Dtx.set_qLSPCoefficients qLSP d) in
  let* g := ld SIDGainCodebook q in
  Ok (Dtx.set_currentSIDGain g d, previousLSP, previousqLSF, parameters).

Definition smoothSIDGain (d : Dtx.ctx) : Dtx.ctx :=
  if Dtx.previousVADflag d =? 1 then Dtx.set_smoothedSIDGain (Dtx.currentSIDGain d) d
  else
    let d := Dtx.set_smoothedSIDGain (i16 (SUB16 (Dtx.smoothedSIDGain d) (Z.shiftr (Dtx.smoothedSIDGain d) 3))) d in
    Dtx.set_smoothedSIDGain (ADD16 (Dtx.smoothedSIDGain d) (Z.shiftr (Dtx.currentSIDGain d) 3)) d.

(** The two bytes of a SID. *)
Definition packSID (parameters : list Z) (q : Z) (bitStream : list Z) : res (list Z) :=
  let* p0 := ld parameters 0 in
  let* p1 := ld parameters 1 in
  let* p2 := ld parameters 2 in
  let* b := st bitStream 0
    (u8 (Z.lor (Z.lor (Z.shiftl (Z.land p0 1) 7) (Z.shiftl (Z.land p1 31) 2)) (Z.rem (Z.shiftr p2 2) 3))) in
  st b 1 (u8 (Z.lor (Z.shiftl (Z.land p2 3) 6) (Z.shiftl (Z.land q 31) 1))).

(** [excitationVector] points at offset [L_PAST_EXCITATION] of its buffer. *)
Definition encodeSIDFrame (VADflag : Z) (s : sidFrame) : res sidFrame :=
  let d := sf_dtx s in
  if VADflag =? 1 then
    Ok (SidFrame (Dtx.set_previousVADflag 1 (Dtx.set_pseudoRandomSeed CNG_DTX_RANDOM_SEED_INIT d))
          (sf_previousLSP s) (sf_previousqLSP s) (sf_previousqLSF s) (sf_excitation s) (sf_qLP s)
          (sf_bitStream s) (sf_bitStreamLength s))
  else
    let* (summed, scale) := sumAutocorrelationCoefficients (Dtx.autocorrelationCoefficients d)
      (Dtx.autocorrelationCoefficientsScale d) 0 2 (zeros (NB_LSP_COEFF + 1)) in
    let* (LP, k, residualEnergy) := autoCorrelation2LP summed (zeros NB_LSP_COEFF) (zeros NB_LSP_COEFF) in
    let* (d, frameType, q, log) := chooseFrameType d summed scale residualEnergy in
    let* (d, previousLSP, previousqLSF, parameters) :=
      (if frameType =? SID_FRAME then
         generateSID d (sf_previousLSP s) (sf_previousqLSP s) (sf_previousqLSF s) summed LP k residualEnergy q log
       else Ok (d, sf_previousLSP s, sf_previousqLSF s, zeros 3)) in
    let d := Dtx.set_previousResidualEnergyScale (u8 scale) (Dtx.set_previousResidualEnergy residualEnergy d) in
    let d := smoothSIDGain d in
    let* (excitation, seed) := computeComfortNoiseExcitationVector (Dtx.smoothedSIDGain d)
      (Dtx.pseudoRandomSeed d) (sf_excitation s) L_PAST_EXCITATION in
    let d := Dtx.set_pseudoRandomSeed seed d in
    let* interpolated := interpolateqLSP (sf_previousqLSP s) (Dtx.qLSPCoefficients d) (zeros NB_LSP_COEFF) in
    let* previousqLSP := for_up 0 NB_LSP_COEFF (sf_previousqLSP s) (λ i p,
      let* v := ld (Dtx.qLSPCoefficients d) i in st p i v) in
    let* qLP := qLSP2LP interpolated (sf_qLP s) 0 in
    let* qLP := qLSP2LP (Dtx.qLSPCoefficients d) qLP NB_LSP_COEFF in
    let* (bitStream, len) :=
      (if frameType =? SID_FRAME then
         let* b := packSID parameters q (sf_bitStream s) in Ok (b, 2)
       else Ok (sf_bitStream s, 0)) in
    Ok (SidFrame (Dtx.set_previousVADflag 0 d) previousLSP previousqLSP previousqLSF excitation qLP bitStream len).

(** ** Safety *)

(** The faults a noise frame may reach: divisions of the LP analysis, shifts between frames of
    very different scales, the logarithm of a negative energy, an index never set. *)
Definition sid_fault (f : fault) : Prop := f = DivError ∨ f = BadShift ∨ f = NoReturn ∨ f = Uninit.

Lemma sid_div : sid_fault DivError. Proof. by left. Qed.
Lemma sid_shift : sid_fault BadShift. Proof. by right; left. Qed.
Lemma sid_loop : sid_fault NoReturn. Proof. by right; right; left. Qed.
Lemma sid_uninit : sid_fault Uninit. Proof. by right; right; right. Qed.
#[local] Hint Resolve sid_div sid_shift sid_loop sid_uninit : core.

Lemma wp_shr_chk_any (F : fault → Prop) a n (Q : Z → Prop) :
  F BadShift → i32r a → (∀ v, i32r v → Q v) → wp F (shr_chk a n) Q.
Proof.
  intros HF Ha HQ. unfold shr_chk. destruct (_ && _) eqn:E; [|done]. apply HQ, shiftr_rng; [lia..|done].
Qed.

Lemma wp_VSHR32_any (F : fault → Prop) a n (Q : Z → Prop) :
  F BadShift → i32r a → (∀ v, i32r v → Q v) → wp F (VSHR32 a n) Q.
Proof.
  intros HF Ha HQ. unfold VSHR32. destruct (0 <? n); [by apply wp_shr_chk_any|].
  unfold shl_chk. destruct (_ && _); [|done]. apply HQ, i32_rng.
Qed.

Lemma ABS64_rng a : rng (-9000000000000000000) 9000000000000000000 a → 0 ≤ ABS64 a ≤ Z.abs a.
Proof. unfold rng, ABS64. intros. destruct (Z.ltb_spec 0 a); [lia|]. rewrite i64_id by (unfold rng; lia). lia. Qed.

Lemma wp_lowestScale F scales base n (Q : Z → Prop) :
  arr i8r 7 scales → 0 ≤ base → 1 ≤ n → base + n ≤ 7 → (∀ s, i8r s → Q s) → wp F (lowestScale scales base n) Q.
Proof.
  intros Hs Hb Hn Hlen HQ. unfold lowestScale. wp_step. eapply wp_ld_arr; [done|lia|]. intros s0 H0.
  apply wp_for_inv with (I := i8r); [done| |done]. intros i m Hi Hm. wp_step.
  eapply wp_ld_arr; [done|lia|]. intros s H. cbn [wp]. by case_match.
Qed.

Abbreviation rows7 := (arr (arr i32r 11) 7).

Lemma wp_rescaleRows (F : fault → Prop) rows scales base n m (Q : list (list Z) → Prop) :
  F BadShift → rows7 rows → arr i8r 7 scales → 0 ≤ base → base + n ≤ 7 → (∀ r, rows7 r → Q r) →
  wp F (rescaleRows rows scales base n m) Q.
Proof.
  intros HF Hr Hs Hb Hlen HQ. unfold rescaleRows. change (NB_LSP_COEFF + 1) with 11.
  apply wp_for_inv with (I := rows7); [apply arr_rng2_by; reflexivity| |done].
  intros j r Hj Hr'. wp_step. eapply wp_ld_arr; [done|lia|]. intros s _. cbv zeta.
  apply wp_for_inv with (I := rows7); [done| |done]. intros i r2 Hi Hr2. wp_step.
  eapply (wp_ld2_arr _ i32r); [done|lia|lia|]. intros v Hv. wp_step.
  apply wp_shr_chk_any; [done..|]. intros v' Hv'. eapply wp_st2_arr; [done|lia|lia|done|done].
Qed.

(** Sums of at most seven 32-bit values. *)
Abbreviation sum64 := (rng (-15032385536) 15032385536).

Lemma wp_sumRows F rows n (Q : list Z * Z → Prop) :
  rows7 rows → 1 ≤ n ≤ 7 → (∀ s m, arr sum64 11 s → 0 ≤ m ≤ 15032385536 → Q (s, m)) → wp F (sumRows rows n) Q.
Proof.
  intros Hr Hn HQ. unfold sumRows. change (NB_LSP_COEFF + 1) with 11.
  apply wp_for_inv with (I := λ '(s, m), arr sum64 11 s ∧ 0 ≤ m ≤ 15032385536).
  - split; [by apply (arr_zeros sum64 11)|lia].
  - intros i [s m] Hi [Hs Hm]. wp_step. eapply (wp_ld2_arr _ i32r); [done|lia|lia|]. intros v Hv. wp_step.
    apply wp_st; [rewrite (proj1 Hs); lia|]. set (s1 := <[_ := v]> s).
    assert (zlen s1 = 11) as L1 by (unfold s1; by rewrite zlen_insert, (proj1 Hs)). wp_step.
    apply wp_for_up with (I := λ j t, zlen t = 11 ∧ Forall sum64 t ∧ rng (-2147483648 * j) (2147483648 * j) (at_ t i)); [lia| | |].
    + split; [done|]. split; [apply Forall_insert; [apply Hs|]; unfold rng in *; lia|].
      unfold s1. rewrite at_insert, Z.eqb_refl by (rewrite ?(proj1 Hs); lia). unfold rng in *. lia.
    + intros j t Hj (Lt & Ft & Ht). rewrite ld_at by lia. cbn [bind]. wp_step.
      eapply (wp_ld2_arr _ i32r); [done|lia|lia|]. intros w Hw. rewrite st_ok by lia. cbn [wp].
      assert (ADD64 (at_ t i) w = at_ t i + w) as ->.
      { unfold ADD64. unfold rng in *. rewrite !i64_id; unfold rng; rewrite ?i64_id; unfold rng; lia. }
      split; [by rewrite zlen_insert|]. split; [apply Forall_insert; [done|]; unfold rng in *; lia|].
      rewrite at_insert, Z.eqb_refl by lia. unfold rng in *. lia.
    + intros t (Lt & Ft & Ht). rewrite ld_at by lia. cbn [bind wp]. split; [by split|].
      pose proof (ABS64_rng (at_ t i) ltac:(unfold rng in *; lia)). unfold rng in *. case_match; lia.
  - intros [s m] [Hs Hm]. by apply HQ.
Qed.

Lemma wp_normaliseSums F sums max r (Q : list Z * Z → Prop) :
  arr sum64 11 sums → 0 ≤ max ≤ 15032385536 → arr i32r 11 r →
  (∀ r n, arr i32r 11 r → 0 ≤ n ≤ 3 → Q (r, n)) → wp F (normaliseSums sums max r) Q.
Proof.
  intros Hs Hm Hr HQ. unfold normaliseSums. change (NB_LSP_COEFF + 1) with 11.
  destruct (MAXINT32 <? max).
  - wp_step.
    apply wp_while with (I := λ '(m, n), 0 ≤ m ∧ 0 ≤ n ≤ 3 ∧ n + Z.log2 m ≤ 33) (μ := λ '(m, n), Z.log2 m).
    + split; [lia|]. split; [lia|]. pose proof (Z.log2_le_mono max 15032385536 ltac:(lia)) as H. change (Z.log2 15032385536) with 33 in H. lia.
    + pose proof (Z.log2_le_mono max 15032385536 ltac:(lia)) as H. change (Z.log2 15032385536) with 33 in H. lia.
    + intros [m n] _. apply Z.log2_nonneg.
    + intros [m n] (H0 & Hn & Hl). cbn [wp]. unfold MAXINT32, SHR. destruct (Z.ltb_spec 2147483647 m).
      * assert (31 ≤ Z.log2 m) by (apply Z.log2_le_pow2; lia). cbn [wp].
        rewrite Z.log2_shiftr by lia. assert (i8 (n + 1) = n + 1) as ->.
        { unfold i8. destruct (_ && _) eqn:E; [done|lia]. }
        split; [split; [apply Z.shiftr_nonneg; lia|lia]|lia].
      * wp_step. apply wp_for_inv with (I := arr i32r 11); [done| |].
        -- intros i t Hi Ht. wp_step. eapply wp_ld_arr; [done|lia|]. intros s _. wp_step.
           apply wp_shr64_chk; [lia|]. eapply wp_st_arr; [done|lia|apply i32_rng|done].
        -- intros t Ht. apply HQ; [done|lia].
  - wp_step. apply wp_for_inv with (I := arr i32r 11); [done| |].
    + intros i t Hi Ht. wp_step. eapply wp_ld_arr; [done|lia|]. intros s _.
      eapply wp_st_arr; [done|lia|apply i32_rng|done].
    + intros t Ht. apply HQ; [done|lia].
Qed.

Lemma wp_sumAutocorrelationCoefficients (F : fault → Prop) rows scales base n r (Q : list Z * Z → Prop) :
  F BadShift → rows7 rows → arr i8r 7 scales → 0 ≤ base → 1 ≤ n → base + n ≤ 7 → arr i32r 11 r →
  (∀ r s, arr i32r 11 r → i8r s → Q (r, s)) → wp F (sumAutocorrelationCoefficients rows scales base n r) Q.
Proof.
  intros HF Hrows Hs Hb Hn Hlen Hr HQ. unfold sumAutocorrelationCoefficients. wp_step.
  apply wp_lowestScale; [done..|]. intros m Hm. wp_step. apply wp_rescaleRows; [done..|]. intros rr Hrr. wp_step.
  apply wp_sumRows; [done|lia|]. intros s mx Hs' Hmx. wp_step. apply wp_normaliseSums; [done..|].
  intros r' k Hr' Hk. apply HQ; [done|apply i8_rng].
Qed.

(** *** Residual energy *)

(** The level of an index: [decodedLogEnergy]. *)
Definition levelOf (i : Z) : Z := if i =? 0 then -12 else if i <? 6 then 4 * i - 6 else 2 * i + 4.

Lemma quantizeLogEnergy_spec acc : i32r acc →
  let '(i, d) := quantizeLogEnergy acc in
  0 ≤ i ≤ 31 ∧ d = levelOf i ∧
  (acc < -26214 → i = 0) ∧ (216268 ≤ acc → i = 31) ∧
  (-26214 ≤ acc < 45875 → 1 ≤ i ≤ 5 ∧ (i = 1 ∧ acc + 19661 < 0 ∨ 32768 * (2 * (i - 1)) ≤ 5 * (acc + 19661) < 32768 * (2 * i))) ∧
  (45875 ≤ acc < 216268 → 6 ≤ i ∧ (i = 6 ∧ acc < 49152 ∨ 32768 * (i - 6) ≤ 5 * (acc - 49152) < 32768 * (i - 5))).
Proof.
  intros Ha. unfold rng in Ha.
  destruct (Z.lt_ge_cases acc (-26214)) as [Hlo|Hlo].
  { unfold quantizeLogEnergy. destruct (Z.ltb_spec acc (-26214)); [|lia]. unfold levelOf. cbn. lia. }
  destruct (Z.lt_ge_cases acc 216268) as [Hhi|Hhi].
  2:{ unfold quantizeLogEnergy. destruct (Z.ltb_spec acc (-26214)), (Z.ltb_spec acc 45875), (Z.ltb_spec acc 216268); try lia.
      unfold levelOf. cbn. lia. }
  exhaust 18%nat (-26214) 216268 (λ acc, let '(i, d) := quantizeLogEnergy acc in (d =? levelOf i) &&
    (if acc <? 45875 then (1 <=? i) && (i <=? 5) && ((i =? 1) && (acc + 19661 <? 0) ||
       (32768 * (2 * (i - 1)) <=? 5 * (acc + 19661)) && (5 * (acc + 19661) <? 32768 * (2 * i)))
     else (216268 <=? acc) || (6 <=? i) && (i <=? 31) && ((i =? 6) && (acc <? 49152) ||
       (32768 * (i - 6) <=? 5 * (acc - 49152)) && (5 * (acc - 49152) <? 32768 * (i - 5))))) acc as H.
  destruct (quantizeLogEnergy acc) as [i d]. apply andb_true_iff in H as [Hd H].
  split_and!; destruct (Z.ltb_spec acc 45875); lia.
Qed.

Lemma levelOf_bounds i : 0 ≤ i ≤ 31 → -12 ≤ levelOf i ≤ 66.
Proof. unfold levelOf. intros. repeat case_match; lia. Qed.

Lemma wp_residualEnergyQuantization (F : fault → Prop) e s (Q : Z * Z → Prop) :
  F NoReturn ∨ 0 ≤ e → i32r e → (∀ i, 0 ≤ i ≤ 31 → Q (i, levelOf i)) → wp F (residualEnergyQuantization e s) Q.
Proof.
  intros HF He HQ. unfold residualEnergyQuantization, logResidualEnergy. wp_step. wp_step.
  assert (∀ l, wp F (Ok (MULT16_32_Q15 INV_LOG2_10_Q15 (SHR (SUB32 l (ADD32 479849 (i32 (Z.shiftl s 16)))) 1)))
    (λ a, wp F (Ok (quantizeLogEnergy a)) Q)) as H.
  { intros l. cbn [wp]. pose proof (quantizeLogEnergy_spec _ (MULT16_32_Q15_rng INV_LOG2_10_Q15
      (SHR (SUB32 l (ADD32 479849 (i32 (Z.shiftl s 16)))) 1))) as Hs.
    destruct (quantizeLogEnergy _) as [i d]. destruct Hs as (Hi & -> & _). by apply HQ. }
  destruct HF as [HF|Hp]; [apply wp_g729Log2_any; auto|apply wp_g729Log2; [unfold rng in *; lia|auto]].
Qed.

Lemma wp_computeLPCoefficientAutocorrelation F LP o (Q : list Z → Prop) :
  arr i16r 10 LP → arr i32r 11 o → (∀ o', arr i32r 11 o' → Q o') → wp F (computeLPCoefficientAutocorrelation LP o) Q.
Proof.
  intros HL Ho HQ. unfold computeLPCoefficientAutocorrelation. change (NB_LSP_COEFF + 1) with 11. wp_step.
  eapply wp_st_arr; [done|lia|by vm_compute|]. intros o1 H1. wp_step.
  apply wp_for_inv with (I := arr i32r 11); [done| |].
  - intros k t Hk Ht. unfold NB_LSP_COEFF in Hk. wp_go. done.
  - intros o2 H2. apply wp_for_inv with (I := arr i32r 11); [done| |done].
    intros j t Hj Ht. wp_step. eapply wp_ld_arr; [done|lia|]. intros x Hx. wp_step.
    eapply wp_st_arr; [done|lia|apply SHL_rng|]. intros t1 Ht1.
    apply wp_for_inv with (I := arr i32r 11); [done| |done]. intros k t2 Hk Ht2. wp_step.
    eapply wp_ld_arr; [done|lia|]. intros a Ha. wp_step. eapply wp_ld_arr; [done|lia|]. intros y Hy. wp_step.
    eapply wp_ld_arr; [done|lia|]. intros z Hz. eapply wp_st_arr; [done|lia|apply ADD32_rng|done].
Qed.

Lemma wp_compareLPCFilters F a b e t (Q : Z → Prop) :
  arr i32r 11 a → arr i32r 11 b → (∀ v, v = 0 ∨ v = 1 → Q v) → wp F (compareLPCFilters a b e t) Q.
Proof.
  intros Ha Hb HQ. unfold compareLPCFilters. change (NB_LSP_COEFF + 1) with 11. wp_step.
  apply wp_for_inv with (I := λ _, True); [done| |].
  - intros i acc Hi _. wp_step. eapply wp_ld_arr; [done|lia|]. intros x Hx. wp_step.
    by eapply wp_ld_arr; [done|lia|].
  - intros acc _. cbn [wp]. apply HQ. case_match; auto.
Qed.

(** *** The shift register of autocorrelations *)

Lemma moveRow_eq i rows scales r v : 1 ≤ i < 7 → length rows = 7%nat → length scales = 7%nat →
  Forall (λ x, zlen x = 11) rows → rows !! Z.to_nat (i - 1) = Some r → scales !! Z.to_nat (i - 1) = Some v →
  moveRow i (rows, scales) = Ok (<[Z.to_nat i := r]> rows, <[Z.to_nat i := v]> scales).
Proof.
  intros Hi Lr Ls Hl Er Ev. unfold moveRow. destruct (lookup_lt_is_Some_2 rows (Z.to_nat i)) as [d Ed]; [lia|].
  pose proof (Forall_lookup_1 _ _ _ _ Hl Er) as L1. pose proof (Forall_lookup_1 _ _ _ _ Hl Ed) as L2. cbv beta in L1, L2.
  rewrite (proj2 (ld_lookup rows (i - 1) r)) by (split; [lia|done]). cbn [bind].
  change (NB_LSP_COEFF + 1) with 11. rewrite read_block_prefix by lia. cbn [bind].
  rewrite take_ge by (unfold zlen in *; lia).
  rewrite (proj2 (ld_lookup rows i d)) by (split; [lia|done]). cbn [bind].
  rewrite write_block_all by lia. cbn [bind].
  rewrite (st_ok rows) by (unfold zlen; lia). cbn [bind].
  rewrite (proj2 (ld_lookup scales (i - 1) v)) by (split; [lia|done]). cbn [bind].
  rewrite (st_ok scales) by (unfold zlen; lia). done.
Qed.

(** The seven most recent rows, newest first. *)
Lemma updateDTXContext_run d r s n : Dtx.wf d → arr i32r n r → 11 ≤ n → i8r s →
  ∃ d', updateDTXContext d r s = Ok d' ∧ Dtx.wf d' ∧
    d' = Dtx.set_autocorrelationCoefficientsScale (s :: take 6 (Dtx.autocorrelationCoefficientsScale d))
           (Dtx.set_autocorrelationCoefficients (take 11 r :: take 6 (Dtx.autocorrelationCoefficients d)) d).
Proof.
  intros Hd [Lr Hr] Hn Hs. pose proof (Dtx.wf_autocorrelationCoefficients d Hd) as [LR HR].
  pose proof (Dtx.wf_autocorrelationCoefficientsScale d Hd) as [LS HS]. unfold updateDTXContext.
  destruct (Dtx.autocorrelationCoefficients d) as [|a0 [|a1 [|a2 [|a3 [|a4 [|a5 [|a6 [|]]]]]]]]; try (unfold zlen in LR; cbn in LR; lia).
  destruct (Dtx.autocorrelationCoefficientsScale d) as [|s0 [|s1 [|s2 [|s3 [|s4 [|s5 [|s6 [|]]]]]]]]; try (unfold zlen in LS; cbn in LS; lia).
  repeat match goal with H : Forall _ (_ :: _) |- _ => inversion H; clear H; subst end.
  repeat match goal with H : arr i32r 11 ?a |- _ => lazymatch goal with
    | _ : zlen a = 11 |- _ => fail | |- _ => pose proof (proj1 H) end end.
  do 6 (erewrite moveRow_eq; [|lia|done|done|by repeat constructor|reflexivity|reflexivity]; cbn [bind]).
  match goal with |- context [ld ?l 0] => change l with [a0; a0; a1; a2; a3; a4; a5] end.
  match goal with |- context [st ?l 0 s] => change l with [s0; s0; s1; s2; s3; s4; s5] end.
  change (ld [a0; a0; a1; a2; a3; a4; a5] 0) with (Ok a0). cbn [bind]. change (NB_LSP_COEFF + 1) with 11.
  rewrite copy_block_all by lia. cbn [bind]. rewrite !st_ok by done. cbn [bind]. eexists. split; [reflexivity|].
  split; [|done]. apply Dtx.dtx_wf_set_autocorrelationCoefficientsScale;
    [apply Dtx.dtx_wf_set_autocorrelationCoefficients; [done|]|]; (split; [done|]); repeat (constructor; [done|]); [|by constructor].
  constructor; [|repeat (constructor; [done|]); by constructor].
  split; [unfold zlen in *; change (Z.to_nat 11) with 11%nat; rewrite length_take; lia|by apply Forall_take].
Qed.

(** *** The frame type *)

Lemma wp_meanEnergy (F : fault → Prop) d e s (Q : Z * Z → Prop) :
  F BadShift → Dtx.wf d → i32r e → (∀ m t, i32r m → Q (m, t)) → wp F (meanEnergy d e s) Q.
Proof.
  intros HF Hd He HQ. unfold meanEnergy. cbv zeta.
  destruct (_ <? _); wp_step; apply wp_VSHR32_any; try done; try (by apply Dtx.wf_previousResidualEnergy);
    intros p _; apply HQ; apply ADD32_rng.
Qed.

(** When a SID is due: after speech, or at the earliest on the third noise frame since the last. *)
Definition due (d : Dtx.ctx) (frameType k : Z) : Prop :=
  if Dtx.previousVADflag d =? 1 then frameType = SID_FRAME ∧ k = Dtx.count_fr d
  else if u8 (Dtx.count_fr d + 1) <? 3 then frameType = UNTRANSMITTED_FRAME ∧ k = u8 (Dtx.count_fr d + 1)
  else (frameType = SID_FRAME ∨ frameType = UNTRANSMITTED_FRAME) ∧ k = 3.

Lemma wp_chooseFrameType (F : fault → Prop) d r s e (Q : Dtx.ctx * Z * Z * Z → Prop) :
  F BadShift → F NoReturn → Dtx.wf d → arr i32r 11 r → i32r e →
  (∀ k ft i, due d ft k → 0 ≤ i ≤ 31 → Q (Dtx.set_count_fr k d, ft, i, levelOf i)) →
  wp F (chooseFrameType d r s e) Q.
Proof.
  intros HB HN Hd Hr He HQ. unfold chooseFrameType, due in *. destruct (Dtx.previousVADflag d =? 1).
  - wp_step. apply wp_residualEnergyQuantization; [by left|done|]. intros i Hi. cbn [wp].
    specialize (HQ (Dtx.count_fr d) SID_FRAME i (conj eq_refl eq_refl) Hi).
    replace (Dtx.set_count_fr (Dtx.count_fr d) d) with d in HQ by (by destruct d). done.
  - wp_step. apply wp_meanEnergy; [done..|]. intros m t Hm. wp_step.
    apply wp_residualEnergyQuantization; [by left|done|]. intros i Hi. wp_step.
    apply wp_compareLPCFilters; [by apply Dtx.wf_SIDLPCoefficientAutocorrelation|done|]. intros v Hv. cbv zeta.
    change (Dtx.count_fr (Dtx.set_count_fr (u8 (Dtx.count_fr d + 1)) d)) with (u8 (Dtx.count_fr d + 1)).
    destruct (u8 (Dtx.count_fr d + 1) <? 3); cbn [wp]; [by apply HQ|].
    change (Dtx.set_count_fr 3 (Dtx.set_count_fr (u8 (Dtx.count_fr d + 1)) d)) with (Dtx.set_count_fr 3 d).
    apply HQ; [|done]. split; [|done]. case_match; auto.
Qed.

(** *** The descriptor *)

Lemma wp_selectSpectrum (F : fault → Prop) d p r LP k e log (Q : Dtx.ctx * list Z → Prop) :
  F BadShift → F DivError → Dtx.wf d → arr i16r 10 p → arr i32r 11 r → arr i16r 10 LP → arr i32r 10 k → i8r log →
  (∀ a kd LSP, arr i32r 11 a → arr i32r 10 kd → arr i16r 10 LSP →
    Q (Dtx.set_reflectionCoefficients kd (Dtx.set_decodedLogEnergy log (Dtx.set_SIDLPCoefficientAutocorrelation a d)), LSP)) →
  wp F (selectSpectrum d p r LP k e log) Q.
Proof.
  intros HB HD Hd Hp Hr HLP Hk Hlog HQ. unfold selectSpectrum. wp_step.
  apply wp_sumAutocorrelationCoefficients; [done|by apply Dtx.wf_autocorrelationCoefficients|
    by apply Dtx.wf_autocorrelationCoefficientsScale|lia|lia|lia|by apply arr_zeros|]. intros av sc Hav _. wp_step.
  apply (wp_autoCorrelation2LP _ 11); [done|done|lia|by apply arr_zeros|by apply arr_zeros|].
  intros pLP pK E HpLP HpK _. wp_step.
  apply wp_computeLPCoefficientAutocorrelation; [done|by apply Dtx.wf_SIDLPCoefficientAutocorrelation|]. intros a Ha.
  cbv zeta. wp_step. apply wp_compareLPCFilters; [done..|]. intros v Hv.
  set (d1 := Dtx.set_decodedLogEnergy log (Dtx.set_SIDLPCoefficientAutocorrelation a d)). wp_step.
  apply wp_mono with (P := λ '(x, uLP, uK), arr i16r 10 uLP ∧ arr i32r 10 uK ∧ ∃ a', arr i32r 11 a' ∧
    x = Dtx.set_decodedLogEnergy log (Dtx.set_SIDLPCoefficientAutocorrelation a' d)).
  { destruct (v =? 0); [cbn [wp]; eauto 6|]. wp_step. apply wp_computeLPCoefficientAutocorrelation; [done..|].
    intros a' Ha'. cbn [wp]. split; [done|]. split; [done|]. by exists a'. }
  intros [[d2 uLP] uK] (HuLP & HuK & a' & Ha' & ->). wp_step.
  apply wp_LP2LSPConversion; [done|done|by apply arr_zeros|]. intros found L HL. wp_step.
  apply wp_mono with (P := arr i16r 10).
  { destruct found; [done|]. apply (wp_copy_block _ i16r 10 10); try done; lia. }
  intros L' HL'. wp_step. apply (wp_copy_block _ i32r 10 10); try done; try lia; [exact (Dtx.wf_reflectionCoefficients d Hd)|].
  intros kd Hkd. cbn [wp]. by apply HQ.
Qed.

(** The fields of a context that a descriptor replaces. *)
Definition described (d : Dtx.ctx) (q : list Z) (i : Z) (d' : Dtx.ctx) : Prop :=
  Dtx.wf d' ∧ Dtx.qLSPCoefficients d' = q ∧ ld SIDGainCodebook i = Ok (Dtx.currentSIDGain d') ∧
  Dtx.smoothedSIDGain d' = Dtx.smoothedSIDGain d ∧ Dtx.pseudoRandomSeed d' = Dtx.pseudoRandomSeed d ∧
  Dtx.previousVADflag d' = Dtx.previousVADflag d ∧ Dtx.count_fr d' = 0 ∧
  Dtx.previousDecodedLogEnergy d' = levelOf i ∧ Dtx.decodedLogEnergy d' = levelOf i.

Lemma wp_generateSID (F : fault → Prop) d pL pq m r LP k e i (Q : Dtx.ctx * list Z * list (list Z) * list Z → Prop) :
  F BadShift → F DivError → F Uninit → Dtx.wf d → arr i16r 10 pL → arr i16r 10 pq → arr (arr i16r 10) 4 m →
  arr i32r 11 r → arr i16r 10 LP → arr i32r 10 k → 0 ≤ i ≤ 31 →
  (∀ d' pL' m' q L0 i1 i2 r1 r2 r3, described d q i d' → arr i16r 10 pL' → arr (arr i16r 10) 4 m' → arr i16r 10 q →
    0 ≤ L0 < 2 → 0 ≤ i1 < 32 → 0 ≤ i2 < 16 →
    ld L1SubsetIndex i1 = Ok r1 → ld L2SubsetIndex i2 = Ok r2 → ld L3SubsetIndex i2 = Ok r3 →
    reconstructLSP m noiseMAPredictor noiseMAPredictorSum L0 r1 r2 r3 (Dtx.qLSPCoefficients d) = Ok (m', q) →
    Q (d', pL', m', [L0; i1; i2])) →
  wp F (generateSID d pL pq m r LP k e i (levelOf i)) Q.
Proof.
  intros HB HD HU Hd HpL Hpq Hm Hr HLP Hk Hi HQ. unfold generateSID. cbv zeta.
  pose proof (levelOf_bounds i Hi) as Hlev. wp_step.
  apply wp_selectSpectrum; [done|done|apply Dtx.dtx_wf_set_count_fr; [done|unfold rng; lia]|done..|unfold rng; lia|].
  intros a kd L Ha Hkd HL. wp_step. apply (wp_copy_block _ i16r 10 10); try done; try lia. intros pL' HpL'. wp_step.
  apply wp_noiseLSPQuantization; [done|done|done|done|exact (Dtx.wf_qLSPCoefficients d Hd)|by apply arr_zeros|].
  intros m' q L0 i1 i2 r1 r2 r3 Hm' Hq H0 H1 H2 E1 E2 E3 ER.
  destruct (ld SIDGainCodebook i) as [g|f] eqn:Eg.
  2:{ pose proof (wp_ld_arr no_fault _ _ _ i (λ _, True) SIDGainCodebook_arr ltac:(lia) ltac:(done)) as H. by rewrite Eg in H. }
  assert (i16r g) as Hg.
  { pose proof (wp_ld_arr no_fault _ _ _ i i16r SIDGainCodebook_arr ltac:(lia) ltac:(unfold rng; lia)) as H. by rewrite Eg in H. }
  cbn [bind wp]. eapply (HQ _ pL' m' q L0 i1 i2 r1 r2 r3); try done. split; [|by rewrite Eg].
  apply Dtx.dtx_wf_set_currentSIDGain; [|done]. apply Dtx.dtx_wf_set_previousDecodedLogEnergy; [|unfold rng; lia].
  apply Dtx.dtx_wf_set_qLSPCoefficients; [|done]. apply Dtx.dtx_wf_set_reflectionCoefficients; [|done].
  apply Dtx.dtx_wf_set_decodedLogEnergy; [|unfold rng; lia]. apply Dtx.dtx_wf_set_SIDLPCoefficientAutocorrelation; [|done].
  apply Dtx.dtx_wf_set_count_fr; [done|unfold rng; lia].
Qed.

(** *** The whole noise frame *)

Lemma copyLoop_ok (p q : list Z) : zlen p = 10 → zlen q = 10 →
  for_up 0 NB_LSP_COEFF p (λ i p, let* v := ld q i in st p i v) = Ok q.
Proof.
  intros Hp Hq. assert (safe (for_up 0 NB_LSP_COEFF p (λ i p, let* v := ld q i in st p i v)) (λ r, r = q)) as H.
  { apply wp_for_up with (I := λ i r, zlen r = 10 ∧ ∀ j, 0 ≤ j < i → at_ r j = at_ q j); unfold NB_LSP_COEFF; [lia|split; [done|lia]| |].
    - intros i r Hi [Hr Ha]. rewrite ld_at by lia. cbn [bind]. rewrite st_ok by lia. cbn [wp].
      split; [by rewrite zlen_insert|]. intros j Hj. rewrite at_insert by lia. destruct (Z.eqb_spec i j) as [->|]; [done|].
      apply Ha. lia.
    - intros r [Hr Ha]. apply at_ext; [lia|]. intros i Hi. apply Ha. lia. }
  by destruct (proj1 (safe_ok _ _) H) as (r & -> & ->).
Qed.

Lemma packSID_ok L0 i1 i2 i b : 2 ≤ zlen b → ∃ b', packSID [L0; i1; i2] i b = Ok b' ∧ zlen b' = zlen b ∧
  ld b' 0 = Ok (u8 (Z.lor (Z.lor (Z.shiftl (Z.land L0 1) 7) (Z.shiftl (Z.land i1 31) 2)) (Z.rem (Z.shiftr i2 2) 3))) ∧
  ld b' 1 = Ok (u8 (Z.lor (Z.shiftl (Z.land i2 3) 6) (Z.shiftl (Z.land i 31) 1))) ∧
  (∀ n, arr u8r n b → arr u8r n b') ∧ ∀ j, 2 ≤ j → ld b' j = ld b j.
Proof.
  intros Hb. unfold packSID. change (ld [L0; i1; i2] 0) with (Ok L0). change (ld [L0; i1; i2] 1) with (Ok i1).
  change (ld [L0; i1; i2] 2) with (Ok i2). cbn [bind]. rewrite st_ok by lia. cbn [bind].
  rewrite st_ok by (rewrite zlen_insert; lia). eexists. split; [done|]. split; [by rewrite !zlen_insert|].
  split; [|split; [|split]].
  - apply ld_lookup. split; [lia|]. change (Z.to_nat 0) with 0%nat. change (Z.to_nat 1) with 1%nat.
    rewrite list_lookup_insert_ne by lia. apply list_lookup_insert_eq. unfold zlen in Hb. lia.
  - apply ld_lookup. split; [lia|]. apply list_lookup_insert_eq. rewrite length_insert. unfold zlen in Hb. lia.
  - intros n [Hn Hu]. split; [by rewrite !zlen_insert|]. apply Forall_insert; [apply Forall_insert; [done|]|]; apply u8_rng.
  - intros j Hj. unfold ld. destruct (0 <=? j); [|done]. rewrite !list_lookup_insert_ne by lia. done.
Qed.

Record sidFrame_ok (n : Z) (s : sidFrame) : Prop := {
  so_dtx : Dtx.wf (sf_dtx s);
  so_previousLSP : arr i16r 10 (sf_previousLSP s);
  so_previousqLSP : arr i16r 10 (sf_previousqLSP s);
  so_previousqLSF : arr (arr i16r 10) 4 (sf_previousqLSF s);
  so_excitation : arr i16r 234 (sf_excitation s);
  so_qLP : arr i16r 20 (sf_qLP s);
  so_bitStream : arr u8r n (sf_bitStream s)
}.

Lemma smoothSIDGain_wf d : Dtx.wf d → Dtx.wf (smoothSIDGain d).
Proof.
  intros Hd. unfold smoothSIDGain. destruct (_ =? 1).
  - apply Dtx.dtx_wf_set_smoothedSIDGain; [done|]. by apply Dtx.wf_currentSIDGain.
  - cbv zeta. auto with csafe rng.
Qed.

(** The comfort noise of a frame: its excitation and the next seed. *)
Inductive noiseExcitation (gain seed : Z) (e e' : list Z) (seed' : Z) : Prop :=
| NoiseExcitation (_ : computeComfortNoiseExcitationVector gain seed e L_PAST_EXCITATION = Ok (e', seed')).

Lemma wp_noiseExcitation F t seed e (Q : list Z * Z → Prop) :
  arr i16r 234 e → (∀ e' s, arr i16r 234 e' → u16r s → noiseExcitation t seed e e' s → Q (e', s)) →
  wp F (computeComfortNoiseExcitationVector t seed e L_PAST_EXCITATION) Q.
Proof.
  intros He HQ. destruct (proj1 (safe_ok _ _) (wp_computeComfortNoise no_fault t seed e
    (λ '(a, b), arr i16r 234 a ∧ u16r b) He (λ a b H1 H2, conj H1 H2))) as ([e' s] & E & H1 & H2).
  pose proof (NoiseExcitation t seed e e' s E) as HE. rewrite E. by apply HQ.
Qed.

(** The end of a noise frame, [d1] being the context once the descriptor is known. *)
Definition noise_tail (s s' : sidFrame) (d1 : Dtx.ctx) : Prop :=
  let d' := sf_dtx s' in
  Dtx.currentSIDGain d' = Dtx.currentSIDGain d1 ∧ Dtx.qLSPCoefficients d' = Dtx.qLSPCoefficients d1 ∧
  Dtx.smoothedSIDGain d' = Dtx.smoothedSIDGain (smoothSIDGain d1) ∧ Dtx.previousVADflag d' = 0 ∧
  Dtx.count_fr d' = Dtx.count_fr d1 ∧ sf_previousqLSP s' = Dtx.qLSPCoefficients d1 ∧
  noiseExcitation (Dtx.smoothedSIDGain d') (Dtx.pseudoRandomSeed (sf_dtx s)) (sf_excitation s)
    (sf_excitation s') (Dtx.pseudoRandomSeed d').

(** What a noise frame does: nothing is sent, or a descriptor of the state it leaves. *)
Definition noise_result (s s' : sidFrame) : Prop :=
  ∃ d1 k,
    (sf_bitStreamLength s' = 0 ∧ sf_bitStream s' = sf_bitStream s ∧ sf_previousqLSF s' = sf_previousqLSF s ∧
       due (sf_dtx s) UNTRANSMITTED_FRAME k ∧ d1 = Dtx.set_count_fr k (sf_dtx s) ∨
     sf_bitStreamLength s' = 2 ∧ due (sf_dtx s) SID_FRAME k ∧
       ∃ q L0 i1 i2 r1 r2 r3 i, described (sf_dtx s) q i d1 ∧ 0 ≤ L0 < 2 ∧ 0 ≤ i1 < 32 ∧ 0 ≤ i2 < 16 ∧ 0 ≤ i ≤ 31 ∧
         ld L1SubsetIndex i1 = Ok r1 ∧ ld L2SubsetIndex i2 = Ok r2 ∧ ld L3SubsetIndex i2 = Ok r3 ∧
         reconstructLSP (sf_previousqLSF s) noiseMAPredictor noiseMAPredictorSum L0 r1 r2 r3
           (Dtx.qLSPCoefficients (sf_dtx s)) = Ok (sf_previousqLSF s', q) ∧
         packSID [L0; i1; i2] i (sf_bitStream s) = Ok (sf_bitStream s')) ∧
    noise_tail s s' d1.

Lemma wp_encodeSIDFrame_noise (F : fault → Prop) flag n s (Q : sidFrame → Prop) :
  F BadShift → F DivError → F NoReturn → F Uninit → flag ≠ 1 → sidFrame_ok n s → 2 ≤ n →
  (∀ s', sidFrame_ok n s' → noise_result s s' → Q s') → wp F (encodeSIDFrame flag s) Q.
Proof.
  intros HB HD HN HU Hf [Hd HpL Hpq Hm He HqLP Hb] Hn HQ. unfold encodeSIDFrame.
  destruct (Z.eqb_spec flag 1); [lia|]. wp_step.
  apply wp_sumAutocorrelationCoefficients; [done|by apply Dtx.wf_autocorrelationCoefficients|
    by apply Dtx.wf_autocorrelationCoefficientsScale|lia|lia|lia|by apply arr_zeros|]. intros r sc Hr Hsc. wp_step.
  apply (wp_autoCorrelation2LP _ 11); [done|done|lia|by apply arr_zeros|by apply arr_zeros|].
  intros LP k E HLP Hk HE. wp_step. apply wp_chooseFrameType; [done..|]. intros c ft i Hdue Hi. wp_step.
  assert (u8r c) as Hc.
  { unfold due in Hdue. repeat case_match; destruct Hdue as [_ ->]; [by apply Dtx.wf_count_fr|apply u8_rng|unfold rng; lia]. }
  assert (Dtx.wf (Dtx.set_count_fr c (sf_dtx s))) as Hd0 by (by apply Dtx.dtx_wf_set_count_fr).
  apply wp_mono with (P := λ '(d1, pL, m, params), Dtx.wf d1 ∧ arr i16r 10 pL ∧ arr (arr i16r 10) 4 m ∧
    Dtx.pseudoRandomSeed d1 = Dtx.pseudoRandomSeed (sf_dtx s) ∧
    (ft = UNTRANSMITTED_FRAME ∧ d1 = Dtx.set_count_fr c (sf_dtx s) ∧ m = sf_previousqLSF s ∨
     ft = SID_FRAME ∧ ∃ q L0 i1 i2 r1 r2 r3, params = [L0; i1; i2] ∧ described (sf_dtx s) q i d1 ∧ 0 ≤ L0 < 2 ∧
       0 ≤ i1 < 32 ∧ 0 ≤ i2 < 16 ∧ ld L1SubsetIndex i1 = Ok r1 ∧ ld L2SubsetIndex i2 = Ok r2 ∧ ld L3SubsetIndex i2 = Ok r3 ∧
       reconstructLSP (sf_previousqLSF s) noiseMAPredictor noiseMAPredictorSum L0 r1 r2 r3
         (Dtx.qLSPCoefficients (sf_dtx s)) = Ok (m, q))).
  { destruct (Z.eqb_spec ft SID_FRAME) as [->|Hft].
    - apply wp_generateSID; [done..|]. intros d1 pL m q L0 i1 i2 r1 r2 r3 Hdes HpL' Hm' Hq H0 H1 H2 E1 E2 E3 ER.
      split; [apply Hdes|]. split; [done|]. split; [done|]. split; [apply Hdes|]. right. split; [done|].
      exists q, L0, i1, i2, r1, r2, r3. split_and!; try done; lia.
    - cbn [wp]. split_and!; try done. left. split_and!; try done.
      unfold due in Hdue. unfold SID_FRAME in *. repeat case_match; destruct Hdue as [Hft' _]; [done|done|].
      by destruct Hft'. }
  intros [[[d1 pL] m] params] (Hd1 & HpL1 & Hm1 & Eseed & Hcase). cbv zeta.
  set (d2 := Dtx.set_previousResidualEnergyScale (u8 sc) (Dtx.set_previousResidualEnergy E d1)).
  assert (Dtx.wf d2) as Hd2 by (unfold d2; auto with csafe rng).
  pose proof (smoothSIDGain_wf d2 Hd2) as Hd3.
  assert (∀ d, Dtx.pseudoRandomSeed (smoothSIDGain d) = Dtx.pseudoRandomSeed d ∧ Dtx.qLSPCoefficients (smoothSIDGain d) = Dtx.qLSPCoefficients d ∧
    Dtx.currentSIDGain (smoothSIDGain d) = Dtx.currentSIDGain d ∧ Dtx.count_fr (smoothSIDGain d) = Dtx.count_fr d) as Hsm.
  { intros d. unfold smoothSIDGain. by destruct (_ =? 1). }
  assert (Dtx.smoothedSIDGain (smoothSIDGain d2) = Dtx.smoothedSIDGain (smoothSIDGain d1)) as Eg.
  { unfold smoothSIDGain, d2. cbn. by destruct (_ =? 1). }
  destruct (Hsm d2) as (S1 & S2 & S3 & S4). rewrite S1. wp_step.
  apply wp_noiseExcitation; [done|]. intros e' seed He' Hseed Ecn.
  set (d4 := Dtx.set_pseudoRandomSeed seed (smoothSIDGain d2)).
  assert (arr i16r 10 (Dtx.qLSPCoefficients d4)) as Hq4 by (apply Dtx.wf_qLSPCoefficients; by apply Dtx.dtx_wf_set_pseudoRandomSeed).
  wp_step. apply wp_interpolateqLSP; [done|done|by apply arr_zeros|]. intros iq Hiq. wp_step.
  rewrite copyLoop_ok by (apply Hpq || apply Hq4). cbn [wp]. wp_step.
  apply (wp_qLSP2LP _ 20); [done|done|lia|lia|]. intros l1 Hl1. wp_step.
  apply (wp_qLSP2LP _ 20); [done|done|unfold NB_LSP_COEFF; lia|unfold NB_LSP_COEFF; lia|]. intros l2 Hl2.
  assert (Dtx.wf (Dtx.set_previousVADflag 0 d4)) as Hd5.
  { apply Dtx.dtx_wf_set_previousVADflag; [by apply Dtx.dtx_wf_set_pseudoRandomSeed|unfold rng; lia]. }
  wp_step. destruct Hcase as [(-> & Ed1 & Em)|(-> & q & L0 & i1 & i2 & r1 & r2 & r3 & -> & Hdes & H0 & H1 & H2 & E1 & E2 & E3 & ER)].
  - cbn [Z.eqb UNTRANSMITTED_FRAME SID_FRAME wp]. apply HQ; [by constructor|]. exists d1, c. split; [by left|]. unfold noise_tail. cbn. rewrite S2, S3, S4.
    split_and!; try done. rewrite <-Eseed. exact Ecn.
  - change (SID_FRAME =? SID_FRAME) with true. cbv iota. wp_step.
    destruct (packSID_ok L0 i1 i2 i (sf_bitStream s)) as (b' & Eb & Lb & _ & _ & Hb' & _); [rewrite (proj1 Hb); lia|].
    rewrite Eb. cbn [wp]. apply HQ; [constructor; try done; by apply Hb'|]. exists d1, c. cbn. split.
    + right. split; [done|]. split; [done|]. exists q, L0, i1, i2, r1, r2, r3, i. split_and!; try done; lia.
    + unfold noise_tail. cbn. rewrite S2, S3, S4. split_and!; try done. rewrite <-Eseed. exact Ecn.
Qed.

Lemma encodeSIDFrame_voice n s : sidFrame_ok n s →
  ∃ s', encodeSIDFrame 1 s = Ok s' ∧ sidFrame_ok n s' ∧
    s' = SidFrame (Dtx.set_previousVADflag 1 (Dtx.set_pseudoRandomSeed CNG_DTX_RANDOM_SEED_INIT (sf_dtx s)))
          (sf_previousLSP s) (sf_previousqLSP s) (sf_previousqLSF s) (sf_excitation s) (sf_qLP s)
          (sf_bitStream s) (sf_bitStreamLength s).
Proof.
  intros []. eexists. split; [done|]. split; [|done]. constructor; try done. cbn.
  apply Dtx.dtx_wf_set_previousVADflag; [|unfold rng; lia]. apply Dtx.dtx_wf_set_pseudoRandomSeed; [done|].
  unfold rng, CNG_DTX_RANDOM_SEED_INIT. lia.
Qed.
