(* ===== verification/Encoder.v ===== *)
(** The frame encoder ([encoder.c]): [bcg729Encoder], one function per step of its two paths, and
    [bcg729GetRFC3389Payload]. *)

From S2P Require Import Prelude FixedPoint Codebooks Math Utils EncContext EncChannel DecodeLSP DecodeExcitation LP2LSP Sums EncPitch EncGain EncLP EncAdaptative EncLSP EncFixed EncVad EncDtx.

(** ** Shared steps *)

(** The powers of the bandwidth expansion factor, in Q15. *)
Definition gammaE : list Z :=
  [GAMMA_E1; GAMMA_E2; GAMMA_E3; GAMMA_E4; GAMMA_E5; GAMMA_E6; GAMMA_E7; GAMMA_E8; GAMMA_E9; GAMMA_E10].

(** The twenty assignments of [weightedqLPCoefficients]. *)
Definition weightLPCoefficients (qLP : list Z) : res (list Z) :=
  for_up 0 (2 * NB_LSP_COEFF) (zeros (2 * NB_LSP_COEFF)) (λ i w,
    let* q := ld qLP i in
    let* g := ld gammaE (i mod NB_LSP_COEFF) in
    st w i (i16 (MULT16_16_P15 q g))).

(** The memory updates of the two paths: the buffers move left by one frame. *)
Definition shiftBuffers (c : Enc.ctx) : res Enc.ctx :=
  let* s := copy_block (Enc.signalBuffer c) 0 (Enc.signalBuffer c) L_FRAME (L_LP_ANALYSIS_WINDOW - L_FRAME) in
  let* w := copy_block (Enc.weightedInputSignal c) 0 (Enc.weightedInputSignal c) L_FRAME MAXIMUM_INT_PITCH_DELAY in
  let* e := copy_block (Enc.excitationVector c) 0 (Enc.excitationVector c) L_FRAME L_PAST_EXCITATION in
  Ok (Enc.set_excitationVector e (Enc.set_weightedInputSignal w (Enc.set_signalBuffer s c))).

(** Offsets of [signalLastInputFrame] and [signalCurrentFrame] in [signalBuffer]. *)
Definition signalLastInputFrame : Z := L_LP_ANALYSIS_WINDOW - L_FRAME.
Definition signalCurrentFrame : Z := L_LP_ANALYSIS_WINDOW - L_SUBFRAME - L_FRAME.

(** ** LP analysis *)

(** What the analysis of a frame gives to the rest. *)
Record analysis : Type := Analysis {
  an_LSP : list Z;
  an_reflection : list Z;
  an_autocorrelation : list Z;
  an_noLag : list Z;
  an_scale : Z
}.

(** Input filter, LP analysis and conversion; a failed conversion repeats the previous LSP. *)
Definition analyseFrame (c : Enc.ctx) (inputFrame : list Z) (poff : Z) : res (Enc.ctx * analysis) :=
  let* (c, s) := preProcessing c inputFrame poff (Enc.signalBuffer c) signalLastInputFrame in
  let c := Enc.set_signalBuffer s c in
  let number := match Enc.VADChannelContext c with Some _ => NB_LSP_COEFF + 3 | None => NB_LSP_COEFF + 1 end in
  let* (LP, k, r, noLag, scale) := computeLP (Enc.signalBuffer c) (zeros NB_LSP_COEFF) (zeros NB_LSP_COEFF)
    (zeros (NB_LSP_COEFF + 3)) (zeros (NB_LSP_COEFF + 3)) number in
  let* (found, LSP) := LP2LSPConversion LP (zeros NB_LSP_COEFF) in
  let* LSP := (if found then Ok LSP else copy_block LSP 0 (Enc.previousLSPCoefficients c) 0 NB_LSP_COEFF) in
  Ok (c, Analysis LSP k r noLag scale).

(** ** Voice activity *)

(** The VAD and DTX calls: [(context, qLPCoefficients, bitStream, bitStreamLength, VADflag)];
    [VADflag] is 1 when the channel has no VAD. *)
Definition voiceActivity (c : Enc.ctx) (a : analysis) (bitStream : list Z)
    : res (Enc.ctx * list Z * list Z * Z * Z) :=
  match Enc.VADChannelContext c with
  | None => Ok (c, zeros (2 * NB_LSP_COEFF), bitStream, 0, 1)
  | Some v =>
    match Enc.DTXChannelContext c with
    | None => Err NullDeref
    | Some d =>
      let* d := updateDTXContext d (an_noLag a) (an_scale a) in
      let* LSF := LSPtoLSF (an_LSP a) in
      let* k1 := ld (an_reflection a) 1 in
      let* (v, VADflag) := bcg729_vad v k1 LSF (an_autocorrelation a) (an_scale a) (Enc.signalBuffer c) signalCurrentFrame in
      let* s := encodeSIDFrame VADflag (SidFrame d (Enc.previousLSPCoefficients c) (Enc.previousqLSPCoefficients c)
        (Enc.previousqLSF c) (Enc.excitationVector c) (zeros (2 * NB_LSP_COEFF)) bitStream 0) in
      let c := Enc.set_DTXChannelContext (Some (sf_dtx s)) (Enc.set_VADChannelContext (Some v) c) in
      let c := Enc.set_previousqLSPCoefficients (sf_previousqLSP s) (Enc.set_previousLSPCoefficients (sf_previousLSP s) c) in
      let c := Enc.set_excitationVector (sf_excitation s) (Enc.set_previousqLSF (sf_previousqLSF s) c) in
      Ok (c, sf_qLP s, sf_bitStream s, sf_bitStreamLength s, VADflag)
    end
  end.

(** ** Noise frames *)

(** One subframe of the target signal memory: [synthesisFilter] reads each cell of
    [targetSignal] before it writes it, so the source is the block read first. *)
Definition noiseTarget (c : Enc.ctx) (residual weighted : list Z) (subframeIndex LPCoefficientsIndex : Z) : res Enc.ctx :=
  let* t := for_up 0 L_SUBFRAME (Enc.targetSignal c) (λ i t,
    let* r := ld residual (subframeIndex + i) in
    let* e := ld (Enc.excitationVector c) (L_PAST_EXCITATION + subframeIndex + i) in
    st t (NB_LSP_COEFF + i) (i16 (SUB16 r e))) in
  let* src := read_block t NB_LSP_COEFF L_SUBFRAME in
  let* w := read_block weighted LPCoefficientsIndex NB_LSP_COEFF in
  let* t := synthesisFilter src w t NB_LSP_COEFF in
  Ok (Enc.set_targetSignal t c).

Definition noiseFrame (c : Enc.ctx) (qLP : list Z) : res Enc.ctx :=
  let* weighted := weightLPCoefficients qLP in
  let* (w, residual) := computeWeightedSpeech (Enc.signalBuffer c) signalCurrentFrame qLP weighted
    (Enc.weightedInputSignal c) MAXIMUM_INT_PITCH_DELAY (zeros L_FRAME) 0 in
  let c := Enc.set_weightedInputSignal w c in
  let* c := noiseTarget c residual weighted 0 0 in
  let* c := noiseTarget c residual weighted L_SUBFRAME NB_LSP_COEFF in
  shiftBuffers c.

(** ** Active frames *)

(** The state of the loop over the two subframes: besides the context, the window of the pitch
    search, the parameters and the two indices. *)
Record subframeState : Type := SubframeState {
  ss_ctx : Enc.ctx;
  ss_delayMin : Z;
  ss_delayMax : Z;
  ss_parameters : list Z;
  ss_parametersIndex : Z;
  ss_LPCoefficientsIndex : Z
}.

(** The window of the closed loop search around the open loop delay. *)
Definition searchWindow (openLoopPitchDelay : Z) : Z * Z :=
  let intPitchDelayMin := i16 (openLoopPitchDelay - 3) in
  let intPitchDelayMin := if intPitchDelayMin <? 20 then 20 else intPitchDelayMin in
  let intPitchDelayMax := i16 (intPitchDelayMin + 6) in
  if MAXIMUM_INT_PITCH_DELAY <? intPitchDelayMax
  then (MAXIMUM_INT_PITCH_DELAY - 6, MAXIMUM_INT_PITCH_DELAY)
  else (intPitchDelayMin, intPitchDelayMax).

Definition boundGain (g : Z) : Z :=
  let g := if ONE_POINT_2_IN_Q14 <? g then ONE_POINT_2_IN_Q14 else g in
  if g <? O2_IN_Q14 then O2_IN_Q14 else g.

(** The excitation of the subframe, spec A.3.10. *)
Definition buildExcitation (exc fixedCodebookVector : list Z) (off gainPitch gainCode : Z) : res (list Z) :=
  for_up 0 L_SUBFRAME exc (λ i exc,
    let* e := ld exc (off + i) in
    let* f := ld fixedCodebookVector i in
    st exc (off + i) (i16 (SATURATE (PSHR (ADD32 (MULT16_16 e gainPitch) (MULT16_16 f gainCode)) 14) MAXINT16))).

(** The target signal memory, spec A.3.10. *)
Definition updateTarget (target filtered convolved : list Z) (gainPitch gainCode : Z) : res (list Z) :=
  let gainPitch := i16 (PSHR gainPitch 1) in
  for_up 0 NB_LSP_COEFF target (λ i target,
    let* f := ld filtered (L_SUBFRAME + i) in
    let* v := ld convolved (L_SUBFRAME - NB_LSP_COEFF + i) in
    let acc := MAC16_16 (MULT16_16 gainPitch f) gainCode v in
    let* t := ld target (L_SUBFRAME + i) in
    st target i (i16 (SATURATE (SUB32 t (PSHR acc 13)) MAXINT16))).

Definition impulseResponseInput : list Z := ONE_IN_Q12 :: zeros (L_SUBFRAME - 1).

(** One subframe. *)
Definition encodeSubframe (weighted : list Z) (subframeIndex : Z) (s : subframeState) : res subframeState :=
  let c := ss_ctx s in
  let off := L_PAST_EXCITATION + subframeIndex in
  let* w := read_block weighted (ss_LPCoefficientsIndex s) NB_LSP_COEFF in
  let* h := synthesisFilter impulseResponseInput w (zeros (NB_LSP_COEFF + L_SUBFRAME)) NB_LSP_COEFF in
  let* h := read_block h NB_LSP_COEFF L_SUBFRAME in
  let* residual := read_block (Enc.excitationVector c) off L_SUBFRAME in
  let* target := synthesisFilter residual w (Enc.targetSignal c) NB_LSP_COEFF in
  let* x := read_block target NB_LSP_COEFF L_SUBFRAME in
  let* (exc, delayMin, delayMax, intPitchDelay, fracPitchDelay, codeword) :=
    adaptativeCodebookSearch (Enc.excitationVector c) off (ss_delayMin s) (ss_delayMax s) h x None subframeIndex in
  let* p := st (ss_parameters s) (ss_parametersIndex s) codeword in
  let* adaptative := read_block exc off L_SUBFRAME in
  let* filtered := synthesisFilter adaptative w (zeros (NB_LSP_COEFF + L_SUBFRAME)) NB_LSP_COEFF in
  let* (adaptativeCodebookGain, xy, yy) := computeAdaptativeCodebookGain target NB_LSP_COEFF filtered NB_LSP_COEFF in
  let n := ss_parametersIndex s + 1 in
  let* (p, n) :=
    (if subframeIndex =? 0 then
       let* P1 := ld p (n - 1) in
       let* parity := computeParity P1 in
       let* p := st p n parity in
       Ok (p, n + 1)
     else Ok (p, n)) in
  let* y := read_block filtered NB_LSP_COEFF L_SUBFRAME in
  let* (h, pulses, signs, fixedCodebookVector, convolved) :=
    fixedCodebookSearch x h intPitchDelay (Enc.lastQuantizedAdaptativeCodebookGain c) y adaptativeCodebookGain
      (zeros L_SUBFRAME) (zeros L_SUBFRAME) (zeros L_SUBFRAME) in
  let* p := st p n pulses in
  let* p := st p (n + 1) signs in
  let n := n + 2 in
  let* (c, gainPitch, gainCode, GA, GB) :=
    gainQuantization c target NB_LSP_COEFF filtered NB_LSP_COEFF convolved fixedCodebookVector xy yy 0 0 in
  let* p := st p n GA in
  let* p := st p (n + 1) GB in
  let n := n + 2 in
  let c := Enc.set_lastQuantizedAdaptativeCodebookGain (boundGain gainPitch) c in
  let* exc := buildExcitation exc fixedCodebookVector off gainPitch gainCode in
  let* target := updateTarget target filtered convolved gainPitch gainCode in
  let c := Enc.set_targetSignal target (Enc.set_excitationVector exc c) in
  Ok (SubframeState c delayMin delayMax p n (ss_LPCoefficientsIndex s + NB_LSP_COEFF)).

(** LSP quantization and the quantized LP filters of the two subframes:
    [(context, qLPCoefficients, qLSPCoefficients, parameters)] *)
Definition quantizeSpectrum (c : Enc.ctx) (LSP qLP : list Z) : res (Enc.ctx * list Z * list Z * list Z) :=
  let* (c, qLSP, parameters) := LSPQuantization c LSP (zeros NB_LSP_COEFF) (zeros NB_PARAMETERS) in
  let* interpolated := interpolateqLSP (Enc.previousqLSPCoefficients c) qLSP (zeros NB_LSP_COEFF) in
  let* previous := for_up 0 NB_LSP_COEFF (Enc.previousqLSPCoefficients c) (λ i p, let* v := ld qLSP i in st p i v) in
  let c := Enc.set_previousqLSPCoefficients previous c in
  let* qLP := qLSP2LP interpolated qLP 0 in
  let* qLP := qLSP2LP qLSP qLP NB_LSP_COEFF in
  Ok (c, qLP, qLSP, parameters).

(** Spectrum, weighted speech and open loop pitch, then the two subframes and the updates:
    [(context, parameters)]. *)
Definition activeFrame (c : Enc.ctx) (LSP qLP : list Z) : res (Enc.ctx * list Z) :=
  let* (c, qLP, qLSP, parameters) := quantizeSpectrum c LSP qLP in
  let* weighted := weightLPCoefficients qLP in
  let* (w, exc) := computeWeightedSpeech (Enc.signalBuffer c) signalCurrentFrame qLP weighted
    (Enc.weightedInputSignal c) MAXIMUM_INT_PITCH_DELAY (Enc.excitationVector c) L_PAST_EXCITATION in
  let c := Enc.set_excitationVector exc (Enc.set_weightedInputSignal w c) in
  let* openLoopPitchDelay := findOpenLoopPitchDelay (Enc.weightedInputSignal c) MAXIMUM_INT_PITCH_DELAY in
  let '(delayMin, delayMax) := searchWindow openLoopPitchDelay in
  let* s := encodeSubframe weighted 0 (SubframeState c delayMin delayMax parameters 4 0) in
  let* s := encodeSubframe weighted L_SUBFRAME s in
  let c := ss_ctx s in
  let* l := copy_block (Enc.previousLSPCoefficients c) 0 LSP 0 NB_LSP_COEFF in
  let* q := copy_block (Enc.previousqLSPCoefficients c) 0 qLSP 0 NB_LSP_COEFF in
  let c := Enc.set_previousqLSPCoefficients q (Enc.set_previousLSPCoefficients l c) in
  let* c := shiftBuffers c in
  Ok (c, ss_parameters s).

(** ** bcg729Encoder *)

(** [(context, bitStream, bitStreamLength)] *)
Definition bcg729Encoder (c : Enc.ctx) (inputFrame : list Z) (poff : Z) (bitStream : list Z)
    : res (Enc.ctx * list Z * Z) :=
  let* (c, a) := analyseFrame c inputFrame poff in
  let* (c, qLP, bitStream, bitStreamLength, VADflag) := voiceActivity c a bitStream in
  if VADflag =? 0 then
    let* c := noiseFrame c qLP in
    Ok (c, bitStream, bitStreamLength)
  else
    let* (c, parameters) := activeFrame c (an_LSP a) qLP in
    let* bitStream := parametersArray2BitStream parameters bitStream in
    Ok (c, bitStream, 10).

(** ** bcg729GetRFC3389Payload *)

Definition bcg729GetRFC3389Payload (c : Enc.ctx) (payload : list Z) : res (list Z) :=
  match Enc.DTXChannelContext c with
  | None => Err NullDeref
  | Some d =>
    let* p := st payload 0 (u8 (- (Dtx.decodedLogEnergy d - 90))) in
    for_up 0 NB_LSP_COEFF p (λ i p,
      let* k := ld (Dtx.reflectionCoefficients d) i in
      st p (i + 1) (u8 (ADD16 (i16 (SHR (MULT16_32_Q15 127 (i32 (- k))) 16)) 127)))
  end.

(** ** Safety *)

(** A well-formed encoder: the ranges of its fields, and VAD and DTX contexts together or not at
    all, with the smoothing counters of the VAD inside their bounds. *)
Definition vad_dtx (v : option Vad.ctx) (d : option Dtx.ctx) : Prop :=
  match v, d with
  | None, None => True
  | Some v, Some _ => smoothing_ok v
  | _, _ => False
  end.

Record encoder_wf (c : Enc.ctx) : Prop := {
  ew_wf : Enc.wf c;
  ew_vad : vad_dtx (Enc.VADChannelContext c) (Enc.DTXChannelContext c)
}.

Lemma wp_weightLPCoefficients F q (Q : list Z → Prop) :
  arr i16r 20 q → (∀ w, arr i16r 20 w → Q w) → wp F (weightLPCoefficients q) Q.
Proof.
  intros Hq HQ. unfold weightLPCoefficients. change (2 * NB_LSP_COEFF) with 20.
  apply wp_for_inv with (I := arr i16r 20); [by apply arr_zeros| |done]. intros i w Hi Hw. wp_step.
  eapply wp_ld_arr; [done|lia|]. intros v _. wp_step.
  apply (wp_ld_arr _ (rng 0 32767) 10); [apply arr_rng_by; reflexivity|unfold NB_LSP_COEFF; apply Z.mod_pos_bound; lia|].
  intros g _. eapply wp_st_arr; [done|lia|apply i16_rng|done].
Qed.

(** The fields the memory updates leave alone. *)
Definition same_channels (c c' : Enc.ctx) : Prop :=
  Enc.VADChannelContext c' = Enc.VADChannelContext c ∧ Enc.DTXChannelContext c' = Enc.DTXChannelContext c.

(** The state the decoder predicts from. *)
Definition same_predictors (c c' : Enc.ctx) : Prop :=
  Enc.previousqLSF c' = Enc.previousqLSF c ∧ Enc.previousGainPredictionError c' = Enc.previousGainPredictionError c.

Lemma wp_shiftBuffers F c (Q : Enc.ctx → Prop) :
  Enc.wf c → (∀ c', Enc.wf c' → same_channels c c' → same_predictors c c' → Q c') → wp F (shiftBuffers c) Q.
Proof.
  intros Hc HQ. unfold shiftBuffers, L_LP_ANALYSIS_WINDOW, L_FRAME, MAXIMUM_INT_PITCH_DELAY, L_PAST_EXCITATION.
  wp_step. eapply wp_copy_block; [eauto with csafe|eauto with csafe|lia..|]. intros s Hs.
  wp_step. eapply wp_copy_block; [eauto with csafe|eauto with csafe|lia..|]. intros w Hw.
  wp_step. eapply wp_copy_block; [eauto with csafe|eauto with csafe|lia..|]. intros e He.
  cbn [wp]. apply HQ; [auto with csafe|done|done].
Qed.

(** *** Analysis *)

Record analysis_ok (a : analysis) : Prop := {
  ao_LSP : arr i16r 10 (an_LSP a);
  ao_reflection : arr i32r 10 (an_reflection a);
  ao_autocorrelation : arr i32r 13 (an_autocorrelation a);
  ao_noLag : arr i32r 13 (an_noLag a);
  ao_scale : i8r (an_scale a)
}.

Lemma preProcessing_channels F c s soff out off (Q : Enc.ctx * list Z → Prop) :
  wp F (preProcessing c s soff out off) Q →
  wp F (preProcessing c s soff out off) (λ '(c', o), Q (c', o) ∧ same_channels c c' ∧ same_predictors c c').
Proof.
  intros H. assert (∀ r, preProcessing c s soff out off = Ok r → same_channels c r.1 ∧ same_predictors c r.1) as HS.
  { intros r Hr. assert (wp (λ _, True) (preProcessing c s soff out off) (λ r, same_channels c r.1 ∧ same_predictors c r.1)) as HW.
    { unfold preProcessing. apply wp_for_inv with (I := λ r, same_channels c r.1 ∧ same_predictors c r.1); [done| |done].
      intros i [c1 o1] _ HI. destruct (ld s (soff + i)) as [v|]; [|done]. cbn [bind]. cbv zeta.
      destruct (st o1 _ _) as [o2|]; [|done]. exact HI. }
    by rewrite Hr in HW. }
  destruct (preProcessing c s soff out off) as [[c' o]|]; [|done]. split; [done|]. by apply (HS (c', o)).
Qed.

Lemma computeLP_scale w noLag s n : normalised w noLag s n → i8r s.
Proof. intros (H & _). unfold rng. lia. Qed.

Lemma wp_analyseFrame (F : fault → Prop) c n pcm poff (Q : Enc.ctx * analysis → Prop) :
  F DivError → encoder_wf c → arr i16r n pcm → 0 ≤ poff → poff + 80 ≤ n →
  (∀ c' a, encoder_wf c' → analysis_ok a → same_channels c c' → same_predictors c c' → Q (c', a)) →
  wp F (analyseFrame c pcm poff) Q.
Proof.
  intros HF [Hc Hv] Hpcm Hp Hn HQ. unfold analyseFrame, signalLastInputFrame, L_LP_ANALYSIS_WINDOW, L_FRAME. wp_step.
  eapply wp_mono.
  { apply preProcessing_channels. apply (wp_preProcessing F c n pcm poff 240 (Enc.signalBuffer c) (240 - 80)
      (λ '(c', o), Enc.wf c' ∧ arr i16r 240 o)); [done|done|lia|lia|eauto with csafe|lia|lia|done]. }
  intros [c1 s] ((Hc1 & Hs) & [EV ED] & EP). cbv zeta. set (c2 := Enc.set_signalBuffer s c1).
  assert (Enc.wf c2) as Hc2 by (unfold c2; auto with csafe).
  assert (vad_dtx (Enc.VADChannelContext c2) (Enc.DTXChannelContext c2)) as Hv2 by (unfold c2; cbn; by rewrite EV, ED).
  set (number := match Enc.VADChannelContext c2 with Some _ => _ | None => _ end).
  assert (11 ≤ number ≤ 13) as Hnum by (unfold number, NB_LSP_COEFF; destruct (Enc.VADChannelContext c2); lia).
  wp_step. apply (wp_computeLP F 13); [done|eauto with csafe|by apply arr_zeros|by apply arr_zeros|by apply arr_zeros|
    by apply arr_zeros|done|lia|].
  intros w LP k r noLag scale _ _ HLP Hk Hr HN Hnorm. wp_step.
  apply wp_LP2LSPConversion; [done|done|by apply arr_zeros|]. intros found L HL. wp_step.
  apply wp_mono with (P := arr i16r 10).
  { destruct found; [done|]. eapply wp_copy_block; [done|eauto with csafe|unfold NB_LSP_COEFF; lia..|done]. }
  intros L' HL'. cbn [wp]. apply HQ; [by constructor| |done|done].
  constructor; try done. by eapply computeLP_scale.
Qed.

(** *** Voice activity *)

(** The noise generator after an active frame: it starts again from the initial seed. *)
Definition dtx_spoke (d d' : option Dtx.ctx) : Prop :=
  match d with
  | None => d' = None
  | Some _ => ∃ x, d' = Some x ∧ Dtx.previousVADflag x = 1 ∧ Dtx.pseudoRandomSeed x = CNG_DTX_RANDOM_SEED_INIT
  end.

(** The indices of a descriptor: those that are packed and that lead from the spectral history
    [m] to [m']. *)
Definition sid_coded (m m' : list (list Z)) (b b' : list Z) (L0 i1 i2 i : Z) : Prop :=
  0 ≤ L0 < 2 ∧ 0 ≤ i1 < 32 ∧ 0 ≤ i2 < 16 ∧ 0 ≤ i ≤ 31 ∧ packSID [L0; i1; i2] i b = Ok b' ∧
  ∃ r1 r2 r3 q, ld L1SubsetIndex i1 = Ok r1 ∧ ld L2SubsetIndex i2 = Ok r2 ∧ ld L3SubsetIndex i2 = Ok r3 ∧
    reconstructLSP m noiseMAPredictor noiseMAPredictorSum L0 r1 r2 r3 (zeros 10) = Ok (m', q).

(** A noise frame between the DTX contexts [x] and [x'] and the histories [m] and [m']; [d1] is
    the context once the descriptor is known, before its gain is smoothed. *)
Definition noise_coded (x x' : Dtx.ctx) (m m' : list (list Z)) (b b' : list Z) (len : Z) : Prop :=
  Dtx.previousVADflag x' = 0 ∧
  (∃ gain e e', noiseExcitation gain (Dtx.pseudoRandomSeed x) e e' (Dtx.pseudoRandomSeed x')) ∧
  (∃ d1, Dtx.smoothedSIDGain d1 = Dtx.smoothedSIDGain x ∧ Dtx.previousVADflag d1 = Dtx.previousVADflag x ∧
     Dtx.currentSIDGain d1 = Dtx.currentSIDGain x' ∧ Dtx.smoothedSIDGain x' = Dtx.smoothedSIDGain (smoothSIDGain d1)) ∧
  (len = 0 ∧ Dtx.previousVADflag x ≠ 1 ∧ Dtx.currentSIDGain x' = Dtx.currentSIDGain x ∧ m' = m ∨
   len = 2 ∧ ∃ L0 i1 i2 i, sid_coded m m' b b' L0 i1 i2 i ∧ ld SIDGainCodebook i = Ok (Dtx.currentSIDGain x')).

Lemma noise_result_coded n s s' : sidFrame_ok n s → noise_result s s' →
  noise_coded (sf_dtx s) (sf_dtx s') (sf_previousqLSF s) (sf_previousqLSF s') (sf_bitStream s) (sf_bitStream s')
    (sf_bitStreamLength s').
Proof.
  intros Hs (d1 & k & Hcase & (T1 & T2 & T3 & T4 & T5 & T6 & T7)). split; [done|]. split; [by do 3 eexists|].
  destruct Hcase as [(El & Eb & Em & Hdue & ->)|(El & Hdue & q & L0 & i1 & i2 & r1 & r2 & r3 & i & Hdes & H0 & H1 & H2 & Hi & E1 & E2 & E3 & ER & Ep)].
  - split; [eexists; split_and!; [..|exact T3]; done|]. left. split_and!; try done.
    unfold due in Hdue. destruct (Z.eqb_spec (Dtx.previousVADflag (sf_dtx s)) 1); [|done]. by destruct Hdue.
  - destruct Hdes as (_ & D1 & D2 & D3 & D4 & D5 & _). split; [exists d1; by rewrite T1|]. right. split; [done|].
    exists L0, i1, i2, i. split; [|by rewrite T1]. unfold sid_coded. split_and!; try (done || lia). exists r1, r2, r3, q.
    split_and!; try done. destruct (SubsetIndex_bounds i1 i2 r1 r2 r3) as (R1 & R2 & R3); [lia|lia|done..|].
    rewrite (reconstructLSP_any _ _ _ _ _ _ _ _ (zeros 10)) in ER;
      [done|apply Hs|lia|lia|lia|lia|by right|apply Dtx.wf_qLSPCoefficients, Hs|by apply arr_zeros].
Qed.

Lemma wp_voiceActivity (F : fault → Prop) c a n b (Q : Enc.ctx * list Z * list Z * Z * Z → Prop) :
  F DivError → F BadShift → F Uninit → Enc.VADChannelContext c = None ∨ F NoReturn →
  encoder_wf c → analysis_ok a → arr u8r n b → 2 ≤ n →
  (∀ c' q b' len flag, encoder_wf c' → arr i16r 20 q → arr u8r n b' →
    (flag = VOICE ∧ b' = b ∧ same_predictors c c' ∧ dtx_spoke (Enc.DTXChannelContext c) (Enc.DTXChannelContext c') ∧
       (Enc.VADChannelContext c = None → Enc.VADChannelContext c' = None) ∨
     flag = NOISE ∧ (len = 0 ∨ len = 2) ∧ (∃ v, Enc.VADChannelContext c = Some v) ∧
       Enc.previousGainPredictionError c' = Enc.previousGainPredictionError c ∧
       ∃ x x', Enc.DTXChannelContext c = Some x ∧ Enc.DTXChannelContext c' = Some x' ∧
         noise_coded x x' (Enc.previousqLSF c) (Enc.previousqLSF c') b b' len) → Q (c', q, b', len, flag)) →
  wp F (voiceActivity c a b) Q.
Proof.
  intros HD HB HU HN [Hc Hv] [HL Hk Hr HnL Hsc] Hb Hn HQ. unfold voiceActivity.
  pose proof (Enc.wf_VADChannelContext c Hc) as Hwv. pose proof (Enc.wf_DTXChannelContext c Hc) as Hwd.
  destruct (Enc.VADChannelContext c) as [v|] eqn:EV.
  2:{ cbn [wp]. apply HQ; [constructor; [done|by rewrite EV]|by apply arr_zeros|done|]. left. split_and!; try done.
      by destruct (Enc.DTXChannelContext c). }
  destruct HN as [|HN]; [done|]. destruct (Enc.DTXChannelContext c) as [d|] eqn:ED; [|done]. wp_step.
  destruct (updateDTXContext_run d (an_noLag a) (an_scale a) 13) as (d' & -> & Hd' & Ed'); [done|done|lia|done|]. cbn [wp].
  wp_step. apply wp_LSPtoLSF; [done|done|]. intros LSF HLSF. wp_step.
  eapply wp_ld_arr; [done|lia|]. intros k1 _. wp_step.
  apply (wp_bcg729_vad _ _ _ _ _ _ 240); [done|done|done|done|by right|eauto with csafe|by vm_compute|by vm_compute|].
  intros Ef v' Ivd _ Hv' (HI & Hs' & _).
  set (s0 := SidFrame d' _ _ _ _ _ b 0).
  assert (sidFrame_ok n s0) as Hs0.
  { constructor; cbn; eauto with csafe. by apply arr_zeros. }
  wp_step. apply wp_mono with (P := λ s, sidFrame_ok n s ∧
    (Ivd = VOICE ∧ sf_bitStream s = b ∧ sf_previousqLSF s = Enc.previousqLSF c ∧ dtx_spoke (Some d) (Some (sf_dtx s)) ∨
     Ivd = NOISE ∧ (sf_bitStreamLength s = 0 ∨ sf_bitStreamLength s = 2) ∧
       noise_coded d (sf_dtx s) (Enc.previousqLSF c) (sf_previousqLSF s) b (sf_bitStream s) (sf_bitStreamLength s))).
  { destruct HI as [-> | ->].
    - destruct (encodeSIDFrame_voice n s0 Hs0) as (s1 & E1 & Hs1 & ->). change VOICE with 1. rewrite E1. cbn [wp]. split; [done|]. left.
      split_and!; try done. by eexists.
    - apply (wp_encodeSIDFrame_noise _ _ n); [done..|]. intros s1 Hs1 HR. split; [done|]. right. split; [done|].
      pose proof (noise_result_coded n s0 s1 Hs0 HR) as HN1. cbn in HN1. rewrite Ed' in HN1. split; [|exact HN1].
      destruct HR as (d1 & k & [(E1 & _)|(E1 & _)] & _); auto. }
  intros s1 [Hs1 Hcase]. cbn [wp]. destruct Hs1 as [Hd1 HpL Hpq Hm He Hq Hb1]. cbv zeta. apply HQ; [|done|done|].
  - constructor; [|exact Hs']. auto 10 with csafe.
  - destruct Hcase as [(-> & -> & Em & HS)|(-> & Hlen & HN1)]; [left; by split_and!|right].
    split_and!; [done|done|by eexists|done|]. exists d, (sf_dtx s1). by split_and!.
Qed.

(** *** Noise frames *)

Lemma wp_noiseTarget F c r w sub i (Q : Enc.ctx → Prop) :
  Enc.wf c → arr i16r 80 r → arr i16r 20 w → (sub = 0 ∧ i = 0 ∨ sub = 40 ∧ i = 10) →
  (∀ t, arr i16r 50 t → Q (Enc.set_targetSignal t c)) → wp F (noiseTarget c r w sub i) Q.
Proof.
  intros Hc Hr Hw Hsub HQ. unfold noiseTarget, L_SUBFRAME, NB_LSP_COEFF, L_PAST_EXCITATION. wp_step.
  apply wp_for_inv with (I := arr i16r 50); [eauto with csafe| |].
  - intros j t Hj Ht. wp_step. eapply wp_ld_arr; [done|lia|]. intros x _. wp_step.
    eapply wp_ld_arr; [apply (Enc.wf_excitationVector c Hc)|lia|]. intros y _.
    eapply wp_st_arr; [done|lia|apply i16_rng|done].
  - intros t Ht. wp_step. eapply wp_read_block; [done|lia..|]. intros src Hsrc. wp_step.
    eapply wp_read_block; [done|lia..|]. intros v Hv. wp_step.
    apply (wp_synthesisFilter _ 50); [done..|lia|lia|]. intros t' Ht'. by apply HQ.
Qed.

Lemma wp_noiseFrame F c q (Q : Enc.ctx → Prop) :
  encoder_wf c → arr i16r 20 q → (∀ c', encoder_wf c' → same_channels c c' → same_predictors c c' → Q c') →
  wp F (noiseFrame c q) Q.
Proof.
  intros [Hc Hv] Hq HQ. unfold noiseFrame. wp_step. apply wp_weightLPCoefficients; [done|]. intros w Hw. wp_step.
  apply (wp_computeWeightedSpeech _ 240 _ _ _ _ 223 _ _ 80); [eauto with csafe|by vm_compute|by vm_compute|done|done|
    eauto with csafe|by vm_compute|by vm_compute|by apply arr_zeros|done|by vm_compute|].
  intros ws r Hws Hr. cbv zeta. set (c1 := Enc.set_weightedInputSignal ws c).
  assert (Enc.wf c1) as Hc1 by (unfold c1; auto with csafe). wp_step.
  apply wp_noiseTarget; [done|done|done|by left|]. intros t Ht. wp_step.
  assert (Enc.wf (Enc.set_targetSignal t c1)) as Hc2 by auto with csafe.
  apply wp_noiseTarget; [done|done|done|by right|]. intros t' Ht'.
  apply wp_shiftBuffers; [auto with csafe|]. intros c' Hc' [EV ED] HP. apply HQ; [|done|done]. constructor; [done|].
  by rewrite EV, ED.
Qed.

(** *** Active frames *)

Lemma searchWindow_spec T : 20 ≤ T ≤ 143 → let '(lo, hi) := searchWindow T in 20 ≤ lo ∧ hi = lo + 6 ∧ hi ≤ 143.
Proof.
  intros HT. exhaust 7%nat 20 148 (λ T, (143 <? T) || let '(lo, hi) := searchWindow T in (20 <=? lo) && (hi =? lo + 6) && (hi <=? 143)) T as H.
  destruct (searchWindow T). lia.
Qed.

Lemma boundGain_rng g : rng 3277 19661 (boundGain g).
Proof. unfold boundGain, rng, ONE_POINT_2_IN_Q14, O2_IN_Q14. repeat case_match; lia. Qed.

Lemma codeword_first_bounds T f lo : 20 ≤ T ≤ 143 → -1 ≤ f ≤ 1 → (85 ≤ T → f = 0) → 0 ≤ pitchDelayCodeword 0 lo T f < 256.
Proof.
  intros HT Hf H85. unfold pitchDelayCodeword. cbn [Z.eqb]. destruct (Z.leb_spec T 85); rewrite u16_id; unfold rng; lia.
Qed.

Lemma codeword_second_bounds sub T f lo hi : sub ≠ 0 → lo ≤ T ≤ hi → hi ≤ lo + 9 → -1 ≤ f ≤ 1 →
  0 ≤ pitchDelayCodeword sub lo T f < 32.
Proof.
  intros Hs HT Hhi Hf. unfold pitchDelayCodeword. destruct (Z.eqb_spec sub 0); [done|]. rewrite u16_id; unfold rng; lia.
Qed.

Lemma wp_buildExcitation F e v off g1 g2 (Q : list Z → Prop) :
  arr i16r 234 e → arr i16r 40 v → 0 ≤ off ≤ 194 → (∀ e', arr i16r 234 e' → Q e') → wp F (buildExcitation e v off g1 g2) Q.
Proof.
  intros He Hv Ho HQ. unfold buildExcitation, L_SUBFRAME. apply wp_for_inv with (I := arr i16r 234); [done| |done].
  intros i t Hi Ht. wp_step. eapply wp_ld_arr; [done|lia|]. intros x _. wp_step. eapply wp_ld_arr; [done|lia|]. intros y _.
  eapply wp_st_arr; [done|lia|apply i16_rng|done].
Qed.

Lemma wp_updateTarget F t f v g1 g2 (Q : list Z → Prop) :
  arr i16r 50 t → arr i16r 50 f → arr i16r 40 v → (∀ t', arr i16r 50 t' → Q t') → wp F (updateTarget t f v g1 g2) Q.
Proof.
  intros Ht Hf Hv HQ. unfold updateTarget, L_SUBFRAME, NB_LSP_COEFF. cbv zeta.
  apply wp_for_inv with (I := arr i16r 50); [done| |done]. intros i u Hi Hu. wp_step.
  eapply wp_ld_arr; [done|lia|]. intros x _. wp_step. eapply wp_ld_arr; [done|lia|]. intros y _. wp_step.
  eapply wp_ld_arr; [done|lia|]. intros z _. eapply wp_st_arr; [done|lia|apply i16_rng|done].
Qed.

(** What one subframe transmits and where: the pitch codeword of the delay the adaptative vector
    was built with (and its parity in the first subframe), the pulses, and the gain codewords
    that the gain predictor was updated with. *)
Definition subframe_parameters (sub n codeword parity pulses signs GA GB : Z) (p : list Z) : list Z :=
  let p := <[Z.to_nat n := codeword]> p in
  let '(p, n) := if sub =? 0 then (<[Z.to_nat (n + 1) := parity]> p, n + 1 + 1) else (p, n + 1) in
  <[Z.to_nat (n + 2 + 1) := GB]> (<[Z.to_nat (n + 2) := GA]> (<[Z.to_nat (n + 1) := signs]> (<[Z.to_nat n := pulses]> p))).

Definition subframe_coded (sub : Z) (s s' : subframeState) : Prop :=
  ∃ T f parity pulses signs ga gb GA GB e,
    ss_delayMin s ≤ T ≤ ss_delayMax s ∧ -1 ≤ f ≤ 1 ∧ (sub = 0 → 85 ≤ T → f = 0) ∧
    (sub = 0 → computeParity (pitchDelayCodeword sub (ss_delayMin s) T f) = Ok parity) ∧
    0 ≤ pulses < 8192 ∧ 0 ≤ signs < 16 ∧ 0 ≤ ga < 8 ∧ 0 ≤ gb < 16 ∧
    ld indexMappingGA ga = Ok GA ∧ ld indexMappingGB gb = Ok GB ∧
    ss_parameters s' = subframe_parameters sub (ss_parametersIndex s) (pitchDelayCodeword sub (ss_delayMin s) T f)
      parity pulses signs GA GB (ss_parameters s) ∧
    ss_delayMin s' = (if sub =? 0 then tMin_of T else ss_delayMin s) ∧
    ss_delayMax s' = (if sub =? 0 then tMin_of T + 9 else ss_delayMax s) ∧
    ss_parametersIndex s' = ss_parametersIndex s + (if sub =? 0 then 6 else 5) ∧
    ss_LPCoefficientsIndex s' = ss_LPCoefficientsIndex s + 10 ∧
    Enc.previousqLSF (ss_ctx s') = Enc.previousqLSF (ss_ctx s) ∧
    computeGainPredictionError (gammaOf ga gb) (Enc.previousGainPredictionError (ss_ctx s)) = Ok e ∧
    Enc.previousGainPredictionError (ss_ctx s') = e.

Record subframe_ok (sub : Z) (s : subframeState) : Prop := {
  sk_wf : Enc.wf (ss_ctx s);
  sk_delay : 20 ≤ ss_delayMin s ∧ ss_delayMin s ≤ ss_delayMax s ∧ ss_delayMax s ≤ 143 ∧ ss_delayMax s ≤ ss_delayMin s + 9;
  sk_parameters : zlen (ss_parameters s) = 15;
  sk_index : sub = 0 ∧ ss_parametersIndex s = 4 ∧ ss_LPCoefficientsIndex s = 0 ∨
             sub = 40 ∧ ss_parametersIndex s = 10 ∧ ss_LPCoefficientsIndex s = 10
}.

Lemma wp_encodeSubframe (F : fault → Prop) w sub s (Q : subframeState → Prop) :
  F BadShift → F Uninit → arr i16r 20 w → subframe_ok sub s →
  (∀ s', Enc.wf (ss_ctx s') → zlen (ss_parameters s') = 15 → same_channels (ss_ctx s) (ss_ctx s') →
    subframe_coded sub s s' → Q s') →
  wp F (encodeSubframe w sub s) Q.
Proof.
  intros HB HU Hw [Hc Hdelay Hp Hidx] HQ. unfold encodeSubframe. cbv zeta.
  unfold L_PAST_EXCITATION, NB_LSP_COEFF, L_SUBFRAME. set (c := ss_ctx s) in *. set (n := ss_parametersIndex s) in *.
  assert (sub = 0 ∨ sub = 40) as Hsub by lia. assert (154 ≤ 154 + sub ≤ 194) as Hoff by lia.
  wp_step. apply (wp_read_block _ i16r 20); [done|lia..|]. intros w1 Hw1.
  wp_step. apply (wp_synthesisFilter _ 50); [apply arr_rng_by; reflexivity|done|by apply arr_zeros|lia|lia|]. intros hb Hhb.
  wp_step. apply (wp_read_block _ i16r 50); [done|lia..|]. intros h Hh.
  wp_step. apply (wp_read_block _ i16r 234); [eauto with csafe|lia..|]. intros res Hres.
  wp_step. apply (wp_synthesisFilter _ 50); [done|done|eauto with csafe|lia|lia|]. intros target Ht.
  wp_step. apply (wp_read_block _ i16r 50); [done|lia..|]. intros x Hx.
  wp_step. apply (wp_adaptativeCodebookSearch _ 234); [done|eauto with csafe|lia|lia|lia|lia|lia|done|done|].
  intros r (exc & T & f & HT & Hf & H85 & Eexc & ->).
  assert (arr i16r 234 exc) as Hexc.
  { destruct (compute_agree 234 (154 + sub) f T ltac:(lia) ltac:(lia) ltac:(lia) ltac:(lia) (Enc.excitationVector c)
      (Enc.excitationVector c)) as (t & E & _ & _ & Ht' & _); [split; [|split]; eauto with csafe|].
    rewrite E in Eexc. by injection Eexc as ->. }
  set (cw := pitchDelayCodeword _ _ _ _). wp_step. rewrite (st_ok (ss_parameters s)) by lia. cbn [wp].
  wp_step. apply (wp_read_block _ i16r 234); [done|lia..|]. intros av Hav.
  wp_step. apply (wp_synthesisFilter _ 50); [done|done|by apply arr_zeros|lia|lia|]. intros filtered Hfl.
  wp_step. destruct (computeAdaptativeCodebookGain_run 50 50 target 10 filtered 10 ltac:(lia) ltac:(lia) Ht Hfl ltac:(lia) ltac:(lia))
    as [_ ->]. set (ag := if _ <=? 0 then 0 else _). clearbody ag. cbn [wp].
  set (p1 := <[Z.to_nat n := cw]> (ss_parameters s)).
  assert (zlen p1 = 15) as L1 by (unfold p1; by rewrite zlen_insert).
  wp_step. apply wp_mono with (P := λ '(p, m), ∃ parity, (sub = 0 → computeParity cw = Ok parity) ∧ zlen p = 15 ∧
    (p, m) = if sub =? 0 then (<[Z.to_nat (n + 1) := parity]> p1, n + 1 + 1) else (p1, n + 1)).
  { destruct (Z.eqb_spec sub 0) as [E0|E0]; [|cbn [wp]; by exists 0].
    wp_step. rewrite ld_at by lia. cbn [wp]. replace (at_ p1 (n + 1 - 1)) with cw.
    2:{ unfold p1. rewrite at_insert by lia. destruct (Z.eqb_spec n (n + 1 - 1)); [done|lia]. }
    destruct (computeParity_ok cw) as (par & Epar & _).
    { unfold cw. rewrite E0. apply codeword_first_bounds; [lia|lia|auto]. }
    wp_step. rewrite Epar. cbn [wp]. wp_step. rewrite st_ok by lia. cbn [wp]. exists par. split; [done|].
    split; [by rewrite zlen_insert|done]. }
  intros [p2 m] (parity & Hpar & L2 & Epm). assert (0 ≤ m ∧ m + 4 ≤ 15) as Hm.
  { destruct (Z.eqb_spec sub 0); injection Epm as _ ->; lia. }
  wp_step. apply (wp_read_block _ i16r 50); [done|lia..|]. intros y Hy.
  wp_step. apply wp_fixedCodebookSearch; [done|done|done|lia|eauto with csafe|done|done|by apply arr_zeros|by apply arr_zeros|].
  intros h' r' _ _ (sg & pp & px & fv & cv & Hsg & Hpp & _ & _ & _ & Hfv & HEv & Hcv & _ & signs & _ & Hsigns & ->).
  destruct (fixedCodebookParameter_value pp Hpp) as [_ Hpulses]. set (pulses := fixedCodebookParameter pp) in *.
  cbn [wp]. wp_step. rewrite st_ok by lia. cbn [wp]. wp_step. rewrite st_ok by (rewrite zlen_insert; lia). cbn [wp].
  destruct (gainQuantization_run 50 50 c target 10 filtered 10 cv fv 0 0) as (t & c' & g1 & g2 & GA & GB & _ & _ & -> & Hq);
    [eauto with csafe|lia|lia|done|done|lia|lia|done|done|done|].
  destruct Hq as (pg & ba & bb & ga & gb & e & _ & Hgb & _ & _ & [EGA EGB] & (Ee & -> & He) & _).
  cbn [bind]. wp_step. rewrite st_ok by (rewrite !zlen_insert; lia). cbn [wp]. wp_step.
  rewrite st_ok by (rewrite !zlen_insert; lia). cbn [wp]. wp_step.
  apply wp_buildExcitation; [done|done|lia|]. intros exc' Hexc'. wp_step.
  apply wp_updateTarget; [done..|]. intros t' Ht'. cbn [wp]. apply HQ.
  - cbn. pose proof (boundGain_rng g1). auto 8 with csafe.
  - cbn. by rewrite !zlen_insert.
  - done.
  - exists T, f, parity, pulses, signs, ga, gb, GA, GB, e. split_and!; try done; try lia; cbn.
    + unfold subframe_parameters. cbv zeta. fold n cw. fold p1. rewrite <-Epm. done.
    + destruct (Z.eqb_spec sub 0); injection Epm as _ ->; fold n; lia.
Qed.

Lemma wp_quantizeSpectrum (F : fault → Prop) c LSP qLP (Q : Enc.ctx * list Z * list Z * list Z → Prop) :
  F DivError → F Uninit → Enc.wf c → arr i16r 10 LSP → arr i16r 20 qLP →
  (∀ c' l q L0 i1 i2 i3 m, Enc.wf c' → same_channels c c' → arr i16r 20 l → arr i16r 10 q →
    0 ≤ L0 < 2 → 0 ≤ i1 < 128 → 0 ≤ i2 < 32 → 0 ≤ i3 < 32 →
    reconstructLSP (Enc.previousqLSF c) MAPredictor MAPredictorSum L0 i1 i2 i3 (zeros 10) = Ok (m, q) →
    Enc.previousqLSF c' = m → Enc.previousGainPredictionError c' = Enc.previousGainPredictionError c →
    Q (c', l, q, L0 :: i1 :: i2 :: i3 :: zeros 11)) →
  wp F (quantizeSpectrum c LSP qLP) Q.
Proof.
  intros HD HU Hc HL Hq HQ. unfold quantizeSpectrum. wp_step.
  apply (wp_LSPQuantization _ _ _ _ _ 15); [done|done|eauto with csafe|done|by apply arr_zeros|done|lia|].
  intros r (m & q & L0 & i1 & i2 & i3 & _ & _ & _ & -> & Hm & Hq' & H0 & H1 & H2 & H3 & _ & _ & _ & _ & _ & _ & _ & ER).
  cbn beta iota. set (c1 := Enc.set_previousqLSF m c). assert (Enc.wf c1) as Hc1 by (unfold c1; auto with csafe).
  wp_step. apply wp_interpolateqLSP; [eauto with csafe|done|by apply arr_zeros|]. intros iq Hiq. wp_step.
  rewrite copyLoop_ok by (apply (Enc.wf_previousqLSPCoefficients c1 Hc1) || apply Hq'). cbn [wp]. cbv zeta. wp_step.
  apply (wp_qLSP2LP _ 20); [done|done|lia|lia|]. intros l1 Hl1. wp_step.
  apply (wp_qLSP2LP _ 20); [done|done|by vm_compute|by vm_compute|]. intros l2 Hl2. cbn [wp].
  eapply HQ; try done. auto with csafe.
Qed.

(** What an active frame transmits, and the predictors it leaves. *)
Definition active_coded (c c' : Enc.ctx) (p : list Z) : Prop :=
  ∃ L0 i1 i2 i3 P1 P0 C1 S1 GA1 GB1 P2 C2 S2 GA2 GB2 q ga1 gb1 ga2 gb2 e1 e2,
    p = [L0; i1; i2; i3; P1; P0; C1; S1; GA1; GB1; P2; C2; S2; GA2; GB2] ∧ params_ok p ∧
    computeParity P1 = Ok P0 ∧
    reconstructLSP (Enc.previousqLSF c) MAPredictor MAPredictorSum L0 i1 i2 i3 (zeros 10) = Ok (Enc.previousqLSF c', q) ∧
    (0 ≤ ga1 < 8 ∧ 0 ≤ gb1 < 16 ∧ ld indexMappingGA ga1 = Ok GA1 ∧ ld indexMappingGB gb1 = Ok GB1) ∧
    (0 ≤ ga2 < 8 ∧ 0 ≤ gb2 < 16 ∧ ld indexMappingGA ga2 = Ok GA2 ∧ ld indexMappingGB gb2 = Ok GB2) ∧
    computeGainPredictionError (gammaOf ga1 gb1) (Enc.previousGainPredictionError c) = Ok e1 ∧
    computeGainPredictionError (gammaOf ga2 gb2) e1 = Ok e2 ∧ Enc.previousGainPredictionError c' = e2.

Lemma gain_index_bounds ga gb GA GB : 0 ≤ ga < 8 → 0 ≤ gb < 16 → ld indexMappingGA ga = Ok GA → ld indexMappingGB gb = Ok GB →
  0 ≤ GA < 8 ∧ 0 ≤ GB < 16.
Proof.
  intros H1 H2 E1 E2.
  pose proof (wp_ld_arr no_fault (rng 0 7) 8 indexMappingGA ga (λ v, 0 ≤ v < 8) ltac:(apply arr_rng_by; reflexivity) ltac:(lia) ltac:(unfold rng; lia)) as B1.
  pose proof (wp_ld_arr no_fault (rng 0 15) 16 indexMappingGB gb (λ v, 0 ≤ v < 16) ltac:(apply arr_rng_by; reflexivity) ltac:(lia) ltac:(unfold rng; lia)) as B2.
  rewrite E1 in B1. rewrite E2 in B2. done.
Qed.

Lemma tMin_of_bounds T : 20 ≤ T ≤ 143 → 20 ≤ tMin_of T ∧ tMin_of T + 9 ≤ 143.
Proof. intros HT. exhaust 7%nat 20 148 (λ T, (143 <? T) || (20 <=? tMin_of T) && (tMin_of T + 9 <=? 143)) T as H. lia. Qed.

Lemma wp_activeFrame (F : fault → Prop) c LSP qLP (Q : Enc.ctx * list Z → Prop) :
  F DivError → F BadShift → F Uninit → encoder_wf c → arr i16r 10 LSP → arr i16r 20 qLP →
  (∀ c' p, encoder_wf c' → active_coded c c' p → same_channels c c' → Q (c', p)) →
  wp F (activeFrame c LSP qLP) Q.
Proof.
  intros HD HB HU [Hc Hv] HL Hq HQ. unfold activeFrame. wp_step. apply wp_quantizeSpectrum; [done..|].
  intros c1 l q L0 i1 i2 i3 m Hc1 [EV1 ED1] Hl Hq' H0 H1 H2 H3 ER Em Eg. wp_step.
  apply wp_weightLPCoefficients; [done|]. intros w Hw. wp_step.
  apply (wp_computeWeightedSpeech _ 240 _ _ _ _ 223 _ _ 234); [eauto with csafe|by vm_compute|by vm_compute|done|done|
    eauto with csafe|by vm_compute|by vm_compute|eauto with csafe|by vm_compute|by vm_compute|].
  intros ws exc Hws Hexc. cbv zeta. set (c2 := Enc.set_excitationVector exc (Enc.set_weightedInputSignal ws c1)).
  assert (Enc.wf c2) as Hc2 by (unfold c2; auto with csafe). wp_step.
  apply (wp_findOpenLoopPitchDelay _ 223); [eauto with csafe|by vm_compute|by vm_compute|]. intros D HD'.
  pose proof (searchWindow_spec D HD') as Hwin. destruct (searchWindow D) as [lo hi]. destruct Hwin as (W1 & W2 & W3).
  set (p0 := L0 :: i1 :: i2 :: i3 :: zeros 11). wp_step.
  apply wp_encodeSubframe; [done|done|done|constructor; cbn; [done|lia|done|by left]|].
  intros s1 Hs1 Lp1 [EV2 ED2] HC1.
  destruct HC1 as (T1 & f1 & P0 & C1 & S1 & ga1 & gb1 & GA1 & GB1 & e1 & HT1 & Hf1 & H85 & Hpar & HC1 & HS1 & Hga1 & Hgb1 & EGA1 & EGB1 &
    Ep1 & Elo1 & Ehi1 & En1 & El1 & Em1 & Ee1 & Eg1). cbn in HT1, Elo1, Ehi1, En1, El1, Em1, EV2, ED2.
  destruct (tMin_of_bounds T1 ltac:(lia)) as [Ht1 Ht2]. wp_step.
  apply wp_encodeSubframe; [done|done|done|constructor; [done|lia|done|right; unfold L_SUBFRAME; lia]|].
  intros s2 Hs2 Lp2 [EV3 ED3] HC2.
  destruct HC2 as (T2 & f2 & x & C2 & S2 & ga2 & gb2 & GA2 & GB2 & e2 & HT2 & Hf2 & _ & _ & HC2 & HS2 & Hga2 & Hgb2 & EGA2 & EGB2 &
    Ep2 & Elo2 & Ehi2 & En2 & El2 & Em2 & Ee2 & Eg2).
  wp_step. apply (wp_copy_block _ i16r 10 10); [eauto with csafe|done|unfold NB_LSP_COEFF; lia..|]. intros pl Hpl. wp_step.
  apply (wp_copy_block _ i16r 10 10); [eauto with csafe|done|unfold NB_LSP_COEFF; lia..|]. intros pq Hpq. wp_step.
  apply wp_shiftBuffers; [auto with csafe|]. intros c' Hc' [EV4 ED4] [Em4 Eg4]. cbn in EV4, ED4, Em4, Eg4. cbn [wp]. apply HQ; [| |split; [by rewrite EV4, EV3, EV2, EV1|by rewrite ED4, ED3, ED2, ED1]].
  { constructor; [done|]. by rewrite EV4, ED4, EV3, ED3, EV2, ED2, EV1, ED1. }
  destruct (gain_index_bounds ga1 gb1 GA1 GB1) as [B1 B2]; [done..|].
  destruct (gain_index_bounds ga2 gb2 GA2 GB2) as [B3 B4]; [done..|].
  rewrite Ep1 in Ep2. cbn [ss_delayMin ss_parametersIndex ss_parameters ss_ctx] in Ep2, Hpar, Ee1.
  rewrite En1, Elo1 in Ep2. set (P1 := pitchDelayCodeword 0 lo T1 f1) in *.
  set (P2 := pitchDelayCodeword L_SUBFRAME (tMin_of T1) T2 f2) in *.
  assert (0 ≤ P1 < 256) as BP1 by (apply codeword_first_bounds; [lia|lia|auto]).
  assert (0 ≤ P2 < 32) as BP2 by (apply (codeword_second_bounds _ _ _ _ (tMin_of T1 + 9)); [done|lia|lia|lia]).
  specialize (Hpar eq_refl). destruct (computeParity_ok P1 BP1) as (par & Epar & BP0). rewrite Hpar in Epar.
  injection Epar as <-. unfold rng in BP0.
  assert (ss_parameters s2 = [L0; i1; i2; i3; P1; P0; C1; S1; GA1; GB1; P2; C2; S2; GA2; GB2]) as Ep by (rewrite Ep2; reflexivity).
  clearbody P1 P2.
  exists L0, i1, i2, i3, P1, P0, C1, S1, GA1, GB1, P2, C2, S2, GA2, GB2, q, ga1, gb1, ga2, gb2, e1, e2.
  split; [done|]. split.
  { rewrite Ep. unfold params_ok, field_widths. repeat (constructor; [cbn; lia|]). constructor. }
  split; [done|]. split; [rewrite Em4, Em2, Em1, Em; exact ER|]. split; [done|]. split; [done|].
  rewrite Eg1 in Ee2. split_and!; [by rewrite <-Eg|done|by rewrite Eg4, Eg2].
Qed.

(** ** The frame *)

(** The outcome of a call: an active frame of ten bytes that carry the coded parameters, or a
    noise frame of two bytes or none. *)
Definition frame_result (c c' : Enc.ctx) (bits bits' : list Z) (len : Z) : Prop :=
  len = 10 ∧ (∃ p, active_coded c c' p ∧ parametersArray2BitStream p bits = Ok bits') ∧
    dtx_spoke (Enc.DTXChannelContext c) (Enc.DTXChannelContext c') ∧
    (Enc.VADChannelContext c = None → Enc.VADChannelContext c' = None) ∨
  (len = 0 ∨ len = 2) ∧ (∃ v, Enc.VADChannelContext c = Some v) ∧
    Enc.previousGainPredictionError c' = Enc.previousGainPredictionError c ∧
    ∃ x x', Enc.DTXChannelContext c = Some x ∧ Enc.DTXChannelContext c' = Some x' ∧
      noise_coded x x' (Enc.previousqLSF c) (Enc.previousqLSF c') bits bits' len.

Lemma pack_bytes p b : params_ok p → zlen b = 10 → ∃ b', parametersArray2BitStream p b = Ok b' ∧ arr u8r 10 b'.
Proof.
  intros Hp Hb. rewrite pack_spec by done. eexists. split; [done|].
  destruct (params_ok_inv p Hp) as (p0&p1&p2&p3&p4&p5&p6&p7&p8&p9&p10&p11&p12&p13&p14&->&HR).
  split; [done|]. unfold rng. repeat (constructor; [Z.div_mod_to_equations; lia|]). constructor.
Qed.

Lemma wp_bcg729Encoder (F : fault → Prop) c n pcm poff b (Q : Enc.ctx * list Z * Z → Prop) :
  F DivError → F BadShift → F Uninit → Enc.VADChannelContext c = None ∨ F NoReturn →
  encoder_wf c → arr i16r n pcm → 0 ≤ poff → poff + 80 ≤ n → arr u8r 10 b →
  (∀ c' b' len, encoder_wf c' → arr u8r 10 b' → frame_result c c' b b' len → Q (c', b', len)) →
  wp F (bcg729Encoder c pcm poff b) Q.
Proof.
  intros HD HB HU HN Hc Hpcm Hp Hn Hb HQ. unfold bcg729Encoder. wp_step. apply (wp_analyseFrame _ _ n); [done..|].
  intros c1 a Hc1 Ha [EV ED] [Em Eg]. wp_step.
  apply (wp_voiceActivity _ _ _ 10); [done..|by rewrite EV|done|done|done|lia|].
  intros c2 q b2 len flag Hc2 Hq Hb2 [(-> & -> & [Em2 Eg2] & HS & EN)|(-> & Hlen & [v Ev] & Eg2 & x & x' & Ex & Ex' & HN')].
  - change (VOICE =? 0) with false. cbv iota. wp_step. apply wp_activeFrame; [done..|apply Ha|done|].
    intros c3 p Hc3 Hcoded [EV3 ED3]. wp_step.
    assert (active_coded c c3 p) as Hcoded'.
    { unfold active_coded in *. by rewrite <-Em, <-Eg, <-Em2, <-Eg2. }
    assert (params_ok p) as Hpok by (destruct Hcoded as (?&?&?&?&?&?&?&?&?&?&?&?&?&?&?&?&?&?&?&?&?&?&_&H&_); exact H).
    destruct (pack_bytes p b Hpok (proj1 Hb)) as (b' & Eb & Hb'). rewrite Eb. cbn [wp].
    apply HQ; [done|done|]. left. split; [done|]. split; [by exists p|].
    split; [by rewrite ED3, <-ED|]. intros EN0. rewrite EV3. apply EN. by rewrite EV.
  - change (NOISE =? 0) with true. cbv iota. wp_step. apply wp_noiseFrame; [done|done|]. intros c3 Hc3 [_ ED3] [Em3 Eg3]. cbn [wp].
    apply HQ; [done|done|]. right. split; [done|]. split; [exists v; by rewrite <-EV|]. split; [by rewrite Eg3, Eg2, Eg|].
    exists x, x'. rewrite Em3, <-Em, <-ED, ED3. by split_and!.
Qed.

(** A channel just created. *)
Lemma initial_encoder_wf h h' e v : initBcg729EncoderChannel h true true true v = Ok (h', e) → encoder_wf (enc_context e).
Proof.
  intros E. constructor.
  - destruct (initBcg729EncoderChannel_run h v) as (c & Hc & E'). rewrite E in E'. injection E' as E'.
    destruct (v =? 1); injection E' as _ ->; exact Hc.
  - unfold initBcg729EncoderChannel in E. destruct (v =? 1); vm_compute in E; injection E as <- <-; [|exact I].
    constructor; cbn; auto; unfold rng; lia.
Qed.
