(* ===== verification/EncSync.v ===== *)
(** The encoder against the decoder. On noise frames the descriptor the encoder sends puts the
    decoder's comfort noise generator in the state of the encoder's ([dtx.c] and [cng.c]); on
    active frames the predictors of the decoder follow those of the encoder ([encoder.c] and
    [decoder.c]). *)

From S2P Require Import Prelude FixedPoint Codebooks Math Utils Context DecodeLSP DecodeExcitation LP2LSP Synthesis ComfortNoise Decoder.
From S2P Require Import EncContext EncChannel EncGain EncLSP EncDtx Encoder.

(** ** The two bytes *)

(** The fields the decoder extracts are those the encoder packed, except that the two high bits
    of [L2] are reduced modulo 3. *)
Lemma sidFields_packed L0 i1 i2 i : 0 ≤ L0 < 2 → 0 ≤ i1 < 32 → 0 ≤ i2 < 16 → 0 ≤ i ≤ 31 →
  sidFields (u8 (Z.lor (Z.lor (Z.shiftl (Z.land L0 1) 7) (Z.shiftl (Z.land i1 31) 2)) (Z.rem (Z.shiftr i2 2) 3)))
            (u8 (Z.lor (Z.shiftl (Z.land i2 3) 6) (Z.shiftl (Z.land i 31) 1))) =
  (L0, i1, if i2 <? 12 then i2 else i2 - 12, i).
Proof.
  intros H0 H1 H2 Hi. set (n := i + 32 * (i2 + 16 * (i1 + 32 * L0))).
  exhaust 15%nat 0 32768 (λ n,
    let i := n mod 32 in let i2 := n / 32 mod 16 in let i1 := n / 512 mod 32 in let L0 := n / 16384 in
    let '(a, b, c, d) := sidFields (u8 (Z.lor (Z.lor (Z.shiftl (Z.land L0 1) 7) (Z.shiftl (Z.land i1 31) 2)) (Z.rem (Z.shiftr i2 2) 3)))
            (u8 (Z.lor (Z.shiftl (Z.land i2 3) 6) (Z.shiftl (Z.land i 31) 1))) in
    (a =? L0) && (b =? i1) && (c =? if i2 <? 12 then i2 else i2 - 12) && (d =? i)) n as H.
  cbv zeta in H. assert (n mod 32 = i) as E1 by (unfold n; Z.div_mod_to_equations; lia).
  assert (n / 32 mod 16 = i2) as E2 by (unfold n; Z.div_mod_to_equations; lia).
  assert (n / 512 mod 32 = i1) as E3 by (unfold n; Z.div_mod_to_equations; lia).
  assert (n / 16384 = L0) as E4 by (unfold n; Z.div_mod_to_equations; lia).
  rewrite E1, E2, E3, E4 in H. destruct (sidFields _ _) as [[[a b] c] d]. f_equal; [f_equal; [f_equal|]|]; lia.
Qed.

(** ** The spectrum *)

(** The decoder's path on three indices, as a function. *)
Definition decodedSpectrum (m : list (list Z)) (pred : list (list (list Z))) (psum : list (list Z)) (L0 r1 r2 r3 : Z)
    : res (list Z * list (list Z)) :=
  let* q := codebookSum r1 r2 0 (NB_LSP_COEFF / 2) (zeros NB_LSP_COEFF) in
  let* q := codebookSum r1 r3 (NB_LSP_COEFF / 2) NB_LSP_COEFF q in
  computeqLSF q m L0 pred psum.

Lemma decodedSpectrum_reconstructs m pred psum L0 r1 r2 r3 qLSP m' q :
  arr (arr i16r 10) 4 m → predictor_tables pred psum → 0 ≤ L0 < 2 → 0 ≤ r1 < 128 → 0 ≤ r2 < 32 → 0 ≤ r3 < 32 →
  arr i16r 10 qLSP → reconstructLSP m pred psum L0 r1 r2 r3 qLSP = Ok (m', q) →
  ∃ l, decodedSpectrum m pred psum L0 r1 r2 r3 = Ok (l, m') ∧ arr i16r 10 l ∧
    (aboveMin m pred psum L0 r1 r2 r3 = true →
     for_up 0 NB_LSP_COEFF qLSP (λ i a, let* v := ld l i in st a i (g729Cos_Q13Q15 v)) = Ok q).
Proof.
  intros Hm Ht H0 H1 H2 H3 Hq ER.
  destruct (reconstructLSP_run m pred psum L0 r1 r2 r3 qLSP Hm H0 H1 H2 H3 Ht Hq)
    as (out & l & l' & Ho & Hl & Hl' & Eo & Ep & El & Ec & Hm' & q0 & ER' & Hq0 & Eq).
  rewrite ER in ER'. injection ER' as -> ->. clear ER. unfold decodedSpectrum.
  pose proof Eo as Eo'. unfold quantizerOutput in Eo.
  destruct (codebookSum r1 r2 _ _ _) as [q1|]; [|done]. cbn [bind] in *.
  destruct (codebookSum r1 r3 _ _ q1) as [q2|]; [|done]. cbn [bind] in *.
  unfold computeqLSF. destruct (rearrangeCoefficients q2 GAP1) as [q3|]; [|done]. cbn [bind] in *.
  rewrite Eo. cbn [bind]. rewrite Ep. cbn [bind].
  destruct (proj1 (safe_ok _ _) (wp_stabiliseqLSF no_fault l _ Hl (λ _ H, H))) as (l2 & Es & Hl2).
  rewrite Es. cbn [bind]. exists l2. split; [done|]. split; [done|]. intros Ha.
  unfold aboveMin in Ha. rewrite Eo' in Ha. cbn [bind] in Ha. rewrite El in Ha. rewrite check_agree in Ec; [|done|].
  - rewrite Es in Ec. injection Ec as ->. done.
  - apply List.Forall_forall. intros v Hv. by apply Z.leb_le, (proj1 (forallb_forall _ _) Ha v Hv).
Qed.

(** ** The state both sides share *)

(** The encoder's noise state [s] and the decoder's [t], whose last frame was active when
    [active] is not 0. After an active frame, gain and spectrum are about to be replaced and
    need not agree. *)
Record noise_sync (s : sidFrame) (t : sidState) (active : Z) : Prop := {
  ns_gain : active = 0 → Cng.receivedSIDGain (sid_ctx t) = Dtx.currentSIDGain (sf_dtx s);
  ns_smoothed : active = 0 → Cng.smoothedSIDGain (sid_ctx t) = Dtx.smoothedSIDGain (sf_dtx s);
  ns_spectrum : active = 0 → Cng.qLSP (sid_ctx t) = Dtx.qLSPCoefficients (sf_dtx s);
  ns_excitation : sid_excitationVector t = sf_excitation s;
  ns_previous : sid_previousqLSP t = sf_previousqLSP s;
  ns_seed : sid_pseudoRandomSeed t = Dtx.pseudoRandomSeed (sf_dtx s);
  ns_history : sid_previousLCodeWord t = sf_previousqLSF s;
  ns_active : negb (active =? 0) = (Dtx.previousVADflag (sf_dtx s) =? 1)
}.

Lemma smoothGain_agree c d active : Cng.receivedSIDGain c = Dtx.currentSIDGain d →
  (active = 0 → Cng.smoothedSIDGain c = Dtx.smoothedSIDGain d) →
  negb (active =? 0) = (Dtx.previousVADflag d =? 1) →
  Cng.smoothedSIDGain (smoothGain c active) = Dtx.smoothedSIDGain (smoothSIDGain d).
Proof.
  intros E1 E2 E3. unfold smoothGain, smoothSIDGain. rewrite <-E3. destruct (Z.eqb_spec active 0); cbn; by rewrite E1, ?E2.
Qed.

Lemma smoothGain_keeps c active : Cng.receivedSIDGain (smoothGain c active) = Cng.receivedSIDGain c ∧
  Cng.qLSP (smoothGain c active) = Cng.qLSP c.
Proof. unfold smoothGain. by destruct (negb _). Qed.

(** The decoder once the spectrum and the gain are known. *)
Lemma decodeSIDframe_tail t active c m q e seed (b : option (list Z)) len rfc : sid_wf t → Cng.wf c → Cng.qLSP c = q →
  match b with
  | Some b => if negb (rfc =? 0) then let* c := decodeRFC3389 (sid_ctx t) b len (sid_previousqLSP t) in Ok (c, sid_previousLCodeWord t)
              else decodeG729SID (sid_ctx t) b (sid_previousLCodeWord t)
  | None => Ok (sid_ctx t, sid_previousLCodeWord t)
  end = Ok (c, m) →
  noiseExcitation (Cng.smoothedSIDGain (smoothGain c active)) (sid_pseudoRandomSeed t) (sid_excitationVector t) e seed →
  ∃ LP, decodeSIDframe t active b len rfc = Ok (SidState (smoothGain c active) e q LP seed m).
Proof.
  intros [Hc He Hp HL Hs Hm] Hc' Hq Hb HX. unfold decodeSIDframe. rewrite Hb. cbn [bind].
  assert (arr i16r 10 (Cng.qLSP c)) as Hqc by eauto with csafe.
  destruct (proj1 (safe_ok _ _) (wp_interpolateqLSP no_fault _ _ (zeros NB_LSP_COEFF) _ Hp Hqc
    ltac:(by apply arr_zeros) (λ _ H, H))) as (iq & -> & Hiq). cbn [bind].
  rewrite copyLoop_ok by (apply Hp || apply Hqc). cbn [bind].
  destruct (proj1 (safe_ok _ _) (wp_qLSP2LP no_fault 20 iq _ 0 _ Hiq HL ltac:(lia) ltac:(lia) (λ _ H, H))) as (l1 & -> & Hl1).
  cbn [bind].
  destruct (proj1 (safe_ok _ _) (wp_qLSP2LP no_fault 20 _ _ NB_LSP_COEFF _ Hqc Hl1 ltac:(done) ltac:(done) (λ _ H, H)))
    as (l2 & -> & Hl2). cbn [bind]. cbv zeta. exists l2.
  destruct HX as [Ecn]. rewrite Ecn. cbn [bind]. rewrite Hq. reflexivity.
Qed.

(** A descriptor read back: gain and spectrum of the encoder's new state. *)
Lemma decodeG729SID_reconstructs c m L0 i1 i2 i r1 r2 r3 b b' g m' q :
  Cng.wf c → arr (arr i16r 10) 4 m → 0 ≤ L0 < 2 → 0 ≤ i1 < 32 → 0 ≤ i2 < 12 → 0 ≤ i ≤ 31 → 2 ≤ zlen b →
  packSID [L0; i1; i2] i b = Ok b' → ld SIDGainCodebook i = Ok g →
  ld L1SubsetIndex i1 = Ok r1 → ld L2SubsetIndex i2 = Ok r2 → ld L3SubsetIndex i2 = Ok r3 →
  reconstructLSP m noiseMAPredictor noiseMAPredictorSum L0 r1 r2 r3 (Cng.qLSP c) = Ok (m', q) →
  ∃ q', decodeG729SID c b' m = Ok (Cng.set_qLSP q' (Cng.set_receivedSIDGain g c), m') ∧ arr i16r 10 q' ∧
    (aboveMin m noiseMAPredictor noiseMAPredictorSum L0 r1 r2 r3 = true → q' = q).
Proof.
  intros Hc Hm H0 H1 H2 Hi Hb Eb Eg E1 E2 E3 ER.
  destruct (packSID_ok L0 i1 i2 i b Hb) as (b2 & Eb2 & _ & B0 & B1 & _). rewrite Eb in Eb2. injection Eb2 as <-.
  destruct (SubsetIndex_bounds i1 i2 r1 r2 r3) as (R1 & R2 & R3); [lia|lia|done..|].
  assert (arr i16r 10 (Cng.qLSP c)) as Hq by eauto with csafe.
  destruct (decodedSpectrum_reconstructs m _ _ L0 r1 r2 r3 _ m' q Hm (or_intror (conj eq_refl eq_refl)) H0 R1 R2 R3 Hq ER)
    as (l & El & Hl & Hcos).
  unfold decodeG729SID. rewrite B0, B1. cbn [bind]. rewrite sidFields_packed by lia.
  destruct (Z.ltb_spec i2 12); [|lia]. rewrite Eg. cbn [bind]. cbv zeta. rewrite E1, E2, E3. cbn [bind].
  unfold decodedSpectrum in El. destruct (codebookSum r1 r2 _ _ _) as [q1|]; [|done]. cbn [bind] in *.
  destruct (codebookSum r1 r3 _ _ q1) as [q2|]; [|done]. cbn [bind] in *. rewrite El. cbn [bind].
  change (Cng.qLSP (Cng.set_receivedSIDGain g c)) with (Cng.qLSP c).
  destruct (proj1 (safe_ok _ _) (wp_copy10 no_fault i16r 10 l (Cng.qLSP c) g729Cos_Q13Q15 _ Hl Hq ltac:(lia)
    (λ v _, g729Cos_rng v) (λ _ H, H))) as (q' & Eq' & Hq'). rewrite Eq'. cbn [bind].
  exists q'. split; [done|]. split; [done|]. intros Ha. rewrite Hcos in Eq' by done. by injection Eq'.
Qed.

(** ** One noise frame on both sides *)

Lemma noise_untransmitted n s s' t active k : sidFrame_ok n s → sid_wf t → noise_sync s t active →
  sf_previousqLSF s' = sf_previousqLSF s →
  due (sf_dtx s) UNTRANSMITTED_FRAME k → noise_tail s s' (Dtx.set_count_fr k (sf_dtx s)) →
  ∃ t', decodeSIDframe t active None 0 0 = Ok t' ∧ noise_sync s' t' 0.
Proof.
  intros Hs Ht [E1 E2 E3 E4 E5 E6 E7 E8] Em Hdue (F1 & F2 & F3 & F4 & F5 & F6 & F7). cbn in F1, F2, F5, F6.
  assert (active = 0) as Hact.
  { unfold due in Hdue. rewrite <-E8 in Hdue. destruct (Z.eqb_spec active 0); [done|]. by destruct Hdue. }
  specialize (E1 Hact). specialize (E2 Hact). specialize (E3 Hact).
  assert (Cng.smoothedSIDGain (smoothGain (sid_ctx t) active) = Dtx.smoothedSIDGain (sf_dtx s')) as Eg.
  { rewrite F3. rewrite (smoothGain_agree _ (Dtx.set_count_fr k (sf_dtx s)) active); done. }
  destruct (decodeSIDframe_tail t active (sid_ctx t) (sid_previousLCodeWord t) (Cng.qLSP (sid_ctx t))
    (sf_excitation s') (Dtx.pseudoRandomSeed (sf_dtx s')) None 0 0) as (LP & E); [done|apply Ht|done|done| |].
  { rewrite Eg, E4, E6. done. }
  eexists. split; [exact E|]. destruct (smoothGain_keeps (sid_ctx t) active) as [K1 K2].
  constructor; rewrite ?F4; cbn; rewrite ?K1, ?K2; try congruence.
Qed.

Lemma noise_transmitted n s s' t active d1 q L0 i1 i2 i r1 r2 r3 : sidFrame_ok n s → 2 ≤ n → sid_wf t → noise_sync s t active →
  described (sf_dtx s) q i d1 → 0 ≤ L0 < 2 → 0 ≤ i1 < 32 → 0 ≤ i2 < 12 → 0 ≤ i ≤ 31 →
  ld L1SubsetIndex i1 = Ok r1 → ld L2SubsetIndex i2 = Ok r2 → ld L3SubsetIndex i2 = Ok r3 →
  reconstructLSP (sf_previousqLSF s) noiseMAPredictor noiseMAPredictorSum L0 r1 r2 r3
    (Dtx.qLSPCoefficients (sf_dtx s)) = Ok (sf_previousqLSF s', q) →
  packSID [L0; i1; i2] i (sf_bitStream s) = Ok (sf_bitStream s') →
  aboveMin (sf_previousqLSF s) noiseMAPredictor noiseMAPredictorSum L0 r1 r2 r3 = true →
  noise_tail s s' d1 →
  ∃ t', decodeSIDframe t active (Some (sf_bitStream s')) 2 0 = Ok t' ∧ noise_sync s' t' 0.
Proof.
  intros Hs Hn Ht [E1 E2 E3 E4 E5 E6 E7 E8] Hdes H0 H1 H2 Hi X1 X2 X3 ER Eb Ha (F1 & F2 & F3 & F4 & F5 & F6 & F7).
  destruct Hdes as (Hd1 & D1 & D2 & D3 & D4 & D5 & D6 & D7 & D8).
  destruct (SubsetIndex_bounds i1 i2 r1 r2 r3) as (R1 & R2 & R3); [lia|lia|done..|].
  rewrite (reconstructLSP_any _ _ _ _ _ _ _ _ (Cng.qLSP (sid_ctx t))) in ER;
    [|apply Hs|done..|by right|apply Dtx.wf_qLSPCoefficients, Hs|apply Cng.wf_qLSP, Ht].
  rewrite <-E7 in ER, Ha. set (g := Dtx.currentSIDGain d1) in *.
  destruct (decodeG729SID_reconstructs (sid_ctx t) (sid_previousLCodeWord t) L0 i1 i2 i r1 r2 r3 (sf_bitStream s)
    (sf_bitStream s') g (sf_previousqLSF s') q) as (q' & Edec & Hq' & Hqq); try done; [apply Ht|apply Ht|
    rewrite (proj1 (so_bitStream _ _ Hs)); lia|]. rewrite (Hqq Ha) in *. clear Hqq.
  set (c := Cng.set_qLSP q (Cng.set_receivedSIDGain g (sid_ctx t))) in *.
  assert (Cng.wf c) as Hc.
  { apply Cng.wf_set_qLSP; [|done]. apply Cng.wf_set_receivedSIDGain; [apply Ht|]. by apply Dtx.wf_currentSIDGain. }
  assert (Cng.smoothedSIDGain (smoothGain c active) = Dtx.smoothedSIDGain (sf_dtx s')) as Eg.
  { rewrite F3. apply smoothGain_agree; [done|by intros; rewrite D3; auto|by rewrite D5]. }
  destruct (decodeSIDframe_tail t active c (sf_previousqLSF s') q (sf_excitation s')
    (Dtx.pseudoRandomSeed (sf_dtx s')) (Some (sf_bitStream s')) 2 0) as (LP & E); [done|done|done|done| |].
  { rewrite Eg, E4, E6. done. }
  eexists. split; [exact E|]. destruct (smoothGain_keeps c active) as [K1 K2].
  constructor; rewrite ?F4; cbn; rewrite ?K1, ?K2; try done; try congruence.
  rewrite F2. by symmetry.
Qed.

(** ** Active frames *)

(** Partial correctness: every fault is accepted. *)
Definition any_fault : fault → Prop := λ _, True.

Lemma any_bind {A B} (m : res A) (k : A → res B) Q :
  (∀ a, m = Ok a → wp any_fault (k a) Q) → wp any_fault (bind m k) Q.
Proof. destruct m; cbn; intros; [auto|exact I]. Qed.

Lemma any_wp {A} (m : res A) (Q : A → Prop) : (∀ a, m = Ok a → Q a) → wp any_fault m Q.
Proof. destruct m; cbn; intros; [auto|exact I]. Qed.

(** What the decoder predicts from. *)
Definition predictors (d : Dec.ctx) : list (list Z) * list Z :=
  (Dec.previousLCodeWord d, Dec.previousGainPredictionError d).

(** The comfort noise generator of the decoder. *)
Definition noiseState (d : Dec.ctx) : Cng.ctx * Z * Z :=
  (Dec.CNGChannelContext d, Dec.CNGpseudoRandomSeed d, Dec.previousFrameIsActiveFlag d).

Definition decoderState (d : Dec.ctx) : list (list Z) * list Z * (Cng.ctx * Z * Z) := (predictors d, noiseState d).

Ltac any_steps := repeat (apply any_bind; intros ? _); cbn [wp].

Lemma postFilter_keeps c LP l y r T sub o :
  wp any_fault (postFilter c LP l y r T sub o) (λ '(c', _), decoderState c' = decoderState c).
Proof.
  unfold postFilter. apply any_bind; intros ? _. cbv zeta. apply any_bind; intros [? ?] _. do 6 (apply any_bind; intros ? _).
  do 2 (apply any_bind; intros ? _). apply any_bind; intros [? ?] _. any_steps. done.
Qed.

Lemma postProcessing_keeps c s :
  wp any_fault (postProcessing c s) (λ '(c', _), decoderState c' = decoderState c).
Proof.
  unfold postProcessing. apply wp_for_inv with (I := λ '(c', _), decoderState c' = decoderState c); [done| |done].
  intros i [c1 s1] _ E. any_steps. exact E.
Qed.

Lemma outputSubframe_keeps c LP l T sub s soff :
  wp any_fault (outputSubframe c LP l T sub s soff) (λ '(c', _), decoderState c' = decoderState c).
Proof.
  unfold outputSubframe. apply any_bind; intros y _. cbv zeta. apply wp_bind.
  eapply wp_mono; [apply postFilter_keeps|]. intros [c1 o] E1. apply wp_bind.
  eapply wp_mono; [apply postProcessing_keeps|]. intros [c2 o2] E2. any_steps. by rewrite E2, E1.
Qed.

Lemma shiftFrame_keeps c : wp any_fault (shiftFrame c) (λ c', decoderState c' = decoderState c).
Proof. unfold shiftFrame. any_steps. done. Qed.

Lemma decodeAdaptativeCodeVector_keeps c sub i par er T off :
  wp any_fault (decodeAdaptativeCodeVector c sub i par er T off) (λ '(c', _), decoderState c' = decoderState c).
Proof. unfold decodeAdaptativeCodeVector. destruct (decodePitchDelay _ _ _ _ _ _) as [[? ?] ?]. any_steps. done. Qed.

(** The decoder's gain predictor is updated with the pair the encoder quantized. *)
Lemma decodeGains_predictor c ga gb GA GB fcv a f : 0 ≤ ga < 8 → 0 ≤ gb < 16 →
  ld indexMappingGA ga = Ok GA → ld indexMappingGB gb = Ok GB →
  wp any_fault (decodeGains c GA GB fcv 0 a f) (λ '(c', _, _), Dec.previousLCodeWord c' = Dec.previousLCodeWord c ∧
    noiseState c' = noiseState c ∧ computeGainPredictionError (gammaOf ga gb) (Dec.previousGainPredictionError c) = Ok (Dec.previousGainPredictionError c')).
Proof.
  intros Ha Hb EA EB. destruct (reverse_GA ga GA EA Ha) as [_ Ra]. destruct (reverse_GB gb GB EB Hb) as [_ Rb].
  unfold decodeGains. cbn [negb Z.eqb]. rewrite Ra, Rb. cbn [bind].
  destruct (GA_cells ga Ha) as (-> & -> & ? & ?). destruct (GB_cells gb Hb) as (-> & -> & ? & ?). cbn [bind]. cbv zeta.
  apply any_bind; intros ? _.
  assert (ADD16 (cell GACodebook ga 1) (cell GBCodebook gb 1) = gammaOf ga gb) as ->
    by (unfold ADD16, gammaOf; by rewrite (i16_id (cell GACodebook _ _)), (i16_id (cell GBCodebook _ _)), i16_id by (unfold rng; lia)).
  apply any_bind; intros e Ee. cbn [wp]. by split_and!.
Qed.

(** What a subframe leaves: the parameters consumed up to the gains, the predictor updated
    with the decoded pair. *)
Definition subframe_decoded (s : frameState) (sub ga gb : Z) (s' : frameState) : Prop :=
  fs_parameters s' = fs_parameters s ∧
  fs_parametersIndex s' = fs_parametersIndex s + (if sub =? 0 then 6 else 5) ∧
  Dec.previousLCodeWord (fs_ctx s') = Dec.previousLCodeWord (fs_ctx s) ∧
  noiseState (fs_ctx s') = noiseState (fs_ctx s) ∧
  computeGainPredictionError (gammaOf ga gb) (Dec.previousGainPredictionError (fs_ctx s)) =
    Ok (Dec.previousGainPredictionError (fs_ctx s')).

Lemma decodeExcitation_predictors s sub par ga gb GA GB : 0 ≤ ga < 8 → 0 ≤ gb < 16 →
  ld indexMappingGA ga = Ok GA → ld indexMappingGB gb = Ok GB →
  ld (fs_parameters s) (fs_parametersIndex s + (if sub =? 0 then 4 else 3)) = Ok GA →
  ld (fs_parameters s) (fs_parametersIndex s + (if sub =? 0 then 4 else 3) + 1) = Ok GB →
  wp any_fault (decodeExcitation s sub par 0) (subframe_decoded s sub ga gb).
Proof.
  intros Ha Hb EA EB LA LB. unfold decodeExcitation. cbv zeta. apply any_bind; intros P _. apply wp_bind.
  eapply wp_mono; [apply decodeAdaptativeCodeVector_keeps|]. intros [c T] [= Ec Eg N1 N2 N3]. cbn [negb Z.eqb bind].
  set (n := if sub =? 0 then fs_parametersIndex s + 2 else fs_parametersIndex s + 1).
  replace (n + 2) with (fs_parametersIndex s + (if sub =? 0 then 4 else 3)) by (unfold n; destruct (sub =? 0); lia).
  do 3 (apply any_bind; intros ? _). rewrite LA. cbn [bind]. rewrite LB. cbn [bind]. apply wp_bind.
  eapply wp_mono; [by apply (decodeGains_predictor _ ga gb)|]. intros [[c2 a2] f2] (Ec' & EN & Eg').
  apply any_bind; intros e _. cbn. split; [done|]. split; [destruct (sub =? 0); cbn; lia|]. cbn.
  split; [by rewrite Ec', Ec|]. split; [|by rewrite <-Eg].
  change (noiseState c2 = noiseState (fs_ctx s)). rewrite EN. unfold noiseState. by rewrite N1, N2, N3.
Qed.

Lemma decodeSubframe_predictors s LP l sub par soff ga gb GA GB : 0 ≤ ga < 8 → 0 ≤ gb < 16 →
  ld indexMappingGA ga = Ok GA → ld indexMappingGB gb = Ok GB →
  ld (fs_parameters s) (fs_parametersIndex s + (if sub =? 0 then 4 else 3)) = Ok GA →
  ld (fs_parameters s) (fs_parametersIndex s + (if sub =? 0 then 4 else 3) + 1) = Ok GB →
  wp any_fault (decodeSubframe s LP l sub par 0 soff) (subframe_decoded s sub ga gb).
Proof.
  intros. unfold decodeSubframe. apply wp_bind. eapply wp_mono; [by apply (decodeExcitation_predictors _ _ _ ga gb GA GB)|].
  intros s1 (E1 & E2 & E3 & EN & E4). apply wp_bind. eapply wp_mono; [apply outputSubframe_keeps|].
  intros [c o] [= Em Eg N1 N2 N3]. cbn. unfold subframe_decoded. cbn. rewrite Em, Eg. split_and!; try done.
  rewrite <-EN. unfold noiseState. by rewrite N1, N2, N3.
Qed.

Lemma decodeLSP_gains d L q : wp any_fault (decodeLSP d L q 0)
  (λ '(d', _), Dec.previousGainPredictionError d' = Dec.previousGainPredictionError d ∧ noiseState d' = noiseState d).
Proof.
  unfold decodeLSP. cbn [Z.eqb]. apply wp_bind. unfold decodeLSP_received. do 6 (apply any_bind; intros ? _).
  apply any_bind; intros [? ?] _. apply any_bind; intros ? _. cbn [wp]. any_steps. done.
Qed.

Lemma decodeSpectrum_predictors d L0 r1 r2 r3 m q rest : Dec.wf d →
  0 ≤ L0 < 2 → 0 ≤ r1 < 128 → 0 ≤ r2 < 32 → 0 ≤ r3 < 32 →
  reconstructLSP (Dec.previousLCodeWord d) MAPredictor MAPredictorSum L0 r1 r2 r3 (zeros 10) = Ok (m, q) →
  wp any_fault (decodeSpectrum d (L0 :: r1 :: r2 :: r3 :: rest) 0)
    (λ '(d', _), predictors d' = (m, Dec.previousGainPredictionError d) ∧ noiseState d' = noiseState d).
Proof.
  intros Hd H0 H1 H2 H3 ER. unfold decodeSpectrum, NB_LSP_COEFF.
  destruct (decodeLSP_reconstructs d (L0 :: r1 :: r2 :: r3 :: rest) L0 r1 r2 r3 (zeros 10) m q) as (d2 & q2 & E2 & _ & Em & _);
    [done..|by apply arr_zeros|done|].
  pose proof (decodeLSP_gains d (L0 :: r1 :: r2 :: r3 :: rest) (zeros 10)) as Eg. rewrite E2 in Eg |- *. cbn [wp bind] in Eg |- *.
  destruct Eg as [Eg EN]. any_steps. unfold predictors. cbn. by rewrite Em, Eg.
Qed.

(** ** Histories *)

(** The error of a gain pair enters the history first; it depends on the pair only. *)
Lemma computeGainPredictionError_push g p p' : zlen p = 4 → computeGainPredictionError g p = Ok p' →
  ∃ x, ∀ q, zlen q = 4 → computeGainPredictionError g q = Ok (x :: take 3 q).
Proof.
  intros Hp. unfold computeGainPredictionError. destruct (g729Log2_Q0Q16 g) as [l|]; [|done]. cbn [bind]. intros _.
  eexists. intros q Hq. explode q Hq. reflexivity.
Qed.

Definition encoderPredictors (c : Enc.ctx) : list (list Z) * list Z := (Enc.previousqLSF c, Enc.previousGainPredictionError c).

(** A speech frame enters its code vector in the history of the spectrum and the errors of its
    two gain pairs in that of the gains. *)
Definition pushed (h h' : list (list Z) * list Z) (v : list Z) (x y : Z) : Prop :=
  h' = (v :: take 3 h.1, y :: x :: take 2 h.2).

(** An active frame pushes the same values on both sides, whatever their histories. *)
Lemma active_coded_pushes c c' p : Enc.wf c → active_coded c c' p →
  ∃ v x y, pushed (encoderPredictors c) (encoderPredictors c') v x y ∧
  ∀ d signal soff, Dec.wf d → wp any_fault (decodeActiveFrame d p 0 signal soff)
    (λ '(d', _), pushed (predictors d) (predictors d') v x y ∧
      Dec.previousFrameIsActiveFlag d' = 1 ∧ Dec.CNGpseudoRandomSeed d' = CNG_DTX_RANDOM_SEED_INIT).
Proof.
  intros Hc (L0 & i1 & i2 & i3 & P1 & P0 & C1 & S1 & GA1 & GB1 & P2 & C2 & S2 & GA2 & GB2 & q & ga1 & gb1 & ga2 & gb2 & e1 & e2 & -> & Hp &
    Hpar & ER & (Ha1 & Hb1 & EA1 & EB1) & (Ha2 & Hb2 & EA2 & EB2) & G1 & G2 & Eg).
  unfold params_ok, field_widths in Hp. repeat match goal with H : Forall2 _ (_ :: _) (_ :: _) |- _ => apply Forall2_cons in H as [? H] end.
  assert (zlen (Enc.previousGainPredictionError c) = 4) as Lc by (apply (Enc.wf_previousGainPredictionError c Hc)).
  destruct (computeGainPredictionError_push _ _ _ Lc G1) as [x Hx]. rewrite Hx in G1 by done. injection G1 as <-.
  assert (∀ g, zlen g = 4 → zlen (x :: take 3 g) = 4) as L3 by (intros g Lg; unfold zlen in *; cbn; rewrite length_take; lia).
  destruct (computeGainPredictionError_push _ _ _ (L3 _ Lc) G2) as [y Hy]. rewrite Hy in G2 by auto. injection G2 as <-.
  destruct (reconstructLSP_run (Enc.previousqLSF c) MAPredictor MAPredictorSum L0 i1 i2 i3 (zeros 10))
    as (v & l & l' & _ & _ & _ & Ev & _ & _ & _ & _ & q' & ER' & _); [by apply Enc.wf_previousqLSF|cbn in *; lia..|by left|by apply arr_zeros|].
  rewrite ER in ER'. injection ER' as Em ->. exists v, x, y.
  split; [unfold pushed, encoderPredictors; cbn [fst snd]; rewrite Em, Eg; cbn [take]; by rewrite ?take_take|]. clear ER Em Eg c c' Hc Lc q'.
  intros d signal soff Hd. unfold decodeActiveFrame. cbv zeta.
  set (d0 := Dec.set_CNGpseudoRandomSeed _ (Dec.set_previousFrameIsActiveFlag 1 d)).
  assert (Dec.wf d0) as Hd0.
  { apply Dec.wf_set_CNGpseudoRandomSeed; [|by vm_compute]. apply Dec.wf_set_previousFrameIsActiveFlag; [done|by vm_compute]. }
  destruct (reconstructLSP_run (Dec.previousLCodeWord d) MAPredictor MAPredictorSum L0 i1 i2 i3 (zeros 10))
    as (v' & k & k' & _ & _ & _ & Ev' & _ & _ & _ & _ & q' & ER & _); [by apply Dec.wf_previousLCodeWord|cbn in *; lia..|by left|by apply arr_zeros|].
  rewrite Ev in Ev'. injection Ev' as <-.
  assert (zlen (Dec.previousGainPredictionError d) = 4) as Ld by (apply (Dec.wf_previousGainPredictionError d Hd)).
  apply wp_bind. eapply wp_mono; [apply (decodeSpectrum_predictors d0 L0 i1 i2 i3 (v :: take 3 (Dec.previousLCodeWord d)) q'); [done|cbn in *; lia..|exact ER]|].
  intros [d1 LP] [[= Em1 Ee1] [= N1 N2 N3]]. cbn in Ee1, N2, N3. do 3 (apply any_bind; intros ? _). apply wp_bind.
  eapply wp_mono; [by apply (decodeSubframe_predictors _ LP 0 0 _ soff ga1 gb1 GA1 GB1)|].
  intros s1 (Ep1 & En1 & Em2 & [= N4 N5 N6] & Ee2). cbn in Ep1, En1, Em2, Ee2, N5, N6. apply wp_bind.
  eapply wp_mono; [apply (decodeSubframe_predictors _ LP _ L_SUBFRAME _ soff ga2 gb2 GA2 GB2); [done..| |]; by rewrite Ep1, En1|].
  intros s2 (Ep2 & En2 & Em3 & [= N7 N8 N9] & Ee3). apply wp_bind.
  eapply wp_mono; [apply shiftFrame_keeps|]. intros d2 [= Em4 Ee4 N10 N11 N12]. cbn. unfold pushed, predictors. cbn [fst snd].
  rewrite Ee1, Hx in Ee2 by done. injection Ee2 as Ee2. rewrite <-Ee2, Hy in Ee3 by auto. injection Ee3 as Ee3.
  split; [rewrite Em4, Ee4, Em3, Em2, Em1, <-Ee3; cbn [take]; by rewrite ?take_take|]. by rewrite N12, N9, N6, N3, N11, N8, N5, N2.
Qed.

Lemma bcg729Decoder_pushes c c' bits0 bits : Enc.wf c → zlen bits0 = 10 → frame_result c c' bits0 bits 10 →
  ∃ v x y, pushed (encoderPredictors c) (encoderPredictors c') v x y ∧
  ∀ d uninit rfc signal soff, Dec.wf d → zlen uninit = 15 →
  wp any_fault (bcg729Decoder d uninit (Some bits) 10 0 0 rfc signal soff)
    (λ '(d', _), pushed (predictors d) (predictors d') v x y ∧
      Dec.previousFrameIsActiveFlag d' = 1 ∧ Dec.CNGpseudoRandomSeed d' = CNG_DTX_RANDOM_SEED_INIT).
Proof.
  intros Hc Hb [(_ & (p & Hp & Ep) & _)|[[|] _]]; [|lia..].
  assert (params_ok p) as Hpok by (destruct Hp as (?&?&?&?&?&?&?&?&?&?&?&?&?&?&?&?&?&?&?&?&?&?&_&H&_); exact H).
  destruct (active_coded_pushes c c' p Hc Hp) as (v & x & y & HP & HD). exists v, x, y. split; [done|].
  intros d uninit rfc signal soff Hd Hu. pose proof (unpack_packed p bits0 uninit Hpok Hb Hu) as EU. rewrite Ep in EU. cbn [bind] in EU.
  unfold bcg729Decoder. cbn [Z.eqb negb]. rewrite EU. cbn [bind]. by apply HD.
Qed.
