(* ===== verification/EncStream.v ===== *)
(** An encoder with voice activity detection and the decoder of its stream, over any sequence of
    speech frames, noise descriptors and frames that are not sent: the relation both sides keep,
    and how it comes back after losses ([encoder.c], [dtx.c] against [decoder.c], [cng.c]). *)

From S2P Require Import Prelude FixedPoint Codebooks Math Utils Context DecodeLSP DecodeExcitation LP2LSP Synthesis ComfortNoise Decoder.
From S2P Require Import EncContext EncChannel EncGain EncLSP EncDtx Encoder EncSync.

(** ** The seed of the noise generator *)

(** The seed after a subframe of noise depends on the seed before it only, neither on the gain nor
    on the past excitation. *)
Definition subframeSeed (seed : Z) : Z :=
  match gaussianExcitation (drawParameters seed).2 with
  | Ok (_, _, seed) => seed
  | Err _ => seed
  end.

Lemma noiseSubframe_seed g s e off : wp any_fault (noiseSubframe g s e off) (λ '(_, s'), s' = subframeSeed s).
Proof.
  unfold noiseSubframe, subframeSeed. destruct (drawParameters s) as [p s1]. cbn [snd].
  destruct (gaussianExcitation s1) as [[[gs Eg] s2]|]; cbn [bind]; [|exact I].
  apply any_bind; intros ? _. apply any_bind; intros ? _. apply any_bind; intros [[? ?] ?] _. any_steps. done.
Qed.

Lemma computeComfortNoise_seed g s e off :
  wp any_fault (computeComfortNoiseExcitationVector g s e off) (λ '(_, s'), s' = subframeSeed (subframeSeed s)).
Proof.
  unfold computeComfortNoiseExcitationVector. apply wp_bind. eapply wp_mono; [apply noiseSubframe_seed|].
  intros [e1 s1] ->. apply noiseSubframe_seed.
Qed.

Lemma noiseExcitation_seed g s e e' s' : noiseExcitation g s e e' s' → s' = subframeSeed (subframeSeed s).
Proof.
  intros [E]. pose proof (computeComfortNoise_seed g s e L_PAST_EXCITATION) as H. rewrite E in H. exact H.
Qed.

(** ** A noise frame of the decoder *)

(** What a noise frame leaves: [c1] and [m] are the noise context and the spectral history once
    the descriptor, if any, is read. *)
Definition noise_decoded (d d' : Dec.ctx) (b : option (list Z)) : Prop :=
  ∃ c1, match b with
        | Some b => decodeG729SID (Dec.CNGChannelContext d) b (Dec.previousLCodeWord d) = Ok (c1, Dec.previousLCodeWord d')
        | None => c1 = Dec.CNGChannelContext d ∧ Dec.previousLCodeWord d' = Dec.previousLCodeWord d
        end ∧
    Dec.CNGChannelContext d' = smoothGain c1 (Dec.previousFrameIsActiveFlag d) ∧
    Dec.CNGpseudoRandomSeed d' = subframeSeed (subframeSeed (Dec.CNGpseudoRandomSeed d)) ∧
    Dec.previousFrameIsActiveFlag d' = 0 ∧ Dec.previousGainPredictionError d' = Dec.previousGainPredictionError d.

Lemma decodeNoiseFrame_state d b len signal soff :
  wp any_fault (decodeNoiseFrame d b len 0 signal soff) (λ '(d', _), noise_decoded d d' b).
Proof.
  unfold decodeNoiseFrame. apply any_bind; intros t Et.
  assert (∃ c1, match b with
      | Some b => decodeG729SID (Dec.CNGChannelContext d) b (Dec.previousLCodeWord d) = Ok (c1, sid_previousLCodeWord t)
      | None => c1 = Dec.CNGChannelContext d ∧ sid_previousLCodeWord t = Dec.previousLCodeWord d
      end ∧ sid_ctx t = smoothGain c1 (Dec.previousFrameIsActiveFlag d) ∧
      sid_pseudoRandomSeed t = subframeSeed (subframeSeed (Dec.CNGpseudoRandomSeed d))) as (c1 & H1 & H2 & H3).
  { assert (wp any_fault (decodeSIDframe (SidState (Dec.CNGChannelContext d) (Dec.excitationVector d) (Dec.previousqLSP d)
      (zeros (2 * NB_LSP_COEFF)) (Dec.CNGpseudoRandomSeed d) (Dec.previousLCodeWord d)) (Dec.previousFrameIsActiveFlag d) b len 0)
      (λ t, ∃ c1, match b with
        | Some b => decodeG729SID (Dec.CNGChannelContext d) b (Dec.previousLCodeWord d) = Ok (c1, sid_previousLCodeWord t)
        | None => c1 = Dec.CNGChannelContext d ∧ sid_previousLCodeWord t = Dec.previousLCodeWord d
        end ∧ sid_ctx t = smoothGain c1 (Dec.previousFrameIsActiveFlag d) ∧
        sid_pseudoRandomSeed t = subframeSeed (subframeSeed (Dec.CNGpseudoRandomSeed d)))) as H; [|by rewrite Et in H].
    unfold decodeSIDframe. cbn [sid_ctx sid_previousqLSP sid_previousLCodeWord sid_excitationVector sid_pseudoRandomSeed sid_LP negb Z.eqb].
    apply any_bind; intros [c1 m] E1. do 4 (apply any_bind; intros ? _). cbv zeta.
    apply any_bind; intros [e seed] Ee. cbn. exists c1. split; [|split; [done|]].
    - destruct b; [exact E1|]. injection E1 as <- <-. exact (conj eq_refl eq_refl).
    - exact (noiseExcitation_seed _ _ _ _ _ (NoiseExcitation _ _ _ _ _ Ee)). }
  cbv zeta. apply wp_bind. eapply wp_mono; [apply outputSubframe_keeps|]. intros [d1 s1] [= K1 K2 K3 K4 K5].
  apply wp_bind. eapply wp_mono; [apply outputSubframe_keeps|]. intros [d2 s2] [= L1 L2 L3 L4 L5]. cbv zeta.
  apply wp_bind. eapply wp_mono; [apply shiftFrame_keeps|]. intros d3 [= M1 M2 M3 M4 M5]. cbn [wp].
  cbn in K1, K2, K3, K4, K5, M1, M2, M3, M4, M5. exists c1.
  clear Et. rewrite M1, L1, K1, M3, L3, K3, M4, L4, K4, M5, L5, K5, M2, L2, K2.
  exact (conj H1 (conj H2 (conj H3 (conj eq_refl eq_refl)))).
Qed.

(** ** The relation *)

(** What the receiver does with the frame of [len] bytes: ten bytes are speech, two are a noise
    descriptor, and nothing at all is a missing frame. *)
Definition receiveFrame (d : Dec.ctx) (uninit bits : list Z) (len : Z) (signal : list Z) (soff : Z) : res (Dec.ctx * list Z) :=
  if len =? 0 then bcg729Decoder d uninit None 0 1 0 0 signal soff
  else if len =? 2 then bcg729Decoder d uninit (Some (take 2 bits)) 2 0 1 0 signal soff
  else bcg729Decoder d uninit (Some bits) 10 0 0 0 signal soff.

(** The noise generators: their seed, their activity flag and, between two noise frames, their
    gains. *)
Definition noise_in_step (c : Enc.ctx) (d : Dec.ctx) : Prop :=
  ∀ x, Enc.DTXChannelContext c = Some x →
    negb (Dec.previousFrameIsActiveFlag d =? 0) = (Dtx.previousVADflag x =? 1) ∧
    Dec.CNGpseudoRandomSeed d = Dtx.pseudoRandomSeed x ∧
    (Dec.previousFrameIsActiveFlag d = 0 →
      Cng.receivedSIDGain (Dec.CNGChannelContext d) = Dtx.currentSIDGain x ∧
      Cng.smoothedSIDGain (Dec.CNGChannelContext d) = Dtx.smoothedSIDGain x).

(** Predictors, and with a detector the noise generator. *)
Record in_step (c : Enc.ctx) (d : Dec.ctx) : Prop := {
  is_predictors : predictors d = encoderPredictors c;
  is_noise : noise_in_step c d
}.

(** The descriptor of a noise frame has an index L2 that its packing preserves. *)
Definition index_kept (c c' : Enc.ctx) (b b' : list Z) : Prop :=
  ∀ L0 i1 i2 i, sid_coded (Enc.previousqLSF c) (Enc.previousqLSF c') b b' L0 i1 i2 i → i2 < 12.

Lemma packSID_take L0 i1 i2 i b b' : 2 ≤ zlen b → packSID [L0; i1; i2] i b = Ok b' →
  packSID [L0; i1; i2] i (take 2 b) = Ok (take 2 b').
Proof.
  intros Hb E. destruct b as [|x [|y b]]; [unfold zlen in Hb; cbn in Hb; lia..|]. unfold packSID in *.
  change (ld [L0; i1; i2] 0) with (Ok L0) in *. change (ld [L0; i1; i2] 1) with (Ok i1) in *.
  change (ld [L0; i1; i2] 2) with (Ok i2) in *. cbn [bind] in *. rewrite st_ok in E by lia. cbn [bind] in E.
  rewrite st_ok in E by (rewrite zlen_insert; lia). injection E as <-. reflexivity.
Qed.

Lemma bcg729Decoder_missing d uninit signal soff : Dec.previousFrameIsActiveFlag d = 0 →
  wp any_fault (bcg729Decoder d uninit None 0 1 0 0 signal soff) (λ '(d', _), noise_decoded d d' None).
Proof.
  intros E. unfold bcg729Decoder. apply any_bind; intros p _. rewrite E. cbn [Z.eqb negb]. apply decodeNoiseFrame_state.
Qed.

Lemma bcg729Decoder_SID d uninit b signal soff :
  wp any_fault (bcg729Decoder d uninit (Some b) 2 0 1 0 signal soff) (λ '(d', _), noise_decoded d d' (Some b)).
Proof. unfold bcg729Decoder. cbn [Z.eqb negb bind]. apply decodeNoiseFrame_state. Qed.

(** The gains after the smoothing of both sides. *)
Lemma gains_in_step c1 active x x' : Cng.receivedSIDGain c1 = Dtx.currentSIDGain x' →
  (active = 0 → Cng.smoothedSIDGain c1 = Dtx.smoothedSIDGain x) → negb (active =? 0) = (Dtx.previousVADflag x =? 1) →
  (∃ d1, Dtx.smoothedSIDGain d1 = Dtx.smoothedSIDGain x ∧ Dtx.previousVADflag d1 = Dtx.previousVADflag x ∧
     Dtx.currentSIDGain d1 = Dtx.currentSIDGain x' ∧ Dtx.smoothedSIDGain x' = Dtx.smoothedSIDGain (smoothSIDGain d1)) →
  Cng.receivedSIDGain (smoothGain c1 active) = Dtx.currentSIDGain x' ∧ Cng.smoothedSIDGain (smoothGain c1 active) = Dtx.smoothedSIDGain x'.
Proof.
  intros Hr Hs Hf (d1 & D1 & D2 & D3 & D4). split; [by rewrite (proj1 (smoothGain_keeps c1 active))|].
  rewrite D4. apply smoothGain_agree; [by rewrite D3|by rewrite D1|by rewrite D2].
Qed.

Lemma in_step_noise c c' d d' x x' m : in_step c d →
  Enc.DTXChannelContext c = Some x → Enc.DTXChannelContext c' = Some x' →
  Enc.previousGainPredictionError c' = Enc.previousGainPredictionError c →
  Dtx.previousVADflag x' = 0 →
  (∃ gain e e', noiseExcitation gain (Dtx.pseudoRandomSeed x) e e' (Dtx.pseudoRandomSeed x')) →
  noise_decoded d d' m → Dec.previousLCodeWord d' = Enc.previousqLSF c' →
  Cng.receivedSIDGain (Dec.CNGChannelContext d') = Dtx.currentSIDGain x' →
  Cng.smoothedSIDGain (Dec.CNGChannelContext d') = Dtx.smoothedSIDGain x' → in_step c' d'.
Proof.
  intros [EP HN] Ex Ex' Eg Ef (gain & e & e' & HX) (c1 & _ & _ & Es & Ea & Eg') Em ER ES.
  destruct (HN x Ex) as (_ & Eseed & _). injection EP as _ EP. constructor.
  - unfold predictors, encoderPredictors. by rewrite Em, Eg', EP, Eg.
  - intros y Ey. rewrite Ex' in Ey. injection Ey as <-. rewrite Ea, Ef. split; [done|]. split; [|by split].
    rewrite Es, Eseed. symmetry. by apply (noiseExcitation_seed _ _ _ _ _ HX).
Qed.

Lemma in_step_untransmitted c c' d d' x x' b b' : in_step c d → Enc.DTXChannelContext c = Some x → Enc.DTXChannelContext c' = Some x' →
  Enc.previousGainPredictionError c' = Enc.previousGainPredictionError c →
  noise_coded x x' (Enc.previousqLSF c) (Enc.previousqLSF c') b b' 0 →
  Dec.previousFrameIsActiveFlag d = 0 ∧ (noise_decoded d d' None → in_step c' d').
Proof.
  intros HI Ex Ex' Eg (N1 & N2 & N3 & [(_ & Hflag & Ec & Em)|[? _]]); [|lia].
  pose proof HI as [EP HN]. destruct (HN x Ex) as (Ef & _ & Hg). injection EP as EP _.
  assert (Dec.previousFrameIsActiveFlag d = 0) as E0.
  { rewrite (proj2 (Z.eqb_neq _ _) Hflag) in Ef. by apply Z.eqb_eq, negb_false_iff. }
  split; [done|]. intros HD. destruct (Hg E0) as [G1 G2]. pose proof HD as (c1 & [-> EL] & EC & _).
  destruct (gains_in_step (Dec.CNGChannelContext d) (Dec.previousFrameIsActiveFlag d) x x') as [R1 R2];
    [by rewrite Ec|done|done|done|].
  apply (in_step_noise c c' d d' x x' None); try done; [by rewrite EL, EP, Em|by rewrite EC|by rewrite EC].
Qed.

Lemma in_step_described c c' d d' x x' b b' : Dec.wf d → 2 ≤ zlen b → in_step c d →
  Enc.DTXChannelContext c = Some x → Enc.DTXChannelContext c' = Some x' →
  Enc.previousGainPredictionError c' = Enc.previousGainPredictionError c →
  noise_coded x x' (Enc.previousqLSF c) (Enc.previousqLSF c') b b' 2 → index_kept c c' b b' →
  noise_decoded d d' (Some (take 2 b')) → in_step c' d'.
Proof.
  intros Hd Hb HI Ex Ex' Eg (N1 & N2 & N3 & [[? _]|(_ & L0 & i1 & i2 & i & HS & Egain)]) Hidx HD; [lia|].
  pose proof (Hidx L0 i1 i2 i HS) as Hi2. destruct HS as (H0 & H1 & H2 & Hi & Ep & r1 & r2 & r3 & q & E1 & E2 & E3 & ER).
  pose proof HI as [EP HN]. destruct (HN x Ex) as (Ef & _ & Hg). injection EP as EP _.
  pose proof HD as (c1 & ED & EC & _). rewrite EP in ED. apply packSID_take in Ep; [|done].
  assert (Cng.wf (Dec.CNGChannelContext d)) as Hcng by (by apply Dec.wf_CNGChannelContext).
  assert (arr (arr i16r 10) 4 (Enc.previousqLSF c)) as Hm by (rewrite <-EP; by apply Dec.wf_previousLCodeWord).
  destruct (SubsetIndex_bounds i1 i2 r1 r2 r3) as (R1 & R2 & R3); [lia|lia|done..|].
  rewrite (reconstructLSP_any _ _ _ _ _ _ _ _ (Cng.qLSP (Dec.CNGChannelContext d))) in ER;
    [|done|lia|lia|lia|lia|by right|by apply arr_zeros|by apply Cng.wf_qLSP].
  destruct (decodeG729SID_reconstructs (Dec.CNGChannelContext d) (Enc.previousqLSF c) L0 i1 i2 i r1 r2 r3 (take 2 b) (take 2 b')
    (Dtx.currentSIDGain x') (Enc.previousqLSF c') q) as (q' & ED' & _ & _); try done; try lia.
  { unfold zlen in *. rewrite length_take. lia. }
  rewrite ED in ED'. injection ED' as -> Em.
  destruct (gains_in_step (Cng.set_qLSP q' (Cng.set_receivedSIDGain (Dtx.currentSIDGain x') (Dec.CNGChannelContext d)))
    (Dec.previousFrameIsActiveFlag d) x x') as [G1 G2]; [done|by intros E0; apply Hg|done|done|].
  apply (in_step_noise c c' d d' x x' (Some (take 2 b'))); try done; by rewrite EC.
Qed.

(** A speech frame resets both noise generators. *)
Lemma noise_in_step_spoken c c' bits bits' d' : frame_result c c' bits bits' 10 →
  Dec.previousFrameIsActiveFlag d' = 1 → Dec.CNGpseudoRandomSeed d' = CNG_DTX_RANDOM_SEED_INIT → noise_in_step c' d'.
Proof.
  intros [(_ & _ & Hsp & _)|[[|] _]] Ea Es y Ey; [|lia..]. unfold dtx_spoke in Hsp.
  destruct (Enc.DTXChannelContext c); [|by rewrite Ey in Hsp]. destruct Hsp as (z & Ez & F1 & F2).
  rewrite Ey in Ez. injection Ez as <-. rewrite Ea, F1, F2. split; [done|]. split; [done|]. intros Hz. discriminate Hz.
Qed.

(** One frame. *)
Lemma in_step_frame c c' d bits bits' len uninit signal soff : Enc.wf c → Dec.wf d → zlen bits = 10 → zlen uninit = 15 →
  in_step c d → frame_result c c' bits bits' len → (len = 2 → index_kept c c' bits bits') →
  wp any_fault (receiveFrame d uninit bits' len signal soff) (λ '(d', _), in_step c' d').
Proof.
  intros Hc Hd Hb Hu HI Hres Hidx. unfold receiveFrame. pose proof Hres as [(-> & _)|(Hlen & _ & Eg & x & x' & Ex & Ex' & HN)].
  - cbn [Z.eqb]. destruct (bcg729Decoder_pushes c c' bits bits' Hc Hb Hres) as (v & g1 & g2 & HP & HD).
    eapply wp_mono; [by apply HD|]. intros [d' s'] (EP & Ea & Es). constructor; [|by apply (noise_in_step_spoken c c' bits bits')].
    unfold pushed in *. by rewrite EP, (is_predictors c d HI).
  - destruct Hlen as [-> | ->]; cbn [Z.eqb].
    + destruct (in_step_untransmitted c c' d d x x' bits bits' HI Ex Ex' Eg HN) as [E0 _].
      eapply wp_mono; [by apply bcg729Decoder_missing|]. intros [d' s'] HD.
      by apply (in_step_untransmitted c c' d d' x x' bits bits').
    + eapply wp_mono; [by apply bcg729Decoder_SID|]. intros [d' s'] HD.
      apply (in_step_described c c' d d' x x' bits bits'); try done; [by rewrite Hb|by apply Hidx].
Qed.

(** ** Losses *)

(** Both histories hold the same [k] last frames. *)
Definition agree (k : nat) (c : Enc.ctx) (d : Dec.ctx) : Prop :=
  take k (Dec.previousLCodeWord d) = take k (Enc.previousqLSF c) ∧
  take (2 * k) (Dec.previousGainPredictionError d) = take (2 * k) (Enc.previousGainPredictionError c).

Lemma agree_push k c c' d d' v x y : agree k c d → pushed (encoderPredictors c) (encoderPredictors c') v x y →
  pushed (predictors d) (predictors d') v x y → agree (S k) c' d'.
Proof.
  intros [Hm Hg] [= Em Eg] [= Fm Fg]. split.
  - rewrite Fm, Em. cbn [take]. f_equal. by rewrite (take_take _ k 3), (Nat.min_comm k 3), <-(take_take _ 3 k), Hm, take_take, (Nat.min_comm 3 k), take_take.
  - rewrite Fg, Eg. replace (2 * S k)%nat with (S (S (2 * k))) by lia. cbn [take]. do 2 f_equal.
    by rewrite (take_take _ (2 * k) 2), (Nat.min_comm _ 2), <-(take_take _ 2 (2 * k)), Hg, take_take, (Nat.min_comm 2), take_take.
Qed.

(** The histories are four frames and four subframes long. *)
Lemma agree_gains k c d : Enc.wf c → Dec.wf d → (2 ≤ k)%nat → agree k c d →
  Dec.previousGainPredictionError d = Enc.previousGainPredictionError c.
Proof.
  intros Hc Hd Hk [_ Hg]. destruct (Enc.wf_previousGainPredictionError c Hc) as [Lc _].
  destruct (Dec.wf_previousGainPredictionError d Hd) as [Ld _]. unfold zlen in *. by rewrite !take_ge in Hg by lia.
Qed.

Lemma agree_all k c d : Enc.wf c → Dec.wf d → (4 ≤ k)%nat → agree k c d → predictors d = encoderPredictors c.
Proof.
  intros Hc Hd Hk Ha. unfold predictors, encoderPredictors. rewrite (agree_gains k c d Hc Hd ltac:(lia) Ha). destruct Ha as [Hm _].
  destruct (Enc.wf_previousqLSF c Hc) as [Lc _]. destruct (Dec.wf_previousLCodeWord d Hd) as [Ld _].
  unfold zlen in *. rewrite !take_ge in Hm by lia. by rewrite Hm.
Qed.

(** What both sides agree on when the last [k] frames were speech and were received. *)
Definition partly_in_step (k : nat) (c : Enc.ctx) (d : Dec.ctx) : Prop :=
  agree k c d ∧ ((0 < k)%nat → noise_in_step c d).

Lemma in_step_partly k c d : in_step c d → partly_in_step k c d.
Proof. intros [[= Em Eg] HN]. split; [|done]. unfold agree. by rewrite Em, Eg. Qed.

Lemma partly_in_step_all k c d : Enc.wf c → Dec.wf d → (4 ≤ k)%nat → partly_in_step k c d → in_step c d.
Proof. intros Hc Hd Hk [Ha HN]. constructor; [by apply (agree_all k)|apply HN; lia]. Qed.

(** A speech frame received. *)
Lemma partly_in_step_frame k c c' d bits bits' uninit signal soff : Enc.wf c → Dec.wf d → zlen bits = 10 → zlen uninit = 15 →
  partly_in_step k c d → frame_result c c' bits bits' 10 →
  wp any_fault (receiveFrame d uninit bits' 10 signal soff) (λ '(d', _), partly_in_step (S k) c' d').
Proof.
  intros Hc Hd Hb Hu [Ha _] Hres. unfold receiveFrame. cbn [Z.eqb].
  destruct (bcg729Decoder_pushes c c' bits bits' Hc Hb Hres) as (v & x & y & HP & HD).
  eapply wp_mono; [by apply HD|]. intros [d' s'] (EP & Ea & Es).
  split; [by apply (agree_push k c c' d d' v x y)|]. intros _. by apply (noise_in_step_spoken c c' bits bits').
Qed.
