(* ===== verification/ModBcg729.v ===== *)
(** The FreeSWITCH codec module, [mod_bcg729.c]: codec life cycle, packet encoding and
    decoding, configuration and registration.

    The handlers are written against two interfaces, [FrameDecoder] and [FrameEncoder]:
    one frame in, one frame out.  The decoder channel of [Decoder] is an instance of the
    first and the encoder channel of [Encoder] of the second.  The FreeSWITCH API is outside the repository: its flag values, [switch_true] and
    the configuration tree are arguments. *)

From stdpp Require Import strings.
From S2P Require Import Prelude FixedPoint Context Utils Heap Synthesis ComfortNoise Decoder EncContext EncChannel EncDtx Encoder.

Inductive switch_status : Set :=
| SWITCH_STATUS_SUCCESS
| SWITCH_STATUS_FALSE.

Definition BCG729_SAMPLES_PER_FRAME : Z := 80.
Definition BCG729_PCM_BYTES_PER_FRAME : Z := 160.
Definition BCG729_BYTES_PER_FRAME : Z := 10.
Definition BCG729_SID_BYTES : Z := 2.

(** ** Interfaces *)

(** [decodeFrame d bitStream length frameErasureFlag SIDFrameFlag signal off]: one call of
    the frame decoder, writing 80 samples of [signal] from [off]. *)
Class FrameDecoder (D : Type) : Type := {
  decodeFrame : D → option (list Z) → Z → Z → Z → list Z → Z → res (D * list Z);
  decoder_ok : D → Prop;
  decodeFrame_safe d b len er sid n signal off :
    decoder_ok d → frame_args_ok b len er sid 0 → arr i16r n signal → 0 ≤ off → off + 80 ≤ n →
    wp only_div (decodeFrame d b len er sid signal off)
      (λ '(d', signal'), decoder_ok d' ∧ arr i16r n signal')
}.

(** [encodeFrame e pcm poff bitStream off]: one call of the frame encoder, reading 80 samples
    of [pcm] from [poff] and writing at most ten bytes of [bitStream] from [off]; it returns
    the number of bytes the frame occupies: 10, 2 (SID) or 0 (nothing to transmit).
    [encoder_fault] are the faults the call may end in. *)
Class FrameEncoder (E : Type) : Type := {
  encodeFrame : E → list Z → Z → list Z → Z → res (E * list Z * Z);
  encoder_ok : E → Prop;
  encoder_fault : fault → Prop;
  encodeFrame_safe e n pcm poff m bits off :
    encoder_ok e → arr i16r n pcm → 0 ≤ poff → poff + 80 ≤ n → arr u8r m bits → 0 ≤ off → off + 10 ≤ m →
    wp encoder_fault (encodeFrame e pcm poff bits off)
      (λ '(e', bits', sz), encoder_ok e' ∧ arr u8r m bits' ∧ (sz = 0 ∨ sz = 2 ∨ sz = 10) ∧
         ∀ i, (i < Z.to_nat off ∨ Z.to_nat (off + 10) ≤ i)%nat → bits' !! i = bits !! i)
}.

(** ** State *)

Record bcg729_context (D E : Type) : Type := Bcg729Context {
  decoder_object : option D;
  encoder_object : option E
}.
Arguments Bcg729Context {D E}.
Arguments decoder_object {D E}.
Arguments encoder_object {D E}.

(** The two fields of [switch_codec_t] the module uses. *)
Record switch_codec (D E : Type) : Type := SwitchCodec {
  fmtp_out : option string;
  private_info : option (bcg729_context D E)
}.
Arguments SwitchCodec {D E}.
Arguments fmtp_out {D E}.
Arguments private_info {D E}.

Definition set_decoder {D E} (codec : switch_codec D E) (context : bcg729_context D E) (d : D)
    : switch_codec D E :=
  SwitchCodec (fmtp_out codec) (Some (Bcg729Context (Some d) (encoder_object context))).
Definition set_encoder {D E} (codec : switch_codec D E) (context : bcg729_context D E) (e : E)
    : switch_codec D E :=
  SwitchCodec (fmtp_out codec) (Some (Bcg729Context (decoder_object context) (Some e))).

(** ** Life cycle *)

(** [!pointer] *)
Definition is_null {A} (p : option A) : bool := match p with Some _ => false | None => true end.

(** [poolAlloc]: whether the pool allocation of the context succeeds; [m1 ...]: whether each
    [malloc] of the channel creations does. *)
Definition switch_bcg729_init (FLAG_ENCODE FLAG_DECODE : Z) (h : heap)
    (codec : switch_codec decoderChannel encoderChannel) (flags use_vad : Z)
    (poolAlloc m1 m2 m3 m4 m5 : bool)
    : res (heap * switch_status * switch_codec decoderChannel encoderChannel) :=
  let encoding := negb (Z.land flags FLAG_ENCODE =? 0) in
  let decoding := negb (Z.land flags FLAG_DECODE =? 0) in
  if negb (encoding || decoding) || negb poolAlloc then Ok (h, SWITCH_STATUS_FALSE, codec)
  else
    let codec := SwitchCodec
      (Some (if negb (use_vad =? 0) then "annexb=yes"%string else "annexb=no"%string)) (private_info codec) in
    let* (h, e) :=
      (if encoding then
         let* (h, e) := initBcg729EncoderChannel h m1 m2 m3 (if negb (use_vad =? 0) then 1 else 0) in
         Ok (h, Some e)
       else Ok (h, None)) in
    if encoding && is_null e then Ok (h, SWITCH_STATUS_FALSE, codec) else
    let* (h, d) :=
      (if decoding then
         let* (h, d) := initBcg729DecoderChannel h m4 m5 in
         Ok (h, Some d)
       else Ok (h, None)) in
    if decoding && is_null d then Ok (h, SWITCH_STATUS_FALSE, codec) else
    Ok (h, SWITCH_STATUS_SUCCESS, SwitchCodec (fmtp_out codec) (Some (Bcg729Context d e))).

Definition switch_bcg729_destroy (h : heap) (codec : switch_codec decoderChannel encoderChannel)
    : res (heap * switch_status * switch_codec decoderChannel encoderChannel) :=
  let* h :=
    match private_info codec with
    | None => Ok h
    | Some context =>
      let* h := match encoder_object context with
                | Some e => closeBcg729EncoderChannel h (Some e)
                | None => Ok h
                end in
      match decoder_object context with
      | Some d => closeBcg729DecoderChannel h (Some d)
      | None => Ok h
      end
    end in
  Ok (h, SWITCH_STATUS_SUCCESS, SwitchCodec (fmtp_out codec) None).

(** ** Packet encoding *)

Section Encode.
Context {D E : Type} `{FrameEncoder E}.

(** State of the loop; [enc_failed] is the early return on a buffer too small. *)
Record encodeState : Type := EncodeState {
  es_encoder : E;
  es_ddp : Z;
  es_edp : Z;
  es_new_len : Z;
  es_encoded : list Z;
  es_failed : bool
}.

Definition encodeStep (decoded_data : list Z) (encoded_data_len : Z) (s : encodeState) : res encodeState :=
  if es_failed s then Ok s
  else if encoded_data_len <? u32 (es_new_len s + BCG729_BYTES_PER_FRAME) then
    Ok (EncodeState (es_encoder s) (es_ddp s) (es_edp s) (es_new_len s) (es_encoded s) true)
  else
    let* (e, bits, frameSize) :=
      encodeFrame (es_encoder s) decoded_data (es_ddp s) (es_encoded s) (es_edp s) in
    Ok (EncodeState e (es_ddp s + BCG729_SAMPLES_PER_FRAME) (es_edp s + frameSize)
          (u32 (es_new_len s + frameSize)) bits false).

(** The result: status, codec, output buffer and [*encoded_data_len]. *)
Definition switch_bcg729_encode (codec : switch_codec D E) (decoded_data : list Z) (decoded_data_len : Z)
    (encoded_data : list Z) (encoded_data_len : Z)
    : res (switch_status * switch_codec D E * list Z * Z) :=
  match private_info codec with
  | Some context =>
    match encoder_object context with
    | Some e =>
      if negb (decoded_data_len mod BCG729_PCM_BYTES_PER_FRAME =? 0)
      then Ok (SWITCH_STATUS_SUCCESS, codec, encoded_data, 0)
      else
        let loops := i32 (decoded_data_len / BCG729_PCM_BYTES_PER_FRAME) in
        let* s := for_up 0 loops (EncodeState e 0 0 0 encoded_data false)
          (λ _ s, encodeStep decoded_data encoded_data_len s) in
        let codec := set_encoder codec context (es_encoder s) in
        if es_failed s then Ok (SWITCH_STATUS_FALSE, codec, es_encoded s, encoded_data_len)
        else Ok (SWITCH_STATUS_SUCCESS, codec, es_encoded s, es_new_len s)
    | None => Ok (SWITCH_STATUS_FALSE, codec, encoded_data, encoded_data_len)
    end
  | None => Ok (SWITCH_STATUS_FALSE, codec, encoded_data, encoded_data_len)
  end.

End Encode.

(** ** Packet decoding *)

Section Decode.
Context {D E : Type} `{FrameDecoder D}.

(** The concealment loop of an empty packet: [(decoder, ddp, new_len, decoded_data)]. *)
Definition concealLoop (d : D) (decoded_data : list Z) (decoded_data_len : Z)
    : res (D * Z * Z * list Z) :=
  while (S (Z.to_nat decoded_data_len))
    (λ '(d, ddp, new_len, out),
      Ok (u32 (new_len + BCG729_PCM_BYTES_PER_FRAME) <=? decoded_data_len))
    (λ '(d, ddp, new_len, out),
      let* (d, out) := decodeFrame d None 0 1 0 out ddp in
      Ok (d, ddp + BCG729_SAMPLES_PER_FRAME, u32 (new_len + BCG729_PCM_BYTES_PER_FRAME), out))
    (d, 0, 0, decoded_data).

(** [true] when the loop is left: end of packet, malformed tail or buffer too small. *)
Record decodeState : Type := DecodeState {
  ds_decoder : D;
  ds_x : Z;
  ds_edp : Z;
  ds_ddp : Z;
  ds_new_len : Z;
  ds_decoded : list Z;
  ds_malformed : bool;
  ds_failed : bool
}.

Definition decodeCond (encoded_data_len : Z) (s : decodeState) : bool :=
  negb (ds_malformed s) && negb (ds_failed s) && (ds_x s <? encoded_data_len).

Definition decodeStep (encoded_data : list Z) (encoded_data_len decoded_data_len : Z) (s : decodeState)
    : res decodeState :=
  let remaining := u32 (encoded_data_len - ds_x s) in
  if remaining <? BCG729_SID_BYTES then
    Ok (DecodeState (ds_decoder s) (ds_x s) (ds_edp s) (ds_ddp s) (ds_new_len s) (ds_decoded s) true false)
  else
    let framesize := if BCG729_BYTES_PER_FRAME <=? remaining then BCG729_BYTES_PER_FRAME else BCG729_SID_BYTES in
    let isSID := if BCG729_BYTES_PER_FRAME <=? remaining then 0 else 1 in
    if decoded_data_len <? u32 (ds_new_len s + BCG729_PCM_BYTES_PER_FRAME) then
      Ok (DecodeState (ds_decoder s) (ds_x s) (ds_edp s) (ds_ddp s) (ds_new_len s) (ds_decoded s) false true)
    else
      let* b := read_block encoded_data (ds_edp s) framesize in
      let* (d, out) := decodeFrame (ds_decoder s) (Some b) framesize 0 isSID (ds_decoded s) (ds_ddp s) in
      Ok (DecodeState d (u32 (ds_x s + framesize)) (ds_edp s + framesize)
            (ds_ddp s + BCG729_SAMPLES_PER_FRAME) (u32 (ds_new_len s + BCG729_PCM_BYTES_PER_FRAME)) out
            false false).

Definition switch_bcg729_decode (codec : switch_codec D E) (encoded_data : list Z) (encoded_data_len : Z)
    (decoded_data : list Z) (decoded_data_len : Z)
    : res (switch_status * switch_codec D E * list Z * Z) :=
  match private_info codec with
  | Some context =>
    match decoder_object context with
    | Some d =>
      if encoded_data_len =? 0 then
        let* (d, ddp, new_len, out) := concealLoop d decoded_data decoded_data_len in
        let* (d, new_len, out) :=
          (if (new_len =? 0) && (BCG729_PCM_BYTES_PER_FRAME <=? decoded_data_len) then
             let* (d, out) := decodeFrame d None 0 1 0 out ddp in
             Ok (d, BCG729_PCM_BYTES_PER_FRAME, out)
           else Ok (d, new_len, out)) in
        Ok (SWITCH_STATUS_SUCCESS, set_decoder codec context d, out, new_len)
      else
        let* s := while (S (Z.to_nat encoded_data_len))
          (λ s, Ok (decodeCond encoded_data_len s))
          (decodeStep encoded_data encoded_data_len decoded_data_len)
          (DecodeState d 0 0 0 0 decoded_data false false) in
        let codec := set_decoder codec context (ds_decoder s) in
        if ds_failed s then Ok (SWITCH_STATUS_FALSE, codec, ds_decoded s, decoded_data_len)
        else Ok (SWITCH_STATUS_SUCCESS, codec, ds_decoded s, ds_new_len s)
    | None => Ok (SWITCH_STATUS_FALSE, codec, decoded_data, decoded_data_len)
    end
  | None => Ok (SWITCH_STATUS_FALSE, codec, decoded_data, decoded_data_len)
  end.

End Decode.

(** ** Configuration and registration *)

(** [strcasecmp (a, b) == 0] on ASCII. *)
Definition lower (c : Ascii.ascii) : Ascii.ascii :=
  let n := Z.of_nat (Ascii.nat_of_ascii c) in
  if (65 <=? n) && (n <=? 90) then Ascii.ascii_of_nat (Z.to_nat (n + 32)) else c.
Fixpoint strcaseeq (a b : string) : bool :=
  match a, b with
  | EmptyString, EmptyString => true
  | String x a, String y b => Ascii.eqb (lower x) (lower y) && strcaseeq a b
  | _, _ => false
  end.

(** The configuration: absent, without a settings section, or the (name, value) parameters
    of that section.  The result is [globals.use_vad]. *)
Definition load_config (switch_true : string → Z) (cfg : option (option (list (string * string)))) : Z :=
  match cfg with
  | Some (Some params) =>
    fold_left (λ use_vad '(var, val),
      if strcaseeq var "use-vad"%string then switch_true val else use_vad) params 0
  | _ => 0
  end.

(** The arguments of [switch_core_codec_add_implementation] that are numbers. *)
Record implementation : Type := Implementation {
  ianacode : Z;
  samples_per_second : Z;
  bits_per_second : Z;
  microseconds_per_packet : Z;
  samples_per_packet : Z;
  decoded_bytes_per_packet : Z;
  encoded_bytes_per_packet : Z;
  number_of_channels : Z;
  codec_frames_per_packet : Z
}.

(** The twelve implementations, in the order they are added. *)
Definition mod_bcg729_load (switch_true : string → Z) (cfg : option (option (list (string * string))))
    : Z * list implementation :=
  let use_vad := load_config switch_true cfg in
  (use_vad,
   map (λ count, Implementation 18 8000 8000 (10000 * count) (80 * count) (160 * count) (10 * count) 1
                   (count * 10))
     [12; 11; 10; 9; 8; 7; 6; 5; 4; 3; 2; 1]).

(** ** The decoder channel implements the interface *)

Section DecoderInstance.
Context (uninit : list Z) (Huninit : arr u16r 15 uninit).

Definition channelDecodeFrame (d : decoderChannel) (b : option (list Z)) (len er sid : Z)
    (signal : list Z) (off : Z) : res (decoderChannel * list Z) :=
  let* (c, signal) := bcg729Decoder (dec_context d) uninit b len er sid 0 signal off in
  Ok (DecoderChannel (dec_block d) (cng_block d) c, signal).

#[export] Instance channelDecoder : FrameDecoder decoderChannel.
Proof.
  refine {| decodeFrame := channelDecodeFrame; decoder_ok d := Dec.wf (dec_context d) |}.
  intros d b len er sid n signal off Hd Hb Hs H0 Hn. unfold channelDecodeFrame. apply wp_bind.
  eapply wp_bcg729Decoder; [done|exact Hd|exact Huninit|exact Hb|exact Hs|done|done|].
  intros c s Hc Hs'. unfold wp. done.
Defined.

End DecoderInstance.

(** ** The encoder channel implements the interface *)

(** The pointer [bitStream] designates the ten bytes from [off]. *)
Definition channelEncodeFrame (e : encoderChannel) (pcm : list Z) (poff : Z) (bits : list Z) (off : Z)
    : res (encoderChannel * list Z * Z) :=
  let* b := read_block bits off BCG729_BYTES_PER_FRAME in
  let* (c, b, len) := bcg729Encoder (enc_context e) pcm poff b in
  let* bits := write_block bits off b in
  Ok (EncoderChannel (enc_block e) (vad_block e) (dtx_block e) c, bits, len).

#[export] Instance channelEncoder : FrameEncoder encoderChannel.
Proof.
  refine {| encodeFrame := channelEncodeFrame; encoder_ok e := encoder_wf (enc_context e); encoder_fault := sid_fault |}.
  intros e n pcm poff m bits off He Hp Hp0 Hpn Hb H0 Hm. unfold channelEncodeFrame, BCG729_BYTES_PER_FRAME. apply wp_bind.
  apply (wp_read_block _ u8r m); [done|lia..|]. intros b Hbb. apply wp_bind.
  apply (wp_bcg729Encoder _ _ n); [apply sid_div|apply sid_shift|apply sid_uninit|right; apply sid_loop|done..|].
  intros c b' len Hc [Lb Hb'] Hres. apply wp_bind. destruct Hb as [Lm Hbu]. unfold write_block.
  destruct (_ && _) eqn:Ew; [|lia]. unfold wp. split; [done|]. split; [split|split].
  - unfold zlen in *. by rewrite length_inserts.
  - by apply Forall_list_inserts.
  - destruct Hres as [(-> & _)|([-> | ->] & _)]; auto.
  - intros i Hi. unfold zlen in Lb. destruct Hi; [apply list_lookup_inserts_lt|apply list_lookup_inserts_ge]; lia.
Defined.

(** ** The frames of a packet *)

(** The bytes of frames of the given sizes. *)
Definition totalSize (sizes : list Z) : Z := foldr Z.add 0 sizes.

(** A frame: its offset in the packet, its size and whether it is a SID frame. *)
Definition frame : Type := Z * Z * Z.

(** The frames of the [r] bytes from offset [x]: speech frames of ten bytes as long as ten
    bytes remain, then SID frames of two; an odd last byte is ignored. *)
Definition framesFrom (x r : Z) : list frame :=
  ((λ i, (x + 10 * i, 10, 0)) <$> seqZ 0 (r / 10)) ++
  ((λ j, (x + 10 * (r / 10) + 2 * j, 2, 1)) <$> seqZ 0 (r mod 10 / 2)).

Definition packetFrames (n : Z) : list frame := framesFrom 0 n.

Lemma fmap_seqZ_shift {A} (f : Z → A) m : 0 < m →
  f <$> seqZ 0 m = f 0 :: ((λ i, f (1 + i)) <$> seqZ 0 (m - 1)).
Proof.
  intros Hm. rewrite seqZ_cons by lia. cbn. f_equal.
  replace (Z.succ 0) with (1 + 0) by lia. replace (Z.pred m) with (m - 1) by lia.
  rewrite <-(fmap_add_seqZ 1 0 (m - 1)). by rewrite <-list_fmap_compose.
Qed.

Lemma framesFrom_speech x r : 10 ≤ r → framesFrom x r = (x, 10, 0) :: framesFrom (x + 10) (r - 10).
Proof.
  intros Hr. unfold framesFrom.
  assert ((r - 10) / 10 = r / 10 - 1 ∧ (r - 10) mod 10 = r mod 10) as [-> ->] by divmod.
  rewrite (fmap_seqZ_shift (λ i, (x + 10 * i, 10, 0))) by divmod. cbn.
  apply (f_equal2 cons); [do 2 f_equal; lia|].
  apply (f_equal2 app); apply list_fmap_ext; intros; do 2 f_equal; lia.
Qed.

Lemma framesFrom_SID x r : 2 ≤ r < 10 → framesFrom x r = (x, 2, 1) :: framesFrom (x + 2) (r - 2).
Proof.
  intros Hr. unfold framesFrom.
  assert (r / 10 = 0 ∧ (r - 2) / 10 = 0 ∧ r mod 10 = r ∧ (r - 2) mod 10 = r - 2) as (-> & -> & -> & ->) by divmod.
  assert ((r - 2) / 2 = r / 2 - 1) as -> by divmod.
  cbn [seqZ fmap list_fmap app Z.to_nat seq].
  rewrite (fmap_seqZ_shift (λ j, (x + 10 * 0 + 2 * j, 2, 1))) by divmod. cbn.
  apply (f_equal2 cons); [do 2 f_equal; lia|]. apply list_fmap_ext. intros. do 2 f_equal. lia.
Qed.

Lemma framesFrom_nil x r : 0 ≤ r < 2 → framesFrom x r = [].
Proof.
  intros Hr. unfold framesFrom.
  assert (r / 10 = 0 ∧ r mod 10 / 2 = 0) as [-> ->] by divmod. done.
Qed.

(** Every frame of a packet lies inside it. *)
Lemma packetFrames_inside n : 0 ≤ n → Forall (λ '(off, sz, sid), 0 ≤ off ∧ off + sz ≤ n ∧
  (sz = 10 ∧ sid = 0 ∨ sz = 2 ∧ sid = 1)) (packetFrames n).
Proof.
  intros Hn. unfold packetFrames, framesFrom. apply Forall_app. split; apply Forall_fmap, Forall_seqZ; intros i Hi; simpl.
  - divmod.
  - divmod.
Qed.

Lemma packetFrames_length n : 0 ≤ n → Z.of_nat (length (packetFrames n)) = n / 10 + n mod 10 / 2.
Proof.
  intros Hn. unfold packetFrames, framesFrom. rewrite length_app, !length_fmap, !length_seqZ.
  assert (0 ≤ n / 10 ∧ 0 ≤ n mod 10 / 2) by divmod. lia.
Qed.

(** ** Packet decoding refines frame by frame decoding *)

Section DecodeSpec.
Context {D E : Type} `{FrameDecoder D}.

(** Decode the frames [fs] one after the other, the first of them at the output frame [k]. *)
Fixpoint decodeFrames (d : D) (packet out : list Z) (k : Z) (fs : list frame) : res (D * list Z) :=
  match fs with
  | [] => Ok (d, out)
  | (off, sz, sid) :: fs =>
    let* b := read_block packet off sz in
    let* (d, out) := decodeFrame d (Some b) sz 0 sid out (80 * k) in
    decodeFrames d packet out (k + 1) fs
  end.

(** Conceal [m] frames, the first of them at the output frame [k]. *)
Fixpoint concealFrames (d : D) (out : list Z) (k : Z) (m : nat) : res (D * list Z) :=
  match m with
  | O => Ok (d, out)
  | S m =>
    let* (d, out) := decodeFrame d None 0 1 0 out (80 * k) in
    concealFrames d out (k + 1) m
  end.

(** What the module returns for a state of the loop. *)
Definition outcome (s : decodeState) : bool * D * Z * list Z :=
  (ds_failed s, ds_decoder s, ds_new_len s, ds_decoded s).

Lemma decodeLoop_spec fuel d packet n out dlen x k :
  0 ≤ x ≤ n → n < 4294967296 → 0 ≤ k → 160 * k ≤ dlen → dlen + 160 < 4294967296 → n - x < Z.of_nat fuel →
  let fs := framesFrom x (n - x) in
  let m := Z.to_nat (dlen / 160 - k) in
  (let* s := while fuel (λ s, Ok (decodeCond n s)) (decodeStep packet n dlen)
     (DecodeState d x x (80 * k) (160 * k) out false false) in Ok (outcome s)) =
  if decide (length fs ≤ m)%nat
  then let* (d', out') := decodeFrames d packet out k fs in
       Ok (false, d', 160 * (k + Z.of_nat (length fs)), out')
  else let* (d', out') := decodeFrames d packet out k (take m fs) in
       Ok (true, d', 160 * (k + Z.of_nat m), out').
Proof.
  revert d out x k. induction fuel as [|fuel IH]; intros d out x k Hx Hn Hk Hkd Hd Hf; [lia|].
  cbv zeta. cbn [while bind]. unfold decodeCond at 1. cbn [ds_malformed ds_failed ds_x negb andb].
  destruct (Z.ltb_spec x n) as [Hlt|Hge].
  2:{ rewrite framesFrom_nil by lia. cbn [bind decodeFrames length]. destruct (decide _); [|simpl in *; lia].
      unfold outcome. simpl. do 3 f_equal. lia. }
  unfold decodeStep at 1. cbn [ds_decoder ds_x ds_edp ds_ddp ds_new_len ds_decoded].
  unfold BCG729_SID_BYTES, BCG729_BYTES_PER_FRAME, BCG729_PCM_BYTES_PER_FRAME, BCG729_SAMPLES_PER_FRAME.
  rewrite (u32_id (n - x)) by (unfold rng; lia). cbv zeta.
  destruct (Z.ltb_spec (n - x) 2) as [Hr|Hr].
  { rewrite framesFrom_nil by lia. destruct fuel as [|fuel]; [lia|]. cbn [bind while].
    unfold decodeCond at 1. cbn [ds_malformed negb andb bind decodeFrames length].
    destruct (decide _); [|simpl in *; lia]. unfold outcome. simpl. do 3 f_equal. lia. }
  set (sz := if 10 <=? n - x then 10 else 2). set (sid := if 10 <=? n - x then 0 else 1).
  assert (framesFrom x (n - x) = (x, sz, sid) :: framesFrom (x + sz) (n - (x + sz)) ∧ 2 ≤ sz ∧ x + sz ≤ n) as (Hfs & Hsz & Hxs).
  { unfold sz, sid. destruct (Z.leb_spec 10 (n - x)).
    - rewrite framesFrom_speech by lia. split; [do 2 f_equal; lia|lia].
    - rewrite framesFrom_SID by lia. split; [do 2 f_equal; lia|lia]. }
  rewrite Hfs. rewrite (u32_id (160 * k + 160)) by (unfold rng; lia).
  destruct (Z.ltb_spec dlen (160 * k + 160)) as [Hfull|Hroom].
  { assert (dlen / 160 - k = 0) as -> by divmod. destruct fuel as [|fuel]; [lia|]. cbn [bind while].
    unfold decodeCond at 1. cbn [ds_malformed ds_failed negb andb bind].
    destruct (decide _) as [Hle|_]; [simpl in Hle; lia|]. cbn [Z.to_nat take decodeFrames bind].
    unfold outcome. simpl. do 3 f_equal. lia. }
  assert (1 ≤ dlen / 160 - k) as Hm by (apply Z.le_add_le_sub_r; apply Z.div_le_lower_bound; lia).
  assert (Z.to_nat (dlen / 160 - k) = S (Z.to_nat (dlen / 160 - (k + 1)))) as -> by lia.
  cbn [take decodeFrames length]. destruct (read_block packet x sz) as [b|]; cbn [bind]; [|by destruct (decide _)].
  destruct (decodeFrame d (Some b) sz 0 sid out (80 * k)) as [[d' out']|]; cbn [bind]; [|by destruct (decide _)].
  rewrite (u32_id (x + sz)) by (unfold rng; lia).
  replace (80 * k + 80) with (80 * (k + 1)) by lia. replace (160 * k + 160) with (160 * (k + 1)) by lia.
  rewrite (IH d' out' (x + sz) (k + 1)) by lia. cbv zeta.
  set (fs := framesFrom (x + sz) (n - (x + sz))). set (m := Z.to_nat (dlen / 160 - (k + 1))).
  destruct (decide (length fs ≤ m)%nat), (decide (S (length fs) ≤ S m)%nat); try lia.
  all: match goal with |- bind ?a _ = _ => destruct a as [[d2 o2]|]; [|done] end; cbn [bind]; do 3 f_equal; lia.
Qed.

(** The concealment loop conceals as many frames as the output can hold. *)
Lemma concealLoop_spec fuel d out dlen k :
  0 ≤ k → 160 * k ≤ dlen → dlen + 160 < 4294967296 → dlen / 160 - k < Z.of_nat fuel →
  while fuel
    (λ '(d, ddp, new_len, out), Ok (u32 (new_len + BCG729_PCM_BYTES_PER_FRAME) <=? dlen))
    (λ '(d, ddp, new_len, out),
      let* (d, out) := decodeFrame d None 0 1 0 out ddp in
      Ok (d, ddp + BCG729_SAMPLES_PER_FRAME, u32 (new_len + BCG729_PCM_BYTES_PER_FRAME), out))
    (d, 80 * k, 160 * k, out) =
  let* (d', out') := concealFrames d out k (Z.to_nat (dlen / 160 - k)) in
  Ok (d', 80 * (dlen / 160), 160 * (dlen / 160), out').
Proof.
  unfold BCG729_PCM_BYTES_PER_FRAME, BCG729_SAMPLES_PER_FRAME.
  revert d out k. induction fuel as [|fuel IH]; intros d out k Hk Hkd Hd Hf.
  { assert (k ≤ dlen / 160) by (apply Z.div_le_lower_bound; lia). lia. }
  cbn [while bind]. rewrite (u32_id (160 * k + 160)) by (unfold rng; lia).
  destruct (Z.leb_spec (160 * k + 160) dlen) as [Hroom|Hfull].
  - assert (1 ≤ dlen / 160 - k) as Hm by (apply Z.le_add_le_sub_r; apply Z.div_le_lower_bound; lia).
    assert (Z.to_nat (dlen / 160 - k) = S (Z.to_nat (dlen / 160 - (k + 1)))) as -> by lia.
    cbn [concealFrames]. destruct (decodeFrame d None 0 1 0 out (80 * k)) as [[d' out']|]; [|done].
    cbn [bind]. replace (80 * k + 80) with (80 * (k + 1)) by lia.
    replace (160 * k + 160) with (160 * (k + 1)) by lia. apply IH; lia.
  - assert (dlen / 160 = k) as -> by divmod. by rewrite Z.sub_diag.
Qed.

Lemma concealLoop_run d out dlen :
  0 ≤ dlen → dlen + 160 < 4294967296 →
  concealLoop d out dlen =
  let* (d', out') := concealFrames d out 0 (Z.to_nat (dlen / 160)) in
  Ok (d', 80 * (dlen / 160), 160 * (dlen / 160), out').
Proof.
  intros H0 H1. unfold concealLoop.
  pose proof (concealLoop_spec (S (Z.to_nat dlen)) d out dlen 0) as HC. rewrite !Z.mul_0_r, Z.sub_0_r in HC.
  apply HC; [lia|lia|done|]. assert (dlen / 160 ≤ dlen) by (apply Z.div_le_upper_bound; lia). lia.
Qed.

(** The handler on a non-empty packet. *)
Lemma decode_packet_run (codec : switch_codec D E) context d packet n out dlen :
  private_info codec = Some context → decoder_object context = Some d →
  0 < n < 4294967296 → 0 ≤ dlen → dlen + 160 < 4294967296 →
  switch_bcg729_decode codec packet n out dlen =
  let fs := packetFrames n in
  if decide (160 * Z.of_nat (length fs) ≤ dlen)
  then let* (d', out') := decodeFrames d packet out 0 fs in
       Ok (SWITCH_STATUS_SUCCESS, set_decoder codec context d', out', 160 * Z.of_nat (length fs))
  else let* (d', out') := decodeFrames d packet out 0 (take (Z.to_nat (dlen / 160)) fs) in
       Ok (SWITCH_STATUS_FALSE, set_decoder codec context d', out', dlen).
Proof.
  intros Hc Hd Hn H0 H1. unfold switch_bcg729_decode. rewrite Hc, Hd.
  destruct (Z.eqb_spec n 0); [lia|]. cbv zeta.
  pose proof (decodeLoop_spec (S (Z.to_nat n)) d packet n out dlen 0 0) as HL. cbv zeta in HL.
  rewrite !Z.mul_0_r, !Z.sub_0_r in HL. specialize (HL ltac:(lia) ltac:(lia) ltac:(lia) ltac:(lia) ltac:(lia) ltac:(lia)).
  fold (packetFrames n) in HL. set (fs := packetFrames n) in *.
  destruct (while _ _ _ _) as [s|f] eqn:W; cbn [bind] in *.
  - assert (0 ≤ dlen / 160) by (apply Z.div_pos; lia).
    destruct (decide (length fs ≤ Z.to_nat (dlen / 160))%nat) as [Hle|Hgt],
      (decide (160 * Z.of_nat (length fs) ≤ dlen)) as [Hle'|Hgt']; [|exfalso; Z.div_mod_to_equations; lia..|];
    match goal with HL : _ = bind ?a _ |- _ => destruct a as [[d' o']|]; [|done] end;
    cbn [bind] in *; injection HL as Hf' Hdd Hnl Hoo; rewrite Hf', Hdd, Hoo, ?Hnl; done.
  - assert (0 ≤ dlen / 160) by (apply Z.div_pos; lia).
    destruct (decide (length fs ≤ Z.to_nat (dlen / 160))%nat) as [Hle|Hgt],
      (decide (160 * Z.of_nat (length fs) ≤ dlen)) as [Hle'|Hgt']; [|exfalso; Z.div_mod_to_equations; lia..|];
    match goal with HL : _ = bind ?a _ |- _ => destruct a as [[d' o']|]; [done|] end;
    cbn [bind] in *; by injection HL as ->.
Qed.

(** The handler on an empty packet. *)
Lemma decode_empty_run (codec : switch_codec D E) context d packet out dlen :
  private_info codec = Some context → decoder_object context = Some d →
  0 ≤ dlen → dlen + 160 < 4294967296 →
  switch_bcg729_decode codec packet 0 out dlen =
  let* (d', out') := concealFrames d out 0 (Z.to_nat (dlen / 160)) in
  Ok (SWITCH_STATUS_SUCCESS, set_decoder codec context d', out', 160 * (dlen / 160)).
Proof.
  intros Hc Hd H0 H1. unfold switch_bcg729_decode. rewrite Hc, Hd. simpl (0 =? 0).
  rewrite concealLoop_run by done. destruct (concealFrames _ _ _ _) as [[d' o']|]; [|done]. cbn [bind].
  unfold BCG729_PCM_BYTES_PER_FRAME.
  destruct ((160 * (dlen / 160) =? 0) && (160 <=? dlen)) eqn:B; [|done].
  exfalso. apply andb_true_iff in B as [B1 B2]. Z.div_mod_to_equations. lia.
Qed.

(** ** Safety of packet decoding *)

Lemma decodeFrames_safe d packet out k n fs :
  decoder_ok d → Forall u8r packet → arr i16r n out → 0 ≤ k →
  Forall (λ '(off, sz, sid), 0 ≤ off ∧ off + sz ≤ zlen packet ∧ (sz = 10 ∧ sid = 0 ∨ sz = 2 ∧ sid = 1)) fs →
  80 * (k + Z.of_nat (length fs)) ≤ n →
  wp only_div (decodeFrames d packet out k fs) (λ '(d', out'), decoder_ok d' ∧ arr i16r n out').
Proof.
  revert d out k. induction fs as [|[[off sz] sid] fs IH]; intros d out k Hd Hp Ho Hk Hfs Hn; [by simpl|].
  apply Forall_cons in Hfs as [(H1 & H2 & H3) Hfs']. cbn [decodeFrames length] in *. apply wp_bind.
  eapply (wp_read_block only_div u8r (zlen packet)); [by split|lia|lia|lia|]. intros b Hb. apply wp_bind.
  eapply wp_mono; [apply (decodeFrame_safe d (Some b) sz 0 sid n out (80 * k)); [done| |done|lia|lia]|].
  - simpl. destruct Hb as [Hb1 Hb2]. destruct H3 as [[-> ->]|[-> ->]]; [left|right]; repeat split; try done. lia.
  - intros [d' out'] [Hd' Ho']. apply IH; [done..|lia|done|lia].
Qed.

Lemma concealFrames_safe d out k n m :
  decoder_ok d → arr i16r n out → 0 ≤ k → 80 * (k + Z.of_nat m) ≤ n →
  wp only_div (concealFrames d out k m) (λ '(d', out'), decoder_ok d' ∧ arr i16r n out').
Proof.
  revert d out k. induction m as [|m IH]; intros d out k Hd Ho Hk Hn; [by simpl|].
  cbn [concealFrames]. apply wp_bind.
  eapply wp_mono; [apply (decodeFrame_safe d None 0 1 0 n out (80 * k)); [done|done|done|lia|lia]|].
  intros [d' out'] [Hd' Ho']. apply IH; [done..|lia|lia].
Qed.

Lemma decode_packet_safe (codec : switch_codec D E) context d packet n out m dlen :
  private_info codec = Some context → decoder_object context = Some d → decoder_ok d →
  Forall u8r packet → 0 ≤ n ≤ zlen packet → n < 4294967296 →
  arr i16r m out → 0 ≤ dlen ≤ 2 * m → dlen + 160 < 4294967296 →
  wp only_div (switch_bcg729_decode codec packet n out dlen)
    (λ '(status, codec', out', len'), arr i16r m out' ∧ 0 ≤ len' ≤ dlen ∧
       ∃ d', codec' = set_decoder codec context d' ∧ decoder_ok d').
Proof.
  intros Hc Hd Hok Hp Hn Hn2 Ho Hdl H1. destruct (Z.eq_dec n 0) as [->|Hnz].
  - rewrite (decode_empty_run codec context d) by (done || lia). apply wp_bind.
    assert (0 ≤ dlen / 160) by (apply Z.div_pos; lia). assert (dlen / 160 * 160 ≤ dlen) by divmod.
    eapply wp_mono; [apply (concealFrames_safe d out 0 m); [done|done|lia|]|].
    { rewrite Z2Nat.id; lia. }
    intros [d' o'] [? ?]. unfold wp. split; [done|]. split; [lia|]. eauto.
  - rewrite (decode_packet_run codec context d) by (done || lia). cbv zeta.
    set (fs := packetFrames n).
    assert (Forall (λ '(off, sz, sid), 0 ≤ off ∧ off + sz ≤ zlen packet ∧
      (sz = 10 ∧ sid = 0 ∨ sz = 2 ∧ sid = 1)) fs) as Hfs.
    { eapply Forall_impl; [apply packetFrames_inside; lia|]. intros [[? ?] ?] (? & ? & ?). lia. }
    destruct (decide _) as [Hle|Hgt]; apply wp_bind.
    + eapply wp_mono; [apply (decodeFrames_safe d packet out 0 m); [done..|unfold frame in *; lia]|].
      intros [d' o'] [? ?]. unfold wp. split; [done|]. split; [lia|]. eauto.
    + assert (dlen / 160 * 160 ≤ dlen) by divmod.
      eapply wp_mono; [apply (decodeFrames_safe d packet out 0 m); [done|done|done|done|by apply Forall_take|]|].
      { rewrite length_take. assert (0 ≤ dlen / 160) by (apply Z.div_pos; lia). lia. }
      intros [d' o'] [? ?]. unfold wp. split; [done|]. split; [lia|]. eauto.
Qed.

End DecodeSpec.

(** ** Packet encoding *)

Section EncodeSpec.
Context {D E : Type} `{FrameEncoder E}.

(** The state of the encoding loop before frame [x]: the input advances by 80 samples per
    frame, the output by what the frames produced, never past [encoded_data_len]; the loop
    only fails when the frames could outgrow the output. *)
Record encode_inv (m elen : Z) (bits0 : list Z) (x : Z) (s : encodeState) : Prop := {
  ei_encoder : encoder_ok (es_encoder s);
  ei_bits : arr u8r m (es_encoded s);
  ei_outside : ∀ i, (Z.to_nat elen ≤ i)%nat → es_encoded s !! i = bits0 !! i;
  ei_len : 0 ≤ es_new_len s ≤ elen;
  ei_edp : es_edp s = es_new_len s;
  ei_run : es_failed s = false → es_ddp s = 80 * x ∧ es_new_len s ≤ 10 * x;
  ei_fail : es_failed s = true → elen < 10 * x
}.

Lemma encodeStep_inv n pcm m elen bits0 loops x s :
  arr i16r n pcm → 80 * loops ≤ n → elen ≤ m → elen + 10 < 4294967296 → 0 ≤ x < loops →
  encode_inv m elen bits0 x s →
  wp encoder_fault (encodeStep pcm elen s) (encode_inv m elen bits0 (x + 1)).
Proof.
  intros Hp Hn Hm Hel Hx [He Hb Hout Hlen Hedp Hrun Hfail]. unfold encodeStep.
  unfold BCG729_BYTES_PER_FRAME, BCG729_SAMPLES_PER_FRAME.
  destruct (es_failed s) eqn:Ef.
  { specialize (Hfail eq_refl). unfold wp. constructor; rewrite ?Ef; try done. lia. }
  destruct (Hrun eq_refl) as [Hddp Hnl]. rewrite u32_id by (unfold rng; lia).
  destruct (Z.ltb_spec elen (es_new_len s + 10)) as [Hfull|Hroom].
  { unfold wp. constructor; simpl; try done. lia. }
  apply wp_bind. eapply wp_mono; [apply (encodeFrame_safe _ n pcm _ m)|];
    [done|done|lia|lia|done|lia|lia|].
  intros [[e' bits'] sz] (He' & Hb' & Hsz & Hsame). unfold wp.
  constructor; simpl; try done.
  - intros i Hi. rewrite Hsame; [by apply Hout|]. lia.
  - rewrite u32_id by (unfold rng; lia). lia.
  - rewrite u32_id by (unfold rng; lia). lia.
  - intros _. rewrite u32_id by (unfold rng; lia). lia.
Qed.

(** The handler on whole frames. *)
Lemma encode_packet_run (codec : switch_codec D E) context e n pcm dlen m bits elen :
  private_info codec = Some context → encoder_object context = Some e → encoder_ok e →
  arr i16r n pcm → 0 ≤ dlen ≤ 2 * n → dlen < 4294967296 → dlen mod 160 = 0 →
  arr u8r m bits → 0 ≤ elen ≤ m → elen + 10 < 4294967296 →
  wp encoder_fault (switch_bcg729_encode codec pcm dlen bits elen)
    (λ '(status, codec', bits', len'), arr u8r m bits' ∧
       (∀ i, (Z.to_nat elen ≤ i)%nat → bits' !! i = bits !! i) ∧
       0 ≤ len' ≤ elen ∧ (∃ e', codec' = set_encoder codec context e' ∧ encoder_ok e') ∧
       match status with
       | SWITCH_STATUS_SUCCESS => len' ≤ 10 * (dlen / 160)
       | SWITCH_STATUS_FALSE => elen < 10 * (dlen / 160)
       end).
Proof.
  intros Hc He Hok Hp Hd Hd2 Hmod Hb Hel Hel2. unfold switch_bcg729_encode. rewrite Hc, He.
  unfold BCG729_PCM_BYTES_PER_FRAME. rewrite Hmod. simpl (negb _). cbv iota zeta.
  assert (0 ≤ dlen / 160 ≤ 26843545) by divmod. rewrite i32_id by (unfold rng; lia). apply wp_bind.
  apply wp_for_up with (I := encode_inv m elen bits); [lia| | |].
  - constructor; simpl; (done || lia).
  - intros x s Hx Hs. apply (encodeStep_inv n pcm m elen bits (dlen / 160)); try done; [divmod|lia].
  - intros s [He' Hb' Hout Hlen Hedp Hrun Hfail]. destruct (es_failed s) eqn:Ef; unfold wp.
    + split_and!; [done|done|lia|lia|eauto|]. by apply Hfail.
    + split_and!; [done|done|lia|lia|eauto|]. by apply Hrun.
Qed.

(** Encode at most [count] frames, the first of them the input frame [k], from the offset [off]
    of the output, as long as ten bytes are left; the sizes of the frames written. *)
Fixpoint encodeFrames (e : E) (pcm bits : list Z) (k off elen : Z) (count : nat) : res (E * list Z * list Z) :=
  match count with
  | O => Ok (e, bits, [])
  | S count =>
    if elen <? off + 10 then Ok (e, bits, [])
    else
      let* (e, bits, sz) := encodeFrame e pcm (80 * k) bits off in
      let* (e, bits, sizes) := encodeFrames e pcm bits (k + 1) (off + sz) elen count in
      Ok (e, bits, sz :: sizes)
  end.

(** Once the loop has failed it does nothing. *)
Lemma encodeLoop_failed pcm elen count i s : es_failed s = true →
  forN count i 1 s (λ _ s, encodeStep pcm elen s) = Ok s.
Proof.
  intros Hs. revert i. induction count as [|count IH]; intros i; cbn [forN]; [done|].
  unfold encodeStep at 1. rewrite Hs. cbn [bind]. apply IH.
Qed.

Lemma encodeLoop_spec n pcm m elen count i e bits k off :
  encoder_ok e → arr i16r n pcm → arr u8r m bits → elen ≤ m → elen + 10 < 4294967296 →
  0 ≤ k → 80 * (k + Z.of_nat count) ≤ n → 0 ≤ off ≤ elen →
  (let* s := forN count i 1 (EncodeState e (80 * k) off off bits false) (λ _ s, encodeStep pcm elen s) in
   Ok (es_failed s, es_encoder s, es_encoded s, es_new_len s)) =
  let* (e', bits', sizes) := encodeFrames e pcm bits k off elen count in
  Ok (negb (length sizes =? count)%nat, e', bits', off + totalSize sizes).
Proof.
  intros He Hp Hb Hm Hel Hk Hn Ho. revert i e bits k off He Hb Hk Hn Ho.
  induction count as [|count IH]; intros i e bits k off He Hb Hk Hn Ho; cbn [forN encodeFrames bind].
  { cbn. do 2 f_equal. lia. }
  unfold encodeStep at 1. cbn [es_failed es_new_len es_encoder es_ddp es_edp es_encoded].
  unfold BCG729_BYTES_PER_FRAME, BCG729_SAMPLES_PER_FRAME. rewrite u32_id by (unfold rng; lia).
  destruct (Z.ltb_spec elen (off + 10)).
  { cbn [bind]. rewrite encodeLoop_failed by done. cbn. do 2 f_equal. lia. }
  pose proof (encodeFrame_safe e n pcm (80 * k) m bits off He Hp ltac:(lia) ltac:(lia) Hb ltac:(lia) ltac:(lia)) as HS.
  destruct (encodeFrame e pcm (80 * k) bits off) as [[[e1 b1] sz]|]; [|done]. cbn [bind wp] in *.
  destruct HS as (He1 & Hb1 & Hsz & _). rewrite u32_id by (unfold rng; lia). replace (80 * k + 80) with (80 * (k + 1)) by lia.
  rewrite IH by (done || lia). destruct (encodeFrames _ _ _ _ _ _ _) as [[[e2 b2] sizes]|]; [|done].
  cbn [bind length Nat.eqb]. change (totalSize (sz :: sizes)) with (sz + totalSize sizes). by rewrite Z.add_assoc.
Qed.

(** The handler on whole frames is [encodeFrames]. *)
Lemma encode_frames_run (codec : switch_codec D E) context e n pcm dlen m bits elen :
  private_info codec = Some context → encoder_object context = Some e → encoder_ok e →
  arr i16r n pcm → 0 ≤ dlen ≤ 2 * n → dlen < 4294967296 → dlen mod 160 = 0 →
  arr u8r m bits → 0 ≤ elen ≤ m → elen + 10 < 4294967296 →
  switch_bcg729_encode codec pcm dlen bits elen =
  let* (e', bits', sizes) := encodeFrames e pcm bits 0 0 elen (Z.to_nat (dlen / 160)) in
  if decide (Z.of_nat (length sizes) = dlen / 160)
  then Ok (SWITCH_STATUS_SUCCESS, set_encoder codec context e', bits', totalSize sizes)
  else Ok (SWITCH_STATUS_FALSE, set_encoder codec context e', bits', elen).
Proof.
  intros Hc He Hok Hp Hd Hd2 Hmod Hb Hel Hel2. unfold switch_bcg729_encode. rewrite Hc, He.
  unfold BCG729_PCM_BYTES_PER_FRAME. rewrite Hmod. simpl (negb _). cbv iota zeta.
  assert (0 ≤ dlen / 160 ≤ 26843545) by divmod. rewrite i32_id by (unfold rng; lia). unfold for_up. rewrite Z.sub_0_r.
  assert (80 * (dlen / 160) ≤ n) by divmod.
  pose proof (encodeLoop_spec n pcm m elen (Z.to_nat (dlen / 160)) 0 e bits 0 0 Hok Hp Hb) as HL.
  rewrite !Z.mul_0_r in HL. specialize (HL ltac:(lia) ltac:(lia) ltac:(lia) ltac:(lia) ltac:(lia)).
  destruct (forN _ _ _ _ _) as [s|]; cbn [bind] in *; destruct (encodeFrames _ _ _ _ _ _ _) as [[[e' b'] sizes]|]; try done.
  - cbn [bind] in *. injection HL as -> -> -> ->. rewrite Z.add_0_l.
    destruct (Nat.eqb_spec (length sizes) (Z.to_nat (dlen / 160))), (decide (Z.of_nat (length sizes) = dlen / 160)); try lia; done.
  - cbn [bind] in *. by injection HL as ->.
Qed.

End EncodeSpec.
