(* ===== verification/PropsModule.v ===== *)
(** Theorems on the codec module: packet decoding and encoding against the frame
    interfaces, the life cycle of a codec, configuration and registration. *)

From stdpp Require Import strings.
From S2P Require Import Prelude FixedPoint Context Utils Heap Synthesis ComfortNoise Decoder EncContext.
From S2P Require Import EncChannel ModBcg729.

(** ** Two small frame codecs to evaluate the handlers on *)

(** A decoder whose state counts the frames and which fills a frame with that count. *)
Definition countingDecode (d : Z) (b : option (list Z)) (len er sid : Z) (signal : list Z) (off : Z)
    : res (Z * list Z) :=
  let* signal := for_up 0 80 signal (λ i s, st s (off + i) d) in
  Ok (u8 (d + 1), signal).

#[export] Instance countingDecoder : FrameDecoder Z.
Proof.
  refine {| decodeFrame := countingDecode; decoder_ok := u8r |}.
  intros d b len er sid n signal off Hd _ Hs H0 Hn. unfold countingDecode. apply wp_bind.
  apply wp_for_inv with (I := arr i16r n); [done| |].
  - intros i s Hi Hs'. wp_go. done.
  - intros s Hs'. unfold wp. auto with rng.
Defined.

(** An encoder that writes ten bytes, its state the size it announces. *)
Definition constantEncode (e : Z) (pcm : list Z) (poff : Z) (bits : list Z) (off : Z) : res (Z * list Z * Z) :=
  let* bits := write_block bits off (replicate 10 e) in
  Ok (e, bits, e).

Lemma list_inserts_out {A} (b a : list A) i j : (j < i ∨ i + length b ≤ j)%nat →
  list_inserts i b a !! j = a !! j.
Proof. intros [|]; [by apply list_lookup_inserts_lt|by apply list_lookup_inserts_ge]. Qed.

#[export] Instance constantEncoder : FrameEncoder Z.
Proof.
  refine {| encodeFrame := constantEncode; encoder_ok e := e = 0 ∨ e = 2 ∨ e = 10; encoder_fault := no_fault |}.
  intros e n pcm poff m bits off He Hp Hp0 Hpn Hb H0 Hm. unfold constantEncode. apply wp_bind.
  destruct Hb as [Hlen Hb]. unfold write_block. change (zlen (replicate 10 e)) with 10.
  destruct (_ && _) eqn:E; [|lia]. unfold wp. split; [done|]. split; [split|split; [done|]].
  - unfold zlen in *. by rewrite length_inserts.
  - apply Forall_list_inserts; [|done]. apply Forall_replicate. unfold rng. lia.
  - intros i Hi. apply list_inserts_out. simpl. lia.
Defined.

(** ** Packet decoding *)

Section DecodeTheorems.
Context {D E : Type} `{FrameDecoder D}.

(** C1: decoding a non-empty packet is decoding its frames one after the other: the speech
    frames of ten bytes, then the SID frames of two bytes, each to the next 80 samples.
    When the output can hold all of them the handler succeeds and reports 160 bytes per
    frame; otherwise it decodes the frames that fit, fails and leaves the length as it was. *)
Theorem switch_bcg729_decode_refines (codec : switch_codec D E) context d packet n out dlen :
  private_info codec = Some context → decoder_object context = Some d →
  0 < n < 4294967296 → 0 ≤ dlen → dlen + 160 < 4294967296 →
  switch_bcg729_decode codec packet n out dlen =
  let fs := packetFrames n in
  if decide (160 * Z.of_nat (length fs) ≤ dlen)
  then let* (d', out') := decodeFrames d packet out 0 fs in
       Ok (SWITCH_STATUS_SUCCESS, set_decoder codec context d', out', 160 * Z.of_nat (length fs))
  else let* (d', out') := decodeFrames d packet out 0 (take (Z.to_nat (dlen / 160)) fs) in
       Ok (SWITCH_STATUS_FALSE, set_decoder codec context d', out', dlen).
Proof. apply decode_packet_run. Qed.

(** C15: an empty packet is a loss: the handler conceals as many frames as the output can
    hold, succeeds and reports exactly their bytes.  The branch of the source meant to
    conceal at least one frame never runs. *)
Theorem switch_bcg729_decode_conceals (codec : switch_codec D E) context d packet out dlen :
  private_info codec = Some context → decoder_object context = Some d →
  0 ≤ dlen → dlen + 160 < 4294967296 →
  switch_bcg729_decode codec packet 0 out dlen =
  let* (d', out') := concealFrames d out 0 (Z.to_nat (dlen / 160)) in
  Ok (SWITCH_STATUS_SUCCESS, set_decoder codec context d', out', 160 * (dlen / 160)).
Proof. apply decode_empty_run. Qed.

(** C9: packet decoding is safe for every packet and every frame decoder that meets the
    interface: no access outside the packet or the output buffer, no endless loop, the
    reported length is within the capacity and the decoder stays well formed.  The one
    fault left to the frame decoder is its tilt division. *)
Theorem switch_bcg729_decode_safe (codec : switch_codec D E) context d packet n out m dlen :
  private_info codec = Some context → decoder_object context = Some d → decoder_ok d →
  Forall u8r packet → 0 ≤ n ≤ zlen packet → n < 4294967296 →
  arr i16r m out → 0 ≤ dlen ≤ 2 * m → dlen + 160 < 4294967296 →
  wp only_div (switch_bcg729_decode codec packet n out dlen)
    (λ '(status, codec', out', len'), arr i16r m out' ∧ 0 ≤ len' ≤ dlen ∧
       ∃ d', codec' = set_decoder codec context d' ∧ decoder_ok d').
Proof. apply decode_packet_safe. Qed.
End DecodeTheorems.

Section EncodeTheorems.
Context {D E : Type} `{FrameEncoder E}.

(** C10: packet encoding is safe for every frame encoder that meets the interface: it reads
    only the announced samples, writes only below the announced capacity, reports a length
    within it, and fails only when the capacity is below ten bytes per frame. *)
Theorem switch_bcg729_encode_safe (codec : switch_codec D E) context e n pcm dlen m bits elen :
  private_info codec = Some context → encoder_object context = Some e → encoder_ok e →
  arr i16r n pcm → 0 ≤ dlen ≤ 2 * n → dlen < 4294967296 → dlen mod 160 = 0 →
  arr u8r m bits → 0 ≤ elen ≤ m → elen + 10 < 4294967296 →
  wp encoder_fault (switch_bcg729_encode codec pcm dlen bits elen)
    (λ '(status, codec', bits', len'), arr u8r m bits' ∧
       (∀ i, (Z.to_nat elen ≤ i)%nat → bits' !! i = bits !! i) ∧
       0 ≤ len' ≤ elen ∧ (∃ e', codec' = set_encoder codec context e' ∧ encoder_ok e') ∧
       match status with
       | SWITCH_STATUS_SUCCESS => len' ≤ 10 * (dlen / 160)
       | SWITCH_STATUS_FALSE => elen < 10 * (dlen / 160)
       end).
Proof. apply encode_packet_run. Qed.

(** C8: encoding whole frames is encoding them one after the other, each from the next 80
    samples to the bytes that follow the frame before it, for as long as ten bytes are left. The
    handler succeeds when that covers the input, and reports the total size of the frames;
    otherwise it keeps the frames written, fails and leaves the length as it was. *)
Theorem switch_bcg729_encode_refines (codec : switch_codec D E) context e n pcm dlen m bits elen :
  private_info codec = Some context → encoder_object context = Some e → encoder_ok e →
  arr i16r n pcm → 0 ≤ dlen ≤ 2 * n → dlen < 4294967296 → dlen mod 160 = 0 →
  arr u8r m bits → 0 ≤ elen ≤ m → elen + 10 < 4294967296 →
  switch_bcg729_encode codec pcm dlen bits elen =
  let* (e', bits', sizes) := encodeFrames e pcm bits 0 0 elen (Z.to_nat (dlen / 160)) in
  if decide (Z.of_nat (length sizes) = dlen / 160)
  then Ok (SWITCH_STATUS_SUCCESS, set_encoder codec context e', bits', totalSize sizes)
  else Ok (SWITCH_STATUS_FALSE, set_encoder codec context e', bits', elen).
Proof. apply encode_frames_run. Qed.

(** Input that is not a whole number of 10 ms frames is dropped: success with an empty
    output, the encoder and the buffer untouched. *)
Theorem switch_bcg729_encode_drops (codec : switch_codec D E) context e pcm dlen bits elen :
  private_info codec = Some context → encoder_object context = Some e → dlen mod 160 ≠ 0 →
  switch_bcg729_encode codec pcm dlen bits elen = Ok (SWITCH_STATUS_SUCCESS, codec, bits, 0).
Proof.
  intros Hc He Hm. unfold switch_bcg729_encode. rewrite Hc, He. unfold BCG729_PCM_BYTES_PER_FRAME.
  by destruct (Z.eqb_spec (dlen mod 160) 0).
Qed.

End EncodeTheorems.

(** ** Evaluations *)

Definition testCodec : switch_codec Z Z := SwitchCodec None (Some (Bcg729Context (Some 7) (Some 10))).

Lemma switch_bcg729_decode_refines_witness :
  switch_bcg729_decode testCodec (replicate 15 0) 15 (zeros 240) 480 =
  Ok (SWITCH_STATUS_SUCCESS, set_decoder testCodec (Bcg729Context (Some 7) (Some 10)) 10,
      replicate 80 7 ++ replicate 80 8 ++ replicate 80 9, 480).
Proof.
  rewrite (switch_bcg729_decode_refines testCodec (Bcg729Context (Some 7) (Some 10)) 7)
    by (reflexivity || lia).
  vm_compute. reflexivity.
Defined.

Lemma switch_bcg729_decode_conceals_witness :
  switch_bcg729_decode testCodec [] 0 (zeros 160) 330 =
  Ok (SWITCH_STATUS_SUCCESS, set_decoder testCodec (Bcg729Context (Some 7) (Some 10)) 9,
      replicate 80 7 ++ replicate 80 8, 320).
Proof.
  rewrite (switch_bcg729_decode_conceals testCodec (Bcg729Context (Some 7) (Some 10)) 7)
    by (reflexivity || lia).
  vm_compute. reflexivity.
Defined.

Lemma switch_bcg729_decode_safe_witness :
  wp only_div (switch_bcg729_decode testCodec (replicate 12 255) 12 (zeros 160) 320)
    (λ '(status, codec', out', len'), arr i16r 160 out' ∧ 0 ≤ len' ≤ 320 ∧
       ∃ d', codec' = set_decoder testCodec (Bcg729Context (Some 7) (Some 10)) d' ∧ decoder_ok d').
Proof.
  apply (switch_bcg729_decode_safe testCodec (Bcg729Context (Some 7) (Some 10)) 7);
    [reflexivity|reflexivity|unfold decoder_ok; cbn; unfold rng; lia| |unfold zlen; simpl; lia|lia| |lia|lia].
  - apply Forall_replicate. unfold rng. lia.
  - by apply arr_zeros.
Defined.

(** Three frames into room for two. *)
Lemma switch_bcg729_encode_refines_witness :
  switch_bcg729_encode testCodec (zeros 240) 480 (zeros 25) 25 =
  Ok (SWITCH_STATUS_FALSE, testCodec, replicate 20 10 ++ zeros 5, 25).
Proof.
  rewrite (switch_bcg729_encode_refines testCodec (Bcg729Context (Some 7) (Some 10)) 10 240 (zeros 240) 480 25 (zeros 25) 25);
    [by vm_compute|reflexivity|reflexivity|by right; right|by apply arr_zeros|lia|lia|reflexivity|by apply arr_zeros|lia|lia].
Defined.

Lemma switch_bcg729_encode_safe_witness :
  wp encoder_fault (switch_bcg729_encode testCodec (zeros 160) 320 (zeros 25) 20)
    (λ '(status, codec', bits', len'), arr u8r 25 bits' ∧
       (∀ i, (Z.to_nat 20 ≤ i)%nat → bits' !! i = zeros 25 !! i) ∧
       0 ≤ len' ≤ 20 ∧
       (∃ e', codec' = set_encoder testCodec (Bcg729Context (Some 7) (Some 10)) e' ∧ encoder_ok e') ∧
       match status with
       | SWITCH_STATUS_SUCCESS => len' ≤ 10 * (320 / 160)
       | SWITCH_STATUS_FALSE => 20 < 10 * (320 / 160)
       end).
Proof.
  apply (switch_bcg729_encode_safe testCodec (Bcg729Context (Some 7) (Some 10)) 10 160);
    [reflexivity|reflexivity|by right; right| |lia|lia|reflexivity| |lia|lia]; by apply arr_zeros.
Defined.

Lemma switch_bcg729_encode_drops_witness :
  switch_bcg729_encode testCodec (zeros 100) 200 (zeros 20) 20 = Ok (SWITCH_STATUS_SUCCESS, testCodec, zeros 20, 0).
Proof.
  apply (switch_bcg729_encode_drops testCodec (Bcg729Context (Some 7) (Some 10)) 10); [reflexivity|reflexivity|].
  vm_compute. lia.
Defined.

(** ** Life cycle *)

(** An encoder channel just created, and one just closed. *)
Lemma open_close_encoder h v :
  ∃ h1 e, initBcg729EncoderChannel h true true true v = Ok (h1, e) ∧ Enc.wf (enc_context e) ∧
    next h ≤ next h1 ∧
    closeBcg729EncoderChannel h1 (Some e) = Ok (Heap (next h1) (live h)) ∧
    ∀ p q l, next h1 ≤ p → next h1 ≤ q → live l = q :: p :: live h1 →
      closeBcg729EncoderChannel l (Some e) = Ok (Heap (next l) (q :: p :: live h)).
Proof.
  destruct (initBcg729EncoderChannel_run h v) as (c & Hc & He). rewrite He.
  destruct (v =? 1); do 2 eexists; (split; [done|]); (split; [done|]); (split; [simpl; lia|]);
    unfold closeBcg729EncoderChannel, freeIfSet; cbn [vad_block dtx_block enc_block bind];
    (split; [|intros p q [n l] Hp Hq Hl; simpl in Hp, Hq, Hl; subst l]); repeat (heap_cbn; cbn [bind]); done.
Qed.

Lemma open_close_decoder h :
  ∃ h1 d, initBcg729DecoderChannel h true true = Ok (h1, d) ∧ Dec.wf (dec_context d) ∧
    (∃ p q, next h ≤ p ∧ next h ≤ q ∧ live h1 = q :: p :: live h) ∧
    ∀ l, (∀ p q, live h1 = q :: p :: live h → next h ≤ p → next h ≤ q → True) →
      ∀ r, live l = match live h1 with q :: p :: _ => q :: p :: r | _ => [] end →
      closeBcg729DecoderChannel l (Some d) = Ok (Heap (next l) r).
Proof.
  destruct (initBcg729DecoderChannel_run h) as (c & Hd & Hc). rewrite Hd.
  do 2 eexists. split; [done|]. split; [done|]. split.
  { do 2 eexists. split; [|split; [|done]]; lia. }
  intros [n l] _ r Hl. simpl in Hl. subst l. unfold closeBcg729DecoderChannel. cbn [cng_block dec_block].
  repeat (heap_cbn; cbn [bind]). done.
Qed.

(** C31: when the allocations succeed, creating a codec for encoding, decoding or both
    succeeds with well-formed channels, advertises annex B as configured, and destroying it
    frees every block it allocated exactly once. *)
Theorem init_destroy_balanced FE FD h codec flags vad :
  Z.land flags FE ≠ 0 ∨ Z.land flags FD ≠ 0 →
  ∃ h1 d e h2,
    let codec1 := SwitchCodec (Some (if vad =? 0 then "annexb=no"%string else "annexb=yes"%string))
                    (Some (Bcg729Context d e)) in
    switch_bcg729_init FE FD h codec flags vad true true true true true true = Ok (h1, SWITCH_STATUS_SUCCESS, codec1) ∧
    (Z.land flags FE ≠ 0 ↔ is_Some e) ∧ (Z.land flags FD ≠ 0 ↔ is_Some d) ∧
    from_option (λ d, Dec.wf (dec_context d)) True d ∧ from_option (λ e, Enc.wf (enc_context e)) True e ∧
    switch_bcg729_destroy h1 codec1 = Ok (h2, SWITCH_STATUS_SUCCESS, SwitchCodec (fmtp_out codec1) None) ∧
    live h2 = live h.
Proof.
  intros Hflags. unfold switch_bcg729_init. cbv zeta.
  set (v := if negb (vad =? 0) then 1 else 0).
  assert ((if negb (vad =? 0) then "annexb=yes"%string else "annexb=no"%string) =
          (if vad =? 0 then "annexb=no"%string else "annexb=yes"%string)) as -> by by destruct (vad =? 0).
  destruct (open_close_encoder h v) as (he & e & He & Hwe & Hne & Hce & Hcs).
  destruct (Z.eqb_spec (Z.land flags FE) 0) as [Ee|Ee], (Z.eqb_spec (Z.land flags FD) 0) as [Ed|Ed];
    [lia|..]; cbn [negb orb]; cbv iota.
  - destruct (open_close_decoder h) as (hd & d & Hd & Hwd & (p & q & Hp & Hq & Hl) & Hcd).
    cbn [bind]. rewrite Hd. cbn [bind]. exists hd, (Some d), None, (Heap (next hd) (live h)).
    split; [done|]. split; [split; [done|by intros []]|]. split; [done|]. split; [done|]. split; [done|].
    unfold switch_bcg729_destroy. cbn [private_info encoder_object decoder_object bind].
    rewrite (Hcd hd ltac:(done) (live h)) by by rewrite Hl. done.
  - rewrite He. cbn [bind]. exists he, None, (Some e), (Heap (next he) (live h)).
    split; [done|]. split; [done|]. split; [split; [done|by intros []]|]. split; [done|]. split; [done|].
    unfold switch_bcg729_destroy. cbn [private_info encoder_object decoder_object bind].
    by rewrite Hce.
  - rewrite He. cbn [bind].
    destruct (open_close_decoder he) as (hd & d & Hd & Hwd & (p & q & Hp & Hq & Hl) & Hcd).
    rewrite Hd. cbn [bind]. exists hd, (Some d), (Some e), (Heap (next hd) (live h)).
    split; [done|]. split; [done|]. split; [done|]. split; [done|]. split; [done|].
    unfold switch_bcg729_destroy. cbn [private_info encoder_object decoder_object bind].
    rewrite (Hcs p q hd Hp Hq Hl). cbn [bind].
    rewrite (Hcd (Heap (next hd) (q :: p :: live h)) ltac:(done) (live h)) by by rewrite Hl. done.
Qed.

Lemma init_destroy_balanced_witness :
  ∃ h1 d e h2,
    let codec1 := SwitchCodec (Some "annexb=yes"%string) (Some (Bcg729Context d e)) in
    switch_bcg729_init 1 2 (Heap 5 [4; 2]) (SwitchCodec None None) 3 1 true true true true true true =
      Ok (h1, SWITCH_STATUS_SUCCESS, codec1) ∧
    (Z.land 3 1 ≠ 0 ↔ is_Some e) ∧ (Z.land 3 2 ≠ 0 ↔ is_Some d) ∧
    from_option (λ d, Dec.wf (dec_context d)) True d ∧ from_option (λ e, Enc.wf (enc_context e)) True e ∧
    switch_bcg729_destroy h1 codec1 = Ok (h2, SWITCH_STATUS_SUCCESS, SwitchCodec (fmtp_out codec1) None) ∧
    live h2 = [4; 2].
Proof. apply (init_destroy_balanced 1 2 (Heap 5 [4; 2]) (SwitchCodec None None) 3 1). left. vm_compute. lia. Defined.

(** ** Packets made of frames *)

(** The frames of the given sizes laid out one after the other from offset [x]. *)
Fixpoint layout (x : Z) (sizes : list Z) : list frame :=
  match sizes with
  | [] => []
  | sz :: sizes => (x, sz, if sz =? 10 then 0 else 1) :: layout (x + sz) sizes
  end.

Lemma layout_sizes x sizes : (λ f : frame, f.1.2) <$> layout x sizes = sizes.
Proof. revert x. induction sizes as [|sz l IH]; intros x; simpl; [done|]. f_equal. apply IH. Qed.

Lemma fmap_const_seqZ (c m : Z) : (λ _ : Z, c) <$> seqZ 0 m = replicate (Z.to_nat m) c.
Proof. rewrite <-(length_seqZ 0 m). induction (seqZ 0 m); simpl; [done|]. f_equal. done. Qed.

Lemma packetFrames_sizes n :
  (λ f : frame, f.1.2) <$> packetFrames n =
  replicate (Z.to_nat (n / 10)) 10 ++ replicate (Z.to_nat (n mod 10 / 2)) 2.
Proof.
  unfold packetFrames, framesFrom. rewrite fmap_app, <-!list_fmap_compose.
  apply (f_equal2 app); [apply (fmap_const_seqZ 10)|apply (fmap_const_seqZ 2)].
Qed.

Lemma totalSize_replicate a b (s k : nat) :
  totalSize (replicate s a ++ replicate k b) = Z.of_nat s * a + Z.of_nat k * b.
Proof.
  unfold totalSize. induction s as [|s IH].
  - induction k as [|k IH]; simpl in *; [lia|]. rewrite IH. lia.
  - cbn [replicate app foldr]. rewrite IH. lia.
Qed.

Lemma layout_framesFrom x (s k : nat) : (k ≤ 4)%nat →
  layout x (replicate s 10 ++ replicate k 2) = framesFrom x (Z.of_nat s * 10 + Z.of_nat k * 2).
Proof.
  intros Hk. revert x. induction s as [|s IH]; intros x.
  - simpl. clear -Hk. revert x Hk. induction k as [|k IH]; intros x Hk.
    + by rewrite framesFrom_nil.
    + rewrite framesFrom_SID by lia. cbn [replicate app layout]. simpl (2 =? 10). cbv iota. f_equal.
      simpl in IH. rewrite IH by lia. f_equal. lia.
  - rewrite framesFrom_speech by lia. cbn [replicate app layout]. simpl (10 =? 10). cbv iota. f_equal.
    rewrite IH. f_equal. lia.
Qed.

(** The cut of a packet is the layout of the frames it concatenates exactly when these are
    speech frames followed by at most four SID frames. *)
Lemma packetFrames_layout sizes :
  packetFrames (totalSize sizes) = layout 0 sizes ↔
  ∃ s k, (k ≤ 4)%nat ∧ sizes = replicate s 10 ++ replicate k 2.
Proof.
  split.
  - intros E. apply (f_equal (fmap (λ f : frame, f.1.2))) in E.
    rewrite layout_sizes, packetFrames_sizes in E. symmetry in E.
    eexists _, _. split; [|exact E]. divmod.
  - intros (s & k & Hk & ->). rewrite totalSize_replicate. symmetry. by apply layout_framesFrom.
Qed.

Lemma layout_length x sizes : length (layout x sizes) = length sizes.
Proof. revert x. induction sizes as [|sz l IH]; intros x; simpl; [done|]. f_equal. apply IH. Qed.

(** C14: a packet that concatenates encoded frames is decoded frame by frame when it is made of
    speech frames followed by at most four SID frames, and the handler cuts no other
    concatenation into its frames. *)
Theorem packet_cut_correct {D E : Type} `{FrameDecoder D} (codec : switch_codec D E) context d packet out dlen sizes :
  private_info codec = Some context → decoder_object context = Some d →
  0 < totalSize sizes < 4294967296 → 160 * Z.of_nat (length sizes) ≤ dlen → dlen + 160 < 4294967296 →
  ((∃ s k, (k ≤ 4)%nat ∧ sizes = replicate s 10 ++ replicate k 2) →
   switch_bcg729_decode codec packet (totalSize sizes) out dlen =
     let* (d', out') := decodeFrames d packet out 0 (layout 0 sizes) in
     Ok (SWITCH_STATUS_SUCCESS, set_decoder codec context d', out', 160 * Z.of_nat (length sizes))) ∧
  (packetFrames (totalSize sizes) = layout 0 sizes ↔
   ∃ s k, (k ≤ 4)%nat ∧ sizes = replicate s 10 ++ replicate k 2).
Proof.
  intros Hc Hd Ht Hl Hw. split; [|apply packetFrames_layout]. intros Hs.
  rewrite (decode_packet_run codec context d) by (done || lia). cbv zeta.
  rewrite (proj2 (packetFrames_layout sizes) Hs), layout_length. by destruct (decide _).
Qed.

Lemma packet_cut_correct_witness :
  switch_bcg729_decode testCodec (replicate 14 0) (totalSize [10; 2; 2]) (zeros 240) 480 =
  Ok (SWITCH_STATUS_SUCCESS, set_decoder testCodec (Bcg729Context (Some 7) (Some 10)) 10,
      replicate 80 7 ++ replicate 80 8 ++ replicate 80 9, 480).
Proof.
  destruct (packet_cut_correct testCodec (Bcg729Context (Some 7) (Some 10)) 7 (replicate 14 0) (zeros 240) 480 [10; 2; 2])
    as [E _]; [reflexivity|reflexivity|by vm_compute|by vm_compute|by vm_compute|].
  rewrite E by (exists 1%nat, 2%nat; split; [lia|reflexivity]). vm_compute. reflexivity.
Defined.

(** In particular a SID frame followed by a speech frame in one packet, which the encoder
    produces when speech resumes inside a packet, is decoded as ten bytes of speech followed
    by a SID frame. *)
Theorem packet_cut_SID_first :
  layout 0 [2; 10] = [(0, 2, 1); (2, 10, 0)] ∧ packetFrames (totalSize [2; 10]) = [(0, 10, 0); (10, 2, 1)].
Proof. split; reflexivity. Qed.

(** ** Registration and configuration *)

(** Every packetisation the module registers is consistent with its handlers: encoding a
    full packet into the announced encoded size succeeds, and so does decoding a full packet
    into the announced decoded size, which it fills. *)
Theorem registered_sizes_consistent {D E : Type} `{FrameDecoder D} `{FrameEncoder E}
    (codec : switch_codec D E) d e st cfg imp pcm bits packet out :
  private_info codec = Some (Bcg729Context (Some d) (Some e)) → encoder_ok e →
  imp ∈ (mod_bcg729_load st cfg).2 →
  arr i16r (samples_per_packet imp) pcm → arr u8r (encoded_bytes_per_packet imp) bits →
  wp encoder_fault (switch_bcg729_encode codec pcm (decoded_bytes_per_packet imp) bits (encoded_bytes_per_packet imp))
    (λ '(status, _, _, len), status = SWITCH_STATUS_SUCCESS ∧ len ≤ encoded_bytes_per_packet imp) ∧
  wp (λ _, True) (switch_bcg729_decode codec packet (encoded_bytes_per_packet imp) out (decoded_bytes_per_packet imp))
    (λ '(status, _, _, len), status = SWITCH_STATUS_SUCCESS ∧ len = decoded_bytes_per_packet imp).
Proof.
  intros Hc He Himp Hp Hb.
  assert (∃ n, 1 ≤ n ≤ 12 ∧ samples_per_packet imp = 80 * n ∧ encoded_bytes_per_packet imp = 10 * n ∧
    decoded_bytes_per_packet imp = 160 * n) as (n & Hn & Es & Ee & Ed).
  { cbn in Himp. rewrite !elem_of_cons, elem_of_nil in Himp.
    repeat destruct Himp as [-> |Himp]; [..|done];
      match goal with |- context [encoded_bytes_per_packet ?i] =>
        let x := eval cbv in (encoded_bytes_per_packet i / 10) in exists x end; split_and!; done. }
  rewrite Es in Hp. rewrite Ee in Hb |- *. rewrite Ed. clear Es Ee Ed Himp. split.
  - eapply wp_mono; [eapply (encode_packet_run codec _ e (80 * n)); 
      [exact Hc|done|done|exact Hp|lia|lia| |exact Hb|lia|lia]|].
    { rewrite (Z.mul_comm 160). apply Z.mod_mul. lia. }
    intros [[[stt c'] b'] len] (_ & _ & Hlen & _ & Hs).
    rewrite (Z.mul_comm 160), Z.div_mul in Hs by lia. destruct stt; [split; [done|lia]|lia].
  - rewrite (decode_packet_run codec _ d _ _ _ _ Hc) by (done || lia). cbv zeta.
    assert (Z.of_nat (length (packetFrames (10 * n))) = n) as Hlen.
    { rewrite packetFrames_length by lia. divmod. }
    rewrite Hlen. destruct (decide _); [|lia]. apply wp_bind.
    destruct (decodeFrames _ _ _ _ _) as [[d' o']|]; simpl; done.
Qed.

Lemma registered_sizes_consistent_witness :
  wp encoder_fault (switch_bcg729_encode testCodec (zeros 160) 320 (zeros 20) 20)
    (λ '(status, _, _, len), status = SWITCH_STATUS_SUCCESS ∧ len ≤ 20) ∧
  wp (λ _, True) (switch_bcg729_decode testCodec (replicate 20 1) 20 (zeros 160) 320)
    (λ '(status, _, _, len), status = SWITCH_STATUS_SUCCESS ∧ len = 320).
Proof.
  apply (registered_sizes_consistent testCodec 7 10 (λ _, 0) None (Implementation 18 8000 8000 20000 160 320 20 1 20));
    [reflexivity|by right; right| |by apply arr_zeros|by apply arr_zeros].
  apply (list_elem_of_lookup_2 _ 10%nat). reflexivity.
Defined.

(** [use_vad] is the value of the last parameter named use-vad, whatever its case, and 0
    without such a parameter. *)
Theorem load_config_last st (params : list (string * string)) :
  load_config st (Some (Some params)) =
  match last (filter (λ p, strcaseeq p.1 "use-vad"%string = true) params) with
  | Some p => st p.2
  | None => 0
  end.
Proof.
  unfold load_config. induction params as [|[var val] params IH] using rev_ind; [done|].
  rewrite fold_left_app, IH, filter_app. cbn [fold_left]. 
  destruct (strcaseeq var "use-vad"%string) eqn:E.
  - rewrite (filter_cons_True _ (var, val)) by done. by rewrite last_app.
  - rewrite (filter_cons_False _ (var, val)) by (simpl; by rewrite E). by rewrite app_nil_r.
Qed.
