(* ===== verification/PropsCodec.v ===== *)
(** Theorems on the speech decoder: frame layouts, spectral parameters, excitation, synthesis,
    comfort noise and the safety of the whole decoder. *)

From S2P Require Import Prelude FixedPoint Codebooks Math Utils Context Heap DecodeLSP DecodeExcitation.
From S2P Require Import Synthesis LP2LSP ComfortNoise Decoder.

(** ** The decoder *)

(** C6: the frame decoder is safe: on any well-formed context, any ten bytes of speech, any
    SID payload of the announced size or any erasure, it reads and writes inside its arrays,
    shifts within the word size and returns, leaving a well-formed context; the only
    operation that may fail is a division of the tilt filter or of the root search. *)
Theorem bcg729Decoder_safe c uninit b len er sid rfc n signal soff :
  Dec.wf c → arr u16r 15 uninit → frame_args_ok b len er sid rfc →
  arr i16r n signal → 0 ≤ soff → soff + 80 ≤ n →
  wp only_div (bcg729Decoder c uninit b len er sid rfc signal soff)
    (λ '(c', signal'), Dec.wf c' ∧ arr i16r n signal').
Proof. intros. by eapply wp_bcg729Decoder. Qed.

(** The contexts a channel goes through: created, then any number of frames. *)
Inductive reachable : Dec.ctx → Prop :=
| reachable_init h h' d : initBcg729DecoderChannel h true true = Ok (h', d) → reachable (dec_context d)
| reachable_frame c uninit b len er sid rfc n signal soff c' signal' :
    reachable c → arr u16r 15 uninit → frame_args_ok b len er sid rfc →
    arr i16r n signal → 0 ≤ soff → soff + 80 ≤ n →
    bcg729Decoder c uninit b len er sid rfc signal soff = Ok (c', signal') → reachable c'.

(** C28: every context a decoder channel reaches is well formed: array sizes and element
    ranges, a pitch delay in [19, 144], a bounded pitch gain in [0.2, 0.8], a known predictor. *)
Theorem reachable_wf c : reachable c → Dec.wf c.
Proof.
  induction 1 as [h h' d H|c uninit b len er sid rfc n signal soff c' signal' _ IH Hu Hb Hs H0 Hn Hrun].
  - destruct (initBcg729DecoderChannel_run h) as (c & Hr & Hc). rewrite H in Hr. by injection Hr as -> ->.
  - assert (wp only_div (bcg729Decoder c uninit b len er sid rfc signal soff)
      (λ '(c', signal'), Dec.wf c' ∧ arr i16r n signal')) as W by by eapply wp_bcg729Decoder.
    rewrite Hrun in W. apply W.
Qed.

(** ** Frame layouts *)

(** C16: the 80-bit layout is lossless: unpacking a packed frame gives back its parameters. *)
Theorem unpack_pack p b q : params_ok p → zlen b = 10 → zlen q = 15 →
  (let* bits := parametersArray2BitStream p b in parametersBitStream2Array bits q) = Ok p.
Proof. apply unpack_packed. Qed.

(** C17: every ten bytes are a frame: packing the parameters of a frame gives back its bytes. *)
Theorem pack_unpack b q b' : arr u8r 10 b → arr u16r 15 q → zlen b' = 10 →
  (let* p := parametersBitStream2Array b q in parametersArray2BitStream p b') = Ok b.
Proof.
  intros Hb [Hq Hqr] Hb'. pose proof (params_ok_unpack b q Hb (conj Hq Hqr)) as Hok.
  rewrite unpack_spec in Hok |- * by done. cbn [bind]. unfold wp in Hok. destruct Hok as [_ Hok].
  rewrite pack_spec by auto. destruct Hb as [Hlen HF]. explode b Hlen.
  repeat match goal with H : Forall _ (_ :: _) |- _ => inversion H; clear H; subst end.
  unfold rng in *. f_equal. repeat apply (f_equal2 cons); try done; divmod.
Qed.

(** The SID layout of the encoder is the one the comfort noise decoder reads. *)
Theorem SID_fields_roundtrip p0 p1 p2 p3 :
  0 ≤ p0 < 2 → 0 ≤ p1 < 32 → 0 ≤ p2 < 16 → 0 ≤ p3 < 32 →
  ∃ b0 b1, CNGparametersArray2BitStream [p0; p1; p2; p3] [0; 0] = Ok [b0; b1] ∧
    0 ≤ b0 < 256 ∧ 0 ≤ b1 < 256 ∧ sidFields b0 b1 = (p0, p1, p2, p3).
Proof.
  intros H0 H1 H2 H3.
  exists (p0 * 128 + p1 * 4 + p2 / 4), (p2 mod 4 * 64 + p3 * 2). split.
  - arr_cbv CNGparametersArray2BitStream. f_equal. unfold u8. repeat apply (f_equal2 cons); [..|done]; bits_to_arith.
    + rewrite (lor_low 7 _ (p1 mod 32 * 4)), (lor_low 2) by divmod. divmod.
    + rewrite (lor_low 6) by divmod. divmod.
  - split; [divmod|]. split; [divmod|]. unfold sidFields, u8. bits_to_arith.
    rewrite (lor_low 2) by divmod. repeat apply f_equal2; divmod.
Qed.

(** The parity bit depends on exactly the six most significant bits of the pitch index:
    flipping one of them flips it, flipping one of the two others does not. *)
Theorem computeParity_flip idx k : 0 ≤ idx < 256 → 0 ≤ k < 8 →
  ∃ b, computeParity idx = Ok b ∧ rng 0 1 b ∧
    computeParity (Z.lxor idx (2 ^ k)) = Ok (if k <? 2 then b else 1 - b).
Proof.
  intros Hi Hk.
  exhaust 8%nat 0 256 (λ i, match computeParity i with
    | Ok b => rngb 0 1 b && forallb (λ k, match computeParity (Z.lxor i (2 ^ k)) with
                                         | Ok c => c =? (if k <? 2 then b else 1 - b)
                                         | _ => false end) [0; 1; 2; 3; 4; 5; 6; 7]
    | _ => false end) idx as H.
  destruct (computeParity idx) as [b|]; [|done]. apply andb_true_iff in H as [Hb Hall].
  exists b. split; [done|]. split; [by apply rngb_sound|].
  rewrite forallb_forall in Hall. specialize (Hall k ltac:(simpl; lia)). cbv beta in Hall.
  destruct (computeParity (Z.lxor idx (2 ^ k))) as [c|]; [f_equal; lia|done].
Qed.

(** ** Spectral parameters *)

(** C39: the insertion sort of the spectral frequencies is total: on every array it stays inside
    the array and returns a sorted permutation of it. *)
Theorem insertionSort_sorts x :
  ∃ y, insertionSort x (zlen x) = Ok y ∧ StronglySorted Z.le y ∧ x ≡ₚ y.
Proof. apply insertionSort_ok. Qed.

(** C34: the stabilised spectral frequencies: whatever order the codebooks and the prediction
    gave, the first is at least [qLSF_MIN], the last at most [qLSF_MAX], and two consecutive
    ones are [MIN_qLSF_DISTANCE] apart; the upper limit, applied last, can only bring the
    last one closer to its neighbour. *)
Theorem stabiliseqLSF_stable q : arr (rng (-32768) 29878) 10 q →
  ∃ y, stabiliseqLSF q = Ok y ∧ arr i16r 10 y ∧ qLSF_MIN ≤ y !!! 0%nat ∧ y !!! 9%nat ≤ qLSF_MAX ∧
    (∀ i, (i < 8)%nat → MIN_qLSF_DISTANCE ≤ y !!! S i - y !!! i) ∧
    (y !!! 9%nat < qLSF_MAX → MIN_qLSF_DISTANCE ≤ y !!! 9%nat - y !!! 8%nat).
Proof. apply stabilise_ok. Qed.

(** ** Excitation *)

(** C35: the pitch delay of the specification.  First subframe: in thirds, index + 58, below
    index 197, the integer index - 112 above; second subframe: in thirds from two thirds
    below the window around the first delay; on a parity error or an erasure, the previous
    delay.  In every case the delay stays in [19, 144]. *)
Theorem decodePitchDelay_spec prev p par er T :
  19 ≤ prev ≤ 144 → 19 ≤ T ≤ 144 →
  (0 ≤ p < 256 → ∃ t f, decodePitchDelay prev 0 p 0 0 T = (t, t, f) ∧ 19 ≤ t ≤ 143 ∧ -1 ≤ f ≤ 1 ∧
     (if p <? 197 then 3 * t + f = p + 58 else t = p - 112 ∧ f = 0)) ∧
  (0 ≤ p < 32 → ∃ t f, decodePitchDelay prev 40 p par 0 T = (t, t, f) ∧ 19 ≤ t ≤ 144 ∧ -1 ≤ f ≤ 1 ∧
     3 * t + f = 3 * Z.min 134 (Z.max 20 (T - 5)) + p - 2) ∧
  (Z.lor par er ≠ 0 → decodePitchDelay prev 0 p par er T = (Z.min 143 (prev + 1), prev, 0)) ∧
  (er ≠ 0 → decodePitchDelay prev 40 p par er T = (Z.min 143 (prev + 1), prev, 0)).
Proof.
  intros Hprev HT. split_and!.
  - intros Hp. destruct (Z.ltb_spec p 197).
    + destruct (pitch_first_fine prev p T) as (t & f & -> & ? & ? & ?); [lia|]. exists t, f. split; [done|]. lia.
    + rewrite pitch_first_int by lia. eexists _, _. split; [done|]. lia.
  - intros Hp. destruct (pitch_second prev p T par Hp HT) as (t & f & -> & ? & ? & ?).
    unfold tMin_of in *. exists t, f. split; [done|]. lia.
  - intros Hn. apply pitch_repeat; [done|by left].
  - intros Hn. apply pitch_repeat; [done|by right].
Qed.

(** C36: the fixed codebook vector is built without fault for every received index, and its
    energy, which the gain prediction takes the logarithm of, fits 32 bits: the sum the code
    accumulates is the exact sum of squares. *)
Theorem decodeFixedCodeVector_energy signs positions T g v :
  arr i16r 40 v → 19 ≤ T → BOUNDED_PITCH_GAIN_MIN ≤ g ≤ BOUNDED_PITCH_GAIN_MAX →
  ∃ w, decodeFixedCodeVector signs positions T g v = Ok w ∧ arr i16r 40 w ∧
    sumsq w ≤ MAXINT32 ∧ fixedCodebookEnergy w = Ok (sumsq w).
Proof.
  intros Hv HT Hg. apply safe_ok. apply wp_decodeFixedCodeVector; [done|done|exact Hg|].
  intros w Hw HE. split; [done|]. split; [done|]. by apply fixedCodebookEnergy_exact.
Qed.

(** On an erased frame the gains decay: nonnegative gains stay nonnegative, the adaptive one
    is multiplied by 0.9 and never above it, the fixed one by 0.98. *)
Theorem decodeGains_erased_decay c ga gf : Dec.wf c → 0 ≤ ga ≤ 32767 → 0 ≤ gf ≤ 32767 →
  ∃ c' ga' gf', decodeGains_erased c ga gf = Ok (c', ga', gf') ∧ Dec.wf c' ∧
    ga' = (if ga <? 16384 then ga * 29491 / 32768 else 14746) ∧ 0 ≤ ga' ≤ 14746 ∧ ga' ≤ ga ∧
    gf' = gf * 32113 / 32768 ∧ 0 ≤ gf' ≤ gf.
Proof.
  intros Hc Hga Hgf.
  assert (i16 (MULT16_16_Q15 gf 32113) = gf * 32113 / 32768) as Ef.
  { unfold MULT16_16_Q15, MULT16_16_Q, SHR, MULT16_16. rewrite (i32_id gf), (i32_id 32113), i32_id by (unfold rng; lia).
    rewrite Z.shiftr_div_pow2 by lia. change (2 ^ 15) with 32768. apply i16_id. unfold rng. divmod. }
  assert ((if ga <? 16384 then i16 (MULT16_16_Q15 ga 29491) else 14746) =
          if ga <? 16384 then ga * 29491 / 32768 else 14746) as Ea.
  { destruct (Z.ltb_spec ga 16384); [|done].
    unfold MULT16_16_Q15, MULT16_16_Q, SHR, MULT16_16. rewrite (i32_id ga), (i32_id 29491), i32_id by (unfold rng; lia).
    rewrite Z.shiftr_div_pow2 by lia. change (2 ^ 15) with 32768. apply i16_id. unfold rng. divmod. }
  cut (safe (decodeGains_erased c ga gf) (λ '(c', ga', gf'), Dec.wf c' ∧
    ga' = (if ga <? 16384 then ga * 29491 / 32768 else 14746) ∧ gf' = gf * 32113 / 32768)).
  { intros ([[c' ga'] gf'] & -> & Hc' & -> & ->)%safe_ok. eexists c', _, _. split; [done|]. split; [done|].
    split; [done|]. destruct (Z.ltb_spec ga 16384); divmod. }
  unfold decodeGains_erased. cbv zeta. rewrite Ea, Ef. wp_step.
  apply wp_for_inv with (I := i32r); [solve_inv|intros i e Hi He; wp_go; solve_inv|].
  intros e He. wp_step. apply wp_pushGainPredictionError; [eauto with csafe|]. intros p Hp.
  unfold wp. split; [eauto with csafe|done].
Qed.

(** ** Synthesis *)

(** C37: the decoder's LP synthesis filter and the generic synthesis filter are the same
    function of the excitation, the coefficients and the output memory. *)
Theorem LPSynthesisFilter_equiv e eoff a loff y roff :
  0 ≤ eoff → 0 ≤ loff →
  LPSynthesisFilter e eoff a loff y roff =
  synthesisFilter (take 40 (drop (Z.to_nat eoff) e)) (take 10 (drop (Z.to_nat loff) a)) y roff.
Proof.
  intros He Hl. unfold LPSynthesisFilter, synthesisFilter, L_SUBFRAME, NB_LSP_COEFF.
  apply for_up_ext. intros i z Hi. rewrite <-(ld_view e eoff 40 i) by lia.
  change (Z.to_nat 40) with 40%nat.
  destruct (ld _ i) as [x|]; [|done]. cbn [bind]. f_equal.
  apply for_up_ext. intros j acc Hj. by rewrite <-(ld_view a loff 10 j) by lia.
Qed.

(** The energy of the impulse response, added up as integers. *)
Lemma hfCorrelation0_exact h : arr i16r 22 h → h !!! 0%nat = 4096 → sumsq h ≤ 2147481599 →
  ∃ rh0, hfCorrelation0 h = Ok rh0 ∧ rh0 = sumsq h ∧ 16777216 ≤ rh0.
Proof.
  intros [Hlen HF] H0 Hs. 
  assert (h !! 0%nat = Some 4096) as Hh0.
  { destruct (lookup_lt_is_Some_2 h 0) as [v Hv]; [unfold zlen in *; lia|].
    rewrite (list_lookup_total_correct _ _ _ Hv) in H0. by rewrite Hv, H0. }
  assert (16777216 ≤ sumsq h) as Hmin.
  { pose proof (sumsq_take_S h 0 4096 Hh0) as E. pose proof (sumsq_take_le h 1 (length h) ltac:(unfold zlen in *; lia)) as Hle.
    rewrite (take_ge h (length h)) in Hle by lia. simpl in E. lia. }
  cut (safe (hfCorrelation0 h) (λ r, r = sumsq h)).
  { intros (r & -> & ->)%safe_ok. eauto. }
  unfold hfCorrelation0. wp_step. apply wp_ld; [lia|]. change (Z.to_nat 0) with 0%nat. rewrite Hh0.
  intros v [= <-].
  apply wp_for_up with (I := λ i r, r = sumsq (take (Z.to_nat i) h)); [lia| | |].
  - change (Z.to_nat 1) with 1%nat. rewrite (sumsq_take_S h 0 4096 Hh0). done.
  - intros i r Hi ->. wp_step. apply wp_ld; [lia|]. intros x Hx. unfold wp.
    pose proof (Forall_lookup_1 _ _ _ _ HF Hx) as Hr. unfold rng in Hr.
    replace (Z.to_nat (i + 1)) with (S (Z.to_nat i)) by lia.
    rewrite (sumsq_take_S _ _ _ Hx). pose proof (sumsq_nonneg (take (Z.to_nat i) h)).
    pose proof (sumsq_take_S _ _ _ Hx) as E.
    pose proof (sumsq_take_le h (S (Z.to_nat i)) (length h) ltac:(unfold zlen in *; lia)) as Hle.
    rewrite (take_ge h (length h)) in Hle by lia.
    unfold MAC16_16, ADD32, MULT16_16. rewrite (i32_id x) by (unfold rng; lia).
    rewrite !(i32_id (x * x)), (i32_id (sumsq (take (Z.to_nat i) h))), i32_id by (unfold rng; nia). done.
  - intros r ->. rewrite take_ge; [done|]. unfold zlen in *. lia.
Qed.

(** The one division the post filter may fail on is guarded by the signal, not by the code:
    as long as the energy of the impulse response fits 31 bits the tilt compensation is total. *)
Theorem tiltCompensation_total h lt :
  arr i16r 22 h → h !!! 0%nat = 4096 → sumsq h ≤ 2147481599 → arr i16r 41 lt →
  ∃ t, tiltCompensation h lt = Ok t ∧ arr i16r 40 t.
Proof.
  intros Hh H0 Hs Hlt. destruct (hfCorrelation0_exact h Hh H0 Hs) as (rh0 & E0 & -> & Hmin).
  apply safe_ok. unfold tiltCompensation, L_SUBFRAME.
  assert (arr i16r 40 (zeros 40)) by by apply arr_zeros.
  wp_step. apply wp_hfCorrelation1; [done|]. intros rh1 Hrh1. destruct (rh1 <? 0).
  - eapply wp_copy_block; [done|done|lia..|done].
  - wp_step. rewrite E0. unfold wp at 1. cbv zeta. wp_step.
    assert (4096 ≤ PSHR (sumsq h) 12) as Hp.
    { unfold PSHR, SHR. change (Z.shiftr (Z.shiftl 1 12) 1) with 2048. rewrite i32_id by (unfold rng; lia).
      rewrite Z.shiftr_div_pow2 by lia. apply Z.div_le_lower_bound; lia. }
    apply wp_DIV32; [auto with rng|apply PSHR_rng; lia|lia|]. intros q Hq _.
    apply wp_for_inv with (I := arr i16r 40); [done| |done]. intros i t Hi Ht. wp_go. done.
Qed.

(** ** Comfort noise *)

(** The gaussian excitation of a noise subframe has a positive energy for each of the 65536
    seeds, so that its normalisation never divides by zero, and the energy fits 32 bits. *)
Theorem gaussianExcitation_positive seed : u16r seed →
  ∃ g Eg seed', gaussianExcitation seed = Ok (g, Eg, seed') ∧ arr i16r 40 g ∧ 0 < Eg ≤ MAXINT32 ∧ u16r seed'.
Proof.
  intros Hs. cut (safe (gaussianExcitation seed) (λ '(g, Eg, s), arr i16r 40 g ∧ 0 < Eg ≤ MAXINT32 ∧ u16r s)).
  { intros W. destruct (proj1 (safe_ok _ _) W) as ([[g Eg] s] & E & Hg & HE & Hs').
    exists g, Eg, s. exact (conj E (conj Hg (conj HE Hs'))). }
  apply wp_gaussianExcitation; [done|]. intros g Eg s ? ? ?. unfold MAXINT32. split; [done|]. split; [lia|done].
Qed.

(** C40: the comfort noise generator is total: for every gain, seed and past excitation it returns
    an excitation of the same size, whatever the sign of the discriminant of the gain equation. *)
Theorem computeComfortNoise_total gain seed e : arr i16r 234 e →
  ∃ e' seed', computeComfortNoiseExcitationVector gain seed e L_PAST_EXCITATION = Ok (e', seed') ∧
    arr i16r 234 e' ∧ u16r seed'.
Proof.
  intros He. cut (safe (computeComfortNoiseExcitationVector gain seed e L_PAST_EXCITATION)
    (λ '(e', s), arr i16r 234 e' ∧ u16r s)).
  { intros W. destruct (proj1 (safe_ok _ _) W) as ([e' s] & E & He' & Hs').
    exists e', s. exact (conj E (conj He' Hs')). }
  by apply wp_computeComfortNoise.
Qed.

(** The reflection coefficients of an RFC 3389 payload: adding 127 where the RFC subtracts it
    is harmless by wrap-around for the indices 1 to 254 (the result is four units off
    258 (N - 127)), and turns the index 0 from about -1 to about +1. *)
Theorem rfc3389_reflection N : 0 ≤ N ≤ 254 →
  reflectionCoefficients [0; N] 2 =
  Ok (i16 (258 * (N - 127) - 4) :: replicate 9 0) ∧
  (1 ≤ N → i16 (258 * (N - 127) - 4) = 258 * (N - 127) - 4) ∧
  reflectionCoefficients [0; 0] 2 = Ok (32766 :: replicate 9 0).
Proof.
  intros HN. split; [|split; [|reflexivity]].
  - exhaust 8%nat 0 255 (λ N, match reflectionCoefficients [0; N] 2 with
      | Ok l => bool_decide (l = i16 (258 * (N - 127) - 4) :: replicate 9 0)
      | _ => false end || (254 <? N)) N as H.
    destruct (reflectionCoefficients [0; N] 2) as [l|]; [|lia].
    apply orb_true_iff in H as [H|H]; [|lia]. apply bool_decide_eq_true in H. by subst l.
  - intros H1. apply i16_id. unfold rng. lia.
Qed.

(** The noise level of an RFC 3389 payload is lost when it is loud: the logarithm overflows 16
    bits, and every level byte from 0 to 41 gives the smallest gain of the codebook, while the
    byte 42, a softer noise, gives a gain 700 times larger. *)
Theorem rfc3389_loud_noise_lost level : 0 ≤ level ≤ 41 →
  rfc3389Gain level = Ok 2 ∧ ld SIDGainCodebook 0 = Ok 2 ∧ rfc3389Gain 42 = Ok 1448.
Proof.
  intros Hl. exhaust 6%nat 0 42 (λ l, (41 <? l) || match rfc3389Gain l with Ok g => g =? 2 | _ => false end) level as H.
  split; [|split; reflexivity]. destruct (rfc3389Gain level) as [g|]; [f_equal; lia|lia].
Qed.

(** ** Evaluations *)

(** A new channel decodes a frame of ten bytes to 80 samples. *)
Definition firstFrame (bits : list Z) : res (list Z) :=
  let* (_, d) := initBcg729DecoderChannel (Heap 0 []) true true in
  let* (_, signal) := bcg729Decoder (dec_context d) (zeros 15) (Some bits) 10 0 0 0 (zeros 80) 0 in
  Ok signal.

Lemma firstFrame_runs :
  match firstFrame [120; 82; 145; 33; 7; 18; 250; 90; 12; 77] with
  | Ok s => (length s =? 80)%nat && existsb (λ v, negb (v =? 0)) s
  | Err _ => false
  end = true.
Proof. vm_compute. reflexivity. Qed.

Lemma bcg729Decoder_safe_witness : ∃ c, Dec.wf c ∧
  wp only_div (bcg729Decoder c (zeros 15) (Some (replicate 10 171)) 10 0 0 0 (zeros 160) 80)
    (λ '(c', signal'), Dec.wf c' ∧ arr i16r 160 signal').
Proof.
  destruct (initBcg729DecoderChannel_run (Heap 0 [])) as (c & _ & Hc). exists c. split; [exact Hc|].
  apply (bcg729Decoder_safe c (zeros 15) (Some (replicate 10 171)) 10 0 0 0 160 (zeros 160) 80);
    [exact Hc|by apply arr_zeros| |by apply arr_zeros|lia|lia].
  left. split; [reflexivity|]. split; [|done]. split; [reflexivity|]. apply Forall_replicate. unfold rng. lia.
Defined.

Lemma reachable_wf_witness :
  ∃ c h', initBcg729DecoderChannel (Heap 3 []) true true = Ok (h', DecoderChannel 3 (Some 4) c) ∧ Dec.wf c.
Proof.
  destruct (initBcg729DecoderChannel_run (Heap 3 [])) as (c & Hrun & _).
  exists c. eexists. split; [exact Hrun|]. exact (reachable_wf _ (reachable_init _ _ _ Hrun)).
Defined.

Definition someParameters : list Z := [1; 100; 17; 30; 201; 1; 8000; 9; 5; 13; 21; 4097; 3; 6; 11].

Lemma someParameters_ok : params_ok someParameters.
Proof. unfold params_ok, field_widths, someParameters. repeat constructor; vm_compute; intuition discriminate. Qed.

Lemma unpack_pack_witness :
  (let* bits := parametersArray2BitStream someParameters (zeros 10) in parametersBitStream2Array bits (zeros 15)) =
  Ok someParameters.
Proof. apply (unpack_pack someParameters (zeros 10) (zeros 15)); [exact someParameters_ok|reflexivity|reflexivity]. Defined.

Lemma pack_unpack_witness :
  (let* p := parametersBitStream2Array (replicate 10 201) (zeros 15) in parametersArray2BitStream p (zeros 10)) =
  Ok (replicate 10 201).
Proof.
  apply (pack_unpack (replicate 10 201) (zeros 15) (zeros 10)); [|by apply arr_zeros|reflexivity].
  split; [reflexivity|]. apply Forall_replicate. unfold rng. lia.
Defined.

Lemma SID_fields_roundtrip_witness :
  ∃ b0 b1, CNGparametersArray2BitStream [1; 29; 13; 17] [0; 0] = Ok [b0; b1] ∧
    0 ≤ b0 < 256 ∧ 0 ≤ b1 < 256 ∧ sidFields b0 b1 = (1, 29, 13, 17).
Proof. apply (SID_fields_roundtrip 1 29 13 17); lia. Defined.

Lemma computeParity_flip_witness :
  ∃ b, computeParity 173 = Ok b ∧ rng 0 1 b ∧ computeParity (Z.lxor 173 (2 ^ 5)) = Ok (if 5 <? 2 then b else 1 - b).
Proof. apply (computeParity_flip 173 5); lia. Defined.

Lemma stabiliseqLSF_stable_witness :
  ∃ y, stabiliseqLSF [5; 4000; 3990; 7000; 9000; 12000; 15000; 15100; 25600; 26000] = Ok y ∧ arr i16r 10 y ∧
    qLSF_MIN ≤ y !!! 0%nat ∧ y !!! 9%nat ≤ qLSF_MAX ∧
    (∀ i, (i < 8)%nat → MIN_qLSF_DISTANCE ≤ y !!! S i - y !!! i) ∧
    (y !!! 9%nat < qLSF_MAX → MIN_qLSF_DISTANCE ≤ y !!! 9%nat - y !!! 8%nat).
Proof.
  apply (stabiliseqLSF_stable [5; 4000; 3990; 7000; 9000; 12000; 15000; 15100; 25600; 26000]).
  apply arr_rng_by. reflexivity.
Defined.

Lemma decodePitchDelay_spec_witness :
  ∃ t f, decodePitchDelay 60 0 100 0 0 60 = (t, t, f) ∧ 19 ≤ t ≤ 143 ∧ -1 ≤ f ≤ 1 ∧
    (if 100 <? 197 then 3 * t + f = 100 + 58 else t = 100 - 112 ∧ f = 0).
Proof. apply (decodePitchDelay_spec 60 100 0 0 60); lia. Defined.

Lemma decodeFixedCodeVector_energy_witness :
  ∃ w, decodeFixedCodeVector 11 5000 25 9000 (zeros 40) = Ok w ∧ arr i16r 40 w ∧
    sumsq w ≤ MAXINT32 ∧ fixedCodebookEnergy w = Ok (sumsq w).
Proof.
  apply (decodeFixedCodeVector_energy 11 5000 25 9000 (zeros 40)); [by apply arr_zeros|lia|].
  unfold BOUNDED_PITCH_GAIN_MIN, BOUNDED_PITCH_GAIN_MAX. lia.
Defined.

Lemma decodeGains_erased_decay_witness : ∃ c, Dec.wf c ∧
  ∃ c' ga' gf', decodeGains_erased c 10000 500 = Ok (c', ga', gf') ∧ Dec.wf c' ∧
    ga' = (if 10000 <? 16384 then 10000 * 29491 / 32768 else 14746) ∧ 0 ≤ ga' ≤ 14746 ∧ ga' ≤ 10000 ∧
    gf' = 500 * 32113 / 32768 ∧ 0 ≤ gf' ≤ 500.
Proof.
  destruct (initBcg729DecoderChannel_run (Heap 0 [])) as (c & _ & Hc). exists c. split; [exact Hc|].
  apply (decodeGains_erased_decay c 10000 500); [exact Hc|lia|lia].
Defined.

Lemma LPSynthesisFilter_equiv_witness :
  LPSynthesisFilter (replicate 90 1000) 30 (replicate 20 (-300)) 10 (zeros 50) 10 =
  synthesisFilter (replicate 40 1000) (replicate 10 (-300)) (zeros 50) 10.
Proof. apply (LPSynthesisFilter_equiv (replicate 90 1000) 30 (replicate 20 (-300)) 10 (zeros 50) 10); lia. Defined.

Lemma tiltCompensation_total_witness :
  ∃ t, tiltCompensation (4096 :: replicate 21 900) (zeros 41) = Ok t ∧ arr i16r 40 t.
Proof.
  apply (tiltCompensation_total (4096 :: replicate 21 900) (zeros 41));
    [by apply arr_rng_by|reflexivity|vm_compute; discriminate|by apply arr_zeros].
Defined.

Lemma gaussianExcitation_positive_witness :
  ∃ g Eg seed', gaussianExcitation 11111 = Ok (g, Eg, seed') ∧ arr i16r 40 g ∧ 0 < Eg ≤ MAXINT32 ∧ u16r seed'.
Proof. apply (gaussianExcitation_positive 11111). unfold rng. lia. Defined.

Lemma computeComfortNoise_total_witness :
  ∃ e' seed', computeComfortNoiseExcitationVector 700 11111 (zeros 234) L_PAST_EXCITATION = Ok (e', seed') ∧
    arr i16r 234 e' ∧ u16r seed'.
Proof. apply (computeComfortNoise_total 700 11111 (zeros 234)). by apply arr_zeros. Defined.

Lemma rfc3389_reflection_witness :
  reflectionCoefficients [0; 200] 2 = Ok (i16 (258 * (200 - 127) - 4) :: replicate 9 0).
Proof. apply (rfc3389_reflection 200). lia. Defined.

Lemma rfc3389_loud_noise_lost_witness : rfc3389Gain 20 = Ok 2.
Proof. apply (rfc3389_loud_noise_lost 20). lia. Defined.
