(* ===== verification/PropsMath.v ===== *)
(** Theorems on the fixed-point arithmetic and mathematical functions, and on the
    pseudo-random generator. *)

From S2P Require Import Prelude FixedPoint Math Utils ComfortNoise.

(** The 16 by 32 bits product is exact: computed in two 32-bit halves, it is the floor of
    the product scaled by [2^n] whenever that value leaves room for the halves. *)
Theorem MULT16_32_Q_exact n a b :
  1 ≤ n ≤ 15 → i16r a → i32r b → Z.abs (a * (b / 2 ^ n)) ≤ 1073741824 →
  MULT16_32_Q n a b = a * b / 2 ^ n.
Proof. apply MULT16_32_Q_floor. Qed.

Lemma MULT16_32_Q_exact_witness : MULT16_32_Q 15 (-24660) 1048577 = -789121.
Proof. rewrite (MULT16_32_Q_exact 15) by (unfold rng; lia || (vm_compute; intros; discriminate)). reflexivity. Defined.

(** The leading zeros loop ends on every positive integer and counts the zeros between
    the sign bit and the most significant bit. *)
Theorem countLeadingZeros_exact x : 0 < x < 2147483648 →
  ∃ n, countLeadingZeros x = Ok n ∧ 0 ≤ n ≤ 30 ∧ 1073741824 ≤ x * 2 ^ n < 2147483648.
Proof.
  intros Hx. rewrite countLeadingZeros_pos by done. pose proof (log2_le_30 x Hx) as HL.
  exists (30 - Z.log2 x). split; [done|]. split; [lia|].
  pose proof (Z.log2_spec x ltac:(lia)) as [H1 H2]. set (L := Z.log2 x) in *.
  assert (2 ^ L * 2 ^ (30 - L) = 1073741824) as E1 by (rewrite <-Z.pow_add_r by lia; by replace (L + (30 - L)) with 30 by lia).
  assert (2 ^ Z.succ L * 2 ^ (30 - L) = 2147483648) as E2
    by (rewrite <-Z.pow_add_r by lia; by replace (Z.succ L + (30 - L)) with 31 by lia).
  assert (0 < 2 ^ (30 - L)) by (apply Z.pow_pos_nonneg; lia). nia.
Qed.

Lemma countLeadingZeros_exact_witness :
  ∃ n, countLeadingZeros 5 = Ok n ∧ 0 ≤ n ≤ 30 ∧ 1073741824 ≤ 5 * 2 ^ n < 2147483648.
Proof. apply (countLeadingZeros_exact 5). lia. Defined.

(** The logarithm is monotone on all positive 32-bit integers: the polynomial pieces
    join in order at the powers of two. *)
Theorem g729Log2_monotone x y : 0 < x ≤ y → y < 2147483648 →
  ∃ a b, g729Log2_Q0Q16 x = Ok a ∧ g729Log2_Q0Q16 y = Ok b ∧ a ≤ b.
Proof.
  intros Hxy Hy. rewrite !g729Log2_value by lia. eexists _, _. split; [done|]. split; [done|].
  pose proof (mantissa_bounds x ltac:(lia)) as Hmx. pose proof (mantissa_bounds y ltac:(lia)) as Hmy.
  pose proof (log2Polynomial_bounds _ Hmx). pose proof (log2Polynomial_bounds _ Hmy).
  pose proof (Z.log2_le_mono x y ltac:(lia)) as HL.
  destruct (Z.eq_dec (Z.log2 x) (Z.log2 y)) as [E|]; [|lia].
  assert (mantissa x ≤ mantissa y).
  { unfold mantissa. rewrite E. apply Z.div_le_mono; [|lia]. apply Z.pow_pos_nonneg; [lia|apply Z.log2_nonneg]. }
  pose proof (log2Polynomial_mono (mantissa x) (mantissa y)). lia.
Qed.

Lemma g729Log2_monotone_witness :
  ∃ a b, g729Log2_Q0Q16 1023 = Ok a ∧ g729Log2_Q0Q16 1024 = Ok b ∧ a ≤ b.
Proof. apply (g729Log2_monotone 1023 1024); lia. Defined.

(** The square root of an integer of at least 4096 is within 0.2 percent: its square is
    within one part in 256 of the argument, in Q14. *)
Theorem g729Sqrt_accurate x : 4096 ≤ x < 4294967296 →
  ∃ v, g729Sqrt_Q0Q7 x = Ok v ∧ 255 * (x * 16384) ≤ 256 * (v * v) ∧ 256 * (v * v) ≤ 257 * (x * 16384).
Proof.
  intros Hx. destruct (g729Sqrt_value x ltac:(lia)) as (k & y & Hk & Hy & Ey & ->).
  pose proof (sqrtPolynomial_bounds y Hy) as (Hr & Hlo & Hhi).
  eexists. split; [done|].
  assert (0 ≤ k) as Hk0.
  { destruct (Z.ltb_spec 0 k); [lia|]. destruct (Z.eq_dec k 0); [lia|].
    assert (4 ≤ 2 ^ (- (2 * k))) by (change 4 with (2 ^ 2); apply Z.pow_le_mono_r; lia). nia. }
  destruct (Z.ltb_spec k 0); [lia|]. set (P := sqrtPolynomial y) in *. clearbody P.
  destruct (Z.ltb_spec 0 k).
  - assert (2 ^ (2 * k) = 2 ^ k * 2 ^ k) as E by (rewrite <-Z.pow_add_r by lia; f_equal; lia).
    assert (0 < 2 ^ k) by (apply Z.pow_pos_nonneg; lia). rewrite E in Ey. set (s := 2 ^ k) in *. clearbody s.
    assert (y * (s * s) ≤ x < (y + 1) * (s * s)) as [Hy1 Hy2].
    { subst y. pose proof (Z.mul_div_le x (s * s) ltac:(nia)).
      pose proof (Z.mul_succ_div_gt x (s * s) ltac:(nia)). nia. }
    replace (P * s * (P * s)) with (P * P * (s * s)) by ring. set (q := s * s) in *.
    assert (0 < q) by (unfold q; nia). clearbody q. split; nia.
  - replace k with 0 in * by lia. simpl in Ey. rewrite Z.mul_1_r in *. split; nia.
Qed.

Lemma g729Sqrt_accurate_witness :
  ∃ v, g729Sqrt_Q0Q7 1000000 = Ok v ∧ 255 * (1000000 * 16384) ≤ 256 * (v * v) ∧ 256 * (v * v) ≤ 257 * (1000000 * 16384).
Proof. apply (g729Sqrt_accurate 1000000). lia. Defined.

(** The cosine is non-increasing on [0, pi]: converting ordered spectral frequencies gives
    ordered spectral pairs. *)
Theorem g729Cos_antitone x y : 0 ≤ x ≤ y → y ≤ 25735 → g729Cos_Q13Q15 y ≤ g729Cos_Q13Q15 x.
Proof.
  intros [Hx Hxy]. pattern y. apply Z.right_induction with (z := x); [solve_proper|lia| |done].
  intros n Hn IH Hlt. specialize (IH ltac:(lia)).
  exhaust 15%nat 0 32768 (λ a, (25735 <=? a) || (g729Cos_Q13Q15 (a + 1) <=? g729Cos_Q13Q15 a)) n as Hb.
  rewrite <-Z.add_1_r. lia.
Qed.

Lemma g729Cos_antitone_witness : g729Cos_Q13Q15 12000 ≤ g729Cos_Q13Q15 11999.
Proof. apply (g729Cos_antitone 11999 12000); lia. Defined.

(** The pseudo-random generator is a permutation of the 16-bit seeds: distinct seeds never
    merge, so the sequence of a channel is purely periodic. *)
Theorem pseudoRandom_bijective :
  (∀ s t, u16r s → u16r t → pseudoRandom s = pseudoRandom t → s = t) ∧
  (∀ t, u16r t → ∃ s, u16r s ∧ pseudoRandom s = t).
Proof.
  assert (∀ s, u16r s → (pseudoRandom s - 13849) * 7301 mod 65536 = s) as Hinv.
  { intros s Hs. rewrite pseudoRandom_affine by done. unfold rng in Hs.
    rewrite <-Z.mul_mod_idemp_l, Zminus_mod_idemp_l, Z.mul_mod_idemp_l by done.
    replace ((31821 * s + 13849 - 13849) * 7301) with (s + (3545 * s + 0) * 65536 + s * (31821 * 7301 - 1 - 3545 * 65536)) by ring.
    replace (31821 * 7301 - 1 - 3545 * 65536) with 0 by lia. rewrite Z.mul_0_r, Z.add_0_r, Z.mod_add by done.
    apply Z.mod_small. lia. }
  split.
  - intros s t Hs Ht E. rewrite <-(Hinv s Hs), <-(Hinv t Ht). by rewrite E.
  - intros t Ht. exists ((t - 13849) * 7301 mod 65536). split; [apply u16_rng|].
    rewrite pseudoRandom_affine by apply u16_rng. unfold rng in Ht.
    rewrite <-Z.add_mod_idemp_l, Z.mul_mod_idemp_r, Z.add_mod_idemp_l by done.
    replace (31821 * ((t - 13849) * 7301) + 13849) with (t + (3545 * (t - 13849)) * 65536 + (t - 13849) * (31821 * 7301 - 1 - 3545 * 65536)) by ring.
    replace (31821 * 7301 - 1 - 3545 * 65536) with 0 by lia. rewrite Z.mul_0_r, Z.add_0_r, Z.mod_add by done.
    apply Z.mod_small. lia.
Qed.

(** ** Termination of the leading zero counter *)

(** The loop of [countLeadingZeros], with a chosen fuel. *)
Definition clzLoop (fuel : nat) : Z * Z → res (Z * Z) :=
  while fuel (λ '(x, _), Ok (x <? 1073741824))
    (λ '(x, leadingZeros), Ok (i32 (Z.shiftl x 1), u16 (leadingZeros + 1))).

Lemma clzLoop_step fuel y n : clzLoop (S fuel) (y, n) =
  if y <? 1073741824 then clzLoop fuel (i32 (2 * y), u16 (n + 1)) else Ok (y, n).
Proof. unfold clzLoop. cbn [while bind]. rewrite Z.shiftl_mul_pow2, Z.mul_comm by lia. done. Qed.

Lemma clzLoop_more m k s r : clzLoop m s = Ok r → clzLoop (m + k) s = Ok r.
Proof.
  revert s. induction m as [|m IH]; intros [y n]; [done|]. rewrite Nat.add_succ_l, !clzLoop_step.
  destruct (y <? 1073741824); [apply IH|done].
Qed.

Lemma i32_mod_pow2 a k : 0 ≤ k ≤ 32 → a mod 2 ^ k = 0 → i32 a mod 2 ^ k = 0.
Proof.
  intros Hk Ha. assert (i32 a mod 4294967296 = a mod 4294967296) as E.
  { unfold i32. destruct (_ && _); [done|]. Z.div_mod_to_equations. lia. }
  assert (2 ^ 32 = 2 ^ k * 2 ^ (32 - k)) as E2 by (rewrite <-Z.pow_add_r by lia; f_equal; lia).
  assert (0 < 2 ^ k ∧ 0 < 2 ^ (32 - k)) as [P1 P2] by (split; apply Z.pow_pos_nonneg; lia).
  change 4294967296 with (2 ^ 32) in E. rewrite E2 in E.
  assert (∀ b, b mod 2 ^ k = b mod (2 ^ k * 2 ^ (32 - k)) mod 2 ^ k) as Hm.
  { intros b. rewrite Z.rem_mul_r by lia. rewrite (Z.mul_comm (2 ^ k)), Z.mod_add by lia. by rewrite Z.mod_mod by lia. }
  by rewrite Hm, E, <-Hm.
Qed.

(** A value whose low [32 - k] bits are zero leaves the loop within [k + 1] tests, or never. *)
Lemma clzLoop_settles k y n : (k ≤ 32)%nat → i32r y → y mod 2 ^ (32 - Z.of_nat k) = 0 →
  (∀ fuel, clzLoop fuel (y, n) = Err NoReturn) ∨ ∃ r, clzLoop (S k) (y, n) = Ok r.
Proof.
  revert y n. induction k as [|k IH]; intros y n Hk Hy Hm.
  - left. assert (y = 0) as ->.
    { change (2 ^ (32 - Z.of_nat 0)) with 4294967296 in Hm. unfold rng in Hy. Z.div_mod_to_equations. lia. }
    clear. intros fuel. revert n. induction fuel as [|fuel IH]; intros n; [done|]. rewrite clzLoop_step. apply IH.
  - destruct (Z.ltb_spec y 1073741824) as [Hlt|Hge].
    2:{ right. exists (y, n). rewrite clzLoop_step. by destruct (Z.ltb_spec y 1073741824); [lia|]. }
    destruct (IH (i32 (2 * y)) (u16 (n + 1))) as [HN|[r Hr]]; [lia|apply i32_rng| | |].
    + apply i32_mod_pow2; [lia|]. replace (32 - Z.of_nat k) with (Z.succ (32 - Z.of_nat (S k))) by lia.
      rewrite Z.pow_succ_r by lia. rewrite Z.mul_mod_distr_l by lia. by rewrite Hm.
    + left. intros [|fuel]; [done|]. rewrite clzLoop_step. by destruct (Z.ltb_spec y 1073741824); [|lia].
    + right. exists r. rewrite clzLoop_step. by destruct (Z.ltb_spec y 1073741824); [|lia].
Qed.

(** C30: the leading zero counter ends on every argument the documentation allows, and the bound
    of 64 tests that the model puts on its loop is exact: when the model reports that the call
    does not return, the loop of the code runs for ever, whatever the number of iterations. *)
Theorem countLeadingZeros_ends x : i32r x →
  (0 ≤ x → ∃ n, countLeadingZeros x = Ok n ∧ 0 ≤ n ≤ 31) ∧
  ((∃ n, countLeadingZeros x = Ok n) ∨
   countLeadingZeros x = Err NoReturn ∧ x < 0 ∧ ∀ fuel, clzLoop fuel (x, 0) = Err NoReturn).
Proof.
  intros Hx. assert (0 ≤ x → ∃ n, countLeadingZeros x = Ok n ∧ 0 ≤ n ≤ 31) as Hpos.
  { intros H. destruct (Z.eq_dec x 0) as [->|]; [by exists 31|]. unfold rng in Hx. rewrite countLeadingZeros_pos by lia.
    eexists. split; [done|]. pose proof (Z.log2_nonneg x). pose proof (Z.log2_lt_pow2 x 31 ltac:(lia)). lia. }
  split; [done|]. destruct (Z.lt_ge_cases x 0) as [Hneg|Hge].
  2:{ destruct (Hpos ltac:(lia)) as (n & -> & _). left. by exists n. }
  unfold countLeadingZeros. destruct (Z.eqb_spec x 0); [lia|]. fold (clzLoop 64).
  destruct (clzLoop_settles 32 x 0) as [HN|[[y lz] Hr]]; [done|done|apply Z.mod_1_r| |].
  - right. by rewrite HN.
  - left. pose proof (clzLoop_more 33 31 _ _ Hr) as E. change (33 + 31)%nat with 64%nat in E. rewrite E. by exists lz.
Qed.

Lemma countLeadingZeros_ends_witness :
  (0 ≤ -2147483648 → ∃ n, countLeadingZeros (-2147483648) = Ok n ∧ 0 ≤ n ≤ 31) ∧
  ((∃ n, countLeadingZeros (-2147483648) = Ok n) ∨
   countLeadingZeros (-2147483648) = Err NoReturn ∧ -2147483648 < 0 ∧ ∀ fuel, clzLoop fuel (-2147483648, 0) = Err NoReturn).
Proof. apply (countLeadingZeros_ends (-2147483648)). unfold rng. lia. Defined.
