(* ===== verification/PropsEncoder.v ===== *)
(** Properties of the analysis stages of the encoder: open loop pitch, adaptative codebook
    gain, gain quantization, linear prediction analysis, spectral quantization, fixed codebook
    search and the input filter. *)

From S2P Require Import Prelude FixedPoint Sums Codebooks Math Utils Context DecodeExcitation.
From S2P Require Import DecodeLSP Synthesis Decoder EncContext EncChannel EncPitch EncGain EncLP EncAdaptative EncLSP EncFixed EncPhi EncNearest EncVad EncDtx Encoder EncSync.

(** ** Open loop pitch *)

(** C19: the open loop pitch search is total and its delay is in the documented range
    [20, 143], for every weighted signal: no access leaves the 223 samples, no division by
    zero occurs, and each of the three ranges always has a maximum although the search starts
    from the most negative correlation. *)
Theorem findOpenLoopPitchDelay_range n s off :
  arr i16r n s → 143 ≤ off → off + 80 ≤ n →
  ∃ d, findOpenLoopPitchDelay s off = Ok d ∧ 20 ≤ d ≤ 143.
Proof.
  intros Hs H0 H1. apply safe_ok. by apply (wp_findOpenLoopPitchDelay _ n).
Qed.

(** A frame of period 20: 40 samples at the even positions of [-20, 58]. *)
Definition pulseTrain (v1 v2 : Z) : list Z :=
  (λ k, let i := Z.of_nat k - 143 in
    if (-20 <=? i) && (i <=? 58) && Z.even i then (if i <? 20 then v1 else v2) else 0) <$> seq 0 223.

Lemma findOpenLoopPitchDelay_range_witness :
  ∃ d, findOpenLoopPitchDelay (pulseTrain (-29309) (-29305)) 143 = Ok d ∧ 20 ≤ d ≤ 143.
Proof.
  apply (findOpenLoopPitchDelay_range 223); [by apply arr_rng_by|lia|lia].
Defined.

(** The scaling meant to avoid overflows does not: shifting rounds negative samples away
    from zero, so that the energy of the scaled signal can still exceed 32 bits. The energy of
    this signal at delay 20 wraps to a negative number and the search returns 40, while the
    same signal with slightly smaller samples gives 20. *)
Theorem openLoop_scaling_overflows :
  (let* (s, off) := scaleWeightedSignal (pulseTrain (-29309) (-29305)) 143 in
   getCorrelation s (off - 20) 0) = Ok (-2147277036) ∧
  findOpenLoopPitchDelay (pulseTrain (-29309) (-29305)) 143 = Ok 40 ∧
  findOpenLoopPitchDelay (pulseTrain (-29304) (-29304)) 143 = Ok 20.
Proof.
  split; [|split]; vm_compute; reflexivity.
Qed.

(** When the delay below the even maximum is better it is retained, and the delay above is
    not tried: the second test is then made at the even delay itself. *)
Lemma refineRange3_skips_upper n s off e :
  arr i16r n s → 143 ≤ off → off + 80 ≤ n → 80 < e ≤ 142 →
  i32 (correlation s off e) < i32 (correlation s off (e - 1)) →
  refineRange3 s off e (i32 (correlation s off e)) = Ok (e - 1, i32 (correlation s off (e - 1))).
Proof.
  intros Hs H0 H1 He Hlt. unfold refineRange3. cbv zeta. destruct (Z.ltb_spec 80 e); [|lia].
  rewrite (u16_id (e - 1)) by (unfold rng; lia).
  rewrite (getCorrelation_run n) by (done || lia). cbn [bind].
  destruct (Z.ltb_spec (i32 (correlation s off e)) (i32 (correlation s off (e - 1)))); [|lia].
  rewrite Z.sub_add, u16_id by (unfold rng; lia).
  rewrite (getCorrelation_run n) by (done || lia). cbn [bind].
  destruct (Z.ltb_spec (i32 (correlation s off (e - 1))) (i32 (correlation s off e))); [lia|done].
Qed.

(** ** Closed loop pitch *)

(** C20: encoder and decoder excitations stay in step. Either the closed loop search retains a
    delay of its window and a fraction of one third: then a decoder whose excitation is the same
    before the subframe recovers that delay from the transmitted codeword, in both subframes, and
    builds the same adaptative codebook vector, although the encoder builds it in place over the
    LP residual and tries three fractions, and the search window handed to the second subframe
    is the one the decoder uses. Or every sum of the window is the most negative 32-bit number,
    the value the search starts from: then no delay is retained, and if the caller's delay is
    uninitialised, as it is in the encoder, the search uses it unset. *)
Theorem adaptativeCodebookSearch_in_step n exc off lo hi h target T0 sub T1 c :
  arr i16r n exc → 154 ≤ off → off + 40 ≤ n → 20 ≤ lo → lo ≤ hi → hi ≤ 143 →
  arr i16r 40 h → arr i16r 40 target →
  sub = 0 ∨ (sub = 40 ∧ 20 ≤ T1 ≤ 143 ∧ lo = tMin_of T1 ∧ hi = tMin_of T1 + 9) →
  agreeTo n off n 0 exc (Dec.excitationVector c) →
  (∃ exc' lo' hi' T f codeword,
    adaptativeCodebookSearch exc off lo hi h target T0 sub = Ok (exc', lo', hi', T, f, codeword) ∧
    lo ≤ T ≤ hi ∧ -1 ≤ f ≤ 1 ∧ (sub = 0 → lo' = tMin_of T ∧ hi' = tMin_of T + 9) ∧
    ∃ c', decodeAdaptativeCodeVector c sub codeword 0 0 T1 off = Ok (c', T) ∧
      ∀ j, 0 ≤ j < off + 40 → at_ (Dec.excitationVector c') j = at_ exc' j) ∨
  (nothing_found exc off lo hi h target ∧
   (T0 = None → adaptativeCodebookSearch exc off lo hi h target T0 sub = Err Uninit)).
Proof.
  intros He Hoff Hn Hlo Hle Hhi Hh Ht Hsub Hag.
  destruct (adaptativeCodebookSearch_cases n exc off lo hi h target T0 sub He Hoff Hn Hlo Hle Hhi Hh Ht) as [Hs|Hs]; [left|by right].
  destruct (proj1 (safe_ok _ _) Hs) as (r & E & exc' & T & f & HT & Hf & H85 & Ev & ->).
  do 6 eexists. split; [exact E|]. split; [done|]. split; [done|]. split; [by intros ->|].
  assert (decodePitchDelay (Dec.previousIntPitchDelay c) sub (pitchDelayCodeword sub lo T f) 0 0 T1 = (T, T, f)) as ED.
  { destruct Hsub as [->|(-> & HT1 & -> & ->)]; [apply codeword_first; [lia|done|auto]|by apply codeword_second]. }
  unfold decodeAdaptativeCodeVector. rewrite ED. cbn [Dec.excitationVector Dec.set_previousIntPitchDelay].
  destruct (compute_agreeTo n off f T Hoff Hn Hf ltac:(lia) n exc (Dec.excitationVector c) Hag)
    as (t & t' & Et & Et' & (_ & _ & Heq) & _).
  rewrite Ev in Et. injection Et as <-. rewrite Et'. cbn [bind]. eexists. split; [reflexivity|].
  intros j Hj. cbn [Dec.excitationVector Dec.set_excitationVector]. symmetry. apply Heq; lia.
Qed.

(** A past excitation to search in. *)
Definition sawtooth : list Z := (λ k, (Z.of_nat k * 37) mod 211 - 100) <$> seq 0 234.

Lemma adaptativeCodebookSearch_in_step_witness :
  ∃ exc' lo' hi' T f codeword,
    adaptativeCodebookSearch sawtooth 154 57 63 (4096 :: replicate 39 0) (take 40 (drop 100 sawtooth)) None 0 =
      Ok (exc', lo', hi', T, f, codeword) ∧
    57 ≤ T ≤ 63 ∧ -1 ≤ f ≤ 1 ∧ (0 = 0 → lo' = tMin_of T ∧ hi' = tMin_of T + 9) ∧
    ∃ c', decodeAdaptativeCodeVector (Dec.set_excitationVector sawtooth zeroDecoderContext) 0 codeword 0 0 60 154 = Ok (c', T) ∧
      ∀ j, 0 ≤ j < 154 + 40 → at_ (Dec.excitationVector c') j = at_ exc' j.
Proof.
  destruct (adaptativeCodebookSearch_in_step 234 sawtooth 154 57 63 (4096 :: replicate 39 0) (take 40 (drop 100 sawtooth)) None 0 60
    (Dec.set_excitationVector sawtooth zeroDecoderContext)) as [H|[(b & Eb & Hall) _]];
    [by apply arr_rng_by|lia|lia|lia|lia|lia|by apply arr_rng_by|by apply arr_rng_by|by left| |exact H|].
  - split; [by apply arr_rng_by|]. split; [by apply arr_rng_by|]. done.
  - vm_compute in Eb. injection Eb as <-. specialize (Hall 60 ltac:(lia)). vm_compute in Hall. discriminate Hall.
Defined.

(** The second case happens: with a steady excitation and this target each of the 40 terms is
    near -2^31 / 40 and their sum is exactly -2^31 for every delay of the window, so that the
    search uses a delay that nothing has set. *)
Theorem adaptativeCodebookSearch_unset :
  adaptativeCodebookSearch (replicate 234 4096) 154 57 63 (4096 :: replicate 39 0) (-13115 :: replicate 39 (-13107)) None 0 =
    Err Uninit.
Proof. vm_compute. reflexivity. Qed.

(** ** Gains *)

(** C38: the adaptative codebook gain is exactly the quotient of the scalar products <x,y> and
    <y,y> in Q14, clamped to [0, 1.2]: neither the 64-bit accumulators nor the 32-bit quotient
    overflow, and <y,y> is positive whenever the division is reached. *)
Theorem computeAdaptativeCodebookGain_exact a b x ox y oy :
  0 ≤ ox → 0 ≤ oy → arr i16r a x → arr i16r b y → ox + 40 ≤ a → oy + 40 ≤ b →
  let xy := dot x ox y oy 40 in
  let yy := dot y oy y oy 40 in
  (0 < xy → 0 < yy) ∧
  computeAdaptativeCodebookGain x ox y oy =
    Ok (if xy <=? 0 then 0 else Z.min (xy * 16384 / yy) 19661, xy, yy).
Proof. apply computeAdaptativeCodebookGain_run. Qed.

Lemma computeAdaptativeCodebookGain_exact_witness :
  computeAdaptativeCodebookGain (replicate 50 3) 10 (replicate 50 5) 10 = Ok (9830, 600, 1000).
Proof.
  destruct (computeAdaptativeCodebookGain_exact 50 50 (replicate 50 3) 10 (replicate 50 5) 10) as [_ ->];
    [lia|lia|by apply arr_rng_by|by apply arr_rng_by|lia|lia|]. by vm_compute.
Defined.

Lemma quantized_indices c c' fcv t ga' gb' g1 g2 :
  quantized c c' fcv t ga' gb' g1 g2 → 0 ≤ ga' < 8 ∧ 0 ≤ gb' < 16.
Proof.
  intros (p & ba & bb & ga & gb & e & _ & Hr & _ & _ & [Ega Egb] & _).
  split; [apply (reverse_GA ga)|apply (reverse_GB gb)]; done || lia.
Qed.

(** The fixed codebook gain: the encoder truncates the prediction to Q4 and the product to Q1, the
    decoder rounds the whole product. *)
Lemma fixed_gains_close p ga gb : 0 ≤ p < 134217728 → 0 ≤ ga < 8 → 0 ≤ gb < 16 →
  let g2 := i16 (SHR (gcOf (i16 (Z.shiftr p 12)) ga gb) 1) in
  g2 ≤ i16 (PSHR (MULT16_32_Q12 (gammaOf ga gb) p) 15) ≤ g2 + 2.
Proof.
  intros Hp Ha Hb. cbv zeta. destruct (gains_bounds 0 ga gb Ha Hb) as (_ & Hg & _); [by vm_compute|].
  rewrite (Z.shiftr_div_pow2 p) by lia. change (2 ^ 12) with 4096.
  assert (0 ≤ p / 4096 < 32768) as Hq by (split; [apply Z.div_pos; lia|apply Z.div_lt_upper_bound; lia]).
  rewrite (i16_id (p / 4096)) by (unfold rng; lia). unfold MULT16_32_Q12.
  rewrite MULT16_32_Q_floor; [|lia|unfold rng; lia|unfold rng; lia|change (2 ^ 12) with 4096; nia]. change (2 ^ 12) with 4096.
  set (g := gammaOf ga gb) in *. unfold gcOf, SHR, PSHR, SHR. fold g.
  change (Z.shiftr (Z.shiftl 1 15) 1) with 16384. rewrite !Z.shiftr_div_pow2 by lia. change (2 ^ 1) with 2. change (2 ^ 15) with 32768.
  rewrite Z.div_div by lia. change (16384 * 2) with 32768.
  pose proof (Z.div_mod p 4096 ltac:(lia)) as Ep. pose proof (Z.mod_pos_bound p 4096 ltac:(lia)) as Hm.
  assert (g * (p / 4096) ≤ g * p / 4096 ≤ g * (p / 4096) + g) as HG.
  { split; [apply Z.div_le_lower_bound|apply Z.div_le_upper_bound]; nia. }
  assert (0 ≤ g * (p / 4096) ≤ 678900992) as HG0 by nia. set (u := g * (p / 4096)) in *. set (r := g * p / 4096) in *.
  clearbody u r. rewrite (i32_id (r + 16384)) by (unfold rng; lia).
  rewrite !i16_id by (unfold rng; Z.div_mod_to_equations; lia). Z.div_mod_to_equations. lia.
Qed.

(** The decoder finds the pair the encoder quantized. *)
Lemma decodeGains_quantized d c c' fcv t ga' gb' g1 g2 pa pf :
  quantized c c' fcv t ga' gb' g1 g2 →
  Dec.previousGainPredictionError d = Enc.previousGainPredictionError c →
  ∃ d' gf, decodeGains d ga' gb' fcv 0 pa pf = Ok (d', g1, gf) ∧
    Dec.previousGainPredictionError d' = Enc.previousGainPredictionError c' ∧
    ∀ p, MACodeGainPrediction (Enc.previousGainPredictionError c) fcv = Ok p → 0 ≤ p < 134217728 → g2 ≤ gf ≤ g2 + 2.
Proof.
  intros (p & ba & bb & ga & gb & e & Ep & Hr & _ & [-> ->] & [Ega Egb] & (Ee & -> & _) & _) Hd.
  destruct (reverse_GA ga ga' Ega ltac:(lia)) as [_ Ra]. destruct (reverse_GB gb gb' Egb ltac:(lia)) as [_ Rb].
  unfold decodeGains. cbn [negb Z.eqb]. rewrite Ra, Rb, Hd, Ep. cbn [bind].
  destruct (GA_cells ga ltac:(lia)) as (-> & -> & ? & ?). destruct (GB_cells gb ltac:(lia)) as (-> & -> & ? & ?).
  cbn [bind]. cbv zeta.
  assert (ADD16 (cell GACodebook ga 1) (cell GBCodebook gb 1) = gammaOf ga gb) as ->
    by (unfold ADD16, gammaOf; by rewrite (i16_id (cell GACodebook _ _)), (i16_id (cell GBCodebook _ _)), i16_id by (unfold rng; lia)).
  assert (ADD16 (cell GACodebook ga 0) (cell GBCodebook gb 0) = gpOf ga gb) as ->
    by (unfold ADD16, gpOf; by rewrite (i16_id (cell GACodebook _ _)), (i16_id (cell GBCodebook _ _)), i16_id by (unfold rng; lia)).
  rewrite Ee. cbn [bind]. do 2 eexists. split; [reflexivity|]. split; [reflexivity|].
  intros p' [= <-] Hp'. apply fixed_gains_close; lia.
Qed.

Section Quantization.
Context (a b : Z) (c : Enc.ctx) (x : list Z) (ox : Z) (y : list Z) (oy : Z) (z fcv : list Z) (g1 g2 : Z).
Context (Hc : arr i16r 4 (Enc.previousGainPredictionError c)).
Context (Hox : 0 ≤ ox) (Hoy : 0 ≤ oy) (Hx : arr i16r a x) (Hy : arr i16r b y).
Context (Ha : ox + 40 ≤ a) (Hb : oy + 40 ≤ b) (Hz : arr i16r 40 z).
Context (Hf : arr i16r 40 fcv) (HE : sumsq fcv ≤ 2147483647).

(** C21: encoder and decoder gains stay in step. The quantizer never fails on 16-bit signals;
    from the two indices it transmits, a decoder whose gain predictor has the same memory and
    the same codevector recovers the same adaptative codebook gain and updates its predictor
    to the same memory; its fixed codebook gain, computed with another rounding, exceeds the
    encoder's by at most 2 units of 1/2, when the prediction is below the 2048 that the
    encoder's 16-bit copy can hold. *)
Theorem gainQuantization_in_step :
  ∃ c' gain1 gain2 ga gb,
    gainQuantization c x ox y oy z fcv (dot x ox y oy 40) (dot y oy y oy 40) g1 g2 =
      Ok (c', gain1, gain2, ga, gb) ∧
    (0 ≤ ga < 8 ∧ 0 ≤ gb < 16) ∧
    ∀ d pa pf, Dec.previousGainPredictionError d = Enc.previousGainPredictionError c →
    ∃ d' gf, decodeGains d ga gb fcv 0 pa pf = Ok (d', gain1, gf) ∧
      Dec.previousGainPredictionError d' = Enc.previousGainPredictionError c' ∧
      ∀ p, MACodeGainPrediction (Enc.previousGainPredictionError c) fcv = Ok p → 0 ≤ p < 134217728 → gain2 ≤ gf ≤ gain2 + 2.
Proof.
  destruct (gainQuantization_run a b c x ox y oy z fcv g1 g2 Hc Hox Hoy Hx Hy Ha Hb Hz Hf HE)
    as (t & c' & r1 & r2 & s1 & s2 & _ & _ & E & Hq).
  exists c', r1, r2, s1, s2. split; [exact E|]. split; [exact (quantized_indices _ _ _ _ _ _ _ _ Hq)|].
  intros d pa pf Hd. exact (decodeGains_quantized d c c' fcv t s1 s2 r1 r2 pa pf Hq Hd).
Qed.

(** C22: the transmitted pair minimises the error of eq63, in exact integer arithmetic, among
    the 4 x 8 pairs of the preselection: the 64-bit distance never overflows. The scaled cross
    terms -2^30 are excluded, since their negated double does not fit 32 bits. The window of the
    preselection is pinned: its first stage starts two entries, as far as there are so many,
    before the first of the six entries whose gain times the predicted gain reaches the best
    fixed codebook gain, its second stage four entries before the first of the twelve that reaches
    the best adaptative codebook gain (the entry after them when none does); and the two best
    gains are, cast to 32 bits, the quotients (zz.xy - xz.yz) / (yy.zz - yz^2) in Q9 and
    (yy.xz - xy.yz) / (yy.zz - yz^2) in Q2, computed exactly whenever the denominator is not zero
    and the numerators, shifted by 9 and 14 bits, stay below 2^62. *)
Theorem gainQuantization_optimal :
  ∃ t p best_a best_f ba bb ga gb c' s1 s2,
    let pred := i16 (Z.shiftr p 12) in
    scaleTerms (dot x ox y oy 40) (dot y oy y oy 40) (dot x ox z 0 40) (dot y oy z 0 40) (dot z 0 z 0 40) = Ok t ∧
    MACodeGainPrediction (Enc.previousGainPredictionError c) fcv = Ok p ∧
    gainQuantization c x ox y oy z fcv (dot x ox y oy 40) (dot y oy y oy 40) g1 g2 =
      Ok (c', gpOf ga gb, i16 (SHR (gcOf pred ga gb) 1), s1, s2) ∧
    bestGains t = Ok (best_a, best_f) ∧ best_gains t best_a best_f ∧
    preselectedGa best_f pred ba ∧ preselectedGb best_a bb ∧
    ld indexMappingGA ga = Ok s1 ∧ ld indexMappingGB gb = Ok s2 ∧
    ba ≤ ga < ba + 4 ∧ bb ≤ gb < bb + 8 ∧
    (t_xy t ≠ -1073741824 → t_xz t ≠ -1073741824 → ∀ i j, ba ≤ i < ba + 4 → bb ≤ j < bb + 8 →
      exactDistance t (gpOf ga gb) (gcOf pred ga gb) ≤ exactDistance t (gpOf i j) (gcOf pred i j)).
Proof.
  destruct (gainQuantization_run a b c x ox y oy z fcv g1 g2 Hc Hox Hoy Hx Hy Ha Hb Hz Hf HE)
    as (t & c' & r1 & r2 & s1 & s2 & Et & Ht & E & p & ba & bb & ga & gb & e & Ep & Hr & Hmin & [-> ->] & [Ega Egb] & _ &
      best_a & best_f & Eb & Hbest & Pa & Pb).
  exists t, p, best_a, best_f, ba, bb, ga, gb, c', s1, s2. cbv zeta.
  refine (conj Et (conj Ep (conj E (conj Eb (conj Hbest (conj Pa (conj Pb (conj Ega (conj Egb (conj _ (conj _ _))))))))))); [lia|lia|].
  intros N1 N2 i j Hi Hj. specialize (Hmin i j Hi Hj).
  rewrite !pairDistance_exact in Hmin by (done || lia || apply i16_rng). exact Hmin.
Qed.

End Quantization.

Definition someEncoder : Enc.ctx :=
  Enc.set_previousGainPredictionError (replicate 4 (-14336)) zeroEncoderContext.

Lemma gainQuantization_in_step_witness :
  ∃ c' gain1 gain2 ga gb,
    gainQuantization someEncoder (replicate 50 300) 10 (replicate 50 200) 10 (replicate 40 4096)
      (replicate 40 2048) (dot (replicate 50 300) 10 (replicate 50 200) 10 40)
      (dot (replicate 50 200) 10 (replicate 50 200) 10 40) 0 0 = Ok (c', gain1, gain2, ga, gb) ∧
    (0 ≤ ga < 8 ∧ 0 ≤ gb < 16) ∧
    ∀ d pa pf, Dec.previousGainPredictionError d = Enc.previousGainPredictionError someEncoder →
    ∃ d' gf, decodeGains d ga gb (replicate 40 2048) 0 pa pf = Ok (d', gain1, gf) ∧
      Dec.previousGainPredictionError d' = Enc.previousGainPredictionError c' ∧
      ∀ p, MACodeGainPrediction (Enc.previousGainPredictionError someEncoder) (replicate 40 2048) = Ok p → 0 ≤ p < 134217728 →
        gain2 ≤ gf ≤ gain2 + 2.
Proof.
  apply (gainQuantization_in_step 50 50 someEncoder (replicate 50 300) 10 (replicate 50 200) 10);
    first [by apply arr_rng_by | lia | by vm_compute].
Defined.

Lemma gainQuantization_optimal_witness :
  ∃ t p best_a best_f ba bb ga gb c' s1 s2,
    let pred := i16 (Z.shiftr p 12) in
    let x := replicate 50 300 in
    let y := replicate 50 200 in
    let z := replicate 40 4096 in
    scaleTerms (dot x 10 y 10 40) (dot y 10 y 10 40) (dot x 10 z 0 40) (dot y 10 z 0 40) (dot z 0 z 0 40) = Ok t ∧
    MACodeGainPrediction (Enc.previousGainPredictionError someEncoder) (replicate 40 2048) = Ok p ∧
    gainQuantization someEncoder x 10 y 10 z (replicate 40 2048) (dot x 10 y 10 40) (dot y 10 y 10 40) 0 0 =
      Ok (c', gpOf ga gb, i16 (SHR (gcOf pred ga gb) 1), s1, s2) ∧
    bestGains t = Ok (best_a, best_f) ∧ best_gains t best_a best_f ∧
    preselectedGa best_f pred ba ∧ preselectedGb best_a bb ∧
    ld indexMappingGA ga = Ok s1 ∧ ld indexMappingGB gb = Ok s2 ∧
    ba ≤ ga < ba + 4 ∧ bb ≤ gb < bb + 8 ∧
    (t_xy t ≠ -1073741824 → t_xz t ≠ -1073741824 → ∀ i j, ba ≤ i < ba + 4 → bb ≤ j < bb + 8 →
      exactDistance t (gpOf ga gb) (gcOf pred ga gb) ≤ exactDistance t (gpOf i j) (gcOf pred i j)).
Proof.
  apply (gainQuantization_optimal 50 50 someEncoder (replicate 50 300) 10 (replicate 50 200) 10);
    first [by apply arr_rng_by | lia | by vm_compute].
Defined.

(** ** Linear prediction analysis *)

(** C26: the linear prediction analysis reads and writes inside its arrays and its only
    possible fault is the division by a residual energy that rounds to zero; the
    autocorrelation it hands over is that of the windowed signal at one common scale, without
    overflow of the 32-bit accumulators, and r(0) is normalised into [2^30, 2^31[. *)
Theorem computeLP_autocorrelation n s o k r noLag number :
  arr i16r 240 s → arr i16r 10 o → arr i32r 10 k → arr i32r n r → arr i32r n noLag →
  11 ≤ number ≤ 13 → number ≤ n →
  wp only_div (computeLP s o k r noLag number) (λ '(o', k', r', noLag', scale),
    arr i16r 10 o' ∧ arr i32r 10 k' ∧ arr i32r n r' ∧
    ∃ w, windowSignal s = Ok w ∧ normalised w noLag' scale number).
Proof.
  intros Hs Ho Hk Hr HN Hnum Hn. apply (wp_computeLP _ n); try done.
  intros w o' k' r' N' sc Ew Hw Ho' Hk' Hr' HN' Hnorm.
  split; [done|]. split; [done|]. split; [done|]. exists w. by split.
Qed.

Lemma computeLP_autocorrelation_witness :
  wp only_div (computeLP (replicate 240 32767) (zeros 10) (zeros 10) (zeros 13) (zeros 13) 13)
    (λ '(o', k', r', noLag', scale),
      arr i16r 10 o' ∧ arr i32r 10 k' ∧ arr i32r 13 r' ∧
      ∃ w, windowSignal (replicate 240 32767) = Ok w ∧ normalised w noLag' scale 13).
Proof.
  apply (computeLP_autocorrelation 13); first [by apply arr_rng_by | lia].
Defined.

(** ** The input filter *)

(** The input filter saturates its accumulator to 28 bits and then rounds it: at the
    saturation bound the rounding carries into the sign bit, so that full scale input can give
    the most negative sample where the most positive one is meant. *)
Theorem preProcessing_wraps :
  (let* (c, out) := preProcessing zeroEncoderContext
     (replicate 49 32767 ++ replicate 30 (-32768) ++ [32767]) 0 (zeros 80) 0 in
   Ok (Enc.outputY1 c, at_ out 79)) = Ok (MAXINT28, -32768).
Proof. vm_compute. reflexivity. Qed.

(** ** Spectral quantization *)

Definition lsp_fault (f : fault) : Prop := f = DivError ∨ f = Uninit.

Lemma LSPQuantization_nearest_spec c LSP qLSP params :
  arr (arr i16r 10) 4 (Enc.previousqLSF c) → arr i16r 10 LSP → arr i16r 10 qLSP → 4 ≤ zlen params →
  wp lsp_fault (LSPQuantization c LSP qLSP params) (active_quantized c LSP qLSP params).
Proof.
  intros Hm HL Hq Hp. apply (wp_LSPQuantization _ c LSP qLSP params (zlen params)); unfold lsp_fault; auto.
Qed.

(** C24: the spectral quantizer stays inside its arrays (its only possible faults are a division of
    the frequency conversion and an index that no distance sets), and what it transmits is nearest
    in exact arithmetic, measured with sums of integers without a width. With each predictor whose
    target of eq23 fits 16 bits: when the 128 squared distances fit 32 bits and their differences
    16, the first stage vector is the first with the least distance to the target; when the 32
    weighted distances of a half fit, with the products they are made of, the second stage vector
    of this half is the first with the least one. When the weighted errors of eq21 of both
    candidates fit likewise, the transmitted predictor has the lesser error of the two. Where a sum
    does not fit nothing is said of nearness: the distances of the code wrap. The history and the
    quantized spectrum are rebuilt from the transmitted indices in every case. *)
Theorem LSPQuantization_nearest c LSP qLSP params :
  arr (arr i16r 10) 4 (Enc.previousqLSF c) → arr i16r 10 LSP → arr i16r 10 qLSP → 4 ≤ zlen params →
  wp lsp_fault (LSPQuantization c LSP qLSP params) (exact_quantized c LSP qLSP params).
Proof.
  intros Hm HL Hq Hp. apply wp_mono with (P := active_quantized c LSP qLSP params).
  - by apply LSPQuantization_nearest_spec.
  - intros r Hr. exact (active_quantized_exact c LSP qLSP params r Hm HL Hr).
Qed.

(** A history of equal rows. *)
Definition historyOf (row : list Z) : list (list Z) := replicate 4 row.

Definition steadyEncoder : Enc.ctx := Enc.set_previousqLSF (historyOf previousqLSFInit) zeroEncoderContext.

(** The spectrum an encoder starts from, quantized with the history it starts from: every sum
    fits, and the indices 85, 28 and 20 of the second predictor are nearest in exact arithmetic. *)
Lemma LSPQuantization_nearest_witness :
  wp lsp_fault (LSPQuantization steadyEncoder previousLSPInitialValues (zeros 10) (zeros 15))
    (exact_quantized steadyEncoder previousLSPInitialValues (zeros 10) (zeros 15)) ∧
  let LSF := [3393; 5354; 7172; 8970; 10846; 12868; 14890; 16766; 18564; 20382] in
  let w := [6611; 7991; 8438; 8276; 9207; 8757; 7673; 8276; 8438; 4941] in
  let m := Enc.previousqLSF steadyEncoder in
  let t := exactTargetVector m LSF 1 in
  (let* (_, params) := LSPQuantization steadyEncoder previousLSPInitialValues (zeros 10) (zeros 15) in
   Ok (take 4 params)) = Ok [1; 85; 28; 20] ∧
  first_least 128 (exactL1 t) 85 ∧ first_least 32 (λ i, exactL2L3 t w 1 85 i 0) 28 ∧
  first_least 32 (λ i, exactL2L3 t w 1 85 i 5) 20 ∧
  ∃ k1 k2 k3, matched m LSF w 0 k1 k2 k3.
Proof.
  pose proof (LSPQuantization_nearest steadyEncoder previousLSPInitialValues (zeros 10) (zeros 15)
    ltac:(apply arr_rng2_by; reflexivity) ltac:(apply arr_rng_by; reflexivity) ltac:(by apply arr_zeros) ltac:(by vm_compute)) as H.
  split; [exact H|]. intros LSF w m t.
  destruct (LSPQuantization steadyEncoder previousLSPInitialValues (zeros 10) (zeros 15)) as [[[c' q] p]|] eqn:E; [|vm_compute in E; discriminate E].
  cbn [wp] in H. destruct H as (L0 & i1 & i2 & i3 & k1 & k2 & k3 & LSF' & w' & m' & q' & Er & _ & _ & _ & _ & EL & Ew & _ & M & M' & _).
  assert (LSF' = LSF) as ->. { vm_compute in EL. injection EL as <-. reflexivity. }
  assert (w' = w) as ->. { vm_compute in Ew. injection Ew as <-. reflexivity. }
  assert (take 4 p = [1; 85; 28; 20]) as Ep. { vm_compute in E. injection E as _ _ <-. reflexivity. }
  clear E EL Ew. injection Er as -> -> ->. cbn [take] in Ep. injection Ep as -> -> -> ->. cbn [bind take].
  destruct M as (_ & _ & _ & M1 & M2 & M3); [vm_compute; reflexivity|]. split; [reflexivity|].
  split; [apply M1; vm_compute; reflexivity|]. split; [apply M2; vm_compute; reflexivity|].
  split; [apply M3; vm_compute; reflexivity|]. exists k1, k2, k3. apply M'. vm_compute. reflexivity.
Defined.

(** Ten ordered frequencies far from the steady spectrum of row 42. *)
Definition lowFrequencies : list Z := [879; 4577; 5787; 5889; 5913; 7654; 7835; 10752; 16816; 18464].

(** The condition on the sums is needed: after four frames of row 42 these frequencies have a
    target whose squared distance to row 33, 2149393376, wraps to a negative number, so that
    row 33 is retained before row 41 at the distance 1809912495. *)
Theorem nearest_wraps :
  let m := historyOf (nth 42 L1 []) in
  let t := exactTargetVector m lowFrequencies 0 in
  targetVector m lowFrequencies MAPredictor invMAPredictorSum 0 = Ok t ∧ target_fits m lowFrequencies 0 = true ∧
  minIndex 128 (distanceL1 t) = Ok 33 ∧ distanceL1 t 33 = Ok (-2145573920) ∧
  exactL1 t 33 = 2149393376 ∧ exactL1 t 41 = 1809912495 ∧ stage1_fits t = false.
Proof. split_and!; vm_compute; reflexivity. Qed.

(** C23: encoder and decoder spectra stay in step: from the four transmitted indices a decoder
    with the same history never fails, ends with the same history, and obtains the same
    quantized spectrum whenever no predicted frequency is below the lower limit. *)
Theorem LSPQuantization_in_step c LSP qLSP params c' q params' d :
  arr (arr i16r 10) 4 (Enc.previousqLSF c) → arr i16r 10 LSP → arr i16r 10 qLSP → 4 ≤ zlen params →
  LSPQuantization c LSP qLSP params = Ok (c', q, params') →
  Dec.wf d → Dec.previousLCodeWord d = Enc.previousqLSF c →
  ∃ d' q' L0 i1 i2 i3, take 4 params' = [L0; i1; i2; i3] ∧
    decodeLSP d params' qLSP 0 = Ok (d', q') ∧ Dec.previousLCodeWord d' = Enc.previousqLSF c' ∧
    (aboveMin (Enc.previousqLSF c) MAPredictor MAPredictorSum L0 i1 i2 i3 = true → q' = q).
Proof.
  intros Hm HL Hq Hp E Hd Eh.
  pose proof (LSPQuantization_nearest_spec c LSP qLSP params Hm HL Hq Hp) as H. rewrite E in H. cbn [wp] in H.
  destruct H as (m & q0 & L0 & i1 & i2 & i3 & LSF & w & t & [= -> -> ->] & Hm' & Hq0 & H0 & H1 & H2 & H3 & _ & _ & _ & _ & _ & _ & _ & ER).
  rewrite <-Eh in ER.
  destruct (decodeLSP_reconstructs d (L0 :: i1 :: i2 :: i3 :: drop 4 params) L0 i1 i2 i3 qLSP m q0) as (d' & q' & ED & _ & Em & Ha); try done.
  exists d', q', L0, i1, i2, i3. split_and!; [done|done|done|]. by rewrite <-Eh.
Qed.

(** A fresh decoder: its history is that of a fresh encoder. *)
Definition freshDecoder : Dec.ctx := Eval vm_compute in
  match initBcg729DecoderChannel (Heap.Heap 1 []) true true with
  | Ok (_, d) => dec_context d
  | Err _ => zeroDecoderContext
  end.

Lemma freshDecoder_wf : Dec.wf freshDecoder.
Proof.
  destruct (initBcg729DecoderChannel_run (Heap.Heap 1 [])) as (c & E & Hc).
  vm_compute in E. injection E as <-. exact Hc.
Qed.

Lemma LSPQuantization_in_step_witness :
  ∃ c' q params', LSPQuantization steadyEncoder previousLSPInitialValues (zeros 10) (zeros 15) = Ok (c', q, params') ∧
  ∃ d' q' L0 i1 i2 i3, take 4 params' = [L0; i1; i2; i3] ∧
    decodeLSP freshDecoder params' (zeros 10) 0 = Ok (d', q') ∧ Dec.previousLCodeWord d' = Enc.previousqLSF c' ∧
    (aboveMin (Enc.previousqLSF steadyEncoder) MAPredictor MAPredictorSum L0 i1 i2 i3 = true → q' = q).
Proof.
  assert (arr (arr i16r 10) 4 (Enc.previousqLSF steadyEncoder)) as H1 by (apply arr_rng2_by; reflexivity).
  assert (arr i16r 10 previousLSPInitialValues) as H2 by (apply arr_rng_by; reflexivity).
  assert (arr i16r 10 (zeros 10)) as H3 by (by apply arr_zeros).
  assert (4 ≤ zlen (zeros 15)) as H4 by (by vm_compute).
  assert (∃ r, LSPQuantization steadyEncoder previousLSPInitialValues (zeros 10) (zeros 15) = Ok r)
    as [[[c' q] params'] E] by (eexists; vm_compute; reflexivity).
  exists c', q, params'. split; [exact E|].
  exact (LSPQuantization_in_step steadyEncoder previousLSPInitialValues (zeros 10) (zeros 15) c' q params' freshDecoder
    H1 H2 H3 H4 E freshDecoder_wf eq_refl).
Defined.

(** The vector of the codebooks with the lowest first frequency, -0.112. *)
Definition lowVector : list Z := [-917; 1961; 5455; 7550; 11390; 13831; 14562; 18956; 20447; 21952].

(** Below the lower limit the spectra differ: the encoder tests the second frequency where
    the decoder tests the first one. Repeating the indices of a vector whose first frequency is
    negative, the decoder raises that frequency to the limit and the encoder does not, so that
    the two sides filter with different coefficients. *)
Theorem low_frequency_diverges :
  quantizerOutput 32 25 0 = Ok lowVector ∧
  (let* (_, q) := reconstructLSP (historyOf lowVector) MAPredictor MAPredictorSum 0 32 25 0 (zeros 10) in ld q 0) = Ok 32563 ∧
  (let* (_, q) := decodeLSP (Dec.set_previousLCodeWord (historyOf lowVector) zeroDecoderContext) [0; 32; 25; 0] (zeros 10) 0 in
   ld q 0) = Ok 32767.
Proof. split_and!; vm_compute; reflexivity. Qed.

(** ** Fixed codebook search *)

Definition shift_fault (f : fault) : Prop := f = BadShift.

(** The impulse response of the encoder starts with 1.0 in Q12, whatever the filter. *)
Lemma impulse_response_head w h : zlen w = 10 →
  synthesisFilter impulseResponseInput w (zeros (NB_LSP_COEFF + L_SUBFRAME)) NB_LSP_COEFF = Ok h → at_ h 10 = 4096.
Proof.
  intros Hw E. unfold synthesisFilter in E.
  assert (wp any_fault (for_up 0 L_SUBFRAME (zeros (NB_LSP_COEFF + L_SUBFRAME)) (λ i filteredSignal,
    let* s := ld impulseResponseInput i in
    let* acc := for_up 0 NB_LSP_COEFF (SSHL s 12) (λ j acc,
      let* c := ld w j in
      let* y := ld filteredSignal (NB_LSP_COEFF + (i - j - 1)) in
      Ok (MSU16_16 acc c y)) in
    st filteredSignal (NB_LSP_COEFF + i) (i16 (SATURATE (PSHR acc 12) MAXINT16))))
    (λ h, zlen h = 50 ∧ at_ h 10 = 4096)) as H; [|rewrite E in H; apply H].
  unfold NB_LSP_COEFF, L_SUBFRAME. apply wp_for_up with (I := λ i h, zlen h = 50 ∧
    if i =? 0 then h = zeros 50 else at_ h 10 = 4096); [lia|done| |].
  - intros i y Hi [Hl HI]. destruct (Z.eqb_spec i 0) as [->|Hne].
    + subst y. change (ld impulseResponseInput 0) with (Ok 4096). cbn [bind].
      assert (for_up 0 10 (SSHL 4096 12) (λ j acc, let* c := ld w j in let* y := ld (zeros 50) (10 + (0 - j - 1)) in Ok (MSU16_16 acc c y)) =
        Ok 16777216) as ->.
      { assert (safe (for_up 0 10 (SSHL 4096 12) (λ j acc, let* c := ld w j in let* y := ld (zeros 50) (10 + (0 - j - 1)) in Ok (MSU16_16 acc c y)))
          (λ a, a = 16777216)) as H; [|by destruct (proj1 (safe_ok _ _) H) as (a & -> & ->)].
        apply wp_for_inv with (I := λ a, a = 16777216); [done| |done]. intros j a Hj ->. rewrite (ld_at w) by lia. cbn [bind].
        rewrite ld_at by (change (zlen (zeros 50)) with 50; lia). cbn [bind wp].
        replace (at_ (zeros 50) (10 + (0 - j - 1))) with 0.
        - unfold MSU16_16, SUB32, MULT16_16. by rewrite Z.mul_0_r.
        - unfold at_, zeros. by rewrite nth_lookup, lookup_replicate_2 by lia. }
      cbn [bind]. rewrite st_ok by (change (zlen (zeros 50)) with 50; lia). cbn [wp]. split; [by rewrite zlen_insert|].
      cbn [Z.eqb Z.add]. rewrite at_insert by (change (zlen (zeros 50)) with 50; lia). done.
    + apply any_bind; intros s0 _. apply any_bind; intros acc _. rewrite st_ok by lia. cbn [wp]. split; [by rewrite zlen_insert|].
      destruct (Z.eqb_spec (i + 1) 0); [lia|]. rewrite at_insert by lia. destruct (Z.eqb_spec (10 + i) 10); [lia|done].
  - intros h' [Hl HI]. done.
Qed.

(** The decoder's sharpening of the pulses [px]. *)
Lemma decoded_vector px T g : zlen px = 40 → 20 ≤ T →
  ∃ v, for_up T L_SUBFRAME px (λ i v, let* a := ld v i in let* b := ld v (i - T) in st v i (ADD16 a (MULT16_16_P14 b g))) = Ok v ∧
    zlen v = 40 ∧ ∀ j, 0 ≤ j < 40 → at_ v j = if j <? T then at_ px j else ADD16 (at_ px j) (MULT16_16_P14 (at_ px (j - T)) g).
Proof. apply (sharpening_run px T (λ a b, ADD16 a (MULT16_16_P14 b g))). Qed.

(** C25: the fixed codebook survives transmission. On an impulse response that starts with 1.0,
    as the encoder's does, and whose energy and correlations with the target fit 32 bits, the
    search always ends with a 13-bit codeword and 4 signs from which the decoder sets the same
    four pulses: the two vectors are equal before the pitch delay, hence everywhere when the
    delay is at least a subframe, and when both sides sharpen with the same gain, at most 0.8,
    they differ by at most one unit after it. *)
Theorem fixedCodebookSearch_decoded x h T g y ga sign v w :
  arr i16r 40 x → arr i16r 40 h → at_ h 0 = 4096 → 20 ≤ T → rng 3277 19661 g → arr i16r 40 y →
  zlen sign = 40 → arr i16r 40 v → arr i16r 40 w → search_in_range x h T g y ga = true →
  ∃ h' codeword signs v' w', fixedCodebookSearch x h T g y ga sign v w = Ok (h', codeword, signs, v', w') ∧
    0 ≤ codeword < 8192 ∧ 0 ≤ signs < 16 ∧
    ∀ g' u, arr i16r 40 u → ∃ v'', decodeFixedCodeVector signs codeword T g' u = Ok v'' ∧
      (∀ n, 0 ≤ n < Z.min T 40 → at_ v'' n = at_ v' n) ∧ (40 ≤ T → v'' = v') ∧
      (g' = g → g ≤ 13107 → ∀ n, 0 ≤ n < 40 → Z.abs (at_ v'' n - at_ v' n) ≤ 1).
Proof.
  intros Hx Hh H0 HT Hg Hy Hs Hv Hw HR.
  destruct (proj1 (safe_ok _ _) (fixedCodebookSearch_run x h T g y ga sign v w Hx Hh H0 HT Hg Hy Hs Hv Hw HR))
    as (r & E & h' & s & p & Eh & Hs' & Hp & Ht & px & v' & w' & Epx & Hpx & Ev & Hv' & _ & _ & _ & signs & ES & Hsigns & ->).
  exists h', (fixedCodebookParameter p), signs, v', w'. split; [exact E|].
  destruct (fixedCodebookParameter_value p Hp) as [_ Hcw]. split; [done|]. split; [done|]. intros g' u Hu.
  rewrite (decodeFixedCodeVector_pulses s p signs px) by done.
  assert (arr i16r 40 px) as Hpx' by (eapply arr_mono; [exact Hpx|]; intros z [|[|]]; unfold rng; lia).
  destruct (decoded_vector px T g' (proj1 Hpx) HT) as (v'' & -> & L'' & A''). exists v''. split; [done|].
  destruct (pitchSharpening_run px T g Hpx' HT) as (fv & Ev' & Hfv & A'). rewrite Ev in Ev'. injection Ev' as <-.
  assert (∀ n, 0 ≤ n < Z.min T 40 → at_ v'' n = at_ v' n) as Hsame.
  { intros n Hn. rewrite A'', A' by lia. unfold sharpenedAt. by destruct (Z.ltb_spec n T); [|lia]. }
  split; [exact Hsame|]. split.
  - intros H40. apply at_ext; [by rewrite L'', (proj1 Hv')|]. intros i Hi. apply Hsame. lia.
  - intros -> Hg' n Hn. rewrite A'', A' by lia. unfold sharpenedAt. destruct (Z.ltb_spec n T); [lia|].
    apply sharpenings_close; [apply (at_arr pulse 40); [done|lia]..|unfold rng in *; lia].
Qed.

Lemma fixedCodebookSearch_decoded_witness :
  ∃ h' codeword signs v' w', fixedCodebookSearch (take 40 sawtooth) (4096 :: replicate 39 100) 30 8192 (replicate 40 5) 4000
      (zeros 40) (zeros 40) (zeros 40) = Ok (h', codeword, signs, v', w') ∧
    0 ≤ codeword < 8192 ∧ 0 ≤ signs < 16 ∧
    ∀ g' u, arr i16r 40 u → ∃ v'', decodeFixedCodeVector signs codeword 30 g' u = Ok v'' ∧
      (∀ n, 0 ≤ n < Z.min 30 40 → at_ v'' n = at_ v' n) ∧ (40 ≤ 30 → v'' = v') ∧
      (g' = 8192 → 8192 ≤ 13107 → ∀ n, 0 ≤ n < 40 → Z.abs (at_ v'' n - at_ v' n) ≤ 1).
Proof.
  apply (fixedCodebookSearch_decoded (take 40 sawtooth) (4096 :: replicate 39 100) 30 8192 (replicate 40 5) 4000 (zeros 40) (zeros 40) (zeros 40));
    first [apply arr_rng_by; reflexivity | by apply arr_zeros | by vm_compute].
Defined.

(** The fixed codebook search stays inside its arrays and its results describe one and the
    same four pulses: the 13-bit codeword and the 4 signs are those of the pulses the vector is
    built from, the energy of the sharpened vector fits 32 bits, and every sample of the filtered
    vector is the exact sum of the four shifted impulse responses, modulo 2^16. Its only possible
    fault is the shift count of the matrix scaling. *)
Theorem fixedCodebookSearch_consistent x h T g y ga sign v w :
  arr i16r 40 x → arr i16r 40 h → 20 ≤ T → rng 3277 19661 g → arr i16r 40 y →
  zlen sign = 40 → arr i16r 40 v → arr i16r 40 w →
  wp shift_fault (fixedCodebookSearch x h T g y ga sign v w) (λ '(h', codeword, signs, v', w'),
    pitchSharpening h T g = Ok h' ∧ ∃ s p px, arr unit_sign 40 s ∧ pulses_inside p ∧
      codeword = s_i0 p / 5 + 8 * (s_i1 p / 5) + 64 * (s_i2 p / 5) + 512 * (2 * (s_i3 p / 5) + s_jx p) ∧
      signs = signBit (at_ s (s_i0 p)) + 2 * signBit (at_ s (s_i1 p)) + 4 * signBit (at_ s (s_i2 p)) + 8 * signBit (at_ s (s_i3 p)) ∧
      setPulses s p (zeros 40) = Ok px ∧ pitchSharpening px T g = Ok v' ∧ sumsq v' ≤ 2147483647 ∧
      ∀ n, 0 ≤ n < 40 → at_ w' n = convolvedAt h' s p n).
Proof.
  intros Hx Hh HT Hg Hy Hs Hv Hw. apply wp_fixedCodebookSearch; [done..|].
  intros h' r Eh Hh' (s & p & px & v' & w' & Hs' & Hp & Ep & _ & Ev & _ & HE & _ & HC & signs & ES & _ & ->).
  split; [done|]. rewrite fixedCodebookPulsesSigns_value in ES by done. injection ES as <-.
  destruct (fixedCodebookParameter_value p Hp) as [-> _]. by exists s, p, px.
Qed.

Lemma fixedCodebookSearch_consistent_witness :
  wp shift_fault (fixedCodebookSearch (take 40 sawtooth) (4096 :: replicate 39 100) 30 8192 (replicate 40 5) 4000 (zeros 40) (zeros 40) (zeros 40))
   (λ '(h', codeword, signs, v', w'),
    pitchSharpening (4096 :: replicate 39 100) 30 8192 = Ok h' ∧ ∃ s p px, arr unit_sign 40 s ∧ pulses_inside p ∧
      codeword = s_i0 p / 5 + 8 * (s_i1 p / 5) + 64 * (s_i2 p / 5) + 512 * (2 * (s_i3 p / 5) + s_jx p) ∧
      signs = signBit (at_ s (s_i0 p)) + 2 * signBit (at_ s (s_i1 p)) + 4 * signBit (at_ s (s_i2 p)) + 8 * signBit (at_ s (s_i3 p)) ∧
      setPulses s p (zeros 40) = Ok px ∧ pitchSharpening px 30 8192 = Ok v' ∧ sumsq v' ≤ 2147483647 ∧
      ∀ n, 0 ≤ n < 40 → at_ w' n = convolvedAt h' s p n).
Proof.
  apply (fixedCodebookSearch_consistent (take 40 sawtooth) (4096 :: replicate 39 100) 30 8192 (replicate 40 5) 4000);
    first [apply arr_rng_by; reflexivity | by apply arr_zeros | by vm_compute].
Defined.

(** The scaling meant to keep the correlation matrix in range overflows when the energy of
    the impulse response is near 2^31: the estimate wraps to a negative number, whose leading
    zeros give a shift count above 65500, which no shift accepts. With slightly smaller samples
    the search succeeds. *)
Theorem matrix_scaling_overflows :
  fixedCodebookSearch (take 40 sawtooth) (4096 :: replicate 39 7300) 40 8192 (zeros 40) 0 (zeros 40) (zeros 40) (zeros 40) = Err BadShift ∧
  ∃ r, fixedCodebookSearch (take 40 sawtooth) (4096 :: replicate 39 7200) 40 8192 (zeros 40) 0 (zeros 40) (zeros 40) (zeros 40) = Ok r.
Proof. split; [vm_compute; reflexivity|]. eexists. vm_compute. reflexivity. Qed.
