(* ===== verification/PropsNoise.v ===== *)
(** Theorems on discontinuous transmission: the voice activity decision and its hangover, the
    schedule and content of the noise descriptors, and the comfort noise of both sides. *)

From S2P Require Import Prelude FixedPoint Codebooks Math Utils Context Heap DecodeLSP Synthesis ComfortNoise Decoder.
From S2P Require Import EncContext EncChannel EncLSP EncVad EncDtx Encoder EncSync.

(** ** Voice activity *)

(** The arguments of a call of the detector. *)
Record vadInput : Type := VadInput {
  vi_reflection : Z;
  vi_LSF : list Z;
  vi_autocorrelation : list Z;
  vi_scale : Z;
  vi_signal : list Z;
  vi_offset : Z
}.

Record vadInput_ok (v : vadInput) : Prop := {
  vo_LSF : arr i16r 10 (vi_LSF v);
  vo_autocorrelation : arr i32r 13 (vi_autocorrelation v);
  vo_energy : 0 ≤ at_ (vi_autocorrelation v) 0;
  vo_signal : arr i16r 240 (vi_signal v);
  vo_offset : 1 ≤ vi_offset v ≤ 160
}.

Definition detect (c : Vad.ctx) (v : vadInput) : res (Vad.ctx * Z) :=
  bcg729_vad c (vi_reflection v) (vi_LSF v) (vi_autocorrelation v) (vi_scale v) (vi_signal v) (vi_offset v).

Lemma detect_spins c v : vadInput_ok v → at_ (vi_autocorrelation v) 0 = MAXINT32 → detect c v = Err NoReturn.
Proof.
  intros [_ [Hr _] _ _ _] E. unfold detect, bcg729_vad, fullBandEnergy. rewrite ld_at by lia. rewrite E. reflexivity.
Qed.

Lemma detect_decides c v : Vad.wf c → smoothing_ok c → vadInput_ok v → at_ (vi_autocorrelation v) 0 < MAXINT32 →
  ∃ c' Ivd Ef, detect c v = Ok (c', Ivd) ∧ fullBandEnergy (vi_autocorrelation v) (vi_scale v) = Ok Ef ∧
    Vad.wf c' ∧ decided Ef c c' Ivd.
Proof.
  intros Hc Hs [Hl Hr H0 Hsig Ho] Hlt. unfold MAXINT32 in Hlt.
  destruct (proj1 (safe_ok _ _) (wp_bcg729_vad no_fault c (vi_reflection v) _ _ (vi_scale v) 240 _ (vi_offset v)
    (λ '(c', d), ∃ Ef, fullBandEnergy (vi_autocorrelation v) (vi_scale v) = Ok Ef ∧ Vad.wf c' ∧ decided Ef c c' d)
    Hc Hs Hl Hr ltac:(left; lia) Hsig ltac:(lia) ltac:(lia) (λ Ef _ _ A B C, ex_intro _ Ef (conj A (conj B C))))) as ([c' d] & E & Ef & H).
  by exists c', d, Ef.
Qed.

(** C29: the detector keeps its context well formed: array sizes and widths, past decisions that
    are decisions, hangover counters inside 0..6 and 0..4. It returns a decision on every
    autocorrelation but one: when r(0) is the greatest 32-bit integer, adding one to it before
    the logarithm overflows, and the call never returns. *)
Theorem bcg729_vad_preserves c v : Vad.wf c → smoothing_ok c → vadInput_ok v →
  if at_ (vi_autocorrelation v) 0 =? MAXINT32 then detect c v = Err NoReturn
  else ∃ c' Ivd, detect c v = Ok (c', Ivd) ∧ Vad.wf c' ∧ smoothing_ok c' ∧ (Ivd = VOICE ∨ Ivd = NOISE).
Proof.
  intros Hc Hs Hv. destruct (Z.eqb_spec (at_ (vi_autocorrelation v) 0) MAXINT32) as [E|E]; [by apply detect_spins|].
  pose proof (at_arr _ _ _ 0 (vo_autocorrelation v Hv) ltac:(lia)) as Hr. unfold rng, MAXINT32 in *.
  destruct (detect_decides c v Hc Hs Hv) as (c' & d & Ef & E1 & _ & Hc' & HI & Hs' & _); [unfold MAXINT32; lia|].
  by exists c', d.
Qed.

Definition freshVAD : Vad.ctx := Eval vm_compute in match initialVADContext with Ok c => c | Err _ => Vad.Mk 0 0 [] 0 0 0 0 [] 0 0 [] 0 0 0 0 0 0 0 end.

Lemma freshVAD_wf : Vad.wf freshVAD.
Proof. constructor; first [apply arr_rng_by; reflexivity | by vm_compute]. Qed.

Lemma freshVAD_smoothing : smoothing_ok freshVAD.
Proof. constructor; cbn; auto; by vm_compute. Qed.

(** A frame of zeros: energy 0, scale 30. *)
Definition silentInput : vadInput := VadInput 0 (zeros 10) (zeros 13) 30 (zeros 240) 120.

Lemma silentInput_ok : vadInput_ok silentInput.
Proof. constructor; first [by apply arr_zeros | by vm_compute | cbn; lia]. Qed.

Lemma bcg729_vad_preserves_witness :
  if 0 =? MAXINT32 then detect freshVAD silentInput = Err NoReturn
  else ∃ c' Ivd, detect freshVAD silentInput = Ok (c', Ivd) ∧ Vad.wf c' ∧ smoothing_ok c' ∧ (Ivd = VOICE ∨ Ivd = NOISE).
Proof.
  exact (bcg729_vad_preserves freshVAD silentInput freshVAD_wf freshVAD_smoothing silentInput_ok).
Defined.

(** The decisions on a sequence of frames. *)
Fixpoint detectAll (c : Vad.ctx) (l : list vadInput) : res (Vad.ctx * list Z) :=
  match l with
  | [] => Ok (c, [])
  | v :: l =>
    let* (c, d) := detect c v in
    let* (c, ds) := detectAll c l in
    Ok (c, d :: ds)
  end.

(** A frame whose full band energy is below the 15 dB threshold. *)
Definition silent (v : vadInput) : Prop :=
  vadInput_ok v ∧ at_ (vi_autocorrelation v) 0 < MAXINT32 ∧
  ∃ Ef, fullBandEnergy (vi_autocorrelation v) (vi_scale v) = Ok Ef ∧ Ef < 3072.

Definition voiced (l : list Z) : nat := length (filter (λ d, d = VOICE) l).

Lemma detectAll_hangover c l : Vad.wf c → smoothing_ok c → Forall silent l →
  ∃ c' ds, detectAll c l = Ok (c', ds) ∧ length ds = length l ∧ Z.of_nat (voiced ds) ≤ Z.max 0 (hangover c - 1).
Proof.
  intros Hc Hs Hl. revert c Hc Hs. induction Hl as [|v l (Hv & Hlt & Ef & EE & HE) Hl IH]; intros c Hc Hs.
  { exists c, []. cbn. split_and!; [done|done|lia]. }
  destruct (detect_decides c v Hc Hs Hv Hlt) as (c1 & d & Ef' & E1 & EE' & Hc1 & HI & Hs1 & Hh).
  rewrite EE in EE'. injection EE' as <-. destruct (Hh HE) as [Hle Hvoice].
  destruct (IH c1 Hc1 Hs1) as (c' & ds & E & Hlen & Hcount).
  exists c', (d :: ds). cbn [detectAll]. rewrite E1. cbn [bind]. rewrite E. cbn [bind length]. split_and!; [done|lia|].
  unfold voiced in *. destruct HI as [-> | ->].
  - rewrite filter_cons_True by done. cbn [length]. specialize (Hvoice eq_refl). lia.
  - rewrite filter_cons_False by done. lia.
Qed.

(** C12: silence is detected: whatever happened before, on consecutive frames below the energy
    threshold the detector returns every time and says voice at most eleven times, so that the
    twelfth frame of silence at the latest is a noise frame. *)
Theorem silence_ends_voice c l : Vad.wf c → smoothing_ok c → Forall silent l →
  ∃ c' ds, detectAll c l = Ok (c', ds) ∧ length ds = length l ∧ (voiced ds ≤ 11)%nat.
Proof.
  intros Hc Hs Hl. destruct (detectAll_hangover c l Hc Hs Hl) as (c' & ds & E & Hlen & H).
  pose proof (hangover_bounds c Hs). exists c', ds. split_and!; [done|done|lia].
Qed.

Lemma silentInput_silent : silent silentInput.
Proof. split; [apply silentInput_ok|]. split; [by vm_compute|]. eexists. split; [by vm_compute|]. lia. Qed.

(** A channel in the middle of speech. *)
Definition speakingVAD : Vad.ctx := Vad.set_frameCount 100 freshVAD.

Lemma speakingVAD_wf : Vad.wf speakingVAD.
Proof. apply Vad.vad_wf_set_frameCount; [exact freshVAD_wf|unfold rng; lia]. Qed.

Lemma speakingVAD_smoothing : smoothing_ok speakingVAD.
Proof. constructor; cbn; auto; by vm_compute. Qed.

Definition quiet : list vadInput := replicate 40 silentInput.

Lemma quiet_silent : Forall silent quiet.
Proof. apply Forall_replicate, silentInput_silent. Qed.

Lemma silence_ends_voice_witness :
  ∃ c' ds, detectAll speakingVAD quiet = Ok (c', ds) ∧ length ds = length quiet ∧ (voiced ds ≤ 11)%nat.
Proof. exact (silence_ends_voice speakingVAD quiet speakingVAD_wf speakingVAD_smoothing quiet_silent). Defined.

(** The bound is reached. *)
Example silence_bound_reached :
  (let* (_, ds) := detectAll speakingVAD quiet in Ok (take 12 ds, voiced ds)) =
  Ok (replicate 11 VOICE ++ [NOISE], 11%nat).
Proof. by vm_compute. Qed.

(** ** The schedule of the descriptors *)

Lemma encodeSIDFrame_result n s s' : sidFrame_ok n s → 2 ≤ n → encodeSIDFrame 0 s = Ok s' →
  sidFrame_ok n s' ∧ noise_result s s'.
Proof.
  intros Hs Hn E. pose proof (wp_encodeSIDFrame_noise any_fault 0 n s (λ s', sidFrame_ok n s' ∧ noise_result s s') I I I I
    ltac:(lia) Hs Hn (λ _ A B, conj A B)) as H. rewrite E in H. exact H.
Qed.

(** Noise frames in a row: the lengths of their bit streams. Between two frames the DTX context
    is what the encoder keeps, up to the autocorrelation of the new frame. *)
Inductive noise_run : Dtx.ctx → list Z → Prop :=
| noise_run_nil d : noise_run d []
| noise_run_frame d n r scale s s' lens : arr i32r n r → 11 ≤ n → i8r scale →
    updateDTXContext d r scale = Ok (sf_dtx s) → sidFrame_ok 10 s → encodeSIDFrame 0 s = Ok s' →
    noise_run (sf_dtx s') lens → noise_run d (sf_bitStreamLength s' :: lens).

(** One frame of a run. *)
Lemma noise_run_step d n r scale s s' : Dtx.wf d → arr i32r n r → 11 ≤ n → i8r scale →
  updateDTXContext d r scale = Ok (sf_dtx s) → sidFrame_ok 10 s → encodeSIDFrame 0 s = Ok s' →
  Dtx.wf (sf_dtx s') ∧ Dtx.previousVADflag (sf_dtx s') = 0 ∧
  (sf_bitStreamLength s' = 0 ∧ Dtx.previousVADflag d ≠ 1 ∧
     Dtx.count_fr (sf_dtx s') = Z.min 3 (u8 (Dtx.count_fr d + 1)) ∨
   sf_bitStreamLength s' = 2 ∧ Dtx.count_fr (sf_dtx s') = 0 ∧
     (Dtx.previousVADflag d = 1 ∨ 3 ≤ u8 (Dtx.count_fr d + 1))).
Proof.
  intros Hd Hr Hn Hsc EU Hs E. destruct (updateDTXContext_run d r scale n Hd Hr Hn Hsc) as (d' & EU' & _ & Ed).
  rewrite EU in EU'. injection EU' as <-.
  assert (Dtx.previousVADflag (sf_dtx s) = Dtx.previousVADflag d ∧ Dtx.count_fr (sf_dtx s) = Dtx.count_fr d) as [Ev Ec]
    by (rewrite Ed; done). clear Ed EU.
  destruct (encodeSIDFrame_result 10 s s' Hs ltac:(lia) E) as [Hs' (d1 & k & Hcase & T1 & T2 & T3 & T4 & T5 & T6 & T7)].
  split; [apply Hs'|]. split; [done|]. rewrite T5. unfold due in Hcase. rewrite Ev, Ec in Hcase.
  destruct Hcase as [(-> & _ & _ & Hdue & ->)|(-> & Hdue & q & L0 & i1 & i2 & r1 & r2 & r3 & i & Hdes & _)].
  - left. split; [done|]. cbn. destruct (Z.eqb_spec (Dtx.previousVADflag d) 1); [by destruct Hdue|]. split; [done|].
    destruct (Z.ltb_spec (u8 (Dtx.count_fr d + 1)) 3); destruct Hdue as [_ ->]; lia.
  - right. split; [done|]. destruct Hdes as (_ & _ & _ & _ & _ & _ & -> & _). split; [done|].
    destruct (Z.eqb_spec (Dtx.previousVADflag d) 1); [by left|]. right.
    destruct (Z.ltb_spec (u8 (Dtx.count_fr d + 1)) 3); [by destruct Hdue|lia].
Qed.

Lemma noise_run_wait d lens : noise_run d lens → Dtx.wf d → Dtx.previousVADflag d = 0 → 0 ≤ Dtx.count_fr d ≤ 3 →
  ∀ j, lens !! j = Some 2 → 2 - Dtx.count_fr d ≤ Z.of_nat j.
Proof.
  induction 1 as [d|d n r scale s s' lens Hr Hn Hsc EU Hs E _ IH]; intros Hd Hv Hc [|j]; try done; intros Hj.
  - destruct (noise_run_step d n r scale s s') as (_ & _ & [(E0 & _)|(_ & _ & [|H3])]); try done.
    + cbn in Hj. rewrite E0 in Hj. done.
    + lia.
    + rewrite u8_id in H3 by (unfold rng; lia). lia.
  - destruct (noise_run_step d n r scale s s') as (Hd' & Hv' & Hcase); try done. cbn in Hj.
    rewrite u8_id in Hcase by (unfold rng; lia).
    specialize (IH Hd' Hv' ltac:(lia) j Hj). lia.
Qed.

(** C13: the descriptors are spaced: a run of noise frames starts with one when it follows speech,
    every other frame sends two bytes or nothing, and two descriptors are at least three frames
    apart, however the noise changes. *)
Theorem descriptors_spaced d lens : Dtx.wf d → noise_run d lens →
  Forall (λ len, len = 0 ∨ len = 2) lens ∧
  (Dtx.previousVADflag d = 1 → lens = [] ∨ lens !! 0%nat = Some 2) ∧
  ∀ i j, lens !! i = Some 2 → lens !! j = Some 2 → (i < j)%nat → (i + 3 ≤ j)%nat.
Proof.
  intros Hd Hrun. revert Hd. induction Hrun as [d|d n r scale s s' lens Hr Hn Hsc EU Hs E Hrun IH]; intros Hd.
  { split_and!; [done|by left|done]. }
  destruct (noise_run_step d n r scale s s') as (Hd' & Hv' & Hcase); try done.
  destruct (IH Hd') as (IH1 & _ & IH3). split_and!.
  - constructor; [|done]. destruct Hcase as [[-> _]|[-> _]]; auto.
  - intros Hv. right. destruct Hcase as [(_ & ? & _)|[-> _]]; done.
  - intros [|i] [|j] Hi Hj Hij; try lia.
    + cbn in Hi, Hj. destruct Hcase as [[E0 _]|(_ & Hc & _)]; [by rewrite E0 in Hi|].
      pose proof (noise_run_wait (sf_dtx s') lens Hrun Hd' Hv' ltac:(lia) j Hj). lia.
    + specialize (IH3 i j Hi Hj ltac:(lia)). lia.
Qed.

(** A run whose other arrays are the initial ones. *)
Definition frameOf (d : Dtx.ctx) : sidFrame :=
  SidFrame d previousLSPInitialValues previousLSPInitialValues (replicate 4 previousqLSFInit)
    (zeros 234) (zeros 20) (zeros 10) 0.

Lemma frameOf_ok d : Dtx.wf d → sidFrame_ok 10 (frameOf d).
Proof.
  intros Hd. constructor; cbn; try done; first [by apply arr_zeros | apply arr_rng2_by; reflexivity | apply arr_rng_by; reflexivity].
Qed.

Fixpoint runNoise (d : Dtx.ctx) (l : list (list Z * Z)) : res (list Z) :=
  match l with
  | [] => Ok []
  | (r, scale) :: l =>
    let* d := updateDTXContext d r scale in
    let* s := encodeSIDFrame 0 (frameOf d) in
    let* lens := runNoise (sf_dtx s) l in
    Ok (sf_bitStreamLength s :: lens)
  end.

Lemma runNoise_run l d lens : Dtx.wf d → Forall (λ '(r, scale), arr i32r 13 r ∧ i8r scale) l →
  runNoise d l = Ok lens → noise_run d lens.
Proof.
  intros Hd Hl. revert d lens Hd. induction Hl as [|[r scale] l [Hr Hsc] Hl IH]; intros d lens Hd; cbn [runNoise].
  { intros [= <-]. constructor. }
  destruct (updateDTXContext_run d r scale 13 Hd Hr ltac:(lia) Hsc) as (d1 & E1 & Hd1 & _). rewrite E1. cbn [bind].
  destruct (encodeSIDFrame 0 (frameOf d1)) as [s'|] eqn:E2; [|done]. cbn [bind].
  destruct (runNoise (sf_dtx s') l) as [lens'|] eqn:E3; [|done]. intros [= <-].
  destruct (encodeSIDFrame_result 10 _ s' (frameOf_ok d1 Hd1) ltac:(lia) E2) as [[Hs' _ _ _ _ _ _] _].
  apply (noise_run_frame d 13 r scale (frameOf d1)); [done|lia|done|done|by apply frameOf_ok|done|].
  by apply IH.
Qed.

Definition freshDTX : Dtx.ctx := Eval vm_compute in
  match initialDTXContext with Ok c => c | Err _ => Dtx.Mk [] [] 0 0 0 0 0 [] 0 0 0 [] [] 0 end.

Lemma freshDTX_wf : Dtx.wf freshDTX.
Proof. constructor; first [apply arr_rng2_by; reflexivity | apply arr_rng_by; reflexivity | by vm_compute]. Qed.

(** Noise whose level rises by 6 dB every frame. *)
Definition risingNoise : list (list Z * Z) :=
  (λ k, (1073741824 :: 200000000 :: zeros 11, 8 - Z.of_nat k)) <$> seq 0 8.

Lemma risingNoise_ok : Forall (λ '(r, scale), arr i32r 13 r ∧ i8r scale) risingNoise.
Proof. repeat (constructor; [split; [apply arr_rng_by; reflexivity|by vm_compute]|]). constructor. Qed.

Lemma descriptors_spaced_witness :
  runNoise freshDTX risingNoise = Ok [2; 0; 0; 2; 0; 0; 2; 0] ∧
  (let lens := [2; 0; 0; 2; 0; 0; 2; 0] in
   Forall (λ len, len = 0 ∨ len = 2) lens ∧
   (Dtx.previousVADflag freshDTX = 1 → lens = [] ∨ lens !! 0%nat = Some 2) ∧
   ∀ i j, lens !! i = Some 2 → lens !! j = Some 2 → (i < j)%nat → (i + 3 ≤ j)%nat).
Proof.
  assert (runNoise freshDTX risingNoise = Ok [2; 0; 0; 2; 0; 0; 2; 0]) as E by (vm_compute; reflexivity).
  split; [exact E|]. apply (descriptors_spaced freshDTX); [exact freshDTX_wf|].
  exact (runNoise_run risingNoise freshDTX _ freshDTX_wf risingNoise_ok E).
Defined.

(** ** The comfort noise of both sides *)

(** C11: on noise frames the decoder follows the encoder. When both are in step, before a noise
    frame, on the random seed, the past excitation, the spectrum and its history, and (between
    noise frames) on the gains, then they are in step after it: when nothing is sent the decoder
    continues alone and generates the same excitation; when a descriptor is sent, its indices
    below 12 for L2 and a spectrum above the lower limit are what the decoder needs to end in
    the same state. *)
Theorem noise_frames_in_step n s s' t active :
  sidFrame_ok n s → 2 ≤ n → sid_wf t → noise_sync s t active → encodeSIDFrame 0 s = Ok s' →
  sf_bitStreamLength s' = 0 ∧ (∃ t', decodeSIDframe t active None 0 0 = Ok t' ∧ noise_sync s' t' 0) ∨
  sf_bitStreamLength s' = 2 ∧ ∃ L0 i1 i2 i r1 r2 r3,
    packSID [L0; i1; i2] i (sf_bitStream s) = Ok (sf_bitStream s') ∧
    ld L1SubsetIndex i1 = Ok r1 ∧ ld L2SubsetIndex i2 = Ok r2 ∧ ld L3SubsetIndex i2 = Ok r3 ∧
    (i2 < 12 → aboveMin (sf_previousqLSF s) noiseMAPredictor noiseMAPredictorSum L0 r1 r2 r3 = true →
     ∃ t', decodeSIDframe t active (Some (sf_bitStream s')) 2 0 = Ok t' ∧ noise_sync s' t' 0).
Proof.
  intros Hs Hn Ht Hsync E.
  destruct (encodeSIDFrame_result n s s' Hs Hn E) as [_ (d1 & k & [(E0 & _ & Em & Hdue & ->)|(E2 & _ & q & L0 & i1 & i2 & r1 & r2 & r3 & i & H)] & Htail)].
  - left. split; [done|]. by apply (noise_untransmitted n s s' t active k).
  - right. split; [done|]. destruct H as (Hdes & H0 & H1 & H2 & Hi & X1 & X2 & X3 & ER & Eb).
    exists L0, i1, i2, i, r1, r2, r3. split_and!; try done. intros Hlt Ha.
    apply (noise_transmitted n s s' t active d1 q L0 i1 i2 i r1 r2 r3); try done; lia.
Qed.

(** Both sides after creation: the decoder's comfort noise state of a fresh channel. *)
Definition freshSID : sidState := Eval vm_compute in
  match initBcg729DecoderChannel (Heap 1 []) true true with
  | Ok (_, d) => let c := dec_context d in
      SidState (Dec.CNGChannelContext c) (Dec.excitationVector c) (Dec.previousqLSP c) (zeros 20)
        (Dec.CNGpseudoRandomSeed c) (Dec.previousLCodeWord c)
  | Err _ => SidState (Cng.Mk 0 0 [] 0) [] [] [] 0 []
  end.

Lemma freshSID_wf : sid_wf freshSID.
Proof.
  constructor; first [apply arr_rng2_by; reflexivity | apply arr_rng_by; reflexivity | by vm_compute | idtac].
  constructor; first [apply arr_rng_by; reflexivity | by vm_compute].
Qed.

Lemma fresh_sync : noise_sync (frameOf freshDTX) freshSID 1.
Proof. constructor; done. Qed.

Lemma noise_frames_in_step_witness : ∃ s', encodeSIDFrame 0 (frameOf freshDTX) = Ok s' ∧
  (sf_bitStreamLength s' = 0 ∧ (∃ t', decodeSIDframe freshSID 1 None 0 0 = Ok t' ∧ noise_sync s' t' 0) ∨
   sf_bitStreamLength s' = 2 ∧ ∃ L0 i1 i2 i r1 r2 r3,
     packSID [L0; i1; i2] i (sf_bitStream (frameOf freshDTX)) = Ok (sf_bitStream s') ∧
     ld L1SubsetIndex i1 = Ok r1 ∧ ld L2SubsetIndex i2 = Ok r2 ∧ ld L3SubsetIndex i2 = Ok r3 ∧
     (i2 < 12 → aboveMin (sf_previousqLSF (frameOf freshDTX)) noiseMAPredictor noiseMAPredictorSum L0 r1 r2 r3 = true →
      ∃ t', decodeSIDframe freshSID 1 (Some (sf_bitStream s')) 2 0 = Ok t' ∧ noise_sync s' t' 0)).
Proof.
  assert (∃ s', encodeSIDFrame 0 (frameOf freshDTX) = Ok s') as [s' E] by (eexists; vm_compute; reflexivity).
  exists s'. split; [exact E|].
  exact (noise_frames_in_step 10 (frameOf freshDTX) s' freshSID 1 (frameOf_ok freshDTX freshDTX_wf)
    ltac:(lia) freshSID_wf fresh_sync E).
Defined.

(** ** The content of a descriptor *)

(** C32: the two bytes of a descriptor carry its indices, except that the two high bits of L2 go
    through a remainder by 3 where a mask is meant: the decoder reads L2 - 12 for the values 12
    to 15, that is another codebook vector. *)
Theorem packSID_fields L0 i1 i2 i b : 0 ≤ L0 < 2 → 0 ≤ i1 < 32 → 0 ≤ i2 < 16 → 0 ≤ i ≤ 31 → 2 ≤ zlen b →
  ∃ b' b0 b1, packSID [L0; i1; i2] i b = Ok b' ∧ zlen b' = zlen b ∧ ld b' 0 = Ok b0 ∧ ld b' 1 = Ok b1 ∧
    (∀ j, 2 ≤ j → ld b' j = ld b j) ∧
    sidFields b0 b1 = (L0, i1, if i2 <? 12 then i2 else i2 - 12, i).
Proof.
  intros H0 H1 H2 Hi Hb. destruct (packSID_ok L0 i1 i2 i b Hb) as (b' & E & L & B0 & B1 & _ & HR).
  exists b'. do 2 eexists. split_and!; [done|done|exact B0|exact B1|done|]. by apply sidFields_packed.
Qed.

Lemma packSID_fields_witness :
  ∃ b' b0 b1, packSID [1; 29; 13] 17 [0; 0] = Ok b' ∧ zlen b' = 2 ∧ ld b' 0 = Ok b0 ∧ ld b' 1 = Ok b1 ∧
    (∀ j, 2 ≤ j → ld b' j = ld [0; 0] j) ∧ sidFields b0 b1 = (1, 29, 1, 17).
Proof. apply (packSID_fields 1 29 13 17 [0; 0]); by vm_compute. Defined.

(** The energy of the noise, given by its logarithm in Q15, is quantized in steps of 4 dB on
    the indices 1 to 5 and of 2 dB on 6 to 30, with the end indices 0 and 31 for everything below
    and above; the level kept for the next frame is that of the index. *)
Theorem quantizeLogEnergy_steps acc : i32r acc →
  let '(i, level) := quantizeLogEnergy acc in
  0 ≤ i ≤ 31 ∧ level = levelOf i ∧
  (acc < -26214 → i = 0) ∧ (216268 ≤ acc → i = 31) ∧
  (-26214 ≤ acc < 45875 → 1 ≤ i ≤ 5 ∧
    (i = 1 ∧ acc + 19661 < 0 ∨ 32768 * (2 * (i - 1)) ≤ 5 * (acc + 19661) < 32768 * (2 * i))) ∧
  (45875 ≤ acc < 216268 → 6 ≤ i ∧
    (i = 6 ∧ acc < 49152 ∨ 32768 * (i - 6) ≤ 5 * (acc - 49152) < 32768 * (i - 5))).
Proof. apply quantizeLogEnergy_spec. Qed.

Lemma quantizeLogEnergy_steps_witness :
  let '(i, level) := quantizeLogEnergy 100000 in
  0 ≤ i ≤ 31 ∧ level = levelOf i ∧
  (100000 < -26214 → i = 0) ∧ (216268 ≤ 100000 → i = 31) ∧
  (-26214 ≤ 100000 < 45875 → 1 ≤ i ≤ 5 ∧
    (i = 1 ∧ 100000 + 19661 < 0 ∨ 32768 * (2 * (i - 1)) ≤ 5 * (100000 + 19661) < 32768 * (2 * i))) ∧
  (45875 ≤ 100000 < 216268 → 6 ≤ i ∧
    (i = 6 ∧ 100000 < 49152 ∨ 32768 * (i - 6) ≤ 5 * (100000 - 49152) < 32768 * (i - 5))).
Proof. apply (quantizeLogEnergy_steps 100000). unfold rng. lia. Defined.

(** Two noise frames whose autocorrelations have scales more than 31 bits apart cannot be
    summed: the code shifts a 32-bit value by the difference of the scales, which is undefined.
    A quiet frame after a loud one is enough. *)
Theorem sumAutocorrelation_bad_shift :
  (let* d := updateDTXContext freshDTX (1073741824 :: zeros 12) (-5) in
   let* d := updateDTXContext d (1073741824 :: zeros 12) 30 in
   encodeSIDFrame 0 (frameOf d)) = Err BadShift.
Proof. vm_compute. reflexivity. Qed.
