(* ===== verification/PropsFrame.v ===== *)
(** Theorems on the frame encoder and on encoder and decoder together: safety, the contexts a
    channel goes through, the parameters of a frame, predictors that stay in step, and their
    recovery after losses. *)

From S2P Require Import Prelude FixedPoint Codebooks Math Utils Context Heap DecodeLSP DecodeExcitation Synthesis ComfortNoise Decoder.
From S2P Require Import EncContext EncChannel EncGain EncLSP EncFixed EncVad EncDtx Encoder EncSync EncStream.

(** ** Safety *)

(** The faults a frame may reach: a division by zero of the analysis, a shift count out of range
    (matrix scaling of the fixed codebook, scales of the noise frames), an index never set; and,
    with the voice activity detector, a call that does not return. *)
Definition encode_fault (c : Enc.ctx) (f : fault) : Prop :=
  f = DivError ∨ f = BadShift ∨ f = Uninit ∨ (f = NoReturn ∧ Enc.VADChannelContext c ≠ None).

(** C5: the encoder is memory safe: on any well-formed context and any 80 samples, no access is
    out of bounds and no NULL pointer is followed, the context stays well formed, only the ten
    bytes of the bit stream are written, and the length is 10, or 0 or 2 when the channel has a
    voice activity detector; without one the call always returns or divides by zero, shifts by
    an invalid count or uses an index that was never set. *)
Theorem bcg729Encoder_safe c n pcm poff bits :
  encoder_wf c → arr i16r n pcm → 0 ≤ poff → poff + 80 ≤ n → arr u8r 10 bits →
  wp (encode_fault c) (bcg729Encoder c pcm poff bits) (λ '(c', bits', len),
    encoder_wf c' ∧ arr u8r 10 bits' ∧
    (len = 10 ∨ (len = 0 ∨ len = 2) ∧ Enc.VADChannelContext c ≠ None)).
Proof.
  intros Hc Hp H0 Hn Hb. apply (wp_bcg729Encoder _ _ n); unfold encode_fault; auto.
  - destruct (Enc.VADChannelContext c); auto 6.
  - intros c' b' len Hc' Hb' Hres. split; [done|]. split; [done|].
    destruct Hres as [[-> _]|(Hlen & [v ->] & _)]; [by left|by right].
Qed.

(** A fresh channel, with and without the detector. *)
Definition freshEncoder (vad : Z) : Enc.ctx :=
  match initBcg729EncoderChannel (Heap 1 []) true true true vad with
  | Ok (_, e) => enc_context e
  | Err _ => zeroEncoderContext
  end.

Definition quietEncoder : Enc.ctx := Eval vm_compute in freshEncoder 0.
Definition dtxEncoder : Enc.ctx := Eval vm_compute in freshEncoder 1.


Lemma quietEncoder_wf : encoder_wf quietEncoder.
Proof. apply (initial_encoder_wf (Heap 1 []) (Heap 2 [1]) (EncoderChannel 1 None None quietEncoder) 0). by vm_compute. Qed.

Lemma dtxEncoder_wf : encoder_wf dtxEncoder.
Proof. apply (initial_encoder_wf (Heap 1 []) (Heap 4 [3; 2; 1]) (EncoderChannel 1 (Some 2) (Some 3) dtxEncoder) 1). by vm_compute. Qed.

Lemma bcg729Encoder_safe_witness :
  wp (encode_fault dtxEncoder) (bcg729Encoder dtxEncoder (replicate 80 1000) 0 (zeros 10)) (λ '(c', bits', len),
    encoder_wf c' ∧ arr u8r 10 bits' ∧
    (len = 10 ∨ (len = 0 ∨ len = 2) ∧ Enc.VADChannelContext dtxEncoder ≠ None)).
Proof.
  apply (bcg729Encoder_safe dtxEncoder 80);
    [exact dtxEncoder_wf|by apply arr_rng_by|lia|lia|by apply arr_zeros].
Defined.

(** The contexts an encoder channel goes through: created, then any number of frames. *)
Inductive encoder_reachable : Enc.ctx → Prop :=
| encoder_reachable_init h h' e vad :
    initBcg729EncoderChannel h true true true vad = Ok (h', e) → encoder_reachable (enc_context e)
| encoder_reachable_frame c n pcm poff bits c' bits' len :
    encoder_reachable c → arr i16r n pcm → 0 ≤ poff → poff + 80 ≤ n → arr u8r 10 bits →
    bcg729Encoder c pcm poff bits = Ok (c', bits', len) → encoder_reachable c'.

(** What a frame leaves. *)
Lemma encoded_frame c n pcm poff bits c' bits' len : encoder_wf c → arr i16r n pcm → 0 ≤ poff → poff + 80 ≤ n → arr u8r 10 bits →
  bcg729Encoder c pcm poff bits = Ok (c', bits', len) → encoder_wf c' ∧ arr u8r 10 bits' ∧ frame_result c c' bits bits' len.
Proof.
  intros Hc Hp H0 Hn Hb E.
  pose proof (wp_bcg729Encoder any_fault c n pcm poff bits (λ '(c', b', len), encoder_wf c' ∧ arr u8r 10 b' ∧ frame_result c c' bits b' len)
    I I I (or_intror I) Hc Hp H0 Hn Hb (λ _ _ _ A B C, conj A (conj B C))) as H. rewrite E in H. exact H.
Qed.

(** C27: every context an encoder channel reaches is well formed: array sizes and widths, a last
    pitch gain in [0.2, 1.2], VAD and DTX contexts together or not at all, hangover counters
    inside their bounds. *)
Theorem encoder_reachable_wf c : encoder_reachable c → encoder_wf c.
Proof.
  induction 1 as [h h' e vad E|c n pcm poff bits c' bits' len _ IH Hp H0 Hn Hb E]; [by eapply initial_encoder_wf|].
  apply (encoded_frame c n pcm poff bits c' bits' len IH Hp H0 Hn Hb E).
Qed.

(** ** Encoder and decoder together *)

(** The encoder codes some 80 samples. *)
Definition encodes (c c' : Enc.ctx) (bits bits' : list Z) (len : Z) : Prop :=
  ∃ n pcm poff, arr i16r n pcm ∧ 0 ≤ poff ∧ poff + 80 ≤ n ∧ arr u8r 10 bits ∧
    bcg729Encoder c pcm poff bits = Ok (c', bits', len).

(** The decoder is given a frame of [len] bytes and room for 80 samples. *)
Definition receives (d d' : Dec.ctx) (bits : list Z) (len : Z) : Prop :=
  ∃ uninit m signal soff signal', arr u16r 15 uninit ∧ arr i16r m signal ∧ 0 ≤ soff ∧ soff + 80 ≤ m ∧
    receiveFrame d uninit bits len signal soff = Ok (d', signal').

(** An encoder channel, with or without voice activity detector, and the decoder of its stream:
    both created, then any number of frames encoded, received and decoded. The L2 index of a
    descriptor is one that the packing keeps. *)
Inductive coded_stream : Enc.ctx → Dec.ctx → Prop :=
| coded_stream_init h1 h2 h1' h2' vad e d :
    initBcg729EncoderChannel h1 true true true vad = Ok (h1', e) →
    initBcg729DecoderChannel h2 true true = Ok (h2', d) → coded_stream (enc_context e) (dec_context d)
| coded_stream_frame c d c' d' bits bits' len :
    coded_stream c d → encodes c c' bits bits' len → (len = 2 → index_kept c c' bits bits') →
    receives d d' bits' len → coded_stream c' d'.

Lemma fresh_in_step h1 h2 h1' h2' vad e d : initBcg729EncoderChannel h1 true true true vad = Ok (h1', e) →
  initBcg729DecoderChannel h2 true true = Ok (h2', d) → in_step (enc_context e) (dec_context d).
Proof.
  intros E1 E2. unfold initBcg729DecoderChannel in E2. vm_compute in E2. injection E2 as <- <-.
  unfold initBcg729EncoderChannel in E1. destruct (vad =? 1); vm_compute in E1; injection E1 as <- <-.
  - constructor; [reflexivity|]. intros x Ex. injection Ex as <-. split; [reflexivity|]. split; [reflexivity|]. intros H. discriminate H.
  - constructor; [reflexivity|]. intros x Ex. discriminate Ex.
Qed.

Lemma receiveFrame_wf d uninit bits len m signal soff : Dec.wf d → arr u16r 15 uninit → arr u8r 10 bits → arr i16r m signal →
  0 ≤ soff → soff + 80 ≤ m → wp only_div (receiveFrame d uninit bits len signal soff) (λ '(d', _), Dec.wf d').
Proof.
  intros Hd Hu Hb Hs H0 Hm. unfold receiveFrame. repeat case_match; apply (wp_bcg729Decoder _ _ _ _ _ _ _ _ m); try done.
  - right. split; [done|]. split; [done|]. destruct Hb as [Hl Hb]. split; [by apply Forall_take|]. cbn [Z.eqb].
    unfold zlen in *. rewrite length_take. lia.
  - left. auto.
Qed.

Lemma encodes_frame c c' bits bits' len : encoder_wf c → encodes c c' bits bits' len →
  encoder_wf c' ∧ arr u8r 10 bits' ∧ zlen bits = 10 ∧ frame_result c c' bits bits' len.
Proof.
  intros Hc (n & pcm & poff & Hp & H0 & Hn & Hb & E).
  destruct (encoded_frame c n pcm poff bits c' bits' len Hc Hp H0 Hn Hb E) as (? & ? & ?). split_and!; try done. apply Hb.
Qed.

(** A decoder that receives a frame: it stays well formed, and has every property of the result. *)
Lemma receives_frame d d' bits len (Q : Dec.ctx → Prop) : Dec.wf d → arr u8r 10 bits →
  (∀ uninit signal soff, zlen uninit = 15 → wp any_fault (receiveFrame d uninit bits len signal soff) (λ '(d', _), Q d')) →
  receives d d' bits len → Dec.wf d' ∧ Q d'.
Proof.
  intros Hd Hb HQ (uninit & m & signal & soff & signal' & Hu & Hs & S0 & Sm & E). split.
  - pose proof (receiveFrame_wf d uninit bits len m signal soff Hd Hu Hb Hs S0 Sm) as H. rewrite E in H. exact H.
  - pose proof (HQ uninit signal soff (proj1 Hu)) as H. rewrite E in H. exact H.
Qed.

Lemma created_in_step h1 h2 h1' h2' vad e d : initBcg729EncoderChannel h1 true true true vad = Ok (h1', e) →
  initBcg729DecoderChannel h2 true true = Ok (h2', d) →
  encoder_wf (enc_context e) ∧ Dec.wf (dec_context d) ∧ in_step (enc_context e) (dec_context d).
Proof.
  intros E1 E2. split; [by eapply initial_encoder_wf|]. split; [|by eapply fresh_in_step].
  destruct (initBcg729DecoderChannel_run h2) as (c & Hr & Hc). rewrite E2 in Hr. by injection Hr as -> ->.
Qed.

Lemma stream_invariant c d : coded_stream c d → encoder_wf c ∧ Dec.wf d ∧ in_step c d.
Proof.
  induction 1 as [h1 h2 h1' h2' vad e d E1 E2|c d c' d' bits bits' len _ (Hc & Hd & HI) HE Hidx HR]; [by eapply created_in_step|].
  destruct (encodes_frame c c' bits bits' len Hc HE) as (Hc' & Hb' & Lb & Hres). split; [done|].
  apply (receives_frame d d' bits' len (in_step c')); [done|done| |done]. intros uninit signal soff Hu.
  by apply (in_step_frame c c' d bits); [apply Hc|..].
Qed.

(** C3: encoder and decoder stay in step over a whole stream, whatever the order of speech
    frames, noise descriptors and frames that are not sent: from creation on, the predictors of
    the decoder (the history of the spectral quantizer and of the gain quantizer) are those of
    the encoder; both agree on whether the last frame was noise and on the seed of the noise
    generator, and between noise frames on its received and smoothed gains. The descriptors are
    assumed to carry an L2 index that the packing keeps. *)
Theorem stream_in_step c d : coded_stream c d →
  Dec.previousLCodeWord d = Enc.previousqLSF c ∧ Dec.previousGainPredictionError d = Enc.previousGainPredictionError c ∧
  ∀ x, Enc.DTXChannelContext c = Some x →
    negb (Dec.previousFrameIsActiveFlag d =? 0) = (Dtx.previousVADflag x =? 1) ∧
    Dec.CNGpseudoRandomSeed d = Dtx.pseudoRandomSeed x ∧
    (Dec.previousFrameIsActiveFlag d = 0 →
      Cng.receivedSIDGain (Dec.CNGChannelContext d) = Dtx.currentSIDGain x ∧
      Cng.smoothedSIDGain (Dec.CNGChannelContext d) = Dtx.smoothedSIDGain x).
Proof. intros H. destruct (stream_invariant c d H) as (_ & _ & [EP HN]). by injection EP as -> ->. Qed.

(** One frame through both sides. *)
Definition codeFrame (c : Enc.ctx) (d : Dec.ctx) (pcm : list Z) : res (Enc.ctx * Dec.ctx * list Z * Z) :=
  let* (c, bits, len) := bcg729Encoder c pcm 0 (zeros 10) in
  let* (d, signal) := receiveFrame d (zeros 15) bits len (zeros 80) 0 in
  Ok (c, d, bits, len).

(** The L2 field of a descriptor, when it is at least 4, is the index. *)
Lemma index_kept_by c c' bits b0 b1 L0 i1 i2 i : arr u8r 10 bits → ld bits 0 = Ok b0 → ld bits 1 = Ok b1 →
  sidFields b0 b1 = (L0, i1, i2, i) → 4 ≤ i2 → index_kept c c' (zeros 10) bits.
Proof.
  intros Hb E0 E1 EF H4 L0' i1' i2' i' (H0 & H1 & H2 & Hi & Ep & _).
  destruct (packSID_ok L0' i1' i2' i' (zeros 10)) as (b' & Ep' & _ & B0 & B1 & _); [done|]. rewrite Ep in Ep'. injection Ep' as <-.
  rewrite E0 in B0. rewrite E1 in B1. injection B0 as ->. injection B1 as ->.
  rewrite sidFields_packed in EF by lia. injection EF as _ _ EF _. destruct (Z.ltb_spec i2' 12); lia.
Qed.

Lemma codeFrame_stream c d pcm c' d' bits len : coded_stream c d → arr i16r 80 pcm →
  codeFrame c d pcm = Ok (c', d', bits, len) → (len = 2 → index_kept c c' (zeros 10) bits) → coded_stream c' d'.
Proof.
  intros Hcd Hp. unfold codeFrame. destruct (bcg729Encoder c pcm 0 (zeros 10)) as [[[c1 b1] l1]|] eqn:E1; [|done]. cbn [bind].
  destruct (receiveFrame d (zeros 15) b1 l1 (zeros 80) 0) as [[d1 s1]|] eqn:E2; [|done]. cbn [bind].
  intros [= <- <- <- <-] Hidx. apply (coded_stream_frame c d c1 d1 (zeros 10) b1 l1 Hcd); [|done|].
  - exists 80, pcm, 0. split_and!; [done|lia|lia|by apply arr_zeros|exact E1].
  - exists (zeros 15), 80, (zeros 80), 0, s1. split_and!; [by apply arr_zeros|by apply arr_zeros|lia|lia|exact E2].
Qed.

Definition freshDecoder : Dec.ctx := Eval vm_compute in
  match initBcg729DecoderChannel (Heap 1 []) true true with
  | Ok (_, d) => dec_context d
  | Err _ => zeroDecoderContext
  end.

Lemma fresh_stream : coded_stream dtxEncoder freshDecoder.
Proof.
  apply (coded_stream_init (Heap 1 []) (Heap 1 []) (Heap 4 [3; 2; 1]) (Heap 3 [2; 1]) 1
    (EncoderChannel 1 (Some 2) (Some 3) dtxEncoder) (DecoderChannel 1 (Some 2) freshDecoder)); by vm_compute.
Qed.

(** A frame of faint noise. *)
Definition faintNoise : list Z := (λ k, (Z.of_nat k * 7) mod 5 - 3) <$> seq 0 80.

(** A frame of a triangular wave. *)
Definition tone : list Z := (λ k, 300 * Z.abs (Z.of_nat k mod 40 - 20) - 3000) <$> seq 0 80.

Lemma tone_arr : arr i16r 80 tone.
Proof. by apply arr_rng_by. Qed.

(** A descriptor, then a frame that is not sent: both sides agree on the gains. *)
Lemma stream_in_step_witness :
  ∃ c1 d1 c d bits1 bits, codeFrame dtxEncoder freshDecoder faintNoise = Ok (c1, d1, bits1, 2) ∧
    codeFrame c1 d1 faintNoise = Ok (c, d, bits, 0) ∧ Dec.previousFrameIsActiveFlag d = 0 ∧
    Dec.previousLCodeWord d = Enc.previousqLSF c ∧ Dec.previousGainPredictionError d = Enc.previousGainPredictionError c ∧
    ∀ x, Enc.DTXChannelContext c = Some x →
      negb (Dec.previousFrameIsActiveFlag d =? 0) = (Dtx.previousVADflag x =? 1) ∧
      Dec.CNGpseudoRandomSeed d = Dtx.pseudoRandomSeed x ∧
      (Dec.previousFrameIsActiveFlag d = 0 →
        Cng.receivedSIDGain (Dec.CNGChannelContext d) = Dtx.currentSIDGain x ∧
        Cng.smoothedSIDGain (Dec.CNGChannelContext d) = Dtx.smoothedSIDGain x).
Proof.
  assert (arr i16r 80 faintNoise) as Hn by (apply arr_rng_by; reflexivity).
  assert (∃ r, codeFrame dtxEncoder freshDecoder faintNoise = Ok (r, [61; 64; 0; 0; 0; 0; 0; 0; 0; 0], 2) ∧
    ∃ r2 b, codeFrame r.1 r.2 faintNoise = Ok (r2, b, 0) ∧ Dec.previousFrameIsActiveFlag r2.2 = 0) as ([c1 d1] & E1 & [c d] & b & E & EF).
  { eexists (_, _). split; [vm_compute; reflexivity|]. eexists (_, _), _. split; [vm_compute; reflexivity|reflexivity]. }
  exists c1, d1, c, d, [61; 64; 0; 0; 0; 0; 0; 0; 0; 0], b. split; [exact E1|]. split; [exact E|]. split; [exact EF|].
  apply (stream_in_step c d).
  assert (coded_stream c1 d1) as H1.
  { apply (codeFrame_stream _ _ _ c1 d1 _ 2 fresh_stream Hn E1). intros _.
    apply (index_kept_by dtxEncoder c1 _ 61 64 0 15 5 0); [apply arr_rng_by; reflexivity|reflexivity|reflexivity|reflexivity|lia]. }
  apply (codeFrame_stream c1 d1 faintNoise c d b 0 H1 Hn E). intros H. discriminate H.
Defined.

(** ** Losses *)

(** How many speech frames in a row the decoder has received, counted from the last loss; a noise
    frame only helps a decoder that is in step. *)
Definition heard (k : nat) (lost : bool) (len : Z) : nat :=
  if lost then 0%nat else if len =? 10 then S k else if (4 <=? k)%nat then k else 0%nat.

(** A stream some frames of which are lost: the decoder conceals them. A descriptor whose L2 index
    the packing has altered counts as a loss, although the decoder takes it for received. *)
Inductive lossy_stream : nat → Enc.ctx → Dec.ctx → Prop :=
| lossy_stream_init h1 h2 h1' h2' vad e d :
    initBcg729EncoderChannel h1 true true true vad = Ok (h1', e) →
    initBcg729DecoderChannel h2 true true = Ok (h2', d) → lossy_stream 4 (enc_context e) (dec_context d)
| lossy_stream_frame k c d c' d' bits bits' len lost :
    lossy_stream k c d → encodes c c' bits bits' len → (lost = false → len = 2 → index_kept c c' bits bits') →
    receives d d' bits' (if lost : bool then 0 else len) → lossy_stream (heard k lost len) c' d'
| lossy_stream_altered k c d c' d' bits bits' :
    lossy_stream k c d → encodes c c' bits bits' 2 → receives d d' bits' 2 → lossy_stream 0 c' d'.

Lemma heard_step k lost c c' d bits bits' len uninit signal soff : encoder_wf c → Dec.wf d → zlen bits = 10 → zlen uninit = 15 →
  partly_in_step k c d → frame_result c c' bits bits' len → (lost = false → len = 2 → index_kept c c' bits bits') →
  wp any_fault (receiveFrame d uninit bits' (if lost : bool then 0 else len) signal soff)
    (λ '(d', _), partly_in_step (heard k lost len) c' d').
Proof.
  intros [Hc _] Hd Hb Hu HI Hres Hidx. unfold heard. destruct lost; [by apply any_wp; intros [d' s'] _; split; [|lia]|].
  destruct (Z.eqb_spec len 10) as [->|]; [by apply (partly_in_step_frame k c c' d bits)|].
  destruct (Nat.leb_spec 4 k); [|by apply any_wp; intros [d' s'] _; split; [|lia]].
  eapply wp_mono; [apply (in_step_frame c c' d bits); try done; [by apply (partly_in_step_all k)|by apply Hidx]|].
  intros [d' s'] HI'. by apply in_step_partly.
Qed.

Lemma lossy_invariant k c d : lossy_stream k c d → encoder_wf c ∧ Dec.wf d ∧ partly_in_step k c d.
Proof.
  induction 1 as [h1 h2 h1' h2' vad e d E1 E2|k c d c' d' bits bits' len lost _ (Hc & Hd & HI) HE Hidx HR|
    k c d c' d' bits bits' _ (Hc & Hd & HI) HE HR].
  - destruct (created_in_step h1 h2 h1' h2' vad e d E1 E2) as (? & ? & ?). split_and!; try done. by apply in_step_partly.
  - destruct (encodes_frame c c' bits bits' len Hc HE) as (Hc' & Hb' & Lb & Hres). split; [done|].
    apply (receives_frame d d' bits' (if lost then 0 else len) (partly_in_step (heard k lost len) c') Hd Hb'); [|done].
    intros uninit signal soff Hu. by apply (heard_step k lost c c' d bits).
  - destruct (encodes_frame c c' bits bits' 2 Hc HE) as (Hc' & Hb' & _ & _). split; [done|].
    apply (receives_frame d d' bits' 2 (partly_in_step 0 c') Hd Hb'); [|done].
    intros uninit signal soff _. by apply any_wp; intros [d1 s1] _; split; [|lia].
Qed.

(** C4: the decoder recovers from losses: whatever was lost before, whatever state the
    concealment left it in, and whatever descriptors the packing altered, two speech frames received in a row restore the gain predictor of the
    encoder, and four restore every predictor and the noise generator, so that the stream is in
    step again. *)
Theorem stream_recovers k c d : lossy_stream k c d →
  ((2 ≤ k)%nat → Dec.previousGainPredictionError d = Enc.previousGainPredictionError c) ∧
  ((4 ≤ k)%nat → in_step c d).
Proof.
  intros H. apply lossy_invariant in H as ([Hc _] & Hd & HI). split; intros Hk.
  - by apply (agree_gains k c d Hc Hd Hk (proj1 HI)).
  - by apply (partly_in_step_all k).
Qed.

(** One frame, lost or not. *)
Definition sendFrame (lost : bool) (c : Enc.ctx) (d : Dec.ctx) (pcm : list Z) : res (Enc.ctx * Dec.ctx * Z) :=
  let* (c, bits, len) := bcg729Encoder c pcm 0 (zeros 10) in
  let* (d, signal) := receiveFrame d (zeros 15) bits (if lost then 0 else len) (zeros 80) 0 in
  Ok (c, d, len).

Lemma sendFrame_stream k lost c d pcm c' d' : lossy_stream k c d → arr i16r 80 pcm →
  sendFrame lost c d pcm = Ok (c', d', 10) → lossy_stream (if lost then 0 else S k) c' d'.
Proof.
  intros Hcd Hp. unfold sendFrame. destruct (bcg729Encoder c pcm 0 (zeros 10)) as [[[c1 b1] l1]|] eqn:E1; [|done]. cbn [bind].
  destruct (receiveFrame d (zeros 15) b1 (if lost then 0 else l1) (zeros 80) 0) as [[d1 s1]|] eqn:E2; [|done]. cbn [bind].
  intros [= <- <- ->]. apply (lossy_stream_frame k c d c1 d1 (zeros 10) b1 10 lost Hcd); [|by intros|].
  - exists 80, pcm, 0. split_and!; [done|lia|lia|by apply arr_zeros|exact E1].
  - exists (zeros 15), 80, (zeros 80), 0, s1. split_and!; [by apply arr_zeros|by apply arr_zeros|lia|lia|exact E2].
Qed.

(** A frame lost, then two frames received: the gains agree, the spectra do not yet; after two
    more the stream is in step. *)
Lemma stream_recovers_witness : ∃ c2 d2 c4 d4,
  (let* (c, d, _) := sendFrame true quietEncoder freshDecoder tone in
   let* (c, d, _) := sendFrame false c d tone in sendFrame false c d tone) = Ok (c2, d2, 10) ∧
  (let* (c, d, _) := sendFrame false c2 d2 tone in sendFrame false c d tone) = Ok (c4, d4, 10) ∧
  Dec.previousGainPredictionError d2 = Enc.previousGainPredictionError c2 ∧
  Dec.previousLCodeWord d2 ≠ Enc.previousqLSF c2 ∧ in_step c4 d4.
Proof.
  assert (lossy_stream 4 quietEncoder freshDecoder) as H0.
  { apply (lossy_stream_init (Heap 1 []) (Heap 1 []) (Heap 2 [1]) (Heap 3 [2; 1]) 0
      (EncoderChannel 1 None None quietEncoder) (DecoderChannel 1 (Some 2) freshDecoder)); by vm_compute. }
  assert (∃ r0 r1 r2 r3 r4, sendFrame true quietEncoder freshDecoder tone = Ok (r0, 10) ∧ sendFrame false r0.1 r0.2 tone = Ok (r1, 10) ∧
    sendFrame false r1.1 r1.2 tone = Ok (r2, 10) ∧ sendFrame false r2.1 r2.2 tone = Ok (r3, 10) ∧
    sendFrame false r3.1 r3.2 tone = Ok (r4, 10) ∧
    bool_decide (Dec.previousLCodeWord r2.2 = Enc.previousqLSF r2.1) = false) as
    ([c0 d0] & [c1 d1] & [c2 d2] & [c3 d3] & [c4 d4] & E0 & E1 & E2 & E3 & E4 & EX).
  { do 5 eexists (_, _). split; [vm_compute; reflexivity|]. do 4 (split; [vm_compute; reflexivity|]). vm_compute; reflexivity. }
  cbn [fst snd] in *. exists c2, d2, c4, d4.
  assert (lossy_stream 2 c2 d2) as H2.
  { eapply (sendFrame_stream 1 false); [|exact tone_arr|exact E2]. eapply (sendFrame_stream 0 false); [|exact tone_arr|exact E1].
    exact (sendFrame_stream 4 true _ _ _ _ _ H0 tone_arr E0). }
  assert (lossy_stream 4 c4 d4) as H4.
  { eapply (sendFrame_stream 3 false); [|exact tone_arr|exact E4]. exact (sendFrame_stream 2 false _ _ _ _ _ H2 tone_arr E3). }
  split; [rewrite E0; cbn [bind]; rewrite E1; cbn [bind]; exact E2|].
  split; [rewrite E3; cbn [bind]; exact E4|].
  split; [apply (proj1 (stream_recovers 2 c2 d2 H2)); lia|].
  split; [by apply bool_decide_eq_false in EX|apply (proj2 (stream_recovers 4 c4 d4 H4)); lia].
Defined.

Lemma encoder_reachable_wf_witness :
  ∃ c bits len, bcg729Encoder dtxEncoder tone 0 (zeros 10) = Ok (c, bits, len) ∧ encoder_wf c.
Proof.
  assert (encoder_reachable dtxEncoder) as H0.
  { apply (encoder_reachable_init (Heap 1 []) (Heap 4 [3; 2; 1]) (EncoderChannel 1 (Some 2) (Some 3) dtxEncoder) 1). by vm_compute. }
  assert (arr u8r 10 (zeros 10)) as Hb by (by apply arr_zeros).
  assert (∃ r, bcg729Encoder dtxEncoder tone 0 (zeros 10) = Ok r) as [[[c bits] len] E] by (eexists; vm_compute; reflexivity).
  exists c, bits, len. split; [exact E|].
  exact (encoder_reachable_wf c (encoder_reachable_frame _ 80 tone 0 (zeros 10) c bits len H0 tone_arr ltac:(lia) ltac:(lia) Hb E)).
Defined.

(** A frame of a louder triangular wave, of period 40. *)
Definition loudTone : list Z := (λ k, 1000 * Z.abs (Z.of_nat k mod 40 - 20) - 10000) <$> seq 0 80.

(** The excitation, unlike the predictors, is not kept in step: two frames of a wave of period 40
    suffice for the memories of the two sides to differ, because the encoder sharpens the code
    vector with a gain of up to 1.2 where the decoder stops at 0.8. *)
Theorem excitation_diverges : ∃ c d bits,
  (let* (c1, d1, _, _) := codeFrame quietEncoder freshDecoder loudTone in codeFrame c1 d1 loudTone) = Ok (c, d, bits, 10) ∧
  Dec.previousGainPredictionError d = Enc.previousGainPredictionError c ∧
  take 154 (Dec.excitationVector d) ≠ take 154 (Enc.excitationVector c).
Proof.
  assert (∃ r b, (let* (c1, d1, _, _) := codeFrame quietEncoder freshDecoder loudTone in codeFrame c1 d1 loudTone) = Ok (r, b, 10) ∧
    Dec.previousGainPredictionError r.2 = Enc.previousGainPredictionError r.1 ∧
    bool_decide (take 154 (Dec.excitationVector r.2) = take 154 (Enc.excitationVector r.1)) = false) as ([c d] & b & E & EG & EX).
  { eexists (_, _), _. split; [vm_compute; reflexivity|]. split; vm_compute; reflexivity. }
  exists c, d, b. split; [exact E|]. split; [exact EG|]. by apply bool_decide_eq_false in EX.
Qed.

(** ** The content of a frame *)

(** C18: what the encoder packs is what the decoder unpacks: the ten bytes of an active frame
    unpack to fifteen parameters that fit their fields, whose parity bit is that of the first
    pitch codeword, so that the decoder raises no parity error and reads valid indices. *)
Theorem encoded_frame_fields c n pcm poff bits c' bits' q :
  encoder_wf c → arr i16r n pcm → 0 ≤ poff → poff + 80 ≤ n → arr u8r 10 bits →
  bcg729Encoder c pcm poff bits = Ok (c', bits', 10) → zlen q = 15 →
  ∃ p P1 P0, parametersBitStream2Array bits' q = Ok p ∧ params_ok p ∧ ld p 4 = Ok P1 ∧ ld p 5 = Ok P0 ∧
    computeParity P1 = Ok P0.
Proof.
  intros Hc Hp H0 Hn Hb E Hq.
  destruct (encoded_frame c n pcm poff bits c' bits' 10 Hc Hp H0 Hn Hb E) as (_ & _ & H).
  destruct H as [(_ & (p & HA & Ep) & _)|[[|] _]]; [|lia..].
  destruct HA as (L0 & i1 & i2 & i3 & P1 & P0 & C1 & S1 & GA1 & GB1 & P2 & C2 & S2 & GA2 & GB2 & _ & _ & _ & _ & _ & _ & _ & -> & Hok & Hpar & _).
  pose proof (unpack_packed _ bits q Hok (proj1 Hb) Hq) as EU. rewrite Ep in EU. cbn [bind] in EU.
  by eexists _, P1, P0.
Qed.

Lemma encoded_frame_fields_witness :
  ∃ c bits, bcg729Encoder quietEncoder tone 0 (zeros 10) = Ok (c, bits, 10) ∧
  ∃ p P1 P0, parametersBitStream2Array bits (zeros 15) = Ok p ∧ params_ok p ∧ ld p 4 = Ok P1 ∧ ld p 5 = Ok P0 ∧
    computeParity P1 = Ok P0.
Proof.
  assert (arr u8r 10 (zeros 10)) as Hb by (by apply arr_zeros).
  assert (∃ r, bcg729Encoder quietEncoder tone 0 (zeros 10) = Ok (r, 10)) as [[c bits] E] by (eexists; vm_compute; reflexivity).
  exists c, bits. split; [exact E|].
  exact (encoded_frame_fields quietEncoder 80 tone 0 (zeros 10) c bits (zeros 15) quietEncoder_wf tone_arr ltac:(lia) ltac:(lia) Hb E eq_refl).
Defined.

(** The whole encoder, run on silence: without the detector a fresh channel sends ten
    fixed bytes, 78 52 80 a0 00 fa c2 00 07 d6; with it, it sends a descriptor of
    two bytes, then nothing. *)
Theorem silence_frames :
  (let* (_, bits, len) := bcg729Encoder quietEncoder (zeros 80) 0 (zeros 10) in Ok (bits, len)) =
    Ok ([120; 82; 128; 160; 0; 250; 194; 0; 7; 214], 10) ∧
  (let* (c, bits, len) := bcg729Encoder dtxEncoder (zeros 80) 0 (zeros 10) in
   let* (_, _, len2) := bcg729Encoder c (zeros 80) 0 (zeros 10) in Ok (take 2 bits, len, len2)) =
    Ok ([52; 64], 2, 0).
Proof. split; vm_compute; reflexivity. Qed.

(** ** The payload of RFC3389 *)

(** The quantized reflection coefficient. *)
Definition quantizedReflection (k : Z) : Z := 127 * - k / 2147483648.

Lemma quantizedReflection_bounds k : -2147483648 < k ≤ 2147483647 → -127 ≤ quantizedReflection k ≤ 126.
Proof. intros Hk. unfold quantizedReflection. split; [apply Z.div_le_lower_bound|apply Zlt_succ_le, Z.div_lt_upper_bound]; lia. Qed.

Lemma payload_byte k : -2147483648 < k ≤ 2147483647 →
  u8 (ADD16 (i16 (SHR (MULT16_32_Q15 127 (i32 (- k))) 16)) 127) = 127 + quantizedReflection k.
Proof.
  intros Hk. pose proof (quantizedReflection_bounds k Hk) as Hq. unfold MULT16_32_Q15.
  rewrite (i32_id (- k)) by (unfold rng; lia).
  assert (-65536 ≤ - k / 2 ^ 15 ≤ 65535) as Hd.
  { change (2 ^ 15) with 32768. split; [apply Z.div_le_lower_bound|apply Zlt_succ_le, Z.div_lt_upper_bound]; lia. }
  rewrite MULT16_32_Q_floor by (unfold rng; lia). unfold SHR. rewrite Z.shiftr_div_pow2, Z.div_div by lia.
  change (2 ^ 15 * 2 ^ 16) with 2147483648. fold (quantizedReflection k).
  unfold ADD16. rewrite !(i16_id (quantizedReflection k)), (i16_id 127), i16_id, u8_id by (unfold rng; lia). lia.
Qed.

Lemma payload_written c d payload : Enc.DTXChannelContext c = Some d → Dtx.wf d →
  (∀ i, 0 ≤ i < 10 → -2147483648 < at_ (Dtx.reflectionCoefficients d) i) → zlen payload = 11 →
  ∃ p, bcg729GetRFC3389Payload c payload = Ok p ∧ zlen p = 11 ∧ at_ p 0 = u8 (90 - Dtx.decodedLogEnergy d) ∧
    ∀ i, 0 ≤ i < 10 → at_ p (i + 1) = 127 + quantizedReflection (at_ (Dtx.reflectionCoefficients d) i).
Proof.
  intros Ed Hd Hk Hp. pose proof (Dtx.wf_reflectionCoefficients d Hd) as Hr. unfold bcg729GetRFC3389Payload. rewrite Ed.
  rewrite st_ok by lia. cbn [bind]. set (b := u8 (- (Dtx.decodedLogEnergy d - 90))).
  assert (b = u8 (90 - Dtx.decodedLogEnergy d)) as <- by (unfold b; f_equal; lia). clearbody b.
  apply safe_ok, wp_for_up with (I := λ n p, zlen p = 11 ∧ at_ p 0 = b ∧
    ∀ i, 0 ≤ i < n → at_ p (i + 1) = 127 + quantizedReflection (at_ (Dtx.reflectionCoefficients d) i)); unfold NB_LSP_COEFF; [lia| | |done].
  - split; [by rewrite zlen_insert|]. split; [|lia]. by rewrite at_insert by lia.
  - intros n p Hn (Lp & E0 & HI). rewrite ld_at by (rewrite (proj1 Hr); lia). cbn [bind]. rewrite st_ok by lia. cbn [wp].
    pose proof (at_arr _ _ _ n Hr ltac:(lia)) as Hkn. specialize (Hk n ltac:(lia)). unfold rng in Hkn. rewrite payload_byte by lia.
    split; [by rewrite zlen_insert|]. split; [rewrite at_insert by lia; by destruct (Z.eqb_spec (n + 1) 0); [lia|]|].
    intros i Hi. rewrite at_insert by lia. destruct (Z.eqb_spec (n + 1) (i + 1)); [by replace i with n by lia|apply HI; lia].
Qed.

Lemma payload_read p : zlen p = 11 → ∃ k, reflectionCoefficients p 11 = Ok k ∧
  ∀ i, 0 ≤ i < 10 → at_ k i = i16 (MULT16_16 (ADD16 (at_ p (i + 1)) 127) 258).
Proof.
  intros Hp. unfold reflectionCoefficients. change (u8 (11 - 1)) with 10. change (if NB_LSP_COEFF <? 10 then NB_LSP_COEFF else 10) with 10.
  change NB_LSP_COEFF with 10. apply safe_ok. apply wp_bind. apply wp_for_up with (I := λ n k, zlen k = 10 ∧
    ∀ i, 0 ≤ i < n → at_ k i = i16 (MULT16_16 (ADD16 (at_ p (i + 1)) 127) 258)); [lia|split; [done|lia]| |].
  - intros n k Hn [Lk HI]. rewrite ld_at by lia. cbn [bind]. rewrite st_ok by lia. cbn [wp]. split; [by rewrite zlen_insert|].
    intros i Hi. rewrite at_insert by lia. destruct (Z.eqb_spec n i) as [->|]; [done|apply HI; lia].
  - intros k [Lk HI]. exact HI.
Qed.

(** What the decoder makes of a byte. *)
Lemma decodedReflection q : -127 ≤ q ≤ 126 →
  i16 (MULT16_16 (ADD16 (127 + q) 127) 258) = if q =? -127 then 32766 else 258 * q - 4.
Proof.
  intros Hq. exhaust 8%nat (-127) 129 (λ q, (126 <? q) ||
    (i16 (MULT16_16 (ADD16 (127 + q) 127) 258) =? if q =? -127 then 32766 else 258 * q - 4)) q as H. lia.
Qed.

(** C33: the RFC3389 payload of the last descriptor is eleven bytes: the level below overload, and
    the ten reflection coefficients k, in Q31, rounded to 7 bits with their sign changed. A
    decoder recovers -k, in Q15, to within 264 units, except for the coefficients above 126/127,
    which are the byte 0 and come back as the opposite extreme. *)
Theorem rfc3389_reflection_roundtrip c d payload :
  Enc.DTXChannelContext c = Some d → Dtx.wf d →
  (∀ i, 0 ≤ i < 10 → -2147483648 < at_ (Dtx.reflectionCoefficients d) i) → zlen payload = 11 →
  ∃ p k', bcg729GetRFC3389Payload c payload = Ok p ∧ reflectionCoefficients p 11 = Ok k' ∧
    at_ p 0 = u8 (90 - Dtx.decodedLogEnergy d) ∧
    ∀ i, 0 ≤ i < 10 →
      let k := at_ (Dtx.reflectionCoefficients d) i in
      0 ≤ at_ p (i + 1) ≤ 253 ∧
      if 126 * 2147483648 <? 127 * k then at_ k' i = 32766
      else -17302536 ≤ 65536 * at_ k' i + k ≤ 0.
Proof.
  intros Ed Hd Hk Hp. destruct (payload_written c d payload Ed Hd Hk Hp) as (p & E & Lp & E0 & HP).
  destruct (payload_read p Lp) as (k' & E' & HK). exists p, k'. split_and!; try done.
  intros i Hi. cbv zeta. specialize (Hk i Hi). rewrite HK, HP by lia.
  pose proof (at_arr _ _ _ i (Dtx.wf_reflectionCoefficients d Hd) Hi) as Hr. unfold rng in Hr.
  set (k := at_ (Dtx.reflectionCoefficients d) i) in *. clearbody k.
  pose proof (quantizedReflection_bounds k ltac:(lia)) as Hq. split; [lia|].
  rewrite decodedReflection by lia.
  assert (2147483648 * quantizedReflection k ≤ 127 * - k < 2147483648 * (quantizedReflection k + 1)) as Hdiv
    by (unfold quantizedReflection; pose proof (Z.mul_div_le (127 * - k) 2147483648); pose proof (Z.mul_succ_div_gt (127 * - k) 2147483648); lia).
  set (q := quantizedReflection k) in *. clearbody q.
  destruct (Z.ltb_spec (126 * 2147483648) (127 * k)), (Z.eqb_spec q (-127)); lia.
Qed.

Lemma rfc3389_reflection_roundtrip_witness :
  ∃ d p k', Enc.DTXChannelContext dtxEncoder = Some d ∧
    bcg729GetRFC3389Payload dtxEncoder (zeros 11) = Ok p ∧ reflectionCoefficients p 11 = Ok k' ∧
    at_ p 0 = u8 (90 - Dtx.decodedLogEnergy d) ∧
    ∀ i, 0 ≤ i < 10 →
      let k := at_ (Dtx.reflectionCoefficients d) i in
      0 ≤ at_ p (i + 1) ≤ 253 ∧
      if 126 * 2147483648 <? 127 * k then at_ k' i = 32766
      else -17302536 ≤ 65536 * at_ k' i + k ≤ 0.
Proof.
  assert (∃ d, Enc.DTXChannelContext dtxEncoder = Some d) as [d Ed] by (eexists; reflexivity).
  pose proof (Enc.wf_DTXChannelContext _ (ew_wf _ dtxEncoder_wf)) as Hd. rewrite Ed in Hd.
  assert (∀ i, 0 ≤ i < 10 → -2147483648 < at_ (Dtx.reflectionCoefficients d) i) as Hk.
  { injection Ed as <-. intros i Hi.
    match goal with |- _ < at_ ?l i => pose proof (at_arr (rng 0 0) 10 l i ltac:(apply arr_rng_by; reflexivity) Hi) as H end.
    unfold rng in H. lia. }
  destruct (rfc3389_reflection_roundtrip dtxEncoder d (zeros 11) Ed Hd Hk eq_refl) as (p & k' & H).
  exists d, p, k'. exact (conj Ed H).
Defined.
