(* ===== verification/PropsSession.v ===== *)
(** The codec module with its real channels: what holds from the creation of a codec through any
    sequence of calls of its encode and decode handlers ([mod_bcg729.c], [encoder.c],
    [decoder.c]). *)

From S2P Require Import Prelude FixedPoint Context Utils Heap Synthesis ComfortNoise Decoder EncContext EncChannel EncDtx Encoder ModBcg729.

(** Both channels of a codec, when it has them, are well formed. *)
Definition codec_ok (codec : switch_codec decoderChannel encoderChannel) : Prop :=
  match private_info codec with
  | Some context =>
    from_option (λ e, encoder_wf (enc_context e)) True (encoder_object context) ∧
    from_option (λ d, Dec.wf (dec_context d)) True (decoder_object context)
  | None => True
  end.

Lemma created_ok FE FD h codec flags vad h' codec' :
  switch_bcg729_init FE FD h codec flags vad true true true true true true = Ok (h', SWITCH_STATUS_SUCCESS, codec') →
  codec_ok codec'.
Proof.
  unfold switch_bcg729_init. destruct (negb _ || _); [done|]. cbv zeta.
  set (v := if negb (vad =? 0) then 1 else 0).
  destruct (initBcg729EncoderChannel h true true true v) as [[h1 e]|] eqn:Ee.
  2:{ destruct (initBcg729EncoderChannel_run h v) as (c & _ & E). by rewrite E in Ee. }
  pose proof (initial_encoder_wf _ _ _ _ Ee) as He.
  assert (∀ h2 d h3, initBcg729DecoderChannel h2 true true = Ok (h3, d) → Dec.wf (dec_context d)) as Hd.
  { intros h2 d h3 E. destruct (initBcg729DecoderChannel_run h2) as (c & Hr & Hc). rewrite E in Hr. by injection Hr as -> ->. }
  destruct (negb (Z.land flags FE =? 0)); cbn [bind is_null andb]; destruct (negb (Z.land flags FD =? 0)); cbn [bind is_null andb].
  - destruct (initBcg729DecoderChannel h1 true true) as [[h2 d]|] eqn:Ed; [|done]. cbn [bind is_null]. intros [= _ <-].
    split; [done|]. by eapply Hd.
  - intros [= _ <-]. done.
  - destruct (initBcg729DecoderChannel h true true) as [[h2 d]|] eqn:Ed; [|done]. cbn [bind is_null]. intros [= _ <-].
    split; [done|]. by eapply Hd.
  - intros [= _ <-]. done.
Qed.

Section Session.
Context (uninit : list Z) (Huninit : arr u16r 15 uninit).
#[local] Existing Instance channelEncoder.
#[local] Instance sessionDecoder : FrameDecoder decoderChannel := channelDecoder uninit Huninit.

(** The arguments of the handlers: buffers of samples and bytes with the announced sizes. *)
Definition encode_args (n : Z) (pcm : list Z) (dlen m : Z) (bits : list Z) (elen : Z) : Prop :=
  arr i16r n pcm ∧ 0 ≤ dlen ≤ 2 * n ∧ dlen < 4294967296 ∧ arr u8r m bits ∧ 0 ≤ elen ≤ m ∧ elen + 10 < 4294967296.

Definition decode_args (packet : list Z) (n m : Z) (out : list Z) (dlen : Z) : Prop :=
  Forall u8r packet ∧ 0 ≤ n ≤ zlen packet ∧ n < 4294967296 ∧ arr i16r m out ∧ 0 ≤ dlen ≤ 2 * m ∧ dlen + 160 < 4294967296.

Lemma encode_keeps codec n pcm dlen m bits elen : codec_ok codec → encode_args n pcm dlen m bits elen →
  wp sid_fault (switch_bcg729_encode codec pcm dlen bits elen)
    (λ '(status, codec', bits', len'), codec_ok codec' ∧ arr u8r m bits' ∧ 0 ≤ len' ≤ elen).
Proof.
  intros Hok (Hp & Hd & Hd2 & Hb & He & He2). unfold codec_ok in Hok.
  destruct (private_info codec) as [context|] eqn:Ec.
  2:{ unfold switch_bcg729_encode. rewrite Ec. cbn [wp]. split; [by unfold codec_ok; rewrite Ec|]. by split; [|lia]. }
  destruct (encoder_object context) as [e|] eqn:Ee.
  2:{ unfold switch_bcg729_encode. rewrite Ec, Ee. cbn [wp]. split; [unfold codec_ok; rewrite Ec, Ee; done|]. by split; [|lia]. }
  destruct Hok as [Hwe Hwd]. destruct (Z.eq_dec (dlen mod 160) 0) as [Hmod|Hmod].
  - eapply wp_mono; [exact (encode_packet_run codec context e n pcm dlen m bits elen Ec Ee Hwe Hp Hd Hd2 Hmod Hb He He2)|].
    intros [[[status codec'] bits'] len'] (Hb' & _ & Hl & (e' & -> & He') & _). done.
  - unfold switch_bcg729_encode. rewrite Ec, Ee. unfold BCG729_PCM_BYTES_PER_FRAME.
    destruct (Z.eqb_spec (dlen mod 160) 0); [done|]. cbn [wp negb]. split; [unfold codec_ok; by rewrite Ec, Ee|]. by split; [|lia].
Qed.

Lemma decode_keeps codec packet n m out dlen : codec_ok codec → decode_args packet n m out dlen →
  wp only_div (switch_bcg729_decode codec packet n out dlen)
    (λ '(status, codec', out', len'), codec_ok codec' ∧ arr i16r m out' ∧ 0 ≤ len' ≤ dlen).
Proof.
  intros Hok (Hp & Hn & Hn2 & Ho & Hd & Hd2). unfold codec_ok in Hok.
  destruct (private_info codec) as [context|] eqn:Ec.
  2:{ unfold switch_bcg729_decode. rewrite Ec. cbn [wp]. split; [by unfold codec_ok; rewrite Ec|]. by split; [|lia]. }
  destruct (decoder_object context) as [d|] eqn:Ed.
  2:{ unfold switch_bcg729_decode. rewrite Ec, Ed. cbn [wp]. split; [unfold codec_ok; rewrite Ec, Ed; done|]. by split; [|lia]. }
  destruct Hok as [Hwe Hwd].
  eapply wp_mono; [exact (decode_packet_safe codec context d packet n out m dlen Ec Ed Hwd Hp Hn Hn2 Ho Hd Hd2)|].
  intros [[[status codec'] out'] len'] (Ho' & Hl & d' & -> & Hd'). done.
Qed.

(** The states of a codec: created with either or both channels, then handler calls in any order. *)
Inductive codec_session : switch_codec decoderChannel encoderChannel → Prop :=
| session_init FE FD h codec flags vad h' codec' :
    switch_bcg729_init FE FD h codec flags vad true true true true true true = Ok (h', SWITCH_STATUS_SUCCESS, codec') →
    codec_session codec'
| session_encode codec n pcm dlen m bits elen status codec' bits' len' :
    codec_session codec → encode_args n pcm dlen m bits elen →
    switch_bcg729_encode codec pcm dlen bits elen = Ok (status, codec', bits', len') → codec_session codec'
| session_decode codec packet n m out dlen status codec' out' len' :
    codec_session codec → decode_args packet n m out dlen →
    switch_bcg729_decode codec packet n out dlen = Ok (status, codec', out', len') → codec_session codec'.

Lemma session_ok codec : codec_session codec → codec_ok codec.
Proof.
  induction 1 as [FE FD h codec flags vad h' codec' E|codec n pcm dlen m bits elen status codec' bits' len' _ IH Ha E|
    codec packet n m out dlen status codec' out' len' _ IH Ha E].
  - by eapply created_ok.
  - pose proof (encode_keeps codec n pcm dlen m bits elen IH Ha) as H. rewrite E in H. apply H.
  - pose proof (decode_keeps codec packet n m out dlen IH Ha) as H. rewrite E in H. apply H.
Qed.

(** C7: the codec is memory safe for as long as it lives: in every state a codec reaches from its
    creation by encode and decode calls in any order, on any samples and any packets, an encode
    call writes only inside the output and reports a length within the capacity, a decode call
    likewise, and neither reads or writes out of bounds or follows a NULL pointer; the decoder
    can only fault on its tilt division, the encoder on a division, a shift count, an unset index
    or a loop that does not end. *)
Theorem session_safe codec : codec_session codec →
  (∀ n pcm dlen m bits elen, encode_args n pcm dlen m bits elen →
    wp sid_fault (switch_bcg729_encode codec pcm dlen bits elen)
      (λ '(status, codec', bits', len'), codec_ok codec' ∧ arr u8r m bits' ∧ 0 ≤ len' ≤ elen)) ∧
  (∀ packet n m out dlen, decode_args packet n m out dlen →
    wp only_div (switch_bcg729_decode codec packet n out dlen)
      (λ '(status, codec', out', len'), codec_ok codec' ∧ arr i16r m out' ∧ 0 ≤ len' ≤ dlen)).
Proof.
  intros H. apply session_ok in H. split.
  - intros n pcm dlen m bits elen. by apply encode_keeps.
  - intros packet n m out dlen. by apply decode_keeps.
Qed.

End Session.

Lemma zeros15 : arr u16r 15 (zeros 15).
Proof. by apply arr_zeros. Qed.

Lemma session_safe_witness : ∃ h' codec,
  switch_bcg729_init 1 2 (Heap 5 [4; 2]) (SwitchCodec None None) 3 1 true true true true true true =
    Ok (h', SWITCH_STATUS_SUCCESS, codec) ∧
  (∀ n pcm dlen m bits elen, encode_args n pcm dlen m bits elen →
    wp sid_fault (switch_bcg729_encode codec pcm dlen bits elen)
      (λ '(status, codec', bits', len'), codec_ok codec' ∧ arr u8r m bits' ∧ 0 ≤ len' ≤ elen)) ∧
  (∀ packet n m out dlen, decode_args packet n m out dlen →
    wp only_div (@switch_bcg729_decode _ _ (channelDecoder (zeros 15) zeros15) codec packet n out dlen)
      (λ '(status, codec', out', len'), codec_ok codec' ∧ arr i16r m out' ∧ 0 ≤ len' ≤ dlen)).
Proof.
  assert (∃ r, switch_bcg729_init 1 2 (Heap 5 [4; 2]) (SwitchCodec None None) 3 1 true true true true true true =
    Ok (r.1, SWITCH_STATUS_SUCCESS, r.2)) as [[h' codec] E] by (eexists (_, _); vm_compute; reflexivity).
  exists h', codec. split; [exact E|].
  exact (session_safe (zeros 15) zeros15 codec (session_init (zeros 15) zeros15 1 2 _ _ 3 1 h' codec E)).
Defined.
