(* ===== verification/PropsCall.v ===== *)
(** A call: the codec of one party encodes packets, the codec of the other decodes them. What the
    encode handler writes is cut back into the same frames by the decode handler, so that both
    codecs stay in step ([mod_bcg729.c] with [encoder.c] and [decoder.c]). *)

From S2P Require Import Prelude FixedPoint Context Utils Heap Synthesis ComfortNoise Decoder EncContext EncChannel EncDtx Encoder EncSync EncStream.
From S2P Require Import ModBcg729 PropsModule PropsFrame PropsSession.

(** ** The frames of a packet *)

(** The packet holds from the offset [off] the frames of the given sizes that take the encoder from
    [c] to [c']. *)
Inductive packet_frames (packet : list Z) : Enc.ctx → Z → list Z → Enc.ctx → Prop :=
| packet_frames_nil c off : packet_frames packet c off [] c
| packet_frames_cons c c1 c' off len sizes b b' :
    encodes c c1 b b' len → read_block packet off len = Ok (take (Z.to_nat len) b') →
    packet_frames packet c1 (off + len) sizes c' → packet_frames packet c off (len :: sizes) c'.

Lemma packet_frames_none packet c off c' : packet_frames packet c off [] c' → c' = c.
Proof. by inversion 1. Qed.

Lemma read_block_agree {A} (a b : list A) off n : zlen a = zlen b → 0 ≤ off → 0 ≤ n →
  (∀ i, (i < Z.to_nat (off + n))%nat → a !! i = b !! i) → read_block a off n = read_block b off n.
Proof.
  intros Hl H0 Hn Hab. unfold read_block. rewrite Hl. destruct (_ && _) eqn:E; [|done]. f_equal. apply list_eq. intros i.
  destruct (decide (i < Z.to_nat n)%nat); [|by rewrite !lookup_take_ge by lia].
  rewrite !lookup_take_lt, !lookup_drop by done. apply Hab. lia.
Qed.

Lemma read_block_written {A} (a b a' : list A) off n : write_block a off b = Ok a' → 0 ≤ n ≤ zlen b →
  read_block a' off n = Ok (take (Z.to_nat n) b).
Proof.
  unfold write_block. destruct (_ && _) eqn:E; [|done]. intros [= <-] Hn. unfold read_block, zlen in *. rewrite length_inserts.
  destruct (_ && _ && _) eqn:E2; [|lia]. f_equal. apply list_eq. intros i.
  destruct (decide (i < Z.to_nat n)%nat); [|by rewrite !lookup_take_ge by lia].
  rewrite !lookup_take_lt, lookup_drop, list_lookup_inserts by lia. f_equal. lia.
Qed.

Lemma channelEncodeFrame_inv e pcm poff bits off e' bits' len :
  channelEncodeFrame e pcm poff bits off = Ok (e', bits', len) →
  ∃ b b', read_block bits off 10 = Ok b ∧ bcg729Encoder (enc_context e) pcm poff b = Ok (enc_context e', b', len) ∧
    write_block bits off b' = Ok bits'.
Proof.
  unfold channelEncodeFrame, BCG729_BYTES_PER_FRAME. destruct (read_block bits off 10) as [b|] eqn:Er; [|done]. cbn [bind].
  destruct (bcg729Encoder (enc_context e) pcm poff b) as [[[c b'] l]|] eqn:Ee; [|done]. cbn [bind].
  destruct (write_block bits off b') as [bits2|] eqn:Ew; [|done]. cbn [bind]. intros [= <- <- <-].
  exists b, b'. split_and!; [reflexivity|exact Ee|exact Ew].
Qed.

Lemma encodeFrames_frames n pcm m elen count e bits k off e' bits' sizes :
  encoder_wf (enc_context e) → arr i16r n pcm → arr u8r m bits → elen ≤ m →
  0 ≤ k → 80 * (k + Z.of_nat count) ≤ n → 0 ≤ off →
  encodeFrames e pcm bits k off elen count = Ok (e', bits', sizes) →
  packet_frames bits' (enc_context e) off sizes (enc_context e') ∧ arr u8r m bits' ∧
  ∀ i, (i < Z.to_nat off)%nat → bits' !! i = bits !! i.
Proof.
  intros He Hp Hb Hm Hk Hn Ho. revert e bits k off He Hb Hk Hn Ho sizes.
  induction count as [|count IH]; intros e bits k off He Hb Hk Hn Ho sizes; cbn [encodeFrames].
  { intros [= <- <- <-]. split; [constructor|done]. }
  destruct (Z.ltb_spec elen (off + 10)); [intros [= <- <- <-]; split; [constructor|done]|].
  pose proof (encodeFrame_safe e n pcm (80 * k) m bits off He Hp ltac:(lia) ltac:(lia) Hb ltac:(lia) ltac:(lia)) as HS.
  destruct (encodeFrame e pcm (80 * k) bits off) as [[[e1 b1] sz]|] eqn:E1; [|done]. cbn [wp] in HS.
  destruct HS as (He1 & Hb1 & Hsz & Hsame). apply channelEncodeFrame_inv in E1 as (b & b' & Er & Ee & Ew).
  cbn [bind]. destruct (encodeFrames e1 pcm b1 (k + 1) (off + sz) elen count) as [[[e2 b2] sizes2]|] eqn:E2; [|done].
  cbn [bind]. intros [= <- <- <-].
  destruct (IH e1 b1 (k + 1) (off + sz) He1 Hb1 ltac:(lia) ltac:(lia) ltac:(lia) sizes2 E2) as (HF & Hb2 & Hpre).
  assert (arr u8r 10 b) as Hbb.
  { pose proof (wp_read_block any_fault u8r m bits off 10 (arr u8r 10) Hb ltac:(lia) ltac:(lia) ltac:(lia) (λ _ H, H)) as H1.
    by rewrite Er in H1. }
  assert (encodes (enc_context e) (enc_context e1) b b' sz) as HE by (exists n, pcm, (80 * k); split_and!; (done || lia)).
  destruct (encodes_frame _ _ _ _ _ He HE) as (_ & [Lb' _] & _ & _). split; [|split; [done|]].
  - apply (packet_frames_cons _ _ (enc_context e1) _ _ _ _ b b' HE); [|done].
    rewrite <-(read_block_written bits b' b1 off sz Ew) by lia. apply read_block_agree; [by rewrite (proj1 Hb2), (proj1 Hb1)|lia|lia|done].
  - intros i Hi. rewrite Hpre by lia. apply Hsame. lia.
Qed.

(** Without a detector every frame is speech, and the encoder stays without one. *)
Lemma packet_frames_speech packet c off sizes c' : packet_frames packet c off sizes c' → encoder_wf c →
  Enc.VADChannelContext c = None → sizes = replicate (length sizes) 10 ∧ Enc.VADChannelContext c' = None.
Proof.
  induction 1 as [c off|c c1 c' off len sizes b b' HE _ _ IH]; intros Hc HV; [done|].
  destruct (encodes_frame c c1 b b' len Hc HE) as (Hc1 & _ & _ & Hres).
  destruct Hres as [(-> & _ & _ & HV1)|(_ & [v Ev] & _)]; [|by rewrite HV in Ev].
  destruct (IH Hc1 (HV1 HV)) as [Es HV']. split; [|done]. cbn [length replicate]. by f_equal.
Qed.

(** ** Both parties *)

Section Call.
Context (uninit : list Z) (Huninit : arr u16r 15 uninit).
#[local] Existing Instance channelEncoder.
#[local] Instance callDecoder : FrameDecoder decoderChannel := channelDecoder uninit Huninit.

(** A frame that reaches the decoder through the module. *)
Lemma channelDecodeFrame_receives d b len er sid m out off d' out' bits :
  arr i16r m out → 0 ≤ off → off + 80 ≤ m →
  (len = 10 ∧ b = Some bits ∧ er = 0 ∧ sid = 0 ∨ len = 2 ∧ b = Some (take 2 bits) ∧ er = 0 ∧ sid = 1 ∨
   len = 0 ∧ b = None ∧ er = 1 ∧ sid = 0) →
  channelDecodeFrame uninit d b len er sid out off = Ok (d', out') → receives (dec_context d) (dec_context d') bits len.
Proof.
  intros Ho H0 Hm Hb. unfold channelDecodeFrame.
  destruct (bcg729Decoder (dec_context d) uninit b len er sid 0 out off) as [[c o]|] eqn:E; [|done]. cbn [bind].
  intros [= <- <-]. exists uninit, m, out, off, o. split_and!; try done. unfold receiveFrame.
  destruct Hb as [(-> & -> & -> & ->)|[(-> & -> & -> & ->)|(-> & -> & -> & ->)]]; exact E.
Qed.

Lemma decodeFrame_out d b len er sid m out off d' out' : Dec.wf (dec_context d) → frame_args_ok b len er sid 0 →
  arr i16r m out → 0 ≤ off → off + 80 ≤ m → decodeFrame d b len er sid out off = Ok (d', out') → arr i16r m out'.
Proof.
  intros Hd Hb Ho H0 Hm E.
  assert (wp only_div (decodeFrame d b len er sid out off) (λ '(d', out'), decoder_ok d' ∧ arr i16r m out')) as H
    by (by apply decodeFrame_safe). rewrite E in H. apply H.
Qed.

(** The decoder of the frames of a packet of speech. *)
Lemma decodeFrames_stream packet m c off sizes c' : packet_frames packet c off sizes c' →
  ∀ d out j k d' out', Forall (eq 10) sizes → lossy_stream j c (dec_context d) → arr i16r m out → 0 ≤ k →
  80 * (k + Z.of_nat (length sizes)) ≤ m →
  decodeFrames d packet out k (layout off sizes) = Ok (d', out') → lossy_stream (j + length sizes) c' (dec_context d').
Proof.
  induction 1 as [c off|c c1 c' off len sizes b b' HE ER _ IH]; intros d out j k d' out' Hs HS Ho Hk Hm.
  { cbn. rewrite Nat.add_0_r. by intros [= <- <-]. }
  apply Forall_cons in Hs as [<- Hs]. cbn [layout decodeFrames]. change (10 =? 10) with true. cbv iota. cbn [length] in Hm.
  destruct (lossy_invariant j c (dec_context d) HS) as (Hc & Hd & _).
  destruct (encodes_frame c c1 b b' 10 Hc HE) as (_ & Hb' & _ & _).
  rewrite ER. cbn [bind]. rewrite take_ge by (destruct Hb' as [Lb _]; unfold zlen in Lb; lia).
  destruct (decodeFrame d (Some b') 10 0 0 out (80 * k)) as [[d1 o1]|] eqn:E1; [|done]. cbn [bind].
  cbn [length]. replace (j + S (length sizes))%nat with (S j + length sizes)%nat by lia. apply IH; [done| | |lia|lia].
  - apply (lossy_stream_frame j c (dec_context d) c1 (dec_context d1) b b' 10 false HS HE); [by intros|].
    apply (channelDecodeFrame_receives d (Some b') 10 0 0 m out (80 * k) d1 o1 b' Ho); [lia|lia|by left|exact E1].
  - apply (decodeFrame_out d (Some b') 10 0 0 m out (80 * k) d1 o1 Hd); [by left|done|lia|lia|exact E1].
Qed.

(** A single frame of any kind: nothing is concealed, two bytes are a descriptor. *)
Lemma singleFrame_stream (codec : switch_codec decoderChannel encoderChannel) context packet m c len c' d out st codec' out' olen j r :
  private_info codec = Some context → decoder_object context = Some d → packet_frames packet c 0 [len] c' →
  (r = heard j false len ∧
   (∀ b b', encodes c c' b b' len → read_block packet 0 len = Ok (take (Z.to_nat len) b') → len = 2 → index_kept c c' b b') ∨
   r = 0%nat ∧ len = 2) →
  lossy_stream j c (dec_context d) → arr i16r m out → 160 ≤ 2 * m →
  switch_bcg729_decode codec packet len out 160 = Ok (st, codec', out', olen) →
  st = SWITCH_STATUS_SUCCESS ∧ olen = 160 ∧ ∃ d', codec' = set_decoder codec context d' ∧ lossy_stream r c' (dec_context d').
Proof.
  intros Hcx Hdx HF Hr HS Ho Hm. inversion HF as [|? c1 ? ? ? ? b b' HE ER HF' ]; subst. inversion HF'; subst. clear HF HF'.
  destruct (lossy_invariant j c (dec_context d) HS) as (Hc & Hd & _).
  destruct (encodes_frame c c' b b' len Hc HE) as (_ & Hb' & _ & Hres).
  assert (∀ d1 sid bb o1, (len = 10 ∧ bb = Some b' ∧ sid = 0 ∨ len = 2 ∧ bb = Some (take 2 b') ∧ sid = 1 ∨ len = 0 ∧ bb = None ∧ sid = 0) →
    decodeFrame d bb len (if len =? 0 then 1 else 0) sid out 0 = Ok (d1, o1) → lossy_stream r c' (dec_context d1)) as Hstep.
  { intros d1 sid bb o1 Hk E1. assert (receives (dec_context d) (dec_context d1) b' len) as HR.
    2:{ destruct Hr as [[-> Hidx]|[-> ->]].
        - apply (lossy_stream_frame j c (dec_context d) c' (dec_context d1) b b' len false HS HE); [by intros; apply Hidx|done].
        - by apply (lossy_stream_altered j c (dec_context d) c' (dec_context d1) b b' HS HE). }
    apply (channelDecodeFrame_receives d bb len (if len =? 0 then 1 else 0) sid m out 0 d1 o1 b' Ho); [lia|lia| |exact E1].
    destruct Hk as [(-> & -> & ->)|[(-> & -> & ->)|(-> & -> & ->)]]; [left|right; left|right; right]; done. }
  assert (len = 10 ∨ len = 2 ∨ len = 0) as Hlen by (destruct Hres as [[-> _]|[[|] _]]; auto).
  destruct (Z.eq_dec len 0) as [->|Hnz].
  - rewrite (decode_empty_run codec context d) by (done || lia). change (Z.to_nat (160 / 160)) with 1%nat. cbn [concealFrames].
    rewrite Z.mul_0_r. destruct (decodeFrame d None 0 1 0 out 0) as [[d1 o1]|] eqn:E1; [|done]. cbn [bind].
    intros [= <- <- <- <-]. split_and!; [done|done|]. exists d1. split; [done|]. apply (Hstep d1 0 None o1); [auto|exact E1].
  - assert (packetFrames len = [(0, len, if len =? 10 then 0 else 1)]) as EF by (destruct Hlen as [->|[->|?]]; [reflexivity..|done]).
    rewrite (decode_packet_run codec context d) by (done || lia). cbv zeta. rewrite EF. cbn [length].
    destruct (decide _); [|lia]. cbn [decodeFrames]. rewrite ER. cbn [bind]. rewrite Z.mul_0_r.
    destruct (decodeFrame d _ len 0 _ out 0) as [[d1 o1]|] eqn:E1; [|done]. cbn [bind].
    intros [= <- <- <- <-]. split_and!; [done|done|]. exists d1. split; [done|].
    destruct Hlen as [->|[->|?]]; [| |done].
    + rewrite take_ge in E1 by (destruct Hb' as [Lb _]; unfold zlen in Lb; lia). apply (Hstep d1 0 (Some b') o1); [auto|exact E1].
    + apply (Hstep d1 1 (Some (take 2 b')) o1); [auto|exact E1].
Qed.

(** Frames that are lost are concealed, one for one. *)
Lemma concealFrames_stream packet m c off sizes c' : packet_frames packet c off sizes c' →
  ∀ d out j k d' out', lossy_stream j c (dec_context d) → arr i16r m out → 0 ≤ k →
  80 * (k + Z.of_nat (length sizes)) ≤ m →
  concealFrames d out k (length sizes) = Ok (d', out') →
  lossy_stream (match sizes with [] => j | _ => 0%nat end) c' (dec_context d').
Proof.
  induction 1 as [c off|c c1 c' off len sizes b b' HE _ _ IH]; intros d out j k d' out' HS Ho Hk Hm.
  { cbn. by intros [= <- <-]. }
  cbn [length concealFrames] in *. destruct (lossy_invariant j c (dec_context d) HS) as (Hc & Hd & _).
  destruct (decodeFrame d None 0 1 0 out (80 * k)) as [[d1 o1]|] eqn:E1; [|done]. cbn [bind]. intros E2.
  assert (lossy_stream 0 c1 (dec_context d1)) as HS1.
  { apply (lossy_stream_frame j c (dec_context d) c1 (dec_context d1) b b' len true HS HE); [done|].
    apply (channelDecodeFrame_receives d None 0 1 0 m out (80 * k) d1 o1 b' Ho); [lia|lia|by right; right|exact E1]. }
  assert (arr i16r m o1) as Ho1 by (apply (decodeFrame_out d None 0 1 0 m out (80 * k) d1 o1 Hd); [done|done|lia|lia|exact E1]).
  pose proof (IH d1 o1 0%nat (k + 1) d' out' HS1 Ho1 ltac:(lia) ltac:(lia) E2) as H. by destruct sizes.
Qed.

(** The parties of a call: the codec that encodes and the codec that decodes. *)
Definition codecs : Type := switch_codec decoderChannel encoderChannel.
Definition encoderOf (codec : codecs) : option encoderChannel := private_info codec ≫= encoder_object.
Definition decoderOf (codec : codecs) : option decoderChannel := private_info codec ≫= decoder_object.

(** What a packet can carry: any number of frames when the encoder has no detector, otherwise one
    frame. *)
Definition carried (c : Enc.ctx) (dlen : Z) : Prop := Enc.VADChannelContext c = None ∨ dlen = 160.

(** The packet is not a descriptor whose L2 index the packing alters. *)
Definition descriptor_kept (A A' : codecs) (packet : list Z) (len : Z) : Prop :=
  ∀ e e' b b', encoderOf A = Some e → encoderOf A' = Some e' → len = 2 → encodes (enc_context e) (enc_context e') b b' 2 →
    take 2 packet = take 2 b' → index_kept (enc_context e) (enc_context e') b b'.

(** A packet of [len] bytes, of [dlen] bytes of samples, goes from [A] to [B], which has room for as
    many samples; [st] and [olen] are what the decode handler reports. *)
Definition delivers (A B : codecs) (packet : list Z) (dlen len : Z) (st : switch_status) (olen : Z) (A' B' : codecs) : Prop :=
  ∃ n pcm m bits elen mo out out',
    encode_args n pcm dlen m bits elen ∧ dlen mod 160 = 0 ∧
    switch_bcg729_encode A pcm dlen bits elen = Ok (SWITCH_STATUS_SUCCESS, A', packet, len) ∧
    (∀ e, encoderOf A = Some e → carried (enc_context e) dlen) ∧
    decode_args packet len mo out dlen ∧
    switch_bcg729_decode B packet len out dlen = Ok (st, B', out', olen).

(** A packet of at least one frame is lost: [B] conceals it. *)
Definition misses (A B : codecs) (dlen : Z) (st : switch_status) (olen : Z) (A' B' : codecs) : Prop :=
  ∃ n pcm m bits elen packet len mo out out',
    encode_args n pcm dlen m bits elen ∧ dlen mod 160 = 0 ∧ 0 < dlen ∧
    switch_bcg729_encode A pcm dlen bits elen = Ok (SWITCH_STATUS_SUCCESS, A', packet, len) ∧
    decode_args [] 0 mo out dlen ∧
    switch_bcg729_decode B [] 0 out dlen = Ok (st, B', out', olen).

(** The speech frames heard in a row after a packet. *)
Definition heardPacket (k : nat) (dlen len : Z) : nat :=
  if dlen =? 160 then heard k false len else (k + Z.to_nat (dlen / 160))%nat.

(** A call after which the decoding party has heard [k] speech frames in a row since the last loss;
    a descriptor that the packing alters counts as a loss. *)
Inductive call : nat → codecs → codecs → Prop :=
| call_init FE FD h1 h2 A B flags1 flags2 vad1 vad2 h1' h2' A' B' :
    Z.land flags1 FE ≠ 0 → Z.land flags2 FD ≠ 0 →
    switch_bcg729_init FE FD h1 A flags1 vad1 true true true true true true = Ok (h1', SWITCH_STATUS_SUCCESS, A') →
    switch_bcg729_init FE FD h2 B flags2 vad2 true true true true true true = Ok (h2', SWITCH_STATUS_SUCCESS, B') →
    call 4 A' B'
| call_packet k A B packet dlen len st olen A' B' :
    call k A B → delivers A B packet dlen len st olen A' B' → descriptor_kept A A' packet len →
    call (heardPacket k dlen len) A' B'
| call_altered k A B packet dlen st olen A' B' :
    call k A B → delivers A B packet dlen 2 st olen A' B' → call 0 A' B'
| call_lost k A B dlen st olen A' B' :
    call k A B → misses A B dlen st olen A' B' → call 0 A' B'.

(** The channels a codec is created with. *)
Lemma init_encoder FE FD h codec flags vad h' codec' : Z.land flags FE ≠ 0 →
  switch_bcg729_init FE FD h codec flags vad true true true true true true = Ok (h', SWITCH_STATUS_SUCCESS, codec') →
  ∃ v h1 e, initBcg729EncoderChannel h true true true v = Ok (h1, e) ∧ encoderOf codec' = Some e.
Proof.
  intros Hf. unfold switch_bcg729_init. destruct (Z.eqb_spec (Z.land flags FE) 0); [done|]. cbn [negb orb]. cbv zeta.
  set (v := if negb (vad =? 0) then 1 else 0).
  destruct (initBcg729EncoderChannel h true true true v) as [[h1 e]|] eqn:Ee; [|done]. cbn [bind is_null andb].
  destruct (negb (Z.land flags FD =? 0)).
  - destruct (initBcg729DecoderChannel h1 true true) as [[h2 d]|]; [|done]. cbn [bind is_null andb]. intros [= _ <-]. by exists v, h1, e.
  - cbn [bind andb]. intros [= _ <-]. by exists v, h1, e.
Qed.

Lemma init_decoder FE FD h codec flags vad h' codec' : Z.land flags FD ≠ 0 →
  switch_bcg729_init FE FD h codec flags vad true true true true true true = Ok (h', SWITCH_STATUS_SUCCESS, codec') →
  ∃ h1 h2 d, initBcg729DecoderChannel h1 true true = Ok (h2, d) ∧ decoderOf codec' = Some d.
Proof.
  intros Hf. unfold switch_bcg729_init. destruct (Z.eqb_spec (Z.land flags FD) 0); [done|].
  destruct (negb (_ || _) || _); [done|]. cbv zeta. cbn [negb].
  destruct (if negb (Z.land flags FE =? 0) then _ else _) as [[h1 oe]|]; [|done]. cbn [bind].
  destruct (_ && is_null oe); [done|].
  destruct (initBcg729DecoderChannel h1 true true) as [[h2 d]|] eqn:Ed; [|done]. cbn [bind is_null andb]. intros [= _ <-]. by exists h1, h2, d.
Qed.

Lemma encoderOf_inv codec e : encoderOf codec = Some e → ∃ context, private_info codec = Some context ∧ encoder_object context = Some e.
Proof. unfold encoderOf. destruct (private_info codec) as [x|]; [|done]. by exists x. Qed.

Lemma decoderOf_inv codec d : decoderOf codec = Some d → ∃ context, private_info codec = Some context ∧ decoder_object context = Some d.
Proof. unfold decoderOf. destruct (private_info codec) as [x|]; [|done]. by exists x. Qed.

(** The frames of the packet an encoder leaves. *)
Lemma encode_success A e n pcm dlen m bits elen A' packet len : encoderOf A = Some e → encoder_wf (enc_context e) →
  encode_args n pcm dlen m bits elen → dlen mod 160 = 0 →
  switch_bcg729_encode A pcm dlen bits elen = Ok (SWITCH_STATUS_SUCCESS, A', packet, len) →
  ∃ e' sizes, encoderOf A' = Some e' ∧ packet_frames packet (enc_context e) 0 sizes (enc_context e') ∧
    len = totalSize sizes ∧ Z.of_nat (length sizes) = dlen / 160.
Proof.
  intros He Hwf (Hp & Hd & Hd2 & Hb & Hel & Hel2) Hmod. apply encoderOf_inv in He as (context & Hc & Hx).
  rewrite (encode_frames_run A context e n pcm dlen m bits elen) by done.
  destruct (encodeFrames e pcm bits 0 0 elen (Z.to_nat (dlen / 160))) as [[[e' b'] sizes]|] eqn:EF; [|done]. cbn [bind].
  destruct (decide _) as [Hl|]; [|done]. intros [= <- <- <-]. exists e', sizes. split; [done|]. split; [|done].
  assert (0 ≤ dlen / 160) by (apply Z.div_pos; lia). assert (80 * (dlen / 160) ≤ n) by divmod.
  apply (encodeFrames_frames n pcm m elen (Z.to_nat (dlen / 160)) e bits 0 0 e' b' sizes Hwf Hp Hb); (done || lia).
Qed.

Lemma totalSize_speech k : totalSize (replicate k 10) = 10 * Z.of_nat k.
Proof. pose proof (totalSize_replicate 10 0 k 0) as E. cbn [replicate] in E. rewrite app_nil_r in E. lia. Qed.

(** A packet of speech. *)
Lemma speech_step (B : codecs) context d packet sizes out mo dlen st B' out' olen j c c' :
  private_info B = Some context → decoder_object context = Some d → packet_frames packet c 0 sizes c' →
  sizes = replicate (length sizes) 10 → Z.of_nat (length sizes) = dlen / 160 → dlen mod 160 = 0 →
  lossy_stream j c (dec_context d) → 0 ≤ totalSize sizes < 4294967296 →
  arr i16r mo out → 0 ≤ dlen ≤ 2 * mo → dlen + 160 < 4294967296 →
  switch_bcg729_decode B packet (totalSize sizes) out dlen = Ok (st, B', out', olen) →
  st = SWITCH_STATUS_SUCCESS ∧ olen = dlen ∧
  ∃ d', decoderOf B' = Some d' ∧ lossy_stream (j + Z.to_nat (dlen / 160)) c' (dec_context d').
Proof.
  intros Hcx Hdx HF Es Hlen Hmod HS Ht Ho Hdl Hdl2. rewrite <-Hlen, Nat2Z.id. set (k := length sizes) in *.
  assert (totalSize sizes = 10 * Z.of_nat k) as Et by (rewrite Es; apply totalSize_speech).
  assert (dlen = 160 * Z.of_nat k) as Ed by (rewrite Hlen; divmod).
  destruct (Nat.eq_dec k 0) as [Hz|Hz].
  - rewrite Et, Hz, (decode_empty_run B context d) by (done || lia). rewrite Ed, Hz. intros [= <- <- <- <-].
    split_and!; [done|done|]. exists d. split; [done|]. rewrite Nat.add_0_r.
    unfold k in Hz. destruct sizes; [|done]. by rewrite (packet_frames_none _ _ _ _ HF).
  - assert (packetFrames (totalSize sizes) = layout 0 sizes) as EL.
    { apply packetFrames_layout. exists k, 0%nat. split; [lia|]. by rewrite app_nil_r. }
    rewrite (decode_packet_run B context d) by (done || lia). cbv zeta. rewrite EL, layout_length. fold k.
    destruct (decide _); [|lia]. destruct (decodeFrames d packet out 0 (layout 0 sizes)) as [[d1 o1]|] eqn:EF; [|done].
    cbn [bind]. intros [= <- <- <- <-]. split_and!; [done|lia|]. exists d1. split; [done|].
    assert (Forall (eq 10) sizes) as HA by (rewrite Es; by apply Forall_replicate).
    apply (decodeFrames_stream packet mo _ 0 sizes _ HF d out j 0 d1 o1 HA HS Ho); [lia|fold k; lia|exact EF].
Qed.

(** One packet. *)
Lemma delivers_step A B packet dlen len st olen A' B' e d j r : encoderOf A = Some e → decoderOf B = Some d →
  lossy_stream j (enc_context e) (dec_context d) → delivers A B packet dlen len st olen A' B' →
  r = heardPacket j dlen len ∧ descriptor_kept A A' packet len ∨ r = 0%nat ∧ len = 2 →
  st = SWITCH_STATUS_SUCCESS ∧ olen = dlen ∧
  ∃ e' d', encoderOf A' = Some e' ∧ decoderOf B' = Some d' ∧
    lossy_stream r (enc_context e') (dec_context d').
Proof.
  intros He Hd HS (n & pcm & m & bits & elen & mo & out & out' & Hargs & Hmod & EE & Hcar & HD & ED) Hr.
  destruct (lossy_invariant _ _ _ HS) as (Hwe & Hwd & _).
  destruct (encode_success A e n pcm dlen m bits elen A' packet len He Hwe Hargs Hmod EE) as (e' & sizes & He' & HF & -> & Hlen).
  specialize (Hcar e He). apply decoderOf_inv in Hd as (context & Hcx & Hdx).
  destruct HD as (Hpk & Hpl & Hpl2 & Ho & Hdl & Hdl2). unfold heardPacket in Hr.
  destruct Hcar as [HV| ->].
  - destruct (packet_frames_speech _ _ _ _ _ HF Hwe HV) as [Es _].
    destruct (speech_step B context d packet sizes out mo dlen st B' out' olen j _ _ Hcx Hdx HF Es Hlen Hmod HS) as (-> & -> & d' & Hd' & HS');
      [lia|done|done|done|exact ED|]. split_and!; [done|done|]. exists e', d'. split_and!; [done|done|].
    destruct Hr as [[-> _]|[_ Hr]]; [|rewrite Es, totalSize_speech in Hr; lia].
    destruct (Z.eqb_spec dlen 160) as [->|]; [|done]. change (160 / 160) with 1 in *. rewrite Es.
    replace (length sizes) with 1%nat by lia. change (heard j false (totalSize (replicate 1 10))) with (S j).
    by replace (S j) with (j + Z.to_nat 1)%nat by lia.
  - change (160 / 160) with 1 in Hlen. destruct sizes as [|len [|]]; cbn [length] in Hlen; [lia| |lia].
    replace (totalSize [len]) with len in * by (cbn; lia).
    destruct (singleFrame_stream B context packet mo (enc_context e) len (enc_context e') d out st B' out' olen j r)
      as (-> & -> & d1 & -> & HS'); [done|done|done| |done|done|lia|exact ED|].
    + destruct Hr as [[-> Hk]|[-> ->]]; [left|by right]. split; [done|]. intros b b' HE ER ->.
      apply (Hk e e'); try done. rewrite read_block_prefix in ER by lia. by injection ER.
    + split_and!; [done|done|]. by exists e', d1.
Qed.

(** A packet lost. *)
Lemma misses_step A B dlen st olen A' B' e d j : encoderOf A = Some e → decoderOf B = Some d →
  lossy_stream j (enc_context e) (dec_context d) → misses A B dlen st olen A' B' →
  st = SWITCH_STATUS_SUCCESS ∧ olen = dlen ∧
  ∃ e' d', encoderOf A' = Some e' ∧ decoderOf B' = Some d' ∧ lossy_stream 0 (enc_context e') (dec_context d').
Proof.
  intros He Hd HS (n & pcm & m & bits & elen & packet & len & mo & out & out' & Hargs & Hmod & Hpos & EE & HD & ED).
  destruct (lossy_invariant _ _ _ HS) as (Hwe & Hwd & _).
  destruct (encode_success A e n pcm dlen m bits elen A' packet len He Hwe Hargs Hmod EE) as (e' & sizes & He' & HF & -> & Hlen).
  apply decoderOf_inv in Hd as (context & Hcx & Hdx). destruct HD as (_ & _ & _ & Ho & Hdl & Hdl2).
  rewrite (decode_empty_run B context d), <-Hlen, Nat2Z.id in ED by (done || lia).
  destruct (concealFrames d out 0 (length sizes)) as [[d' o']|] eqn:EC; [|done]. cbn [bind] in ED. injection ED as <- <- <- <-.
  assert (dlen = 160 * Z.of_nat (length sizes)) as Ed by (rewrite Hlen; divmod).
  split_and!; [done|done|]. exists e', d'. split_and!; [done|done|].
  pose proof (concealFrames_stream packet mo _ 0 sizes _ HF d out j 0 d' o' HS Ho ltac:(lia) ltac:(lia) EC) as H.
  destruct sizes; [cbn in Ed; lia|exact H].
Qed.

Lemma call_stream k A B : call k A B →
  ∃ e d, encoderOf A = Some e ∧ decoderOf B = Some d ∧ lossy_stream k (enc_context e) (dec_context d).
Proof.
  induction 1 as [FE FD h1 h2 A B flags1 flags2 vad1 vad2 h1' h2' A' B' H1 H2 E1 E2|
    k A B packet dlen len st olen A' B' _ (e & d & He & Hd & HS) HD Hk|k A B packet dlen st olen A' B' _ (e & d & He & Hd & HS) HD|k A B dlen st olen A' B' _ (e & d & He & Hd & HS) HD].
  - destruct (init_encoder _ _ _ _ _ _ _ _ H1 E1) as (v & h3 & e & Ee & He).
    destruct (init_decoder _ _ _ _ _ _ _ _ H2 E2) as (h4 & h5 & d & Ed & Hd). exists e, d. split_and!; [done|done|].
    by apply (lossy_stream_init _ _ _ _ _ _ _ Ee Ed).
  - apply (delivers_step A B packet dlen len st olen A' B' e d k _ He Hd HS HD). by left.
  - apply (delivers_step A B packet dlen 2 st olen A' B' e d k _ He Hd HS HD). by right.
  - by apply (misses_step A B dlen st olen A' B' e d k He Hd HS HD).
Qed.

(** C2: a call stays in step: from the creation of both codecs, through any number of packets that
    one party encodes and the other decodes or, when they are lost, conceals (any packetisation
    without voice activity detection, one frame per packet with it), every packet gives with
    success as many samples as were encoded, and the predictors and noise generators of the two
    parties agree whenever four speech frames in a row were heard since the last loss. With voice activity
    detection a received descriptor whose L2 index is 12 or more, which the packing alters (the
    remainder by 3 of dtx.c), counts as a loss: the decoder then rebuilds another spectrum, and the
    agreement is claimed again after the next four speech frames. *)
Theorem call_in_step k A B : call k A B →
  ((4 ≤ k)%nat → ∃ e d, encoderOf A = Some e ∧ decoderOf B = Some d ∧ in_step (enc_context e) (dec_context d)) ∧
  (∀ packet dlen len st olen A' B', delivers A B packet dlen len st olen A' B' → st = SWITCH_STATUS_SUCCESS ∧ olen = dlen) ∧
  (∀ dlen st olen A' B', misses A B dlen st olen A' B' → st = SWITCH_STATUS_SUCCESS ∧ olen = dlen).
Proof.
  intros (e & d & He & Hd & HS)%call_stream. split_and!.
  - intros Hk. exists e, d. split_and!; [done|done|]. destruct (lossy_invariant _ _ _ HS) as ([Hc _] & Hwd & HI).
    by apply (partly_in_step_all k).
  - intros packet dlen len st olen A' B' HD.
    destruct (delivers_step A B packet dlen len st olen A' B' e d k (if decide (len = 2) then 0%nat else heardPacket k dlen len) He Hd HS HD)
      as (? & ? & _); [|done]. destruct (decide (len = 2)); [by right|left]. split; [done|]. by intros ? ? ? ? ? ? ?.
  - intros dlen st olen A' B' HD. by destruct (misses_step A B dlen st olen A' B' e d k He Hd HS HD) as (? & ? & _).
Qed.

End Call.

(** A packet of two frames, from a party that only encodes to one that only decodes. *)
Lemma call_in_step_witness : ∃ h1 h2 A B A' B' packet out,
  switch_bcg729_init 1 2 (Heap 1 []) (SwitchCodec None None) 1 0 true true true true true true = Ok (h1, SWITCH_STATUS_SUCCESS, A) ∧
  switch_bcg729_init 1 2 (Heap 1 []) (SwitchCodec None None) 2 0 true true true true true true = Ok (h2, SWITCH_STATUS_SUCCESS, B) ∧
  switch_bcg729_encode A (tone ++ tone) 320 (zeros 20) 20 = Ok (SWITCH_STATUS_SUCCESS, A', packet, 20) ∧
  @switch_bcg729_decode _ _ (channelDecoder (zeros 15) zeros15) B packet 20 (zeros 160) 320 = Ok (SWITCH_STATUS_SUCCESS, B', out, 320) ∧
  ∃ e d, encoderOf A' = Some e ∧ decoderOf B' = Some d ∧ in_step (enc_context e) (dec_context d).
Proof.
  assert (∃ h1 h2 A B A' B' packet out,
    switch_bcg729_init 1 2 (Heap 1 []) (SwitchCodec None None) 1 0 true true true true true true = Ok (h1, SWITCH_STATUS_SUCCESS, A) ∧
    switch_bcg729_init 1 2 (Heap 1 []) (SwitchCodec None None) 2 0 true true true true true true = Ok (h2, SWITCH_STATUS_SUCCESS, B) ∧
    switch_bcg729_encode A (tone ++ tone) 320 (zeros 20) 20 = Ok (SWITCH_STATUS_SUCCESS, A', packet, 20) ∧
    @switch_bcg729_decode _ _ (channelDecoder (zeros 15) zeros15) B packet 20 (zeros 160) 320 = Ok (SWITCH_STATUS_SUCCESS, B', out, 320) ∧
    ((λ e, Enc.VADChannelContext (enc_context e)) <$> encoderOf A) = Some None ∧
    arrb (rngb 0 255) 20 packet = true)
    as (h1 & h2 & A & B & A' & B' & packet & out & EA & EB & EE & ED & EV & EP).
  { do 8 eexists. split; [vm_compute; reflexivity|]. do 4 (split; [vm_compute; reflexivity|]). vm_compute; reflexivity. }
  exists h1, h2, A, B, A', B', packet, out. split_and!; [exact EA|exact EB|exact EE|exact ED|].
  apply arr_rng_by in EP as [EL HP].
  assert (call (zeros 15) zeros15 4 A B) as H0 by (apply (call_init _ _ 1 2 _ _ _ _ 1 2 0 0 _ _ _ _ ltac:(done) ltac:(done) EA EB)).
  apply (call_in_step (zeros 15) zeros15 6 A' B'); [|lia].
  apply (call_packet _ _ 4 A B packet 320 20 SWITCH_STATUS_SUCCESS 320 A' B' H0); [|by intros ? ? ? ? ? ? ?].
  exists 160, (tone ++ tone), 20, (zeros 20), 20, 160, (zeros 160), out.
  split_and!; [|reflexivity|exact EE| | |exact ED].
  - split_and!; [by apply arr_rng_by|lia|lia|lia|by apply arr_zeros|lia|lia|lia].
  - intros e He. left. rewrite He in EV. by injection EV.
  - split_and!; [done|lia|lia|lia|by apply arr_zeros|lia|lia|lia].
Defined.
